(** * noslated: request dispatch (data plane) and shrink (control plane)

    A shallow embedding of [src/data_plane/worker_broker.ts]
    ([PendingRequest], [Worker], [WorkerBroker]) and of the shrink path of
    the default controller ([doShrink], [mostWhatNWorkers], [shrinkDraw]).

    JavaScript objects that are shared by reference (workers, pending
    requests) live in stores indexed by allocation order; a reference is the
    index.  Every synchronous segment of the source (the code between two
    [await]s, a timer callback, a promise callback) is one function on the
    state, and the environment (delegate, timers, callers) drives the
    broker through [Event]s. *)

From Stdlib Require Import ZArith List String Ascii Bool Lia Permutation Sorted.
From Stdlib Require Import DecimalString.
From stdpp Require Import gmap strings list fin_maps sorting.

Open Scope string_scope.
Open Scope list_scope.
Open Scope Z_scope.

Module DataPlane.

(** ** Enumerations and plain data *)

Inductive RequestQueueStatus := PASS_THROUGH | QUEUEING.
Inductive CredentialStatus := PENDING | BOUND.
Inductive RpcStatus := RESOURCE_EXHAUSTED | DEADLINE_EXCEEDED.
Inductive WorkerStatusReport := ContainerInstalled | RequestDrained.

(** A thrown [Error]; [RpcError] carries a [code].  [queueing] and
    [workerName] are the two fields [Worker.pipe] writes on a failure. *)
Record Error := {
  err_code : option RpcStatus;
  err_message : string;
  err_queueing : option Z;
  err_workerName : option string }.

Definition new_Error (message : string) : Error :=
  {| err_code := None; err_message := message;
     err_queueing := None; err_workerName := None |}.

Definition new_RpcError (message : string) (code : RpcStatus) : Error :=
  {| err_code := Some code; err_message := message;
     err_queueing := None; err_workerName := None |}.

Record Metadata := {
  requestId : string;
  deadline : Z;
  md_debuggerTag : option string }.

(** The payload ([Readable | Buffer]) is opaque to the broker. *)
Definition Input := string.

Record TriggerResponse := {
  resp_body : string;
  resp_queueing : Z;
  resp_workerName : string }.

(** JavaScript truthiness of an optional string ([metadata?.debuggerTag]). *)
Definition truthy (o : option string) : bool :=
  match o with
  | Some t => negb (String.eqb t "")
  | None => false
  end.

(** Decimal rendering of an integer inside a template literal. *)
Definition string_of_Z (z : Z) : string := NilZero.string_of_int (Z.to_int z).

(** ** PendingRequest *)

(** [timer : NodeJS.Timeout | undefined].  [Armed] is a timeout that may
    still fire, [Fired] one whose callback ran, [Cleared] is [undefined]. *)
Inductive Timer := Armed (delay : Z) | Fired | Cleared.

(** [utils.Deferred]: a promise settles at most once. *)
Inductive Deferred :=
| Unsettled
| Resolved (r : TriggerResponse)
| Rejected (e : Error).

Record PendingRequest := {
  startEpoch : Z;
  available : bool;
  input : Input;
  metadata : Metadata;
  deferred : Deferred;
  timer : Timer }.

Definition new_PendingRequest (now : Z) (inputStream : Input) (md : Metadata)
    (deadline : Z) : PendingRequest :=
  {| startEpoch := now; available := true; input := inputStream;
     metadata := md; deferred := Unsettled;
     timer := Armed (deadline - now) |}.

Definition PendingRequest_stopTimer (p : PendingRequest) : PendingRequest :=
  match timer p with
  | Cleared => p
  | _ => {| startEpoch := startEpoch p; available := available p;
            input := input p; metadata := metadata p;
            deferred := deferred p; timer := Cleared |}
  end.

Definition PendingRequest_resolve (ret : TriggerResponse) (p : PendingRequest)
    : PendingRequest :=
  {| startEpoch := startEpoch p; available := available p; input := input p;
     metadata := metadata p;
     deferred := match deferred p with Unsettled => Resolved ret | d => d end;
     timer := timer p |}.

Definition PendingRequest_reject (e : Error) (p : PendingRequest)
    : PendingRequest :=
  {| startEpoch := startEpoch p; available := available p; input := input p;
     metadata := metadata p;
     deferred := match deferred p with Unsettled => Rejected e | d => d end;
     timer := timer p |}.

(** The [setTimeout] callback of the constructor, before the emit. *)
Definition PendingRequest_onTimer (p : PendingRequest) : PendingRequest :=
  {| startEpoch := startEpoch p; available := false; input := input p;
     metadata := metadata p; deferred := deferred p; timer := Fired |}.

Definition is_armed (t : Timer) : bool :=
  match t with Armed _ => true | _ => false end.

(** ** Worker *)

Record Worker := {
  worker_name : string;
  credential : string;
  worker_disposable : bool;
  activeRequestCount : Z;
  trafficOff : bool;
  debuggerTag : option string;
  (** number of [once('downToZero')] listeners left by [closeTraffic] *)
  downToZeroListeners : nat }.

Definition new_Worker (name cred : string) (disposable : bool) : Worker :=
  {| worker_name := name; credential := cred; worker_disposable := disposable;
     activeRequestCount := 0; trafficOff := false; debuggerTag := None;
     downToZeroListeners := 0 |}.

Definition set_activeRequestCount (n : Z) (w : Worker) : Worker :=
  {| worker_name := worker_name w; credential := credential w;
     worker_disposable := worker_disposable w; activeRequestCount := n;
     trafficOff := trafficOff w; debuggerTag := debuggerTag w;
     downToZeroListeners := downToZeroListeners w |}.

Definition set_trafficOff (b : bool) (w : Worker) : Worker :=
  {| worker_name := worker_name w; credential := credential w;
     worker_disposable := worker_disposable w;
     activeRequestCount := activeRequestCount w;
     trafficOff := b; debuggerTag := debuggerTag w;
     downToZeroListeners := downToZeroListeners w |}.

Definition set_debuggerTag (t : option string) (w : Worker) : Worker :=
  {| worker_name := worker_name w; credential := credential w;
     worker_disposable := worker_disposable w;
     activeRequestCount := activeRequestCount w;
     trafficOff := trafficOff w; debuggerTag := t;
     downToZeroListeners := downToZeroListeners w |}.

Definition set_downToZeroListeners (n : nat) (w : Worker) : Worker :=
  {| worker_name := worker_name w; credential := credential w;
     worker_disposable := worker_disposable w;
     activeRequestCount := activeRequestCount w;
     trafficOff := trafficOff w; debuggerTag := debuggerTag w;
     downToZeroListeners := n |}.

(** ** Profile and token bucket *)

Record TokenBucketConfig := {
  tokensPerFill : Z;
  fillInterval : Z;
  maxTokens : Z }.

Record Profile := {
  profile_name : string;
  rateLimit : option TokenBucketConfig;
  disposable_ : bool;
  maxActivateRequests_ : Z;
  disableRequestQueue : bool;
  fastFailRequestsOnStarting : bool;
  initializationTimeout : Z }.

(** Modelled from the spec: the class [TokenBucket] of [./token_bucket] is
    not part of the sources at hand.  A fixed-capacity bucket; [acquire]
    decrements when at least one token is left and answers [true], and
    answers [false] otherwise; a refill adds [tokensPerFill] up to
    [maxTokens]. *)
Record TokenBucket := {
  bucket_config : TokenBucketConfig;
  tokenCount : Z }.

Definition new_TokenBucket (c : TokenBucketConfig) : TokenBucket :=
  {| bucket_config := c; tokenCount := maxTokens c |}.

Definition TokenBucket_acquire (tb : TokenBucket) : bool * TokenBucket :=
  if 1 <=? tokenCount tb
  then (true, {| bucket_config := bucket_config tb;
                 tokenCount := tokenCount tb - 1 |})
  else (false, tb).

Definition TokenBucket_refill (tb : TokenBucket) : TokenBucket :=
  {| bucket_config := bucket_config tb;
     tokenCount := Z.min (maxTokens (bucket_config tb))
                         (tokenCount tb + tokensPerFill (bucket_config tb)) |}.

(** ** WorkerBroker *)

Record WorkerItem := {
  status : CredentialStatus;
  item_name : string;
  worker : option nat }.

Record WorkerBroker := {
  name : string;
  _profile : Profile;
  inspect : bool;
  (** [List<PendingRequest>]: the nodes in order; a node is named by the
      request it carries (a request is pushed once). *)
  requestQueue : list nat;
  requestQueueStatus : RequestQueueStatus;
  _workerHeap : list nat;
  _workerMap : gmap string WorkerItem;
  tokenBucket : option TokenBucket }.

Definition new_WorkerBroker (profile : Profile) (opt_inspect : bool)
    : WorkerBroker :=
  {| name := profile_name profile; _profile := profile;
     inspect := opt_inspect;
     requestQueue := []; requestQueueStatus := PASS_THROUGH;
     _workerHeap := []; _workerMap := ∅;
     tokenBucket := match rateLimit profile with
                    | Some c => Some (new_TokenBucket c)
                    | None => None
                    end |}.

Definition disposable (b : WorkerBroker) : bool := disposable_ (_profile b).

Definition maxActivateRequests (b : WorkerBroker) : Z :=
  if disposable b then 1 else maxActivateRequests_ (_profile b).

Definition set_requestQueue (q : list nat) (b : WorkerBroker) : WorkerBroker :=
  {| name := name b; _profile := _profile b; inspect := inspect b;
     requestQueue := q; requestQueueStatus := requestQueueStatus b;
     _workerHeap := _workerHeap b; _workerMap := _workerMap b;
     tokenBucket := tokenBucket b |}.

Definition set_requestQueueStatus (st : RequestQueueStatus) (b : WorkerBroker)
    : WorkerBroker :=
  {| name := name b; _profile := _profile b; inspect := inspect b;
     requestQueue := requestQueue b; requestQueueStatus := st;
     _workerHeap := _workerHeap b; _workerMap := _workerMap b;
     tokenBucket := tokenBucket b |}.

Definition set_workerHeap (h : list nat) (b : WorkerBroker) : WorkerBroker :=
  {| name := name b; _profile := _profile b; inspect := inspect b;
     requestQueue := requestQueue b;
     requestQueueStatus := requestQueueStatus b;
     _workerHeap := h; _workerMap := _workerMap b;
     tokenBucket := tokenBucket b |}.

Definition set_workerMap (m : gmap string WorkerItem) (b : WorkerBroker)
    : WorkerBroker :=
  {| name := name b; _profile := _profile b; inspect := inspect b;
     requestQueue := requestQueue b;
     requestQueueStatus := requestQueueStatus b;
     _workerHeap := _workerHeap b; _workerMap := m;
     tokenBucket := tokenBucket b |}.

Definition set_tokenBucket (tb : option TokenBucket) (b : WorkerBroker)
    : WorkerBroker :=
  {| name := name b; _profile := _profile b; inspect := inspect b;
     requestQueue := requestQueue b;
     requestQueueStatus := requestQueueStatus b;
     _workerHeap := _workerHeap b; _workerMap := _workerMap b;
     tokenBucket := tb |}.

Definition set_profile (p : Profile) (b : WorkerBroker) : WorkerBroker :=
  {| name := name b; _profile := p; inspect := inspect b;
     requestQueue := requestQueue b;
     requestQueueStatus := requestQueueStatus b;
     _workerHeap := _workerHeap b; _workerMap := _workerMap b;
     tokenBucket := tokenBucket b |}.


(** ** The state of the data plane around one broker *)

(** What the broker does to its collaborators (delegate, host, metrics,
    callers), in the order it does it. *)
Inductive Effect :=
| DelegateInit (cred : string) (deadline_ : Z)
| DelegateInvoke (cred : string) (inp : Input) (md : Metadata)
| DelegateInspectorStart (cred : string)
| DelegateResetPeer (cred : string)
| BroadcastRequestQueueing (functionName : string) (rid : string)
| BroadcastContainerStatusReport (functionName : string) (isInspector : bool)
    (wname : string) (event : WorkerStatusReport)
| QueuedRequestCounterAdd (n : Z) (functionName : string)
| QueuedRequestDurationRecord (ms : Z) (functionName : string)
| RequestResolve (rid : nat) (ret : TriggerResponse)
| RequestReject (rid : nat) (e : Error)
| InvokeReturn (t : nat) (ret : TriggerResponse)
| InvokeThrow (t : nat) (e : Error)
| BindThrow (cred : string) (e : Error)
| CloseTraffic (w : nat).

(** A call of [Worker.pipe] that is suspended at an [await], or whose
    response body is still being consumed. *)
Inductive PipeStage :=
| AwaitInspectorStart
| AwaitTrigger
| AwaitFinish
| Settled.

(** Who awaits the pipe: [invoke] (the PASS_THROUGH path, with its
    [try]/[finally]) or [tryConsumeQueue] (with [then]/[finally]). *)
Inductive PipeSource := FromInvoke | FromQueue (rid : nat).

Record Pipe := {
  pipe_worker : nat;
  source : PipeSource;
  pipe_input : Input;
  pipe_metadata : Metadata;
  waitMs : Z;
  stage : PipeStage }.

Definition set_stage (st : PipeStage) (p : Pipe) : Pipe :=
  {| pipe_worker := pipe_worker p; source := source p;
     pipe_input := pipe_input p; pipe_metadata := pipe_metadata p;
     waitMs := waitMs p; stage := st |}.

(** A call of [bindWorker] suspended at the delegate's [init]. *)
Record Init := {
  init_credential : string;
  init_item_name : string;
  init_worker : nat;
  init_pending : bool }.

(** A call of [WorkerBroker.closeTraffic] suspended at
    [await worker.closeTraffic()]: the worker's promise waits for
    [downToZero], or it is resolved and the call has not resumed yet, or the
    call has resumed and made its report. *)
Inductive DrainStage := AwaitDownToZero | AwaitResume | Reported.

Record Drain := {
  drain_worker : nat;
  drain_stage : DrainStage }.

Definition set_drain_stage (st : DrainStage) (d : Drain) : Drain :=
  {| drain_worker := drain_worker d; drain_stage := st |}.

Record State := {
  broker : WorkerBroker;
  workerObjs : list Worker;
  requestObjs : list PendingRequest;
  pipes : list Pipe;
  inits : list Init;
  trace : list Effect;
  drains : list Drain }.

Definition new_State (profile : Profile) (opt_inspect : bool) : State :=
  {| broker := new_WorkerBroker profile opt_inspect;
     workerObjs := []; requestObjs := []; pipes := []; inits := [];
     trace := []; drains := [] |}.

Definition upd_broker (f : WorkerBroker -> WorkerBroker) (s : State) : State :=
  {| broker := f (broker s); workerObjs := workerObjs s;
     requestObjs := requestObjs s; pipes := pipes s; inits := inits s;
     trace := trace s; drains := drains s |}.

Definition upd_workerObjs (f : list Worker -> list Worker) (s : State) : State :=
  {| broker := broker s; workerObjs := f (workerObjs s);
     requestObjs := requestObjs s; pipes := pipes s; inits := inits s;
     trace := trace s; drains := drains s |}.

Definition upd_requestObjs (f : list PendingRequest -> list PendingRequest)
    (s : State) : State :=
  {| broker := broker s; workerObjs := workerObjs s;
     requestObjs := f (requestObjs s); pipes := pipes s; inits := inits s;
     trace := trace s; drains := drains s |}.

Definition upd_pipes (f : list Pipe -> list Pipe) (s : State) : State :=
  {| broker := broker s; workerObjs := workerObjs s;
     requestObjs := requestObjs s; pipes := f (pipes s); inits := inits s;
     trace := trace s; drains := drains s |}.

Definition upd_inits (f : list Init -> list Init) (s : State) : State :=
  {| broker := broker s; workerObjs := workerObjs s;
     requestObjs := requestObjs s; pipes := pipes s; inits := f (inits s);
     trace := trace s; drains := drains s |}.

Definition emit (e : Effect) (s : State) : State :=
  {| broker := broker s; workerObjs := workerObjs s;
     requestObjs := requestObjs s; pipes := pipes s; inits := inits s;
     trace := trace s ++ [e]; drains := drains s |}.

Definition emits (es : list Effect) (s : State) : State :=
  {| broker := broker s; workerObjs := workerObjs s;
     requestObjs := requestObjs s; pipes := pipes s; inits := inits s;
     trace := trace s ++ es; drains := drains s |}.

Definition upd_drains (f : list Drain -> list Drain) (s : State) : State :=
  {| broker := broker s; workerObjs := workerObjs s;
     requestObjs := requestObjs s; pipes := pipes s; inits := inits s;
     trace := trace s; drains := f (drains s) |}.

Definition upd_worker (w : nat) (f : Worker -> Worker) : State -> State :=
  upd_workerObjs (alter f w).

Definition upd_request (rid : nat) (f : PendingRequest -> PendingRequest)
    : State -> State :=
  upd_requestObjs (alter f rid).

Definition upd_pipe (t : nat) (f : Pipe -> Pipe) : State -> State :=
  upd_pipes (alter f t).

Definition broadcastContainerStatusReport (w : nat) (event : WorkerStatusReport)
    (s : State) : State :=
  match workerObjs s !! w with
  | Some wk =>
      emit (BroadcastContainerStatusReport (name (broker s)) (inspect (broker s))
              (worker_name wk) event) s
  | None => s
  end.

(** ** Worker methods *)

(** [Worker.closeTraffic]: [true] when the returned promise is already
    resolved, [false] when it waits for the next [downToZero]. *)
Definition Worker_closeTraffic (w : nat) (s : State) : bool * State :=
  let s1 := upd_worker w (set_trafficOff true) s in
  match workerObjs s1 !! w with
  | Some wk =>
      if activeRequestCount wk <=? 0 then (true, s1)
      else (false,
            upd_worker w
              (fun wk => set_downToZeroListeners (S (downToZeroListeners wk)) wk)
              s1)
  | None => (true, s1)
  end.

(** [WorkerBroker.closeTraffic] up to [await worker.closeTraffic()].  The
    call is suspended there even when the worker's promise is resolved
    already; the report is made when the call resumes ([closeTraffic_resumed]). *)
Definition closeTraffic (w : nat) (s : State) : State :=
  let '(drained, s1) := Worker_closeTraffic w (emit (CloseTraffic w) s) in
  upd_drains
    (fun ds => ds ++ [{| drain_worker := w;
                         drain_stage := if drained then AwaitResume
                                        else AwaitDownToZero |}]) s1.

(** [WorkerBroker.closeTraffic] from the settlement of the worker's promise
    on. *)
Definition closeTraffic_resumed (d : nat) (s : State) : State :=
  match drains s !! d with
  | Some dr =>
      match drain_stage dr with
      | AwaitResume =>
          broadcastContainerStatusReport (drain_worker dr) RequestDrained
            (upd_drains (alter (set_drain_stage Reported) d) s)
      | _ => s
      end
  | None => s
  end.

(** The [once('downToZero')] listener of [Worker.closeTraffic] resolves the
    promise of its call. *)
Definition downToZero (w : nat) (d : Drain) : Drain :=
  match drain_stage d with
  | AwaitDownToZero =>
      if Nat.eqb (drain_worker d) w then set_drain_stage AwaitResume d else d
  | _ => d
  end.

(** [this.emit('downToZero')]: the listeners run and are gone. *)
Definition emit_downToZero (w : nat) (s : State) : State :=
  match workerObjs s !! w with
  | Some wk =>
      upd_drains (map (downToZero w))
        (upd_worker w (set_downToZeroListeners 0) s)
  | None => s
  end.

Definition isWorkerFree (w : nat) (s : State) : bool :=
  match workerObjs s !! w with
  | Some wk =>
      if trafficOff wk then false
      else activeRequestCount wk <? maxActivateRequests (broker s)
  | None => false
  end.

(** The part of [pipe] from [this.activeRequestCount++] to the suspension
    at [delegate.trigger]. *)
Definition pipe_dispatch (w : nat) (inp : Input) (md : Metadata) (s : State)
    : State :=
  match workerObjs s !! w with
  | Some wk =>
      emit (DelegateInvoke (credential wk) inp md)
        (upd_worker w
           (fun wk => set_activeRequestCount (activeRequestCount wk + 1) wk) s)
  | None => s
  end.

(** [Worker.pipe] up to its first [await].  The caller has already taken
    [metadata], [waitMs] and the input out of a [PendingRequest]. *)
Definition pipe (w : nat) (src : PipeSource) (inp : Input) (md : Metadata)
    (wait : Z) (s : State) : State :=
  match workerObjs s !! w with
  | Some wk =>
      let p stage_ := {| pipe_worker := w; source := src; pipe_input := inp;
                         pipe_metadata := md; waitMs := wait;
                         stage := stage_ |} in
      if worker_disposable wk && truthy (md_debuggerTag md) then
        emit (DelegateInspectorStart (credential wk))
          (upd_worker w (set_debuggerTag (md_debuggerTag md))
             (upd_pipes (fun ps => ps ++ [p AwaitInspectorStart]) s))
      else
        pipe_dispatch w inp md (upd_pipes (fun ps => ps ++ [p AwaitTrigger]) s)
  | None => s
  end.

Definition pipe_PendingRequest (now : Z) (w rid : nat) (req : PendingRequest)
    : State -> State :=
  pipe w (FromQueue rid) (input req) (metadata req) (now - startEpoch req).

Definition pipe_Input (w : nat) (inp : Input) (md : Metadata) : State -> State :=
  pipe w FromInvoke inp md 0.

(** What the awaiting code does once the promise of [pipe] settles:
    [invoke] runs its [finally] and settles its own promise,
    [tryConsumeQueue] runs [then] and [finally]. *)
Definition pipe_settled (t : nat) (p : Pipe) (outcome : Error + TriggerResponse)
    (s : State) : State :=
  match source p with
  | FromInvoke =>
      let s1 := if disposable (broker s) then closeTraffic (pipe_worker p) s
                else s in
      emit (match outcome with
            | inl e => InvokeThrow t e
            | inr ret => InvokeReturn t ret
            end) s1
  | FromQueue rid =>
      let s1 := match outcome with
                | inr ret => emit (RequestResolve rid ret)
                               (upd_request rid (PendingRequest_resolve ret) s)
                | inl e => emit (RequestReject rid e)
                             (upd_request rid (PendingRequest_reject e) s)
                end in
      if disposable (broker s1) then closeTraffic (pipe_worker p) s1 else s1
  end.


(** ** Collaborating containers *)

(** Modelled from the spec: the class [List] of [#self/lib/list] is not part
    of the sources at hand.  An ordered sequence: [push] appends and hands
    back the node, [shift] takes the head, [remove] unlinks the given node,
    [values] iterates in order. *)
Fixpoint List_remove (node : nat) (l : list nat) : list nat :=
  match l with
  | [] => []
  | x :: rest => if Nat.eqb x node then rest else x :: List_remove node rest
  end.

(** The key [MinHeap.heapify] is given in [getAvailableWorker]:
    [it.trafficOff ? Infinity : it.activeRequestCount]. *)
Inductive HeapKey := Finite (n : Z) | Infinity.

Definition key_leb (a b : HeapKey) : bool :=
  match a, b with
  | _, Infinity => true
  | Infinity, Finite _ => false
  | Finite x, Finite y => x <=? y
  end.

Inductive InvokeResult :=
| InvokeThrew (e : Error)
| InvokeQueued (rid : nat)
| InvokePiped (t : nat).

Inductive BindResult :=
| BindReturned
| BindThrew (e : Error)
| BindAwaitInit (i : nat).

(** What the environment does to the broker: calls of its public methods,
    settlements of the promises it awaits ([inspectorStart], [trigger],
    [finish], [init], and the worker's promise in [closeTraffic]), timers
    and the refill of the token bucket.  [EvCloseTraffic w] is a call of
    [closeTraffic] from outside with the worker [w], which has to be a
    worker that exists; [EvCloseTrafficResumed d] resumes the suspended
    call [d] of [closeTraffic] once the worker's promise is resolved. *)
Inductive Event :=
| EvInvoke (now : Z) (inp : Input) (md : Metadata)
| EvInspectorStart (t : nat) (res : option Error)
| EvTrigger (t : nat) (res : Error + TriggerResponse)
| EvFinish (t : nat) (now : Z)
| EvTimeout (rid : nat) (now : Z)
| EvRegisterCredential (wname cred : string)
| EvBindWorker (cred : string) (now : Z)
| EvInit (i : nat) (res : option Error) (now : Z)
| EvRemoveWorker (cred : string)
| EvUpdateProfile (p : Profile)
| EvFastFail (fatal : bool) (message : string) (now : Z)
| EvRefill
| EvCloseTraffic (w : nat)
| EvCloseTrafficResumed (d : nat).

Section Broker.

(** [MinHeap.heapify] of [@datastructures-js/heap] rearranges the array it is
    given in place.  The library is not part of the repository: the broker is
    written against any such function, and the claims about selection assume
    its contract (see [heapify_spec]). *)
Variable heapify : (nat -> HeapKey) -> list nat -> list nat.

(** ** WorkerBroker methods *)

Definition heapKey (s : State) (w : nat) : HeapKey :=
  match workerObjs s !! w with
  | Some wk => if trafficOff wk then Infinity else Finite (activeRequestCount wk)
  | None => Infinity
  end.

Definition getAvailableWorker (s : State) : option nat * State :=
  let s1 := upd_broker
              (fun b => set_workerHeap (heapify (heapKey s) (_workerHeap b)) b)
              s in
  match _workerHeap (broker s1) with
  | w :: _ =>
      match workerObjs s1 !! w with
      | Some wk =>
          if negb (trafficOff wk)
             && (activeRequestCount wk <? maxActivateRequests (broker s1))
          then (Some w, s1) else (None, s1)
      | None => (None, s1)
      end
  | [] => (None, s1)
  end.

(** The [timeout] listener of [createPendingRequest], entered from the
    timer callback of the [PendingRequest] constructor. *)
Definition PendingRequest_timeout (now : Z) (rid : nat) (s : State) : State :=
  match requestObjs s !! rid with
  | Some p =>
      if is_armed (timer p) then
        let s1 := upd_request rid PendingRequest_onTimer s in
        let s2 := upd_broker
                    (fun b => set_requestQueue (List_remove rid (requestQueue b)) b)
                    s1 in
        let e := new_RpcError
                   ("Waiting for worker has timed out at "
                      +:+ string_of_Z (deadline (metadata p))
                      +:+ ", request(" +:+ requestId (metadata p) +:+ ").")
                   DEADLINE_EXCEEDED in
        let s3 := emit (RequestReject rid e)
                    (upd_request rid (PendingRequest_reject e) s2) in
        emit (QueuedRequestDurationRecord (now - startEpoch p) (name (broker s)))
          s3
      else s
  | None => s
  end.

Definition createPendingRequest (now : Z) (inp : Input) (md : Metadata)
    (s : State) : nat * State :=
  let rid := length (requestObjs s) in
  let request := new_PendingRequest now inp md (deadline md) in
  let s1 := upd_requestObjs (fun rs => rs ++ [request]) s in
  let s2 := upd_broker (fun b => set_requestQueue (requestQueue b ++ [rid]) b)
              s1 in
  let s3 := emit (QueuedRequestCounterAdd 1 (name (broker s))) s2 in
  (rid, emit (BroadcastRequestQueueing (name (broker s)) (requestId md)) s3).

(** [#checkRequestQueue]: [Some e] when it throws. *)
Definition checkRequestQueue (md : Metadata) (s : State) : option Error * State :=
  if negb (disableRequestQueue (_profile (broker s))) then (None, s)
  else (Some (new_Error ("No available worker process for "
                           +:+ name (broker s) +:+ " now.")),
        emit (BroadcastRequestQueueing (name (broker s)) (requestId md)) s).

Definition _queueRequest (now : Z) (inp : Input) (md : Metadata) (s : State)
    : InvokeResult * State :=
  match checkRequestQueue md s with
  | (Some e, s1) => (InvokeThrew e, s1)
  | (None, s1) =>
      let s2 := upd_broker (set_requestQueueStatus QUEUEING) s1 in
      let '(rid, s3) := createPendingRequest now inp md s2 in
      (InvokeQueued rid, s3)
  end.

Fixpoint consumeQueue (now : Z) (w : nat) (queue : list nat) (s : State)
    : State :=
  match queue with
  | [] => s
  | rid :: rest =>
      if negb (isWorkerFree w s) then s
      else
        let s0 := upd_broker (set_requestQueue rest) s in
        match requestObjs s0 !! rid with
        | None => consumeQueue now w rest s0
        | Some request =>
            if negb (available request) then consumeQueue now w rest s0
            else
              let s1 := upd_request rid PendingRequest_stopTimer s0 in
              let s2 := pipe_PendingRequest now w rid request s1 in
              let s3 := emit (QueuedRequestDurationRecord
                                (now - startEpoch request) (name (broker s2)))
                          s2 in
              if disposable (broker s3) then s3
              else consumeQueue now w rest s3
        end
  end.

Definition tryConsumeQueue (now : Z) (notThatBusyWorker : nat) (s : State)
    : State :=
  let s1 := consumeQueue now notThatBusyWorker (requestQueue (broker s)) s in
  match requestQueue (broker s1) with
  | [] => upd_broker (set_requestQueueStatus PASS_THROUGH) s1
  | _ :: _ => s1
  end.

Definition continueConsumeQueue (now : Z) (w : nat) (s : State) : State :=
  match workerObjs s !! w with
  | Some wk =>
      if worker_disposable wk then s
      else if isWorkerFree w s then tryConsumeQueue now w s else s
  | None => s
  end.

Definition fastFail_one (now : Z) (err : Error) (s : State) (rid : nat) : State :=
  match requestObjs s !! rid with
  | Some p =>
      let s1 := upd_request rid PendingRequest_stopTimer s in
      let s2 := emit (RequestReject rid err)
                  (upd_request rid (PendingRequest_reject err) s1) in
      emit (QueuedRequestDurationRecord (now - startEpoch p) (name (broker s)))
        s2
  | None => s
  end.

Definition fastFailAllPendingsDueToStartError (now : Z) (fatal : bool)
    (message : string) (s : State) : State :=
  if negb fatal && negb (fastFailRequestsOnStarting (_profile (broker s)))
  then s
  else
    let queue := requestQueue (broker s) in
    let s1 := upd_broker (set_requestQueue []) s in
    fold_left (fastFail_one now (new_Error message)) queue s1.

(** [this.tokenBucket?.acquire() ?? true] *)
Definition acquireToken (s : State) : bool * State :=
  match tokenBucket (broker s) with
  | Some tb =>
      let '(ok, tb') := TokenBucket_acquire tb in
      (ok, upd_broker (set_tokenBucket (Some tb')) s)
  | None => (true, s)
  end.

(** [invoke] from the return of [ready()] to its first suspension. *)
Definition invoke (now : Z) (inp : Input) (md : Metadata) (s : State)
    : InvokeResult * State :=
  let '(acquiredToken, s1) := acquireToken s in
  if negb acquiredToken
  then (InvokeThrew (new_RpcError "rate limit exceeded" RESOURCE_EXHAUSTED), s1)
  else
    match requestQueueStatus (broker s1) with
    | QUEUEING => _queueRequest now inp md s1
    | PASS_THROUGH =>
        match getAvailableWorker s1 with
        | (None, s2) => _queueRequest now inp md s2
        | (Some w, s2) => (InvokePiped (length (pipes s2)), pipe_Input w inp md s2)
        end
    end.

(** ** Resumptions of [Worker.pipe] *)

Definition pipe_inspectorStarted (t : nat) (res : option Error) (s : State)
    : State :=
  match pipes s !! t with
  | Some p =>
      match stage p, workerObjs s !! pipe_worker p with
      | AwaitInspectorStart, Some _ =>
          match res with
          | None =>
              pipe_dispatch (pipe_worker p) (pipe_input p) (pipe_metadata p)
                (upd_pipe t (set_stage AwaitTrigger) s)
          | Some e => pipe_settled t p (inl e) (upd_pipe t (set_stage Settled) s)
          end
      | _, _ => s
      end
  | None => s
  end.

Definition pipe_triggered (t : nat) (res : Error + TriggerResponse) (s : State)
    : State :=
  match pipes s !! t with
  | Some p =>
      match stage p, workerObjs s !! pipe_worker p with
      | AwaitTrigger, Some wk =>
          match res with
          | inr ret =>
              let ret' := {| resp_body := resp_body ret;
                             resp_queueing := waitMs p;
                             resp_workerName := worker_name wk |} in
              pipe_settled t p (inr ret') (upd_pipe t (set_stage AwaitFinish) s)
          | inl e =>
              let e' := {| err_code := err_code e; err_message := err_message e;
                           err_queueing := Some (waitMs p);
                           err_workerName := Some (worker_name wk) |} in
              pipe_settled t p (inl e') (upd_pipe t (set_stage Settled) s)
          end
      | _, _ => s
      end
  | None => s
  end.

(** The [finally] callback on [ret.finish()]. *)
Definition pipe_finished (t : nat) (now : Z) (s : State) : State :=
  match pipes s !! t with
  | Some p =>
      match stage p, workerObjs s !! pipe_worker p with
      | AwaitFinish, Some wk =>
          let w := pipe_worker p in
          let s1 := upd_pipe t (set_stage Settled) s in
          let s2 := upd_worker w (set_activeRequestCount (activeRequestCount wk - 1))
                      s1 in
          let s3 := if activeRequestCount wk - 1 =? 0
                    then emit_downToZero w s2 else s2 in
          continueConsumeQueue now w s3
      | _, _ => s
      end
  | None => s
  end.

(** ** Credential lifecycle *)

Definition isCredentialPending (cred : string) (b : WorkerBroker) : bool :=
  match _workerMap b !! cred with
  | Some item => match status item with PENDING => true | BOUND => false end
  | None => false
  end.

Definition registerCredential (wname cred : string) (s : State)
    : option Error * State :=
  if isCredentialPending cred (broker s)
  then (Some (new_Error ("Credential " +:+ cred +:+ " already exists in "
                           +:+ name (broker s) +:+ ".")), s)
  else (None,
        upd_broker
          (fun b => set_workerMap
                      (<[cred := {| status := PENDING; item_name := wname;
                                    worker := None |}]> (_workerMap b)) b) s).

(** [bindWorker] up to the suspension at the delegate's [init]. *)
Definition bindWorker (now : Z) (cred : string) (s : State)
    : BindResult * State :=
  match _workerMap (broker s) !! cred with
  | None => (BindReturned, s)
  | Some item =>
      if negb (isCredentialPending cred (broker s))
      then (BindThrew (new_Error ("Credential " +:+ cred
                                    +:+ " has not registered in "
                                    +:+ name (broker s) +:+ " yet.")), s)
      else
        match status item with
        | BOUND => (BindReturned, s)
        | PENDING =>
            let w := length (workerObjs s) in
            let s1 := upd_workerObjs
                        (fun ws => ws ++ [new_Worker (item_name item) cred
                                            (disposable (broker s))]) s in
            let i := length (inits s1) in
            let s2 := upd_inits
                        (fun l => l ++ [{| init_credential := cred;
                                           init_item_name := item_name item;
                                           init_worker := w;
                                           init_pending := true |}]) s1 in
            (BindAwaitInit i,
             emit (DelegateInit cred
                     (initializationTimeout (_profile (broker s)) + now)) s2)
        end
  end.

Definition set_init_pending (b : bool) (i : Init) : Init :=
  {| init_credential := init_credential i; init_item_name := init_item_name i;
     init_worker := init_worker i; init_pending := b |}.

(** [bindWorker] from the settlement of [init] on. *)
Definition bindWorker_initialized (i : nat) (res : option Error) (now : Z)
    (s : State) : State :=
  match inits s !! i with
  | Some it =>
      if init_pending it then
        let s1 := upd_inits (alter (set_init_pending false) i) s in
        match res with
        | None =>
            let s2 := broadcastContainerStatusReport (init_worker it)
                        ContainerInstalled s1 in
            let s3 := upd_broker
                        (fun b =>
                           set_workerHeap (_workerHeap b ++ [init_worker it])
                             (set_workerMap
                                (<[init_credential it :=
                                     {| status := BOUND;
                                        item_name := init_item_name it;
                                        worker := Some (init_worker it) |}]>
                                   (_workerMap b)) b)) s2 in
            tryConsumeQueue now (init_worker it) s3
        | Some e =>
            emit (BindThrow (init_credential it) e)
              (emit (DelegateResetPeer (init_credential it)) s1)
        end
      else s
  | None => s
  end.

(** [findIndex] followed by [splice(idx, 1)] on the heap array. *)
Fixpoint spliceFirst (f : nat -> bool) (l : list nat) : list nat :=
  match l with
  | [] => []
  | x :: rest => if f x then rest else x :: spliceFirst f rest
  end.

Definition removeWorker (cred : string) (s : State) : State :=
  upd_broker
    (fun b =>
       set_workerHeap
         (spliceFirst
            (fun w => match workerObjs s !! w with
                      | Some wk => String.eqb (credential wk) cred
                      | None => false
                      end) (_workerHeap b))
         (set_workerMap (delete cred (_workerMap b)) b)) s.

Definition updateProfile (profile : Profile) (s : State) : option Error * State :=
  if negb (String.eqb (profile_name profile) (name (broker s)))
  then (Some (new_Error "Update with mismatched worker profile"), s)
  else (None, upd_broker (set_profile profile) s).

(** ** The broker driven by its environment *)

Definition step (s : State) (e : Event) : State :=
  match e with
  | EvInvoke now inp md => snd (invoke now inp md s)
  | EvInspectorStart t res => pipe_inspectorStarted t res s
  | EvTrigger t res => pipe_triggered t res s
  | EvFinish t now => pipe_finished t now s
  | EvTimeout rid now => PendingRequest_timeout now rid s
  | EvRegisterCredential wname cred => snd (registerCredential wname cred s)
  | EvBindWorker cred now => snd (bindWorker now cred s)
  | EvInit i res now => bindWorker_initialized i res now s
  | EvRemoveWorker cred => removeWorker cred s
  | EvUpdateProfile p => snd (updateProfile p s)
  | EvFastFail fatal message now =>
      fastFailAllPendingsDueToStartError now fatal message s
  | EvRefill => upd_broker
                  (fun b => set_tokenBucket
                              (TokenBucket_refill <$> tokenBucket b) b) s
  | EvCloseTraffic w =>
      match workerObjs s !! w with
      | Some _ => closeTraffic w s
      | None => s
      end
  | EvCloseTrafficResumed d => closeTraffic_resumed d s
  end.

Definition exec (s : State) (evs : list Event) : State := fold_left step evs s.

End Broker.

(** What the broker relies on from [MinHeap.heapify]: the array holds the
    same elements afterwards, and its first element has a least key. *)
Definition heapify_spec (heapify : (nat -> HeapKey) -> list nat -> list nat)
    : Prop :=
  forall key l,
    Permutation (heapify key l) l
    /\ forall x rest, heapify key l = x :: rest ->
         forall y, In y l -> key_leb (key x) (key y) = true.

(** A heapify to run the broker on concrete inputs: one pass from the end
    of the array that carries a least element to the front. *)
Fixpoint minToFront (key : nat -> HeapKey) (l : list nat) : list nat :=
  match l with
  | [] => []
  | x :: rest =>
      match minToFront key rest with
      | [] => [x]
      | m :: rest' =>
          if key_leb (key x) (key m) then x :: m :: rest' else m :: x :: rest'
      end
  end.

(** ** What the broker tells about its workers *)

(** What [getWorker] returns: the worker, the credential itself while no
    worker is bound to it, or [undefined]. *)
Inductive GetWorkerResult :=
| GetWorker_worker (w : nat)
| GetWorker_credential (cred : string)
| GetWorker_undefined.

Definition getWorker (cred : string) (b : WorkerBroker) : GetWorkerResult :=
  match _workerMap b !! cred with
  | None => GetWorker_undefined
  | Some item =>
      match worker item with
      | Some w => GetWorker_worker w
      | None => GetWorker_credential cred
      end
  end.

Definition getWorkerInfo (cred : string) (b : WorkerBroker) : option WorkerItem :=
  _workerMap b !! cred.

Definition workerCount (b : WorkerBroker) : nat := size (_workerMap b).

(** [toJSON].  The array [workers] has one entry per entry of the map, in
    the insertion order of the map; that order is not kept here, and the
    entries are given by credential. *)
Record WorkerStats := {
  stats_name : string;
  stats_activeRequestCount : Z }.

Record BrokerStats := {
  stats_functionName : string;
  stats_inspector : bool;
  stats_workers : gmap string WorkerStats }.

(** [item.worker?.activeRequestCount ?? 0] *)
Definition toJSON_worker (s : State) (item : WorkerItem) : WorkerStats :=
  {| stats_name := item_name item;
     stats_activeRequestCount :=
       match worker item with
       | Some w => match workerObjs s !! w with
                   | Some wk => activeRequestCount wk
                   | None => 0
                   end
       | None => 0
       end |}.

Definition toJSON (s : State) : BrokerStats :=
  {| stats_functionName := name (broker s);
     stats_inspector := inspect (broker s);
     stats_workers := toJSON_worker s <$> _workerMap (broker s) |}.

(** ** Sample inputs for the worked examples *)

Definition sample_profile (disposable : bool) (limit : option TokenBucketConfig)
    : Profile :=
  {| profile_name := "func"; rateLimit := limit; disposable_ := disposable;
     maxActivateRequests_ := 10; disableRequestQueue := false;
     fastFailRequestsOnStarting := false; initializationTimeout := 1000 |}.

Definition sample_metadata (id : string) (tag : option string) : Metadata :=
  {| requestId := id; deadline := 500; md_debuggerTag := tag |}.

Definition sample_response : TriggerResponse :=
  {| resp_body := "ok"; resp_queueing := 0; resp_workerName := "" |}.

(** A profile whose workers take one request at a time. *)
Definition single_profile (noQueue : bool) : Profile :=
  {| profile_name := "func"; rateLimit := None; disposable_ := false;
     maxActivateRequests_ := 1; disableRequestQueue := noQueue;
     fastFailRequestsOnStarting := false; initializationTimeout := 1000 |}.

(** A disposable profile with the given [maxActivateRequests]. *)
Definition disposable_profile (maxActivateRequests : Z) : Profile :=
  {| profile_name := "func"; rateLimit := None; disposable_ := true;
     maxActivateRequests_ := maxActivateRequests; disableRequestQueue := false;
     fastFailRequestsOnStarting := false; initializationTimeout := 1000 |}.

(** One worker is bound and initialized. *)
Definition one_worker : list Event :=
  [EvRegisterCredential "hello" "world"; EvBindWorker "world" 10;
   EvInit 0 None 20].

End DataPlane.

Module ControlPlane.

(** ** The control plane's view of brokers and workers *)

Inductive ControlPlaneEvent := Shrink | Expand | RequestQueueExpand.

(** Modelled from the spec: the classes [Worker] and [Broker] of
    [../worker_stats/index] and [StateManager] are not part of the sources
    at hand.  A worker record has a name, a credential, a register time, the
    statistics last reported by the data plane (absent until the first
    report) and a status; only a [Running] worker is a shrink candidate, and
    [updateWorkerStatusByControlPlaneEvent] marks the record with the
    event. *)
Inductive WorkerStatus :=
| Created
| Running
| Marked (e : ControlPlaneEvent)
| Stopped.

Record WorkerStats := { activeRequestCount : Z }.

Record Worker := {
  name : string;
  credential : string;
  registerTime : Z;
  data : option WorkerStats;
  workerStatus : WorkerStatus }.

Definition isRunning (w : Worker) : bool :=
  match workerStatus w with Running => true | _ => false end.

Definition updateWorkerStatusByControlPlaneEvent (e : ControlPlaneEvent)
    (w : Worker) : Worker :=
  {| name := name w; credential := credential w;
     registerTime := registerTime w; data := data w;
     workerStatus := Marked e |}.

(** The function profile a broker carries in [broker.data], as far as
    [shrinkDraw] reads it: [data.worker?.shrinkStrategy]. *)
Record WorkerProfile := { shrinkStrategy : option string }.
Record FunctionProfile := { profile_worker : option WorkerProfile }.

Record Broker := {
  broker_name : string;
  isInspector : bool;
  disposable : bool;
  (** [Map<string, Worker>], values in insertion order *)
  workers : list Worker;
  broker_data : option FunctionProfile }.

Record Config := { defaultShrinkStrategy : string }.

Record Delta := { count : Z; broker : Broker }.

(** Modelled from the spec: [StateManager.getWorker(functionName, inspector,
    name)] finds the broker of that function and inspector flag, then the
    worker of that name in it. *)
Definition StateManager := list Broker.

Definition is_broker (functionName : string) (inspector : bool) (b : Broker)
    : bool :=
  String.eqb (broker_name b) functionName && Bool.eqb (isInspector b) inspector.

Definition is_worker (wname : string) (w : Worker) : bool :=
  String.eqb (name w) wname.

Definition getBroker (functionName : string) (inspector : bool)
    (sm : StateManager) : option Broker :=
  List.find (is_broker functionName inspector) sm.

Definition getWorker (functionName : string) (inspector : bool)
    (wname : string) (sm : StateManager) : option Worker :=
  match getBroker functionName inspector sm with
  | Some b => List.find (is_worker wname) (workers b)
  | None => None
  end.

(** The record [getWorker] hands out is the one the state manager holds:
    a change made through it is a change in place. *)
Fixpoint update_first {A} (p : A -> bool) (f : A -> A) (l : list A) : list A :=
  match l with
  | [] => []
  | x :: rest => if p x then f x :: rest else x :: update_first p f rest
  end.

Definition set_workers (ws : list Worker) (b : Broker) : Broker :=
  {| broker_name := broker_name b; isInspector := isInspector b;
     disposable := disposable b; workers := ws;
     broker_data := broker_data b |}.

Definition update_worker (functionName : string) (inspector : bool)
    (wname : string) (f : Worker -> Worker) (sm : StateManager) : StateManager :=
  update_first (is_broker functionName inspector)
    (fun b => set_workers (update_first (is_worker wname) f (workers b)) b) sm.

(** ** Messages of [reduceCapacity] and observable calls *)

Record WorkerRef := { ref_name : string; ref_credential : string }.

Record ShrinkData := {
  functionName : string;
  inspector : bool;
  shrink_workers : list WorkerRef }.

(** The reply: the brokers and workers the data plane has drained, with the
    optional fields of the wire format. *)
Record EnsuredWorker := { ensured_name : string; ensured_credential : option string }.

Record EnsuredBroker := {
  ensured_functionName : string;
  ensured_inspector : bool;
  ensured_workers : option (list EnsuredWorker) }.

Definition Ensured := option (list (option EnsuredBroker)).

Inductive Call :=
| ReduceCapacity (brokers : list ShrinkData)
| StopWorker (wname : string).

(** ** JavaScript comparisons *)

(** [x < y] on numbers that may be [undefined]: false when either is. *)
Definition num_lt (x y : option Z) : bool :=
  match x, y with
  | Some a, Some b => a <? b
  | _, _ => false
  end.

Definition arc (w : Worker) : option Z :=
  match data w with
  | Some d => Some (activeRequestCount d)
  | None => None
  end.

(** [a.credential! < b.credential! ? -1 : 1] *)
Definition byCredential (a b : Worker) : Z :=
  if String.ltb (credential a) (credential b) then -1 else 1.

Definition mostIdle_compare (a b : Worker) : Z :=
  if num_lt (arc a) (arc b) then -1
  else if num_lt (arc b) (arc a) then 1
  else byCredential a b.

Definition newest_compare (a b : Worker) : Z :=
  if registerTime b <? registerTime a then -1
  else if registerTime a <? registerTime b then 1
  else byCredential a b.

Definition oldest_compare (a b : Worker) : Z :=
  if registerTime a <? registerTime b then -1
  else if registerTime b <? registerTime a then 1
  else byCredential a b.

Section Controller.

(** [Array.prototype.sort] is the engine's.  The controller is written
    against any sort function; the claims about order assume what every
    comparison sort gives on a comparator that is a strict total order on
    the elements (see [sort_spec]). *)
Variable sort : (Worker -> Worker -> Z) -> list Worker -> list Worker.

Definition mostWhatNWorkers (b : Broker) (n : nat)
    (compareFn : Worker -> Worker -> Z) : list WorkerRef :=
  let ws := List.filter isRunning (workers b) in
  let nWorkers := firstn n (sort compareFn ws) in
  List.map (fun w => {| ref_name := name w; ref_credential := credential w |})
    nWorkers.

Definition mostIdleNWorkers (b : Broker) (n : nat) : list WorkerRef :=
  mostWhatNWorkers b n mostIdle_compare.

Definition newestNWorkers (b : Broker) (n : nat) : list WorkerRef :=
  mostWhatNWorkers b n newest_compare.

Definition oldestNWorkers (b : Broker) (n : nat) : list WorkerRef :=
  mostWhatNWorkers b n oldest_compare.

(** The strategy [shrinkDraw] switches on. *)
Definition strategyOf (cfg : Config) (b : Broker) : string :=
  match broker_data b with
  | Some d =>
      match profile_worker d with
      | Some wp =>
          match shrinkStrategy wp with
          | Some st => st
          | None => defaultShrinkStrategy cfg
          end
      | None => defaultShrinkStrategy cfg
      end
  | None => defaultShrinkStrategy cfg
  end.

Definition shrinkDraw (cfg : Config) (b : Broker) (countToChoose : nat)
    : list WorkerRef :=
  let strategy := strategyOf cfg b in
  if String.eqb strategy "FILO" then newestNWorkers b countToChoose
  else if String.eqb strategy "FIFO" then oldestNWorkers b countToChoose
  else mostIdleNWorkers b countToChoose.

(** The first loop of [doShrink]: the [shrinkData] it builds. *)
Fixpoint shrinkDataOf (cfg : Config) (deltas : list Delta) : list ShrinkData :=
  match deltas with
  | [] => []
  | d :: rest =>
      if 0 <=? count d then shrinkDataOf cfg rest
      else if isInspector (broker d) then shrinkDataOf cfg rest
      else if disposable (broker d) then shrinkDataOf cfg rest
      else {| functionName := broker_name (broker d);
              inspector := isInspector (broker d);
              shrink_workers := shrinkDraw cfg (broker d) (Z.abs_nat (count d)) |}
           :: shrinkDataOf cfg rest
  end.

(** The inner loop of [doShrink] over the workers of one drained broker. *)
Fixpoint stopEnsuredWorkers (fn : string) (insp : bool)
    (ws : list EnsuredWorker) (st : StateManager * list Call)
    : StateManager * list Call :=
  match ws with
  | [] => st
  | w :: rest =>
      let '(sm, calls) := st in
      match getWorker fn insp (ensured_name w) sm with
      | None => stopEnsuredWorkers fn insp rest st
      | Some realWorker =>
          if negb (bool_decide (Some (credential realWorker) = ensured_credential w))
          then stopEnsuredWorkers fn insp rest st
          else
            stopEnsuredWorkers fn insp rest
              (update_worker fn insp (ensured_name w)
                 (updateWorkerStatusByControlPlaneEvent Shrink) sm,
               calls ++ [StopWorker (ensured_name w)])
      end
  end.

(** The outer loop of [doShrink] over the drained brokers. *)
Fixpoint stopEnsured (ensured : list (option EnsuredBroker))
    (st : StateManager * list Call) : StateManager * list Call :=
  match ensured with
  | [] => st
  | ob :: rest =>
      match ob with
      | Some b =>
          stopEnsured rest
            (stopEnsuredWorkers (ensured_functionName b) (ensured_inspector b)
               (match ensured_workers b with Some ws => ws | None => [] end) st)
      | None => stopEnsured rest st
      end
  end.

(** [doShrink]; [reduceCapacity] is the data plane's answer to the
    request. *)
Definition doShrink (cfg : Config)
    (reduceCapacity : list ShrinkData -> Ensured)
    (deltas : list Delta) (sm : StateManager) : StateManager * list Call :=
  let shrinkData := shrinkDataOf cfg deltas in
  match shrinkData with
  | [] => (sm, [])
  | _ :: _ =>
      match reduceCapacity shrinkData with
      | None => (sm, [ReduceCapacity shrinkData])
      | Some [] => (sm, [ReduceCapacity shrinkData])
      | Some ensured => stopEnsured ensured (sm, [ReduceCapacity shrinkData])
      end
  end.

End Controller.

(** What the controller relies on from [Array.prototype.sort]: the result
    holds the same elements, and when the comparator orders every two
    elements of the array strictly and transitively, earlier results compare
    below later ones. *)
Definition strict_on (compareFn : Worker -> Worker -> Z) (l : list Worker)
    : Prop :=
  NoDup l
  /\ (forall a b, In a l -> In b l -> a <> b ->
        (compareFn a b < 0 /\ 0 < compareFn b a)
        \/ (0 < compareFn a b /\ compareFn b a < 0))
  /\ (forall a b c, In a l -> In b l -> In c l ->
        compareFn a b < 0 -> compareFn b c < 0 -> compareFn a c < 0).

Definition sort_spec
    (sort : (Worker -> Worker -> Z) -> list Worker -> list Worker) : Prop :=
  forall compareFn l,
    Permutation (sort compareFn l) l
    /\ (strict_on compareFn l ->
        StronglySorted (fun a b => compareFn a b < 0) (sort compareFn l)).

(** A sort to run the controller on concrete inputs: stable insertion. *)
Fixpoint insertBy (compareFn : Worker -> Worker -> Z) (x : Worker)
    (l : list Worker) : list Worker :=
  match l with
  | [] => [x]
  | y :: rest =>
      if compareFn x y <=? 0 then x :: y :: rest
      else y :: insertBy compareFn x rest
  end.

Definition insertionSort (compareFn : Worker -> Worker -> Z) (l : list Worker)
    : list Worker :=
  fold_right (insertBy compareFn) [] l.

(** ** Sample inputs for the worked examples *)

Definition sample_config : Config := {| defaultShrinkStrategy := "LCC" |}.

Definition running_worker (wname cred : string) (registered : Z)
    (stats : option Z) : Worker :=
  {| name := wname; credential := cred; registerTime := registered;
     data := match stats with
             | Some n => Some {| activeRequestCount := n |}
             | None => None
             end;
     workerStatus := Running |}.

Definition sample_broker (fn : string) (ws : list Worker) : Broker :=
  {| broker_name := fn; isInspector := false; disposable := false;
     workers := ws; broker_data := None |}.

(** The two brokers of the autoscale test. *)
Definition sample_func : Broker :=
  sample_broker "func"
    [running_worker "hello" "world" 1 (Some 10);
     running_worker "foo" "bar" 2 (Some 10)].

Definition sample_lambda : Broker :=
  sample_broker "lambda"
    [running_worker "coco" "nut" 3 (Some 3);
     running_worker "cocos" "2d" 4 (Some 1);
     running_worker "alibaba" "seed of hope" 5 (Some 2)].

(** A broker one of whose running workers has not reported stats yet. *)
Definition sample_unsynced : Broker :=
  sample_broker "late"
    [running_worker "a" "a" 1 (Some 5);
     running_worker "b" "b" 2 None;
     running_worker "c" "c" 3 (Some 1)].

End ControlPlane.

(** * Properties of the broker *)

Module BrokerProofs.
Import DataPlane.

(** The part of the state the pending queue lives in. *)
Record QView := {
  q_queue : list nat;
  q_status : RequestQueueStatus;
  q_requests : list PendingRequest;
  q_sources : list PipeSource }.

Definition qview (s : State) : QView :=
  {| q_queue := requestQueue (broker s);
     q_status := requestQueueStatus (broker s);
     q_requests := requestObjs s;
     q_sources := map source (pipes s) |}.

Lemma qview_emit e s : qview (emit e s) = qview s.
Proof. reflexivity. Qed.

Lemma qview_emits es s : qview (emits es s) = qview s.
Proof. reflexivity. Qed.

Lemma qview_upd_worker w f s : qview (upd_worker w f s) = qview s.
Proof. reflexivity. Qed.

Lemma qview_upd_inits f s : qview (upd_inits f s) = qview s.
Proof. reflexivity. Qed.

Lemma qview_broadcast w ev s :
  qview (broadcastContainerStatusReport w ev s) = qview s.
Proof. unfold broadcastContainerStatusReport. by destruct (workerObjs s !! w). Qed.

Lemma qview_Worker_closeTraffic w s :
  qview (snd (Worker_closeTraffic w s)) = qview s.
Proof.
  unfold Worker_closeTraffic.
  destruct (workerObjs (upd_worker w (set_trafficOff true) s) !! w) as [wk|];
    [destruct (activeRequestCount wk <=? 0)|]; reflexivity.
Qed.

Lemma qview_closeTraffic w s : qview (closeTraffic w s) = qview s.
Proof.
  unfold closeTraffic.
  pose proof (qview_Worker_closeTraffic w (emit (CloseTraffic w) s)) as H.
  destruct (Worker_closeTraffic w (emit (CloseTraffic w) s)) as [d s1].
  simpl in H. change (qview s1 = qview s). by rewrite H.
Qed.

Lemma qview_closeTraffic_resumed d s : qview (closeTraffic_resumed d s) = qview s.
Proof.
  unfold closeTraffic_resumed. destruct (drains s !! d) as [dr|]; [|done].
  destruct (drain_stage dr); try done. by rewrite qview_broadcast.
Qed.

Lemma qview_emit_downToZero w s : qview (emit_downToZero w s) = qview s.
Proof. unfold emit_downToZero. by destruct (workerObjs s !! w). Qed.

Lemma qview_pipe_dispatch w inp md s : qview (pipe_dispatch w inp md s) = qview s.
Proof. unfold pipe_dispatch. by destruct (workerObjs s !! w). Qed.

Lemma map_source_set_stage st t ps :
  map source (alter (set_stage st) t ps) = map source ps.
Proof.
  revert t; induction ps as [|p ps IH]; intros [|t]; simpl; try done.
  f_equal. apply IH.
Qed.

Lemma qview_set_stage t st s : qview (upd_pipe t (set_stage st) s) = qview s.
Proof.
  unfold qview, upd_pipe, upd_pipes; simpl. by rewrite map_source_set_stage.
Qed.


Lemma qview_pipe w src inp md wait s :
  qview (pipe w src inp md wait s) = qview s
  \/ qview (pipe w src inp md wait s) =
     {| q_queue := q_queue (qview s); q_status := q_status (qview s);
        q_requests := q_requests (qview s);
        q_sources := q_sources (qview s) ++ [src] |}.
Proof.
  unfold pipe. destruct (workerObjs s !! w) as [wk|]; [|by left]. right.
  destruct (worker_disposable wk && truthy (md_debuggerTag md)).
  - rewrite qview_emit, qview_upd_worker. unfold qview; simpl.
    by rewrite map_app.
  - rewrite qview_pipe_dispatch. unfold qview; simpl. by rewrite map_app.
Qed.

(** ** The invariant of the pending queue *)

Record queue_ok (v : QView) : Prop := {
  ok_nodup : NoDup (q_queue v);
  ok_queued : forall rid,
    rid ∈ q_queue v <->
    exists p, q_requests v !! rid = Some p /\ is_armed (timer p) = true;
  ok_armed : forall rid p,
    q_requests v !! rid = Some p -> is_armed (timer p) = true ->
    deferred p = Unsettled /\ available p = true;
  ok_sources : forall rid,
    FromQueue rid ∈ q_sources v ->
    exists p, q_requests v !! rid = Some p /\ is_armed (timer p) = false }.

Definition status_ok (v : QView) : Prop :=
  q_status v = PASS_THROUGH -> q_queue v = [].

Definition status_iff (v : QView) : Prop :=
  q_status v = PASS_THROUGH <-> q_queue v = [].

Lemma status_iff_ok v : status_iff v -> status_ok v.
Proof. intros [H _]. exact H. Qed.

Lemma queue_ok_add_source v src :
  queue_ok v ->
  (forall rid, src = FromQueue rid ->
     exists p, q_requests v !! rid = Some p /\ is_armed (timer p) = false) ->
  queue_ok {| q_queue := q_queue v; q_status := q_status v;
              q_requests := q_requests v; q_sources := q_sources v ++ [src] |}.
Proof.
  intros [H1 H2 H3 H4] Hsrc. split; simpl; try done.
  intros rid Hin. apply elem_of_app in Hin as [Hin|Hin]; [by apply H4|].
  apply list_elem_of_singleton in Hin. by apply Hsrc.
Qed.

Lemma queue_ok_pipe w src inp md wait s :
  queue_ok (qview s) ->
  (forall rid, src = FromQueue rid ->
     exists p, requestObjs s !! rid = Some p /\ is_armed (timer p) = false) ->
  queue_ok (qview (pipe w src inp md wait s)).
Proof.
  intros Hok Hsrc.
  destruct (qview_pipe w src inp md wait s) as [-> | ->]; [done|].
  by apply queue_ok_add_source.
Qed.

(** Changing a request whose timer is not armed, and leaving it so. *)
Lemma queue_ok_alter_unarmed v rid f :
  queue_ok v ->
  (forall p, q_requests v !! rid = Some p -> is_armed (timer p) = false) ->
  (forall p, is_armed (timer (f p)) = is_armed (timer p)) ->
  queue_ok {| q_queue := q_queue v; q_status := q_status v;
              q_requests := alter f rid (q_requests v);
              q_sources := q_sources v |}.
Proof.
  intros [H1 H2 H3 H4] Hun Hf. split; simpl; try done.
  - intros r. rewrite H2. destruct (decide (r = rid)) as [->|Hne].
    + rewrite list_lookup_alter_eq. split.
      * intros (p & Hp & Ha). rewrite (Hun _ Hp) in Ha. done.
      * intros (p & Hp & Ha). destruct (q_requests v !! rid) as [p0|] eqn:E;
          simpl in Hp; [|done]. injection Hp as <-. rewrite Hf in Ha.
        rewrite (Hun p0) in Ha; done.
    + by rewrite list_lookup_alter_ne.
  - intros r p. destruct (decide (r = rid)) as [->|Hne].
    + rewrite list_lookup_alter_eq.
      destruct (q_requests v !! rid) as [p0|] eqn:E; simpl; [|done].
      intros [= <-] Ha. rewrite Hf, (Hun p0) in Ha; done.
    + rewrite list_lookup_alter_ne by done. apply H3.
  - intros r Hin. destruct (H4 r Hin) as (p & Hp & Ha).
    destruct (decide (r = rid)) as [->|Hne].
    + exists (f p). rewrite list_lookup_alter_eq, Hp. simpl. by rewrite Hf.
    + exists p. by rewrite list_lookup_alter_ne.
Qed.


Lemma timer_resolve ret p : timer (PendingRequest_resolve ret p) = timer p.
Proof. reflexivity. Qed.

Lemma timer_reject e p : timer (PendingRequest_reject e p) = timer p.
Proof. reflexivity. Qed.

Lemma qview_upd_request rid f s :
  qview (upd_request rid f s) =
  {| q_queue := q_queue (qview s); q_status := q_status (qview s);
     q_requests := alter f rid (q_requests (qview s));
     q_sources := q_sources (qview s) |}.
Proof. reflexivity. Qed.

Lemma qview_pipe_settled t p out s :
  qview (pipe_settled t p out s) =
  match source p with
  | FromInvoke => qview s
  | FromQueue rid =>
      {| q_queue := q_queue (qview s); q_status := q_status (qview s);
         q_requests :=
           alter (match out with
                  | inl e => PendingRequest_reject e
                  | inr ret => PendingRequest_resolve ret
                  end) rid (q_requests (qview s));
         q_sources := q_sources (qview s) |}
  end.
Proof.
  unfold pipe_settled. destruct (source p) as [|rid].
  - rewrite qview_emit. destruct (disposable (broker s));
      by rewrite ?qview_closeTraffic.
  - destruct out as [e|ret];
      match goal with |- context [if ?c then _ else _] => destruct c end;
      by rewrite ?qview_closeTraffic, qview_emit, qview_upd_request.
Qed.

Lemma queue_ok_pipe_settled t p out s :
  queue_ok (qview s) -> source p ∈ q_sources (qview s) ->
  queue_ok (qview (pipe_settled t p out s)).
Proof.
  intros Hok Hin. rewrite qview_pipe_settled.
  destruct (source p) as [|rid] eqn:E; [done|].
  destruct (ok_sources _ Hok rid Hin) as (q & Hq & Ha).
  apply queue_ok_alter_unarmed; [done| |by destruct out].
  intros p0 Hp0. congruence.
Qed.

Lemma pipe_settled_queue t p out s :
  q_queue (qview (pipe_settled t p out s)) = q_queue (qview s)
  /\ q_status (qview (pipe_settled t p out s)) = q_status (qview s).
Proof. rewrite qview_pipe_settled. by destruct (source p). Qed.

Lemma pipe_lookup_source t p s :
  pipes s !! t = Some p -> source p ∈ q_sources (qview s).
Proof.
  intros H. unfold qview; simpl. apply list_elem_of_fmap.
  exists p. split; [done|]. by eapply list_elem_of_lookup_2.
Qed.

(** *** Enqueueing *)

Lemma queue_ok_lookup_lt v rid :
  queue_ok v -> rid ∈ q_queue v -> (rid < length (q_requests v))%nat.
Proof.
  intros Hok Hin. apply (ok_queued _ Hok) in Hin as (p & Hp & _).
  by eapply lookup_lt_Some.
Qed.

Lemma queue_ok_push v st now inp md :
  queue_ok v ->
  queue_ok {| q_queue := q_queue v ++ [length (q_requests v)];
              q_status := st;
              q_requests := q_requests v
                              ++ [new_PendingRequest now inp md (deadline md)];
              q_sources := q_sources v |}.
Proof.
  intros Hok. pose proof Hok as [H1 H2 H3 H4]. split; simpl.
  - apply NoDup_app. split; [done|]. split; [|apply NoDup_singleton].
    intros x Hx Hx'. apply list_elem_of_singleton in Hx'. subst x.
    apply (queue_ok_lookup_lt _ _ Hok) in Hx. lia.
  - intros rid. rewrite elem_of_app, list_elem_of_singleton, H2. split.
    + intros [(p & Hp & Ha)| ->].
      * exists p. split; [|done]. by apply lookup_app_l_Some.
      * eexists. split; [apply list_lookup_middle; done|done].
    + intros (p & Hp & Ha). apply lookup_app_Some in Hp as [Hp|[Hge Hp]].
      * left. eauto.
      * right. apply list_lookup_singleton_Some in Hp as [Hz _]. lia.
  - intros rid p Hp Ha. apply lookup_app_Some in Hp as [Hp|[Hge Hp]].
    + eauto.
    + apply list_lookup_singleton_Some in Hp as [_ <-]. done.
  - intros rid Hin. destruct (H4 rid Hin) as (p & Hp & Ha).
    exists p. split; [|done]. by apply lookup_app_l_Some.
Qed.


Lemma qview_createPendingRequest now inp md s :
  qview (snd (createPendingRequest now inp md s)) =
  {| q_queue := q_queue (qview s) ++ [length (q_requests (qview s))];
     q_status := q_status (qview s);
     q_requests := q_requests (qview s)
                     ++ [new_PendingRequest now inp md (deadline md)];
     q_sources := q_sources (qview s) |}.
Proof. reflexivity. Qed.

Lemma qview_checkRequestQueue md s :
  qview (snd (checkRequestQueue md s)) = qview s.
Proof.
  unfold checkRequestQueue.
  by destruct (negb (disableRequestQueue (_profile (broker s)))).
Qed.

(** [_queueRequest] either throws and leaves the queue alone, or leaves the
    broker QUEUEING with the new request at the tail. *)
Lemma qview_queueRequest now inp md s :
  (exists e, fst (_queueRequest now inp md s) = InvokeThrew e
             /\ qview (snd (_queueRequest now inp md s)) = qview s)
  \/ (fst (_queueRequest now inp md s) = InvokeQueued (length (requestObjs s))
      /\ qview (snd (_queueRequest now inp md s)) =
         {| q_queue := q_queue (qview s) ++ [length (q_requests (qview s))];
            q_status := QUEUEING;
            q_requests := q_requests (qview s)
                            ++ [new_PendingRequest now inp md (deadline md)];
            q_sources := q_sources (qview s) |}).
Proof.
  unfold _queueRequest.
  pose proof (qview_checkRequestQueue md s) as Hc.
  assert (fst (checkRequestQueue md s) = None ->
          snd (checkRequestQueue md s) = s) as Hs.
  { unfold checkRequestQueue.
    by destruct (negb (disableRequestQueue (_profile (broker s)))). }
  destruct (checkRequestQueue md s) as [[e|] s1]; simpl in *.
  - left. eauto.
  - right. rewrite (Hs eq_refl). done.
Qed.

(** *** Timeout *)

Lemma List_remove_elem_of x node l :
  NoDup l -> x ∈ List_remove node l <-> x ∈ l /\ x <> node.
Proof.
  induction l as [|y l IH]; simpl; intros Hnd.
  - split; [by intros ?%elem_of_nil|by intros [?%elem_of_nil _]].
  - apply NoDup_cons in Hnd as [Hy Hnd].
    destruct (Nat.eqb_spec y node) as [->|Hne].
    + rewrite elem_of_cons. split.
      * intros Hx. split; [by right|]. by intros ->.
      * intros [[->|Hx] Hne]; done.
    + rewrite !elem_of_cons, (IH Hnd). split.
      * intros [->|[Hx Hxn]]; split; auto.
      * intros [[->|Hx] Hxn]; auto.
Qed.

Lemma List_remove_NoDup node l : NoDup l -> NoDup (List_remove node l).
Proof.
  induction l as [|y l IH]; simpl; intros Hnd; [done|].
  apply NoDup_cons in Hnd as [Hy Hnd].
  destruct (Nat.eqb_spec y node) as [->|Hne]; [done|].
  apply NoDup_cons. split; [|by apply IH].
  rewrite (List_remove_elem_of _ _ _ Hnd). by intros [? _].
Qed.

(** Taking a request out of the queue while disarming its timer. *)
Lemma queue_ok_disarm v rid f st :
  queue_ok v ->
  (forall p, is_armed (timer (f p)) = false) ->
  queue_ok {| q_queue := List_remove rid (q_queue v); q_status := st;
              q_requests := alter f rid (q_requests v);
              q_sources := q_sources v |}.
Proof.
  intros [H1 H2 H3 H4] Hf. split; simpl.
  - by apply List_remove_NoDup.
  - intros r. rewrite (List_remove_elem_of _ _ _ H1), H2.
    destruct (decide (r = rid)) as [->|Hne].
    + rewrite list_lookup_alter_eq. split; [by intros [_ ?]|].
      intros (p & Hp & Ha). destruct (q_requests v !! rid) as [p0|];
        simpl in Hp; [|done]. injection Hp as <-. by rewrite Hf in Ha.
    + rewrite list_lookup_alter_ne by done. split; [by intros [? _]|done].
  - intros r p. destruct (decide (r = rid)) as [->|Hne].
    + rewrite list_lookup_alter_eq.
      destruct (q_requests v !! rid) as [p0|]; simpl; [|done].
      intros [= <-] Ha. by rewrite Hf in Ha.
    + rewrite list_lookup_alter_ne by done. apply H3.
  - intros r Hin. destruct (H4 r Hin) as (p & Hp & Ha).
    destruct (decide (r = rid)) as [->|Hne].
    + exists (f p). by rewrite list_lookup_alter_eq, Hp.
    + exists p. by rewrite list_lookup_alter_ne.
Qed.

Lemma is_armed_stopTimer p : is_armed (timer (PendingRequest_stopTimer p)) = false.
Proof. unfold PendingRequest_stopTimer. by destruct (timer p) eqn:E; simpl; rewrite ?E. Qed.

Lemma queue_ok_status v st :
  queue_ok v ->
  queue_ok {| q_queue := q_queue v; q_status := st;
              q_requests := q_requests v; q_sources := q_sources v |}.
Proof. by intros [H1 H2 H3 H4]. Qed.

(** *** Fast fail *)

Definition fail_request (err : Error) (p : PendingRequest) : PendingRequest :=
  PendingRequest_reject err (PendingRequest_stopTimer p).

Definition fail_all (err : Error) (queue : list nat) (rs : list PendingRequest)
    : list PendingRequest :=
  fold_left (fun rs rid => alter (fail_request err) rid rs) queue rs.

Lemma alter_lookup_None {A} (f : A -> A) i (l : list A) :
  l !! i = None -> alter f i l = l.
Proof.
  intros H. apply list_eq. intros j. destruct (decide (i = j)) as [<-|Hne].
  - by rewrite list_lookup_alter_eq, H.
  - by rewrite list_lookup_alter_ne.
Qed.

Lemma qview_fastFail_one now err s rid :
  qview (fastFail_one now err s rid) =
  {| q_queue := q_queue (qview s); q_status := q_status (qview s);
     q_requests := alter (fail_request err) rid (q_requests (qview s));
     q_sources := q_sources (qview s) |}.
Proof.
  unfold fastFail_one. destruct (requestObjs s !! rid) as [p|] eqn:Hp.
  - unfold qview; simpl. by rewrite list_alter_alter_eq.
  - unfold qview at 1. simpl. by rewrite alter_lookup_None.
Qed.

Lemma qview_fastFail_fold now err queue : forall s,
  qview (fold_left (fastFail_one now err) queue s) =
  {| q_queue := q_queue (qview s); q_status := q_status (qview s);
     q_requests := fail_all err queue (q_requests (qview s));
     q_sources := q_sources (qview s) |}.
Proof.
  induction queue as [|rid rest IH]; intros s; [done|].
  cbn [fold_left]. by rewrite IH, qview_fastFail_one.
Qed.

Lemma fail_all_cons err x rest rs :
  fail_all err (x :: rest) rs = fail_all err rest (alter (fail_request err) x rs).
Proof. reflexivity. Qed.

Lemma fail_all_lookup_notin err queue : forall rs rid,
  rid ∉ queue -> fail_all err queue rs !! rid = rs !! rid.
Proof.
  induction queue as [|x rest IH]; intros rs rid Hnin; [done|].
  apply not_elem_of_cons in Hnin as [Hne Hnin].
  rewrite fail_all_cons, IH by done. by rewrite list_lookup_alter_ne.
Qed.

Lemma fail_all_lookup_in err queue : forall rs rid,
  NoDup queue -> rid ∈ queue ->
  fail_all err queue rs !! rid = fail_request err <$> rs !! rid.
Proof.
  induction queue as [|x rest IH]; intros rs rid Hnd Hin.
  - by apply elem_of_nil in Hin.
  - apply NoDup_cons in Hnd as [Hx Hnd]. rewrite fail_all_cons.
    apply elem_of_cons in Hin as [->|Hin].
    + rewrite fail_all_lookup_notin by done. apply list_lookup_alter_eq.
    + rewrite IH by done.
      rewrite list_lookup_alter_ne; [done|]. by intros ->.
Qed.

Lemma is_armed_fail_request err p : is_armed (timer (fail_request err p)) = false.
Proof. unfold fail_request. rewrite timer_reject. apply is_armed_stopTimer. Qed.

Lemma queue_ok_fail_all v err st :
  queue_ok v ->
  queue_ok {| q_queue := []; q_status := st;
              q_requests := fail_all err (q_queue v) (q_requests v);
              q_sources := q_sources v |}.
Proof.
  intros [H1 H2 H3 H4].
  assert (forall rid p', fail_all err (q_queue v) (q_requests v) !! rid = Some p' ->
            is_armed (timer p') = false) as Hall.
  { intros rid p' Hp'. destruct (decide (rid ∈ q_queue v)) as [Hin|Hnin].
    - rewrite fail_all_lookup_in in Hp' by done.
      destruct (q_requests v !! rid) as [p|]; simpl in Hp'; [|done].
      injection Hp' as <-. apply is_armed_fail_request.
    - rewrite fail_all_lookup_notin in Hp' by done.
      destruct (is_armed (timer p')) eqn:Ha; [|done].
      exfalso. apply Hnin. apply H2. eauto. }
  split; simpl.
  - apply NoDup_nil_2.
  - intros rid. split; [by intros ?%elem_of_nil|].
    intros (p & Hp & Ha). rewrite (Hall _ _ Hp) in Ha. done.
  - intros rid p Hp Ha. rewrite (Hall _ _ Hp) in Ha. done.
  - intros rid Hin. destruct (H4 rid Hin) as (p & Hp & Ha).
    destruct (decide (rid ∈ q_queue v)) as [Hq|Hq].
    + exists (fail_request err p). rewrite fail_all_lookup_in, Hp by done.
      split; [done|]. apply is_armed_fail_request.
    + exists p. by rewrite fail_all_lookup_notin.
Qed.

Lemma qview_fastFail now fatal message s :
  qview (fastFailAllPendingsDueToStartError now fatal message s) =
  if negb fatal && negb (fastFailRequestsOnStarting (_profile (broker s)))
  then qview s
  else {| q_queue := []; q_status := q_status (qview s);
          q_requests := fail_all (new_Error message) (q_queue (qview s))
                          (q_requests (qview s));
          q_sources := q_sources (qview s) |}.
Proof.
  unfold fastFailAllPendingsDueToStartError.
  destruct (negb fatal && negb (fastFailRequestsOnStarting (_profile (broker s))));
    [done|].
  by rewrite qview_fastFail_fold.
Qed.

Section WithHeapify.

Variable heapify : (nat -> HeapKey) -> list nat -> list nat.

Lemma qview_getAvailableWorker s :
  qview (snd (getAvailableWorker heapify s)) = qview s.
Proof.
  unfold getAvailableWorker. cbv zeta.
  repeat match goal with
         | |- context [match ?x with _ => _ end] => destruct x
         end; reflexivity.
Qed.

Lemma qview_timeout now rid s p :
  requestObjs s !! rid = Some p -> is_armed (timer p) = true ->
  qview (PendingRequest_timeout now rid s) =
  {| q_queue := List_remove rid (q_queue (qview s));
     q_status := q_status (qview s);
     q_requests :=
       alter (fun p => PendingRequest_reject
                         (new_RpcError
                            ("Waiting for worker has timed out at "
                               +:+ string_of_Z (deadline (metadata p))
                               +:+ ", request(" +:+ requestId (metadata p) +:+ ").")
                            DEADLINE_EXCEEDED)
                         (PendingRequest_onTimer p))
             rid (q_requests (qview s));
     q_sources := q_sources (qview s) |}.
Proof.
  intros Hp Ha. unfold PendingRequest_timeout. rewrite Hp, Ha.
  unfold qview; simpl. f_equal.
  rewrite list_alter_alter_eq. apply list_alter_ext; [|done].
  intros q Hq. simpl. assert (q = p) as -> by congruence. done.
Qed.

Lemma queue_ok_timeout now rid s :
  queue_ok (qview s) -> queue_ok (qview (PendingRequest_timeout now rid s)).
Proof.
  intros Hok. destruct (requestObjs s !! rid) as [p|] eqn:Hp.
  - destruct (is_armed (timer p)) eqn:Ha.
    + rewrite (qview_timeout now rid s p Hp Ha). by apply queue_ok_disarm.
    + unfold PendingRequest_timeout. by rewrite Hp, Ha.
  - unfold PendingRequest_timeout. by rewrite Hp.
Qed.

Lemma timeout_status now rid s :
  q_status (qview (PendingRequest_timeout now rid s)) = q_status (qview s).
Proof.
  unfold PendingRequest_timeout. destruct (requestObjs s !! rid) as [p|]; [|done].
  by destruct (is_armed (timer p)).
Qed.

(** *** Draining *)

Lemma consumeQueue_ok now w queue : forall s,
  queue_ok (qview s) -> requestQueue (broker s) = queue ->
  queue_ok (qview (consumeQueue now w queue s))
  /\ q_status (qview (consumeQueue now w queue s)) = q_status (qview s).
Proof.
  induction queue as [|rid rest IH]; intros s Hok Hq; simpl; [done|].
  destruct (isWorkerFree w s); simpl; [|done].
  assert (rid ∈ q_queue (qview s)) as Hin by (simpl; rewrite Hq; left).
  apply (ok_queued _ Hok) in Hin as (request & Hp & Ha). simpl in Hp.
  rewrite Hp. destruct (ok_armed _ Hok rid request Hp Ha) as [_ ->]. simpl.
  set (s1 := upd_request rid PendingRequest_stopTimer
               (upd_broker (set_requestQueue rest) s)).
  assert (queue_ok (qview s1)) as Hok1.
  { pose proof (queue_ok_disarm (qview s) rid PendingRequest_stopTimer
                  (q_status (qview s)) Hok is_armed_stopTimer) as H.
    simpl in H. rewrite Hq in H. simpl in H. by rewrite Nat.eqb_refl in H. }
  set (s2 := pipe_PendingRequest now w rid request s1).
  assert (queue_ok (qview s2)) as Hok2.
  { apply queue_ok_pipe; [done|]. intros r [= <-].
    exists (PendingRequest_stopTimer request). split.
    - subst s1. simpl. by rewrite list_lookup_alter_eq, Hp.
    - apply is_armed_stopTimer. }
  assert (q_status (qview s2) = q_status (qview s)
          /\ requestQueue (broker s2) = rest) as [Hst Hq2].
  { subst s2. unfold pipe_PendingRequest.
    destruct (qview_pipe w (FromQueue rid) (input request) (metadata request)
                (now - startEpoch request) s1) as [E|E];
      apply (f_equal q_status) in E as E1; apply (f_equal q_queue) in E as E2;
      (split; [exact E1|exact E2]). }
  match goal with |- context [if ?c then _ else _] => destruct c end.
  - split; [exact Hok2|exact Hst].
  - match goal with |- context [consumeQueue _ _ _ ?s3] =>
      destruct (IH s3) as [IH1 IH2]; [by rewrite qview_emit|done|] end.
    split; [done|]. etransitivity; [exact IH2|exact Hst].
Qed.

Lemma tryConsumeQueue_ok now w s :
  queue_ok (qview s) -> status_ok (qview s) ->
  queue_ok (qview (tryConsumeQueue now w s))
  /\ status_iff (qview (tryConsumeQueue now w s)).
Proof.
  intros Hok Hst. unfold tryConsumeQueue.
  destruct (consumeQueue_ok now w (requestQueue (broker s)) s Hok eq_refl)
    as [Hok1 Hst1].
  destruct (requestQueue (broker (consumeQueue now w (requestQueue (broker s)) s)))
    as [|x l] eqn:E.
  - split.
    + apply (queue_ok_status _ PASS_THROUGH) in Hok1. exact Hok1.
    + unfold status_iff; simpl. by rewrite E.
  - split; [done|]. unfold status_iff. simpl. rewrite E. split; [|done].
    intros HP. simpl in Hst1. rewrite HP in Hst1. symmetry in Hst1.
    specialize (Hst Hst1). simpl in Hst. rewrite Hst in E. simpl in E. congruence.
Qed.

(** *** Every event keeps the queue well formed *)

Definition inv (s : State) : Prop :=
  queue_ok (qview s) /\ status_ok (qview s).

Lemma inv_view s s' : qview s' = qview s -> inv s -> inv s'.
Proof. unfold inv. by intros ->. Qed.

Lemma inv_new profile opt : inv (new_State profile opt).
Proof.
  split; [split|]; simpl; try done.
  - apply NoDup_nil_2.
  - intros rid. split; [by intros ?%elem_of_nil|]. by intros (p & Hp & _).
  - by intros rid ?%elem_of_nil.
Qed.

Lemma inv_tryConsumeQueue now w s : inv s -> inv (tryConsumeQueue now w s).
Proof.
  intros [H1 H2]. destruct (tryConsumeQueue_ok now w s H1 H2) as [H3 H4].
  split; [done|]. by apply status_iff_ok.
Qed.

Lemma inv_continueConsumeQueue now w s :
  inv s -> inv (continueConsumeQueue now w s).
Proof.
  intros H. unfold continueConsumeQueue.
  destruct (workerObjs s !! w) as [wk|]; [|done].
  destruct (worker_disposable wk); [done|].
  destruct (isWorkerFree w s); [|done]. by apply inv_tryConsumeQueue.
Qed.

Lemma inv_pipe_settled t p out s :
  inv s -> source p ∈ q_sources (qview s) -> inv (pipe_settled t p out s).
Proof.
  intros [H1 H2] Hin. split; [by apply queue_ok_pipe_settled|].
  unfold status_ok. destruct (pipe_settled_queue t p out s) as [-> ->]. done.
Qed.

Lemma inv_pipe w inp md s : inv s -> inv (pipe_Input w inp md s).
Proof.
  intros [H1 H2]. unfold pipe_Input. split.
  - apply queue_ok_pipe; [done|]. by intros.
  - unfold status_ok.
    by destruct (qview_pipe w FromInvoke inp md 0 s) as [-> | ->].
Qed.

Lemma inv_queueRequest now inp md s :
  inv s -> inv (snd (_queueRequest now inp md s)).
Proof.
  intros [H1 H2].
  destruct (qview_queueRequest now inp md s) as [(e & _ & Hv)|[_ Hv]].
  - by apply (inv_view s).
  - unfold inv. rewrite Hv. split; [by apply queue_ok_push|done].
Qed.

Lemma qview_acquireToken s : qview (snd (acquireToken s)) = qview s.
Proof.
  unfold acquireToken. destruct (tokenBucket (broker s)) as [tb|]; [|done].
  by destruct (TokenBucket_acquire tb).
Qed.

Lemma inv_invoke now inp md s : inv s -> inv (snd (invoke heapify now inp md s)).
Proof.
  intros H. unfold invoke.
  pose proof (qview_acquireToken s) as Ha.
  destruct (acquireToken s) as [ok s1]. simpl in Ha.
  apply (inv_view s s1) in H; [|done].
  destruct ok; simpl; [|done].
  destruct (requestQueueStatus (broker s1)); [|by apply inv_queueRequest].
  pose proof (qview_getAvailableWorker s1) as Hg.
  destruct (getAvailableWorker heapify s1) as [[w|] s2]; simpl in Hg;
    apply (inv_view s1 s2) in H; try done.
  - by apply inv_pipe.
  - by apply inv_queueRequest.
Qed.

Lemma inv_timeout now rid s : inv s -> inv (PendingRequest_timeout now rid s).
Proof.
  intros [H1 H2]. split; [by apply queue_ok_timeout|].
  unfold status_ok. rewrite timeout_status. intros HP.
  specialize (H2 HP).
  unfold PendingRequest_timeout.
  destruct (requestObjs s !! rid) as [p|]; [|done].
  destruct (is_armed (timer p)); [|done]. simpl in *. by rewrite H2.
Qed.

Lemma inv_fastFail now fatal message s :
  inv s -> inv (fastFailAllPendingsDueToStartError now fatal message s).
Proof.
  intros [H1 H2]. unfold inv. rewrite qview_fastFail.
  destruct (negb fatal && negb (fastFailRequestsOnStarting (_profile (broker s))));
    [done|].
  split; [by apply queue_ok_fail_all|done].
Qed.

Lemma inv_inspectorStarted t res s : inv s -> inv (pipe_inspectorStarted t res s).
Proof.
  intros H. unfold pipe_inspectorStarted.
  destruct (pipes s !! t) as [p|] eqn:Hp; [|done].
  destruct (stage p); try done.
  destruct (workerObjs s !! pipe_worker p) as [wk|]; [|done].
  destruct res as [e|].
  - apply inv_pipe_settled.
    + by apply (inv_view s); [apply qview_set_stage|].
    + rewrite qview_set_stage. by eapply pipe_lookup_source.
  - apply (inv_view s); [|done].
    by rewrite qview_pipe_dispatch, qview_set_stage.
Qed.

Lemma inv_triggered t res s : inv s -> inv (pipe_triggered t res s).
Proof.
  intros H. unfold pipe_triggered.
  destruct (pipes s !! t) as [p|] eqn:Hp; [|done].
  destruct (stage p); try done.
  destruct (workerObjs s !! pipe_worker p) as [wk|]; [|done].
  destruct res as [e|ret]; (apply inv_pipe_settled;
    [by apply (inv_view s); [apply qview_set_stage|]
    |rewrite qview_set_stage; by eapply pipe_lookup_source]).
Qed.

Lemma inv_finished t now s : inv s -> inv (pipe_finished t now s).
Proof.
  intros H. unfold pipe_finished.
  destruct (pipes s !! t) as [p|] eqn:Hp; [|done].
  destruct (stage p); try done.
  destruct (workerObjs s !! pipe_worker p) as [wk|]; [|done].
  apply inv_continueConsumeQueue.
  destruct (activeRequestCount wk - 1 =? 0);
    (apply (inv_view s); [|done]);
    by rewrite ?qview_emit_downToZero, qview_upd_worker, qview_set_stage.
Qed.

Lemma qview_bindWorker now cred s : qview (snd (bindWorker now cred s)) = qview s.
Proof.
  unfold bindWorker. destruct (_workerMap (broker s) !! cred) as [item|]; [|done].
  destruct (negb (isCredentialPending cred (broker s))); [done|].
  by destruct (status item).
Qed.

Lemma inv_initialized i res now s : inv s -> inv (bindWorker_initialized i res now s).
Proof.
  intros H. unfold bindWorker_initialized.
  destruct (inits s !! i) as [it|]; [|done].
  destruct (init_pending it); [|done]. destruct res as [e|].
  - by apply (inv_view s).
  - apply inv_tryConsumeQueue. apply (inv_view s); [|done].
    unfold qview; simpl.
    unfold broadcastContainerStatusReport; simpl.
    by destruct (workerObjs s !! init_worker it).
Qed.

Lemma inv_step s e : inv s -> inv (step heapify s e).
Proof.
  intros H. destruct e; simpl.
  - by apply inv_invoke.
  - by apply inv_inspectorStarted.
  - by apply inv_triggered.
  - by apply inv_finished.
  - by apply inv_timeout.
  - apply (inv_view s); [|done]. unfold registerCredential.
    by destruct (isCredentialPending cred (broker s)).
  - apply (inv_view s); [|done]. apply qview_bindWorker.
  - by apply inv_initialized.
  - by apply (inv_view s).
  - apply (inv_view s); [|done]. unfold updateProfile.
    by destruct (negb (String.eqb (profile_name p) (name (broker s)))).
  - by apply inv_fastFail.
  - by apply (inv_view s).
  - apply (inv_view s); [|done].
    destruct (workerObjs s !! w); [apply qview_closeTraffic|done].
  - apply (inv_view s); [|done]. apply qview_closeTraffic_resumed.
Qed.

Lemma inv_exec evs : forall s, inv s -> inv (exec heapify s evs).
Proof.
  induction evs as [|e evs IH]; intros s H; [done|].
  apply IH. by apply inv_step.
Qed.

End WithHeapify.

(** ** The queue status (claim C1) *)

(** C1, counterexample.  The claim reads: after every operation that mutates
    the request queue, the status is PASS_THROUGH exactly when the queue is
    empty.  A request is queued on a broker without workers and its timer
    fires: the queue is empty again and the status is still QUEUEING.  The
    same holds when the queued request is failed fast instead. *)
Lemma queue_empty_while_QUEUEING :
  (let s := exec minToFront (new_State (sample_profile false None) false)
              [EvInvoke 0 "in" (sample_metadata "r1" None); EvTimeout 0 500] in
   ~ (requestQueueStatus (broker s) = PASS_THROUGH
      <-> requestQueue (broker s) = []))
  /\ (let s := exec minToFront (new_State (sample_profile false None) false)
                 [EvInvoke 0 "in" (sample_metadata "r1" None);
                  EvFastFail true "launch failed" 100] in
      ~ (requestQueueStatus (broker s) = PASS_THROUGH
         <-> requestQueue (broker s) = [])).
Proof.
  split; vm_compute; intros [_ H]; specialize (H eq_refl); discriminate H.
Qed.

(** C1, as amended.  In every state the broker reaches, PASS_THROUGH implies
    an empty queue.  An enqueue by [invoke] leaves the broker QUEUEING with
    the request at the tail of the queue, and after every [tryConsumeQueue]
    the status is PASS_THROUGH exactly when the queue is empty.  A timeout
    eviction and a fast fail never touch the status, so they can leave an
    empty queue under QUEUEING. *)
Theorem queue_status_after_queue_operations
    (heapify : (nat -> HeapKey) -> list nat -> list nat)
    (profile : Profile) (opt : bool) (evs : list Event) :
  let s := exec heapify (new_State profile opt) evs in
  (requestQueueStatus (broker s) = PASS_THROUGH -> requestQueue (broker s) = [])
  /\ (forall now inp md rid,
        fst (invoke heapify now inp md s) = InvokeQueued rid ->
        let s' := snd (invoke heapify now inp md s) in
        requestQueueStatus (broker s') = QUEUEING
        /\ requestQueue (broker s') = requestQueue (broker s) ++ [rid])
  /\ (forall now w,
        let s' := tryConsumeQueue now w s in
        requestQueueStatus (broker s') = PASS_THROUGH
        <-> requestQueue (broker s') = [])
  /\ (forall now rid,
        requestQueueStatus (broker (PendingRequest_timeout now rid s))
        = requestQueueStatus (broker s))
  /\ (forall now fatal message,
        requestQueueStatus
          (broker (fastFailAllPendingsDueToStartError now fatal message s))
        = requestQueueStatus (broker s)).
Proof.
  intros s.
  assert (inv s) as [Hok Hst] by (apply inv_exec, inv_new).
  split; [exact Hst|]. split; [|split; [|split]].
  - intros now inp md rid Hres s'. subst s'. revert Hres. unfold invoke.
    pose proof (qview_acquireToken s) as Ha.
    destruct (acquireToken s) as [ok s1]. simpl in Ha.
    destruct ok; simpl; [|done].
    assert (forall s2, qview s2 = qview s ->
              fst (_queueRequest now inp md s2) = InvokeQueued rid ->
              requestQueueStatus (broker (snd (_queueRequest now inp md s2)))
                = QUEUEING
              /\ requestQueue (broker (snd (_queueRequest now inp md s2)))
                 = requestQueue (broker s) ++ [rid]) as Hq.
    { intros s2 Hv Hres.
      destruct (qview_queueRequest now inp md s2) as [(e & He & _)|[Hr Hv2]];
        [congruence|].
      rewrite Hr in Hres. injection Hres as <-.
      apply (f_equal q_status) in Hv2 as E1.
      apply (f_equal q_queue) in Hv2 as E2.
      apply (f_equal q_queue) in Hv as E3.
      apply (f_equal q_requests) in Hv as E4.
      simpl in *. split; [exact E1|]. rewrite E2. by rewrite E3. }
    destruct (requestQueueStatus (broker s1)); [|by apply Hq].
    pose proof (qview_getAvailableWorker heapify s1) as Hg.
    destruct (getAvailableWorker heapify s1) as [[w|] s2]; simpl in Hg.
    + done.
    + apply Hq. congruence.
  - intros now w. by destruct (tryConsumeQueue_ok now w s Hok Hst) as [_ H].
  - intros now rid. apply (timeout_status now rid s).
  - intros now fatal message.
    pose proof (qview_fastFail now fatal message s) as H.
    apply (f_equal q_status) in H. simpl in H. rewrite H.
    by destruct (negb fatal && negb (fastFailRequestsOnStarting (_profile (broker s)))).
Qed.

(** ** Timeout of a pending request (claim C4) *)

Definition timeout_error (p : PendingRequest) : Error :=
  new_RpcError
    ("Waiting for worker has timed out at "
       +:+ string_of_Z (deadline (metadata p))
       +:+ ", request(" +:+ requestId (metadata p) +:+ ").")
    DEADLINE_EXCEEDED.

(** C4.  In every state the broker reaches, a request that is in the queue
    has an armed timer and an unsettled promise; when the timer fires, the
    request's [available] flag is false, its node is gone from the queue (the
    other entries stay), its promise is rejected with a DEADLINE_EXCEEDED
    error, and the histogram records the time since [startEpoch]. *)
Theorem timeout_evicts_and_rejects
    (heapify : (nat -> HeapKey) -> list nat -> list nat)
    (profile : Profile) (opt : bool) (evs : list Event) (rid : nat) (now : Z) :
  let s := exec heapify (new_State profile opt) evs in
  let s' := PendingRequest_timeout now rid s in
  rid ∈ requestQueue (broker s) ->
  exists p,
    requestObjs s !! rid = Some p
    /\ is_armed (timer p) = true
    /\ deferred p = Unsettled
    /\ (exists p', requestObjs s' !! rid = Some p'
                   /\ available p' = false
                   /\ deferred p' = Rejected (timeout_error p)
                   /\ err_code (timeout_error p) = Some DEADLINE_EXCEEDED)
    /\ (rid ∉ requestQueue (broker s'))
    /\ (forall r, r ∈ requestQueue (broker s')
                  <-> r ∈ requestQueue (broker s) /\ r <> rid)
    /\ trace s' = trace s ++ [RequestReject rid (timeout_error p);
                              QueuedRequestDurationRecord (now - startEpoch p)
                                (name (broker s))].
Proof.
  intros s s' Hin.
  assert (inv s) as [Hok Hst] by (apply inv_exec, inv_new).
  destruct (proj1 (ok_queued _ Hok rid) Hin) as (p & Hp & Ha). simpl in Hp.
  destruct (ok_armed _ Hok rid p Hp Ha) as [Hd Hav].
  exists p. split; [done|]. split; [done|]. split; [done|].
  pose proof (qview_timeout now rid s p Hp Ha) as Hv. fold s' in Hv.
  apply (f_equal q_requests) in Hv as Hr. apply (f_equal q_queue) in Hv as Hq.
  simpl in Hr, Hq.
  assert (forall r, r ∈ requestQueue (broker s')
                    <-> r ∈ requestQueue (broker s) /\ r <> rid) as Hmem.
  { intros r. rewrite Hq. apply List_remove_elem_of. apply (ok_nodup _ Hok). }
  split; [|split; [|split; [exact Hmem|]]].
  - eexists. rewrite Hr, list_lookup_alter_eq, Hp. simpl. split; [done|].
    split; [done|]. split; [|done]. simpl. by rewrite Hd.
  - rewrite Hmem. by intros [_ ?].
  - subst s'. unfold PendingRequest_timeout. rewrite Hp, Ha. simpl.
    by rewrite <- app_assoc.
Qed.

(** C4, witness: one request queued at time 0 whose timer fires at 500. *)
Lemma timeout_evicts_and_rejects_witness :
  let s := exec minToFront (new_State (sample_profile false None) false)
             [EvInvoke 0 "in" (sample_metadata "r1" None)] in
  (0%nat ∈ requestQueue (broker s))
  /\ requestQueue (broker (PendingRequest_timeout 500 0 s)) = []
  /\ trace (PendingRequest_timeout 500 0 s)
     = trace s ++ [RequestReject 0
                     (new_RpcError
                        "Waiting for worker has timed out at 500, request(r1)."
                        DEADLINE_EXCEEDED);
                   QueuedRequestDurationRecord 500 "func"].
Proof.
  intros s.
  assert (0%nat ∈ requestQueue (broker s)) as Hin by (vm_compute; left).
  split; [exact Hin|].
  destruct (timeout_evicts_and_rejects minToFront (sample_profile false None)
              false [EvInvoke 0 "in" (sample_metadata "r1" None)] 0%nat 500 Hin)
    as (p & Hp & _ & _ & _ & _ & _ & Htr).
  split; [reflexivity|].
  vm_compute in Hp. injection Hp as <-. exact Htr.
Defined.

(** ** Fast fail (claim C7) *)

(** The calls [fastFailAllPendingsDueToStartError] makes for one entry. *)
Definition fastFail_calls (now : Z) (err : Error) (fn : string)
    (rs : list PendingRequest) (rid : nat) : list Effect :=
  match rs !! rid with
  | Some p => [RequestReject rid err;
               QueuedRequestDurationRecord (now - startEpoch p) fn]
  | None => []
  end.

Lemma fastFail_calls_alter now err fn rs i rid :
  fastFail_calls now err fn (alter (fail_request err) i rs) rid
  = fastFail_calls now err fn rs rid.
Proof.
  unfold fastFail_calls. destruct (decide (i = rid)) as [->|Hne].
  - rewrite list_lookup_alter_eq. destruct (rs !! rid) as [p|]; simpl; [|done].
    unfold fail_request, PendingRequest_stopTimer. by destruct (timer p).
  - by rewrite list_lookup_alter_ne.
Qed.

Lemma fastFail_one_trace now err s rid :
  trace (fastFail_one now err s rid)
  = trace s ++ fastFail_calls now err (name (broker s)) (requestObjs s) rid
  /\ name (broker (fastFail_one now err s rid)) = name (broker s)
  /\ requestObjs (fastFail_one now err s rid)
     = alter (fail_request err) rid (requestObjs s).
Proof.
  pose proof (qview_fastFail_one now err s rid) as Hv.
  apply (f_equal q_requests) in Hv. simpl in Hv.
  split; [|split; [|exact Hv]];
    unfold fastFail_one; try unfold fastFail_calls;
    destruct (requestObjs s !! rid) as [p|]; simpl; try done.
  - by rewrite <- app_assoc.
  - by rewrite app_nil_r.
Qed.

Lemma fastFail_fold_trace now err queue : forall s,
  trace (fold_left (fastFail_one now err) queue s)
  = trace s ++ flat_map (fastFail_calls now err (name (broker s)) (requestObjs s))
                 queue.
Proof.
  induction queue as [|rid rest IH]; intros s; cbn [fold_left flat_map].
  - by rewrite app_nil_r.
  - destruct (fastFail_one_trace now err s rid) as (Ht & Hn & Hr).
    rewrite IH, Ht, Hn, Hr, <- app_assoc. do 2 f_equal.
    apply flat_map_ext. intros r. apply fastFail_calls_alter.
Qed.

Definition is_duration (e : Effect) : bool :=
  match e with QueuedRequestDurationRecord _ _ => true | _ => false end.

(** C7.  In every state the broker reaches: when [fatal] is set or the
    profile has [fastFailRequestsOnStarting], the queue is replaced by an
    empty one, the timer of every entry that was queued is cleared, every
    such entry is rejected with an error carrying the message, and the trace
    grows by one rejection and one duration sample per entry; otherwise the
    call changes nothing. *)
Theorem fastFail_rejects_every_pending
    (heapify : (nat -> HeapKey) -> list nat -> list nat)
    (profile : Profile) (opt : bool) (evs : list Event)
    (now : Z) (fatal : bool) (message : string) :
  let s := exec heapify (new_State profile opt) evs in
  let s' := fastFailAllPendingsDueToStartError now fatal message s in
  let added := flat_map (fastFail_calls now (new_Error message)
                           (name (broker s)) (requestObjs s))
                 (requestQueue (broker s)) in
  if fatal || fastFailRequestsOnStarting (_profile (broker s)) then
    requestQueue (broker s') = []
    /\ (forall rid, rid ∈ requestQueue (broker s) ->
          exists p p',
            requestObjs s !! rid = Some p
            /\ requestObjs s' !! rid = Some p'
            /\ timer p' = Cleared
            /\ deferred p' = Rejected (new_Error message)
            /\ In (RequestReject rid (new_Error message)) added
            /\ In (QueuedRequestDurationRecord (now - startEpoch p)
                     (name (broker s))) added)
    /\ trace s' = trace s ++ added
    /\ length (List.filter is_duration added) = length (requestQueue (broker s))
  else s' = s.
Proof.
  intros s s' added.
  assert (inv s) as [Hok Hst] by (apply inv_exec, inv_new).
  pose proof (qview_fastFail now fatal message s) as Hv. fold s' in Hv.
  assert (negb fatal && negb (fastFailRequestsOnStarting (_profile (broker s)))
          = negb (fatal || fastFailRequestsOnStarting (_profile (broker s))))
    as Hb by (by destruct fatal, (fastFailRequestsOnStarting (_profile (broker s)))).
  destruct (fatal || fastFailRequestsOnStarting (_profile (broker s))) eqn:Hc.
  - rewrite Hb in Hv. simpl in Hv.
    apply (f_equal q_requests) in Hv as Hr. apply (f_equal q_queue) in Hv as Hq.
    simpl in Hr, Hq.
    assert (forall rid, rid ∈ requestQueue (broker s) ->
              exists p, requestObjs s !! rid = Some p
                        /\ is_armed (timer p) = true) as Hall.
    { intros rid Hin. by apply (ok_queued _ Hok). }
    split; [exact Hq|]. split; [|split].
    + intros rid Hin. destruct (Hall rid Hin) as (p & Hp & Ha).
      destruct (ok_armed _ Hok rid p Hp Ha) as [Hd _].
      exists p, (fail_request (new_Error message) p).
      split; [done|]. split.
      { rewrite Hr, fail_all_lookup_in, Hp; [done|apply (ok_nodup _ Hok)|done]. }
      assert (In rid (requestQueue (broker s))) as Hin'
        by (by apply list_elem_of_In).
      split; [|split; [|split]].
      * unfold fail_request, PendingRequest_reject, PendingRequest_stopTimer.
        simpl. by destruct (timer p).
      * unfold fail_request, PendingRequest_reject, PendingRequest_stopTimer.
        simpl. destruct (timer p); simpl; by rewrite Hd.
      * apply in_flat_map. exists rid. split; [done|].
        unfold fastFail_calls. rewrite Hp. by left.
      * apply in_flat_map. exists rid. split; [done|].
        unfold fastFail_calls. rewrite Hp. right. by left.
    + subst s'. unfold fastFailAllPendingsDueToStartError. rewrite Hb. simpl.
      by rewrite fastFail_fold_trace.
    + subst added. revert Hall.
      generalize (requestQueue (broker s)) as q.
      induction q as [|rid rest IH]; intros Hall; [done|].
      cbn [flat_map]. rewrite List.filter_app, length_app, IH.
      * destruct (Hall rid) as (p & Hp & _); [by left|].
        unfold fastFail_calls. rewrite Hp. reflexivity.
      * intros r Hr'. apply Hall. by right.
  - subst s'. unfold fastFailAllPendingsDueToStartError. by rewrite Hb.
Qed.

(** ** What queue operations leave alone *)

(** The fields of the broker that only the credential lifecycle, the profile
    update and the token bucket touch. *)
Definition bstatic (b : WorkerBroker)
    : string * Profile * bool * gmap string WorkerItem * option TokenBucket :=
  (name b, _profile b, inspect b, _workerMap b, tokenBucket b).

Lemma broker_broadcast w ev s :
  broker (broadcastContainerStatusReport w ev s) = broker s.
Proof. unfold broadcastContainerStatusReport. by destruct (workerObjs s !! w). Qed.

Lemma broker_closeTraffic w s : broker (closeTraffic w s) = broker s.
Proof.
  unfold closeTraffic, Worker_closeTraffic.
  destruct (workerObjs (upd_worker w (set_trafficOff true) (emit (CloseTraffic w) s)) !! w)
    as [wk|]; [destruct (activeRequestCount wk <=? 0)|]; done.
Qed.

Lemma broker_closeTraffic_resumed d s :
  broker (closeTraffic_resumed d s) = broker s.
Proof.
  unfold closeTraffic_resumed. destruct (drains s !! d) as [dr|]; [|done].
  destruct (drain_stage dr); try done. by rewrite broker_broadcast.
Qed.

Lemma broker_emit_downToZero w s : broker (emit_downToZero w s) = broker s.
Proof. unfold emit_downToZero. by destruct (workerObjs s !! w). Qed.

Lemma broker_pipe_dispatch w inp md s : broker (pipe_dispatch w inp md s) = broker s.
Proof. unfold pipe_dispatch. by destruct (workerObjs s !! w). Qed.

Lemma broker_pipe w src inp md wait s : broker (pipe w src inp md wait s) = broker s.
Proof.
  unfold pipe. destruct (workerObjs s !! w) as [wk|]; [|done].
  destruct (worker_disposable wk && truthy (md_debuggerTag md)); [done|].
  by rewrite broker_pipe_dispatch.
Qed.

Lemma broker_pipe_settled t p out s : broker (pipe_settled t p out s) = broker s.
Proof.
  unfold pipe_settled. destruct (source p) as [|rid].
  - simpl. destruct (disposable (broker s)); by rewrite ?broker_closeTraffic.
  - destruct out as [e|ret];
      match goal with |- context [if ?c then _ else _] => destruct c end;
      by rewrite ?broker_closeTraffic.
Qed.

Lemma bstatic_consumeQueue now w queue : forall s,
  bstatic (broker (consumeQueue now w queue s)) = bstatic (broker s).
Proof.
  induction queue as [|rid rest IH]; intros s; simpl; [done|].
  destruct (isWorkerFree w s); simpl; [|done].
  destruct (requestObjs s !! rid) as [request|]; [|by rewrite IH].
  destruct (negb (available request)); [by rewrite IH|].
  match goal with |- context [if ?c then _ else _] => destruct c end;
    rewrite ?IH; simpl; unfold pipe_PendingRequest; by rewrite broker_pipe.
Qed.

Lemma bstatic_tryConsumeQueue now w s :
  bstatic (broker (tryConsumeQueue now w s)) = bstatic (broker s).
Proof.
  unfold tryConsumeQueue.
  destruct (requestQueue (broker (consumeQueue now w (requestQueue (broker s)) s)));
    [change (bstatic (broker (consumeQueue now w (requestQueue (broker s)) s))
             = bstatic (broker s))|];
    apply bstatic_consumeQueue.
Qed.

Lemma bstatic_continueConsumeQueue now w s :
  bstatic (broker (continueConsumeQueue now w s)) = bstatic (broker s).
Proof.
  unfold continueConsumeQueue. destruct (workerObjs s !! w) as [wk|]; [|done].
  destruct (worker_disposable wk); [done|].
  destruct (isWorkerFree w s); [|done]. apply bstatic_tryConsumeQueue.
Qed.

Lemma bstatic_queueRequest now inp md s :
  bstatic (broker (snd (_queueRequest now inp md s))) = bstatic (broker s).
Proof.
  unfold _queueRequest, checkRequestQueue.
  by destruct (negb (disableRequestQueue (_profile (broker s)))).
Qed.

Lemma bstatic_timeout now rid s :
  bstatic (broker (PendingRequest_timeout now rid s)) = bstatic (broker s).
Proof.
  unfold PendingRequest_timeout. destruct (requestObjs s !! rid) as [p|]; [|done].
  by destruct (is_armed (timer p)).
Qed.

Lemma bstatic_fastFail_fold now err queue : forall s,
  bstatic (broker (fold_left (fastFail_one now err) queue s)) = bstatic (broker s).
Proof.
  induction queue as [|rid rest IH]; intros s; cbn [fold_left]; [done|].
  rewrite IH. unfold fastFail_one. by destruct (requestObjs s !! rid).
Qed.

Lemma bstatic_fastFail now fatal message s :
  bstatic (broker (fastFailAllPendingsDueToStartError now fatal message s))
  = bstatic (broker s).
Proof.
  unfold fastFailAllPendingsDueToStartError.
  destruct (negb fatal && negb (fastFailRequestsOnStarting (_profile (broker s))));
    [done|].
  by rewrite bstatic_fastFail_fold.
Qed.

Lemma bstatic_inspectorStarted t res s :
  bstatic (broker (pipe_inspectorStarted t res s)) = bstatic (broker s).
Proof.
  unfold pipe_inspectorStarted. destruct (pipes s !! t) as [p|]; [|done].
  destruct (stage p); try done.
  destruct (workerObjs s !! pipe_worker p); [|done].
  destruct res; by rewrite ?broker_pipe_settled, ?broker_pipe_dispatch.
Qed.

Lemma bstatic_triggered t res s :
  bstatic (broker (pipe_triggered t res s)) = bstatic (broker s).
Proof.
  unfold pipe_triggered. destruct (pipes s !! t) as [p|]; [|done].
  destruct (stage p); try done.
  destruct (workerObjs s !! pipe_worker p); [|done].
  destruct res; by rewrite broker_pipe_settled.
Qed.

Lemma bstatic_finished t now s :
  bstatic (broker (pipe_finished t now s)) = bstatic (broker s).
Proof.
  unfold pipe_finished. destruct (pipes s !! t) as [p|]; [|done].
  destruct (stage p); try done.
  destruct (workerObjs s !! pipe_worker p) as [wk|]; [|done].
  rewrite bstatic_continueConsumeQueue.
  destruct (activeRequestCount wk - 1 =? 0); by rewrite ?broker_emit_downToZero.
Qed.

Section Static.

Variable heapify : (nat -> HeapKey) -> list nat -> list nat.

Lemma bstatic_getAvailableWorker s :
  bstatic (broker (snd (getAvailableWorker heapify s))) = bstatic (broker s).
Proof.
  unfold getAvailableWorker. cbv zeta.
  repeat match goal with
         | |- context [match ?x with _ => _ end] => destruct x
         end; reflexivity.
Qed.

(** [invoke] changes nothing of these fields but the token count. *)
Lemma bstatic_invoke now inp md s :
  let b' := broker (snd (invoke heapify now inp md s)) in
  (name b', _profile b', inspect b', _workerMap b')
  = (name (broker s), _profile (broker s), inspect (broker s),
     _workerMap (broker s))
  /\ (tokenBucket b' = None <-> tokenBucket (broker s) = None).
Proof.
  unfold invoke.
  assert (let b1 := broker (snd (acquireToken s)) in
          (name b1, _profile b1, inspect b1, _workerMap b1)
          = (name (broker s), _profile (broker s), inspect (broker s),
             _workerMap (broker s))
          /\ (tokenBucket b1 = None <-> tokenBucket (broker s) = None)) as Ha.
  { unfold acquireToken. destruct (tokenBucket (broker s)) as [tb|] eqn:E.
    - destruct (TokenBucket_acquire tb). simpl. split; [done|]. by split.
    - simpl. split; [done|]. by rewrite E. }
  destruct (acquireToken s) as [ok s1]. simpl in Ha.
  assert (forall s2, bstatic (broker s2) = bstatic (broker s1) ->
            let b' := broker s2 in
            (name b', _profile b', inspect b', _workerMap b')
            = (name (broker s), _profile (broker s), inspect (broker s),
               _workerMap (broker s))
            /\ (tokenBucket b' = None <-> tokenBucket (broker s) = None)) as Hs.
  { intros s2 E b'. subst b'. unfold bstatic in E.
    injection E as -> -> -> -> ->. exact Ha. }
  destruct ok; simpl; [|by apply Hs].
  destruct (requestQueueStatus (broker s1)); [|by apply Hs, bstatic_queueRequest].
  pose proof (bstatic_getAvailableWorker s1) as Hg.
  destruct (getAvailableWorker heapify s1) as [[w|] s2]; simpl in Hg; apply Hs.
  - cbn [snd]. unfold pipe_Input. rewrite broker_pipe. exact Hg.
  - rewrite bstatic_queueRequest. exact Hg.
Qed.

End Static.

(** A registered credential that is still PENDING has no worker, and the
    broker has a token bucket exactly when it was built with one. *)
Definition map_ok (b : WorkerBroker) : Prop :=
  forall cred item, _workerMap b !! cred = Some item ->
    status item = PENDING -> worker item = None.

Definition static_ok (b0 b : WorkerBroker) : Prop :=
  map_ok b /\ (tokenBucket b = None <-> tokenBucket b0 = None).

Lemma static_ok_bstatic b0 b b' :
  bstatic b' = bstatic b -> static_ok b0 b -> static_ok b0 b'.
Proof.
  unfold bstatic, static_ok, map_ok. intros [= _ _ _ Hm Ht]. rewrite Hm, Ht. done.
Qed.

Section StaticSteps.

Variable heapify : (nat -> HeapKey) -> list nat -> list nat.

Lemma static_ok_step b0 s e :
  static_ok b0 (broker s) -> static_ok b0 (broker (step heapify s e)).
Proof.
  intros H. destruct e; simpl.
  - destruct (bstatic_invoke heapify now inp md s) as [Hs Ht].
    simpl in Hs, Ht. injection Hs as _ _ _ Hm.
    destruct H as [H1 H2]. split.
    + unfold map_ok. by rewrite Hm.
    + by rewrite Ht.
  - by apply (static_ok_bstatic _ (broker s)); [apply bstatic_inspectorStarted|].
  - by apply (static_ok_bstatic _ (broker s)); [apply bstatic_triggered|].
  - by apply (static_ok_bstatic _ (broker s)); [apply bstatic_finished|].
  - by apply (static_ok_bstatic _ (broker s)); [apply bstatic_timeout|].
  - unfold registerCredential.
    destruct (isCredentialPending cred (broker s)); [done|]. simpl.
    destruct H as [H1 H2]. split; [|done].
    intros c item. simpl. destruct (decide (cred = c)) as [->|Hne].
    + rewrite lookup_insert_eq. by intros [= <-].
    + rewrite lookup_insert_ne by done. apply H1.
  - unfold bindWorker.
    destruct (_workerMap (broker s) !! cred) as [item|]; [|done].
    destruct (negb (isCredentialPending cred (broker s))); [done|].
    by destruct (status item).
  - unfold bindWorker_initialized.
    destruct (inits s !! i) as [it|]; [|done].
    destruct (init_pending it); [|done]. destruct res as [e|]; [done|].
    apply (static_ok_bstatic _ _ _ (bstatic_tryConsumeQueue _ _ _)).
    simpl. rewrite broker_broadcast. simpl.
    destruct H as [H1 H2]. split; [|done].
    intros c item. simpl. destruct (decide (init_credential it = c)) as [->|Hne].
    + rewrite lookup_insert_eq. by intros [= <-].
    + rewrite lookup_insert_ne by done. apply H1.
  - destruct H as [H1 H2]. split; [|done].
    intros c item. simpl. destruct (decide (cred = c)) as [->|Hne].
    + by rewrite lookup_delete_eq.
    + rewrite lookup_delete_ne by done. apply H1.
  - unfold updateProfile.
    by destruct (negb (String.eqb (profile_name p) (name (broker s)))).
  - by apply (static_ok_bstatic _ (broker s)); [apply bstatic_fastFail|].
  - destruct H as [H1 H2]. split; [done|]. simpl. rewrite <- H2.
    by destruct (tokenBucket (broker s)).
  - destruct (workerObjs s !! w); [by rewrite broker_closeTraffic|done].
  - by rewrite broker_closeTraffic_resumed.
Qed.

Lemma static_ok_exec b0 evs : forall s,
  static_ok b0 (broker s) -> static_ok b0 (broker (exec heapify s evs)).
Proof.
  induction evs as [|e evs IH]; intros s H; [done|].
  apply IH. by apply static_ok_step.
Qed.

Lemma static_ok_new profile opt :
  static_ok (new_WorkerBroker profile opt) (broker (new_State profile opt)).
Proof. split; [|done]. intros cred item. simpl. by rewrite lookup_empty. Qed.

End StaticSteps.

(** ** Worker selection (claim C2) *)

Lemma key_leb_refl a : key_leb a a = true.
Proof. destruct a; simpl; [apply Z.leb_refl|done]. Qed.

Lemma key_leb_trans a b c :
  key_leb a b = true -> key_leb b c = true -> key_leb a c = true.
Proof. destruct a, b, c; simpl; try done. rewrite !Z.leb_le. lia. Qed.

Lemma key_leb_total a b : key_leb a b = false -> key_leb b a = true.
Proof. destruct a, b; simpl; try done. rewrite Z.leb_gt, Z.leb_le. lia. Qed.

Lemma minToFront_perm key l : Permutation (minToFront key l) l.
Proof.
  induction l as [|x rest IH]; simpl; [done|].
  destruct (minToFront key rest) as [|m rest'].
  - apply Permutation_nil in IH. by subst.
  - destruct (key_leb (key x) (key m)).
    + by apply perm_skip.
    + rewrite perm_swap. by apply perm_skip.
Qed.

Lemma minToFront_head key l x rest y :
  minToFront key l = x :: rest -> In y l -> key_leb (key x) (key y) = true.
Proof.
  revert x rest y. induction l as [|a l IH]; intros x rest y; simpl; [done|].
  pose proof (minToFront_perm key l) as Hperm.
  destruct (minToFront key l) as [|m rest'] eqn:E.
  - apply Permutation_nil in Hperm. subst l.
    intros [= <- <-] [<-|[]]. apply key_leb_refl.
  - destruct (key_leb (key a) (key m)) eqn:Hle.
    + intros [= <- <-] [<-|Hy]; [apply key_leb_refl|].
      eapply key_leb_trans; [exact Hle|]. by eapply IH.
    + intros [= <- <-] [<-|Hy]; [by apply key_leb_total|]. by eapply IH.
Qed.

Lemma minToFront_spec : heapify_spec minToFront.
Proof.
  intros key l. split; [apply minToFront_perm|].
  intros x rest E y Hy. by eapply minToFront_head.
Qed.

(** C2.  Given a [heapify] that keeps the elements and puts a least key
    first: a worker [getAvailableWorker] returns is in the heap, has
    [trafficOff = false] and fewer than [maxActivateRequests] active
    requests, and no worker of the heap with [trafficOff = false] has fewer
    active requests; when every such worker is at [maxActivateRequests] or
    above (in particular when there is none) nothing is returned.  The heap
    array itself is only permuted. *)
Theorem getAvailableWorker_least_loaded
    (heapify : (nat -> HeapKey) -> list nat -> list nat)
    (Hheap : heapify_spec heapify) (s : State) :
  (forall w, fst (getAvailableWorker heapify s) = Some w ->
     exists wk,
       workerObjs s !! w = Some wk
       /\ In w (_workerHeap (broker s))
       /\ trafficOff wk = false
       /\ activeRequestCount wk < maxActivateRequests (broker s)
       /\ forall w' wk',
            In w' (_workerHeap (broker s)) -> workerObjs s !! w' = Some wk' ->
            trafficOff wk' = false ->
            activeRequestCount wk <= activeRequestCount wk')
  /\ ((forall w' wk',
         In w' (_workerHeap (broker s)) -> workerObjs s !! w' = Some wk' ->
         trafficOff wk' = false ->
         maxActivateRequests (broker s) <= activeRequestCount wk') ->
      fst (getAvailableWorker heapify s) = None)
  /\ Permutation (_workerHeap (broker (snd (getAvailableWorker heapify s))))
       (_workerHeap (broker s)).
Proof.
  destruct (Hheap (heapKey s) (_workerHeap (broker s))) as [Hperm Hmin].
  assert (forall w, fst (getAvailableWorker heapify s) = Some w ->
     exists wk,
       workerObjs s !! w = Some wk
       /\ In w (_workerHeap (broker s))
       /\ trafficOff wk = false
       /\ activeRequestCount wk < maxActivateRequests (broker s)
       /\ forall w' wk',
            In w' (_workerHeap (broker s)) -> workerObjs s !! w' = Some wk' ->
            trafficOff wk' = false ->
            activeRequestCount wk <= activeRequestCount wk') as Hsel.
  { intros w. unfold getAvailableWorker. cbv zeta. simpl.
    destruct (heapify (heapKey s) (_workerHeap (broker s))) as [|h rest] eqn:E;
      [done|].
    change (maxActivateRequests (set_workerHeap (h :: rest) (broker s)))
      with (maxActivateRequests (broker s)).
    destruct (workerObjs s !! h) as [wk|] eqn:Hw; [|done].
    destruct (trafficOff wk) eqn:Ht; simpl; [done|].
    destruct (activeRequestCount wk <? maxActivateRequests (broker s)) eqn:Hlt;
      simpl; [|done].
    intros [= <-]. exists wk. split; [done|]. split.
    { eapply Permutation_in; [exact Hperm|]. by left. }
    split; [done|]. split; [by apply Z.ltb_lt|].
    intros w' wk' Hin' Hw' Ht'.
    specialize (Hmin h rest eq_refl w' Hin'). unfold heapKey in Hmin.
    rewrite Hw, Hw', Ht, Ht' in Hmin. simpl in Hmin. by apply Z.leb_le. }
  split; [exact Hsel|]. split.
  - intros Hbusy. destruct (fst (getAvailableWorker heapify s)) as [w|] eqn:E;
      [|done].
    destruct (Hsel w eq_refl) as (wk & Hw & Hin & Ht & Hlt & _).
    specialize (Hbusy w wk Hin Hw Ht). lia.
  - unfold getAvailableWorker. cbv zeta. simpl.
    destruct (heapify (heapKey s) (_workerHeap (broker s))) as [|h rest] eqn:E.
    + simpl. by rewrite E.
    + destruct (workerObjs s !! h) as [wk|]; simpl; [|by rewrite E].
      match goal with |- context [if ?c then _ else _] => destruct c end;
        simpl; by rewrite E.
Qed.

(** C2, witness: two bound workers, one of them serving a request. *)
Lemma getAvailableWorker_least_loaded_witness :
  let s := exec minToFront (new_State (sample_profile false None) false)
             [EvRegisterCredential "hello" "world"; EvBindWorker "world" 10;
              EvInit 0 None 20;
              EvRegisterCredential "foo" "bar"; EvBindWorker "bar" 30;
              EvInit 1 None 40;
              EvInvoke 50 "in" (sample_metadata "r1" None)] in
  fst (getAvailableWorker minToFront s) = Some 1%nat
  /\ exists wk, workerObjs s !! 1%nat = Some wk
                /\ trafficOff wk = false
                /\ activeRequestCount wk < maxActivateRequests (broker s).
Proof.
  intros s. split; [reflexivity|].
  destruct (getAvailableWorker_least_loaded minToFront minToFront_spec s)
    as [H _].
  destruct (H 1%nat eq_refl) as (wk & Hw & _ & Ht & Hlt & _). eauto.
Defined.

(** ** Disposable workers (claim C3) *)

(** C3, the code at the failing input.  A disposable broker with one bound,
    idle worker receives a request that carries a [debuggerTag]: [pipe] waits
    for [inspectorStart] before it increments [activeRequestCount].  A second
    request arrives meanwhile; the worker still counts as free, is picked
    again, and both requests are triggered on it before any [closeTraffic]. *)
Lemma disposable_worker_dispatched_twice :
  let s := exec minToFront (new_State (sample_profile true None) false)
             [EvRegisterCredential "hello" "world"; EvBindWorker "world" 10;
              EvInit 0 None 20;
              EvInvoke 30 "a" (sample_metadata "r1" (Some "tag"));
              EvInvoke 31 "b" (sample_metadata "r2" None);
              EvInspectorStart 0 None] in
  disposable (broker s) = true
  /\ maxActivateRequests (broker s) = 1
  /\ trace s
     = [DelegateInit "world" 1010;
        BroadcastContainerStatusReport "func" false "hello" ContainerInstalled;
        DelegateInspectorStart "world";
        DelegateInvoke "world" "b" (sample_metadata "r2" None);
        DelegateInvoke "world" "a" (sample_metadata "r1" (Some "tag"))]
  /\ workerObjs s
     = [{| worker_name := "hello"; credential := "world";
           worker_disposable := true; activeRequestCount := 2;
           trafficOff := false; debuggerTag := Some "tag";
           downToZeroListeners := 0 |}].
Proof. vm_compute. repeat split. Qed.

(** ** Accounting of [activeRequestCount] (claim C10) *)

(** A pipe holds one unit of its worker's count from the increment until the
    [finally] callback of the response has run. *)
Definition holds (w : nat) (k : nat * PipeStage) : bool :=
  Nat.eqb (fst k) w
  && match snd k with AwaitTrigger | AwaitFinish => true | _ => false end.

Definition pipe_key (p : Pipe) : nat * PipeStage := (pipe_worker p, stage p).

Definition owed (w : nat) (s : State) : Z :=
  Z.of_nat (length (List.filter (holds w) (map pipe_key (pipes s)))).

Definition count_of (w : nat) (s : State) : Z :=
  default 0 (map activeRequestCount (workerObjs s) !! w).

(** The units no pipe will give back. *)
Definition leaked (w : nat) (s : State) : Z := count_of w s - owed w s.

Definition wview (s : State) : list Z * list (nat * PipeStage) :=
  (map activeRequestCount (workerObjs s), map pipe_key (pipes s)).

Lemma leaked_wview w s s' : wview s' = wview s -> leaked w s' = leaked w s.
Proof.
  unfold wview, leaked, count_of, owed. intros [= H1 H2]. by rewrite H1, H2.
Qed.

Lemma leaked_wview_count w s s' : wview s' = wview s -> count_of w s' = count_of w s.
Proof. unfold wview, count_of. intros [= H1 H2]. by rewrite H1. Qed.

Lemma map_alter_same {A B} (g : A -> B) (f : A -> A) i (l : list A) :
  (forall x, g (f x) = g x) -> map g (alter f i l) = map g l.
Proof.
  intros H. revert i. induction l as [|x l IH]; intros [|i]; simpl; try done.
  - by rewrite H.
  - f_equal. apply IH.
Qed.

Lemma owed_keys_app w ks k :
  Z.of_nat (length (List.filter (holds w) (ks ++ [k])))
  = Z.of_nat (length (List.filter (holds w) ks)) + (if holds w k then 1 else 0).
Proof.
  rewrite List.filter_app, length_app. simpl. destruct (holds w k); simpl; lia.
Qed.

Lemma owed_keys_alter w (ps : list Pipe) t p f :
  ps !! t = Some p ->
  Z.of_nat (length (List.filter (holds w) (map pipe_key (alter f t ps))))
  = Z.of_nat (length (List.filter (holds w) (map pipe_key ps)))
    - (if holds w (pipe_key p) then 1 else 0)
    + (if holds w (pipe_key (f p)) then 1 else 0).
Proof.
  revert t. induction ps as [|q ps IH]; intros [|t] H; simpl in H; try done.
  - injection H as ->. simpl.
    destruct (holds w (pipe_key p)), (holds w (pipe_key (f p))); simpl; lia.
  - specialize (IH t H). simpl. change (list_alter f t ps) with (alter f t ps).
    destruct (holds w (pipe_key q)); simpl; lia.
Qed.

Lemma count_of_alter w w' f s :
  count_of w (upd_worker w' f s)
  = if decide (w' = w)
    then default 0 (activeRequestCount <$> (f <$> workerObjs s !! w))
    else count_of w s.
Proof.
  unfold count_of, upd_worker, upd_workerObjs. simpl.
  rewrite !list_lookup_fmap. destruct (decide (w' = w)) as [->|Hne].
  - by rewrite list_lookup_alter_eq.
  - by rewrite list_lookup_alter_ne.
Qed.

Lemma wview_emit e s : wview (emit e s) = wview s.
Proof. reflexivity. Qed.

Lemma wview_broadcast w ev s :
  wview (broadcastContainerStatusReport w ev s) = wview s.
Proof. unfold broadcastContainerStatusReport. by destruct (workerObjs s !! w). Qed.

Lemma wview_upd_worker_same w f s :
  (forall x, activeRequestCount (f x) = activeRequestCount x) ->
  wview (upd_worker w f s) = wview s.
Proof.
  intros H. unfold wview, upd_worker, upd_workerObjs. simpl.
  by rewrite map_alter_same.
Qed.

Lemma wview_closeTraffic w s : wview (closeTraffic w s) = wview s.
Proof.
  unfold closeTraffic, Worker_closeTraffic.
  destruct (workerObjs (upd_worker w (set_trafficOff true) (emit (CloseTraffic w) s)) !! w)
    as [wk|]; [destruct (activeRequestCount wk <=? 0)|];
    match goal with |- wview (upd_drains _ ?x) = _ =>
      change (wview x = wview s) end;
    rewrite ?wview_upd_worker_same, ?wview_emit; done.
Qed.

Lemma wview_closeTraffic_resumed d s : wview (closeTraffic_resumed d s) = wview s.
Proof.
  unfold closeTraffic_resumed. destruct (drains s !! d) as [dr|]; [|done].
  destruct (drain_stage dr); try done. by rewrite wview_broadcast.
Qed.

Lemma wview_emit_downToZero w s : wview (emit_downToZero w s) = wview s.
Proof.
  unfold emit_downToZero. destruct (workerObjs s !! w); [|done].
  change (wview (upd_worker w (set_downToZeroListeners 0) s) = wview s).
  by apply wview_upd_worker_same.
Qed.

Lemma wview_upd_request rid f s : wview (upd_request rid f s) = wview s.
Proof. reflexivity. Qed.

Lemma wview_upd_broker f s : wview (upd_broker f s) = wview s.
Proof. reflexivity. Qed.

Lemma wview_pipe_settled t p out s : wview (pipe_settled t p out s) = wview s.
Proof.
  unfold pipe_settled. destruct (source p) as [|rid].
  - rewrite wview_emit. destruct (disposable (broker s));
      by rewrite ?wview_closeTraffic.
  - destruct out as [e|ret];
      match goal with |- context [if ?c then _ else _] => destruct c end;
      by rewrite ?wview_closeTraffic, wview_emit, wview_upd_request.
Qed.

Lemma owed_emit w e s : owed w (emit e s) = owed w s.
Proof. reflexivity. Qed.

Lemma owed_upd_worker w w' f s : owed w (upd_worker w' f s) = owed w s.
Proof. reflexivity. Qed.

Lemma count_of_emit w e s : count_of w (emit e s) = count_of w s.
Proof. reflexivity. Qed.

Lemma count_of_upd_pipes w f s : count_of w (upd_pipes f s) = count_of w s.
Proof. reflexivity. Qed.

Lemma count_of_upd_pipe w t f s : count_of w (upd_pipe t f s) = count_of w s.
Proof. reflexivity. Qed.

Lemma owed_add_pipe w p s :
  owed w (upd_pipes (fun ps => ps ++ [p]) s)
  = owed w s + (if holds w (pipe_key p) then 1 else 0).
Proof.
  unfold owed, upd_pipes. cbn [pipes]. rewrite map_app. apply owed_keys_app.
Qed.

Lemma owed_set_stage w t st p s :
  pipes s !! t = Some p ->
  owed w (upd_pipe t (set_stage st) s)
  = owed w s - (if holds w (pipe_key p) then 1 else 0)
    + (if holds w (pipe_worker p, st) then 1 else 0).
Proof.
  intros H. unfold owed, upd_pipe, upd_pipes. cbn [pipes].
  by rewrite (owed_keys_alter w (pipes s) t p (set_stage st) H).
Qed.

Lemma count_of_lookup w s wk :
  workerObjs s !! w = Some wk -> count_of w s = activeRequestCount wk.
Proof. intros H. unfold count_of. by rewrite list_lookup_fmap, H. Qed.

Lemma count_of_set w w' n s wk :
  workerObjs s !! w' = Some wk ->
  count_of w (upd_worker w' (set_activeRequestCount n) s)
  = if decide (w' = w) then n else count_of w s.
Proof.
  intros H. rewrite count_of_alter. destruct (decide (w' = w)) as [<-|]; [|done].
  by rewrite H.
Qed.

Lemma count_of_incr w w' s wk :
  workerObjs s !! w' = Some wk ->
  count_of w (upd_worker w'
                (fun wk => set_activeRequestCount (activeRequestCount wk + 1) wk) s)
  = if decide (w' = w) then activeRequestCount wk + 1 else count_of w s.
Proof.
  intros H. rewrite count_of_alter. destruct (decide (w' = w)) as [<-|]; [|done].
  by rewrite H.
Qed.

Lemma holds_eq w w' st :
  holds w (w', st)
  = Nat.eqb w' w
    && match st with AwaitTrigger | AwaitFinish => true | _ => false end.
Proof. reflexivity. Qed.

Lemma leaked_pipe_dispatch w0 w inp md s wk :
  workerObjs s !! w = Some wk ->
  count_of w0 (pipe_dispatch w inp md s)
  = count_of w0 s + (if Nat.eqb w w0 then 1 else 0)
  /\ owed w0 (pipe_dispatch w inp md s) = owed w0 s.
Proof.
  intros Hw. unfold pipe_dispatch. rewrite Hw. split; [|done].
  rewrite count_of_emit, (count_of_incr _ _ _ wk Hw).
  destruct (decide (w = w0)) as [->|Hne].
  - rewrite Nat.eqb_refl. by rewrite (count_of_lookup _ _ _ Hw).
  - apply Nat.eqb_neq in Hne. rewrite Hne. lia.
Qed.

(** The increment and the pipe that holds it come together. *)
Lemma leaked_pipe w0 w src inp md wait s :
  leaked w0 (pipe w src inp md wait s) = leaked w0 s.
Proof.
  unfold pipe. destruct (workerObjs s !! w) as [wk|] eqn:Hw; [|done].
  destruct (worker_disposable wk && truthy (md_debuggerTag md)).
  - unfold leaked. rewrite owed_emit, owed_upd_worker, owed_add_pipe.
    rewrite count_of_emit.
    rewrite (leaked_wview_count w0 _ _
               (wview_upd_worker_same w (set_debuggerTag (md_debuggerTag md)) _
                  (fun _ => eq_refl))).
    rewrite count_of_upd_pipes. unfold pipe_key; simpl. rewrite holds_eq.
    rewrite andb_false_r. lia.
  - match goal with |- context [pipe_dispatch w inp md ?s1] =>
      destruct (leaked_pipe_dispatch w0 w inp md s1 wk Hw) as [Hc Ho] end.
    unfold leaked. rewrite Hc, Ho, owed_add_pipe, count_of_upd_pipes.
    unfold pipe_key; simpl. rewrite holds_eq, andb_true_r.
    destruct (Nat.eqb w w0); lia.
Qed.

Lemma leaked_consumeQueue w0 now w queue : forall s,
  leaked w0 (consumeQueue now w queue s) = leaked w0 s.
Proof.
  induction queue as [|rid rest IH]; intros s; simpl; [done|].
  destruct (isWorkerFree w s); simpl; [|done].
  destruct (requestObjs s !! rid) as [request|]; [|by rewrite IH].
  destruct (negb (available request)); [by rewrite IH|].
  match goal with |- context [if ?c then _ else _] => destruct c end;
    rewrite ?IH; unfold pipe_PendingRequest;
    rewrite (leaked_wview w0 _ _ (wview_emit _ _)), leaked_pipe; done.
Qed.

Lemma leaked_tryConsumeQueue w0 now w s :
  leaked w0 (tryConsumeQueue now w s) = leaked w0 s.
Proof.
  unfold tryConsumeQueue.
  destruct (requestQueue (broker (consumeQueue now w (requestQueue (broker s)) s)));
    [rewrite (leaked_wview w0 _ _ (wview_upd_broker _ _))|];
    apply leaked_consumeQueue.
Qed.

Lemma leaked_continueConsumeQueue w0 now w s :
  leaked w0 (continueConsumeQueue now w s) = leaked w0 s.
Proof.
  unfold continueConsumeQueue. destruct (workerObjs s !! w) as [wk|]; [|done].
  destruct (worker_disposable wk); [done|].
  destruct (isWorkerFree w s); [|done]. apply leaked_tryConsumeQueue.
Qed.

Lemma wview_queueRequest now inp md s :
  wview (snd (_queueRequest now inp md s)) = wview s.
Proof.
  unfold _queueRequest, checkRequestQueue.
  by destruct (negb (disableRequestQueue (_profile (broker s)))).
Qed.

Lemma wview_timeout now rid s : wview (PendingRequest_timeout now rid s) = wview s.
Proof.
  unfold PendingRequest_timeout. destruct (requestObjs s !! rid) as [p|]; [|done].
  by destruct (is_armed (timer p)).
Qed.

Lemma wview_fastFail_fold now err queue : forall s,
  wview (fold_left (fastFail_one now err) queue s) = wview s.
Proof.
  induction queue as [|rid rest IH]; intros s; cbn [fold_left]; [done|].
  rewrite IH. unfold fastFail_one. by destruct (requestObjs s !! rid).
Qed.

Lemma wview_fastFail now fatal message s :
  wview (fastFailAllPendingsDueToStartError now fatal message s) = wview s.
Proof.
  unfold fastFailAllPendingsDueToStartError.
  destruct (negb fatal && negb (fastFailRequestsOnStarting (_profile (broker s))));
    [done|].
  by rewrite wview_fastFail_fold.
Qed.

Lemma leaked_inspectorStarted w0 t res s :
  leaked w0 (pipe_inspectorStarted t res s) = leaked w0 s.
Proof.
  unfold pipe_inspectorStarted. destruct (pipes s !! t) as [p|] eqn:Hp; [|done].
  destruct (stage p) eqn:Hst; try done.
  destruct (workerObjs s !! pipe_worker p) as [wk|] eqn:Hw; [|done].
  destruct res as [e|].
  - rewrite (leaked_wview w0 _ _ (wview_pipe_settled _ _ _ _)).
    unfold leaked. rewrite count_of_upd_pipe, (owed_set_stage _ _ _ p) by done.
    unfold pipe_key. rewrite Hst, !holds_eq, !andb_false_r. lia.
  - match goal with |- context [pipe_dispatch ?w ?i ?m ?s1] =>
      destruct (leaked_pipe_dispatch w0 w i m s1 wk Hw) as [Hc Ho] end.
    unfold leaked. rewrite Hc, Ho, count_of_upd_pipe,
      (owed_set_stage _ _ _ p) by done.
    unfold pipe_key. rewrite Hst, !holds_eq, andb_false_r, andb_true_r.
    destruct (Nat.eqb (pipe_worker p) w0); lia.
Qed.

(** A trigger that succeeds hands the unit on to the [finish] callback; one
    that fails drops it. *)
Lemma leaked_triggered w0 t res s :
  leaked w0 (pipe_triggered t res s)
  = leaked w0 s
    + match pipes s !! t, res with
      | Some p, inl _ =>
          match stage p, workerObjs s !! pipe_worker p with
          | AwaitTrigger, Some _ => if Nat.eqb (pipe_worker p) w0 then 1 else 0
          | _, _ => 0
          end
      | _, _ => 0
      end.
Proof.
  unfold pipe_triggered. destruct (pipes s !! t) as [p|] eqn:Hp; [|lia].
  destruct (stage p) eqn:Hst; try (destruct res; lia).
  destruct (workerObjs s !! pipe_worker p) as [wk|] eqn:Hw; [|destruct res; lia].
  destruct res as [e|ret];
    rewrite (leaked_wview w0 _ _ (wview_pipe_settled _ _ _ _));
    unfold leaked; rewrite count_of_upd_pipe, (owed_set_stage _ _ _ p) by done;
    unfold pipe_key; rewrite Hst, !holds_eq, ?andb_false_r, ?andb_true_r;
    destruct (Nat.eqb (pipe_worker p) w0); lia.
Qed.

Lemma leaked_finished w0 t now s :
  leaked w0 (pipe_finished t now s) = leaked w0 s.
Proof.
  unfold pipe_finished. destruct (pipes s !! t) as [p|] eqn:Hp; [|done].
  destruct (stage p) eqn:Hst; try done.
  destruct (workerObjs s !! pipe_worker p) as [wk|] eqn:Hw; [|done].
  rewrite leaked_continueConsumeQueue.
  match goal with
  | |- leaked _ (if ?c then emit_downToZero ?w ?s2 else _) = _ =>
      assert (leaked w0 (if c then emit_downToZero w s2 else s2) = leaked w0 s2)
        as -> by (destruct c; [apply leaked_wview, wview_emit_downToZero|done])
  end.
  unfold leaked. rewrite owed_upd_worker, (owed_set_stage _ _ _ p) by done.
  rewrite (count_of_set _ _ _ _ wk) by done. rewrite count_of_upd_pipe.
  unfold pipe_key. rewrite Hst, !holds_eq, andb_false_r, andb_true_r.
  rewrite <- (count_of_lookup _ _ _ Hw).
  destruct (decide (pipe_worker p = w0)) as [E|Hne].
  - rewrite <- E, Nat.eqb_refl. lia.
  - apply Nat.eqb_neq in Hne. rewrite Hne. lia.
Qed.

Lemma leaked_bindWorker w0 now cred s :
  leaked w0 (snd (bindWorker now cred s)) = leaked w0 s.
Proof.
  unfold bindWorker. destruct (_workerMap (broker s) !! cred) as [item|]; [|done].
  destruct (negb (isCredentialPending cred (broker s))); [done|].
  destruct (status item); [|done]. simpl.
  unfold leaked, owed, count_of. simpl. f_equal. rewrite map_app. simpl.
  destruct (decide (w0 < length (map activeRequestCount (workerObjs s)))%nat).
  - by rewrite lookup_app_l.
  - apply not_lt in n.
    rewrite lookup_app_r by exact n.
    rewrite (proj2 (lookup_ge_None _ _) n).
    by destruct (w0 - length (map activeRequestCount (workerObjs s)))%nat
      as [|[|k]].
Qed.

Lemma leaked_initialized w0 i res now s :
  leaked w0 (bindWorker_initialized i res now s) = leaked w0 s.
Proof.
  unfold bindWorker_initialized. destruct (inits s !! i) as [it|]; [|done].
  destruct (init_pending it); [|done]. destruct res as [e|]; [done|].
  rewrite leaked_tryConsumeQueue. apply leaked_wview.
  rewrite wview_upd_broker, wview_broadcast. done.
Qed.

Section Accounting.

Variable heapify : (nat -> HeapKey) -> list nat -> list nat.

Lemma wview_getAvailableWorker s :
  wview (snd (getAvailableWorker heapify s)) = wview s.
Proof.
  unfold getAvailableWorker. cbv zeta.
  repeat match goal with
         | |- context [match ?x with _ => _ end] => destruct x
         end; reflexivity.
Qed.

Lemma leaked_invoke w0 now inp md s :
  leaked w0 (snd (invoke heapify now inp md s)) = leaked w0 s.
Proof.
  unfold invoke.
  assert (wview (snd (acquireToken s)) = wview s) as Ha.
  { unfold acquireToken. destruct (tokenBucket (broker s)) as [tb|]; [|done].
    by destruct (TokenBucket_acquire tb). }
  destruct (acquireToken s) as [ok s1]. simpl in Ha.
  rewrite <- (leaked_wview w0 _ _ Ha).
  destruct ok; simpl; [|done].
  destruct (requestQueueStatus (broker s1));
    [|by apply leaked_wview, wview_queueRequest].
  pose proof (wview_getAvailableWorker s1) as Hg.
  destruct (getAvailableWorker heapify s1) as [[w|] s2]; simpl in Hg;
    rewrite <- (leaked_wview w0 _ _ Hg).
  - apply leaked_pipe.
  - by apply leaked_wview, wview_queueRequest.
Qed.

(** Only a failed trigger changes what is leaked, and it adds one. *)
Lemma leaked_step w0 s e :
  leaked w0 (step heapify s e)
  = leaked w0 s
    + match e with
      | EvTrigger t (inl _) =>
          match pipes s !! t with
          | Some p =>
              match stage p, workerObjs s !! pipe_worker p with
              | AwaitTrigger, Some _ =>
                  if Nat.eqb (pipe_worker p) w0 then 1 else 0
              | _, _ => 0
              end
          | None => 0
          end
      | _ => 0
      end.
Proof.
  destruct e; simpl; rewrite ?Z.add_0_r.
  - apply leaked_invoke.
  - apply leaked_inspectorStarted.
  - rewrite leaked_triggered. destruct (pipes s !! t); destruct res; done.
  - apply leaked_finished.
  - apply leaked_wview, wview_timeout.
  - unfold registerCredential. by destruct (isCredentialPending cred (broker s)).
  - apply leaked_bindWorker.
  - apply leaked_initialized.
  - done.
  - unfold updateProfile.
    by destruct (negb (String.eqb (profile_name p) (name (broker s)))).
  - apply leaked_wview, wview_fastFail.
  - done.
  - destruct (workerObjs s !! w); [apply leaked_wview, wview_closeTraffic|done].
  - apply leaked_wview, wview_closeTraffic_resumed.
Qed.

Lemma leaked_exec_le w0 evs : forall s,
  leaked w0 s <= leaked w0 (exec heapify s evs).
Proof.
  induction evs as [|e evs IH]; intros s; [simpl; lia|].
  etransitivity; [|apply IH]. rewrite leaked_step.
  destruct e; try lia. destruct res; try lia.
  destruct (pipes s !! t) as [p|]; [|lia].
  destruct (stage p), (workerObjs s !! pipe_worker p),
    (Nat.eqb (pipe_worker p) w0); lia.
Qed.

End Accounting.

(** C10.  When the delegate's [trigger] of a pipe throws, the worker's
    [activeRequestCount] stays at the value the pipe incremented it to, the
    pipe is settled and its [finish] callback never runs, and the unit is
    lost for good: over any later events the count stays at least one above
    what the pipes still in flight account for. *)
Theorem failed_trigger_keeps_count
    (heapify : (nat -> HeapKey) -> list nat -> list nat)
    (s : State) (t : nat) (p : Pipe) (wk : Worker) (e : Error) :
  pipes s !! t = Some p ->
  stage p = AwaitTrigger ->
  workerObjs s !! pipe_worker p = Some wk ->
  let w := pipe_worker p in
  let s' := pipe_triggered t (inl e) s in
  (activeRequestCount <$> workerObjs s' !! w) = Some (activeRequestCount wk)
  /\ (stage <$> pipes s' !! t) = Some Settled
  /\ (forall now, pipe_finished t now s' = s')
  /\ leaked w s' = leaked w s + 1
  /\ (forall evs, leaked w s + 1 <= leaked w (exec heapify s' evs))
  /\ (forall inp md,
        activeRequestCount <$> workerObjs (pipe_dispatch w inp md s) !! w
        = Some (activeRequestCount wk + 1)).
Proof.
  intros Hp Hst Hw w s'.
  assert (wview s' = wview (upd_pipe t (set_stage Settled) s)) as Hv.
  { subst s'. unfold pipe_triggered. rewrite Hp, Hst, Hw.
    apply wview_pipe_settled. }
  assert (leaked w s' = leaked w s + 1) as Hl.
  { subst s'. rewrite leaked_triggered, Hp, Hst, Hw. subst w.
    by rewrite Nat.eqb_refl. }
  split; [|split; [|split; [|split; [exact Hl|split]]]].
  - injection Hv as Hc _. simpl in Hc.
    apply (f_equal (fun l => l !! w)) in Hc.
    rewrite !list_lookup_fmap in Hc. rewrite Hc. subst w.
    unfold upd_pipe, upd_pipes. cbn [workerObjs].
    by rewrite Hw.
  - injection Hv as _ Hk. simpl in Hk.
    apply (f_equal (fun l => snd <$> l !! t)) in Hk.
    rewrite !list_lookup_fmap, list_lookup_alter_eq, Hp in Hk. simpl in Hk.
    destruct (pipes s' !! t) as [p'|]; simpl in *; [|done].
    by injection Hk as ->.
  - intros now. unfold pipe_finished.
    injection Hv as _ Hk. simpl in Hk.
    apply (f_equal (fun l => snd <$> l !! t)) in Hk.
    rewrite !list_lookup_fmap, list_lookup_alter_eq, Hp in Hk. simpl in Hk.
    destruct (pipes s' !! t) as [p'|]; simpl in *; [|done].
    injection Hk as ->. done.
  - intros evs. rewrite <- Hl. apply leaked_exec_le.
  - intros inp md. subst w. unfold pipe_dispatch. rewrite Hw. simpl.
    by rewrite list_lookup_alter_eq, Hw.
Qed.

(** C10, witness: a dispatched request whose trigger throws. *)
Lemma failed_trigger_keeps_count_witness :
  let s := exec minToFront (new_State (sample_profile false None) false)
             [EvRegisterCredential "hello" "world"; EvBindWorker "world" 10;
              EvInit 0 None 20;
              EvInvoke 30 "in" (sample_metadata "r1" None)] in
  let s' := pipe_triggered 0 (inl (new_Error "boom")) s in
  (activeRequestCount <$> workerObjs s !! 0%nat) = Some 1
  /\ (activeRequestCount <$> workerObjs s' !! 0%nat) = Some 1
  /\ leaked 0 s' = leaked 0 s + 1.
Proof.
  intros s s'. split; [reflexivity|].
  destruct (pipes s !! 0%nat) as [p|] eqn:Hp; [|discriminate Hp].
  destruct (workerObjs s !! 0%nat) as [wk|] eqn:Hw; [|discriminate Hw].
  assert (stage p = AwaitTrigger) as Hst
    by (vm_compute in Hp; injection Hp as <-; reflexivity).
  assert (pipe_worker p = 0%nat) as Hpw
    by (vm_compute in Hp; injection Hp as <-; reflexivity).
  assert (activeRequestCount wk = 1) as Hc
    by (vm_compute in Hw; injection Hw as <-; reflexivity).
  assert (workerObjs s !! pipe_worker p = Some wk) as Hw'
    by (rewrite Hpw; exact Hw).
  destruct (failed_trigger_keeps_count minToFront s 0%nat p wk
              (new_Error "boom") Hp Hst Hw') as (H1 & _ & _ & H4 & _).
  rewrite Hpw in H1, H4. rewrite Hc in H1. split; [exact H1|exact H4].
Defined.

(** ** Further properties of the broker *)

Lemma owed_nonneg w s : 0 <= owed w s.
Proof. unfold owed. lia. Qed.

(** X1.  In every state the broker reaches, no worker has a negative
    [activeRequestCount]. *)
Theorem activeRequestCount_never_negative
    (heapify : (nat -> HeapKey) -> list nat -> list nat)
    (profile : Profile) (opt : bool) (evs : list Event) :
  Forall (fun wk => 0 <= activeRequestCount wk)
    (workerObjs (exec heapify (new_State profile opt) evs)).
Proof.
  apply Forall_lookup. intros w wk Hw.
  pose proof (leaked_exec_le heapify w evs (new_State profile opt)) as Hle.
  pose proof (owed_nonneg w (exec heapify (new_State profile opt) evs)) as Ho.
  unfold leaked in Hle. rewrite (count_of_lookup _ _ _ Hw) in Hle.
  change (count_of w (new_State profile opt)) with 0 in Hle.
  change (owed w (new_State profile opt)) with 0 in Hle. lia.
Qed.

(** *** Arrival order *)

(** The call of [Worker.pipe] that [tryConsumeQueue] makes for a queued
    request: on the worker it was given, with the request's input and
    metadata and the time the request has waited. *)
Definition served (now : Z) (w : nat) (s : State) (rid : nat) (p : Pipe) : Prop :=
  pipe_worker p = w /\ source p = FromQueue rid
  /\ exists request,
       requestObjs s !! rid = Some request
       /\ pipe_input p = input request
       /\ pipe_metadata p = metadata request
       /\ waitMs p = now - startEpoch request.

Lemma pipes_pipe w src inp md wait s wk :
  workerObjs s !! w = Some wk ->
  exists st,
    pipes (pipe w src inp md wait s)
    = pipes s ++ [{| pipe_worker := w; source := src; pipe_input := inp;
                     pipe_metadata := md; waitMs := wait; stage := st |}].
Proof.
  intros Hw. unfold pipe. rewrite Hw.
  destruct (worker_disposable wk && truthy (md_debuggerTag md)).
  - by eexists.
  - unfold pipe_dispatch. simpl. rewrite Hw. by eexists.
Qed.

(** The loop of [tryConsumeQueue] hands the worker a prefix of the queue,
    in queue order, leaves the rest of the queue as it was, and stops only
    when the queue is empty, the worker is not free any more, or the broker
    is disposable and one request was handed over. *)
Lemma consumeQueue_serves now w queue : forall s,
  queue_ok (qview s) -> requestQueue (broker s) = queue ->
  exists taken news,
    queue = taken ++ requestQueue (broker (consumeQueue now w queue s))
    /\ pipes (consumeQueue now w queue s) = pipes s ++ news
    /\ Forall2 (served now w s) taken news
    /\ (disposable (broker s) = true -> (length taken <= 1)%nat)
    /\ (requestQueue (broker (consumeQueue now w queue s)) = []
        \/ isWorkerFree w (consumeQueue now w queue s) = false
        \/ (disposable (broker s) = true /\ length taken = 1%nat)).
Proof.
  induction queue as [|rid rest IH]; intros s Hok Hq.
  - exists [], []. simpl. rewrite Hq, !app_nil_r.
    repeat split; [constructor|lia|by left].
  - cbn [consumeQueue]. destruct (isWorkerFree w s) eqn:Hfree; simpl.
    + assert (rid ∈ q_queue (qview s)) as Hin by (simpl; rewrite Hq; left).
      apply (ok_queued _ Hok) in Hin as (request & Hp & Ha). simpl in Hp.
      rewrite Hp. destruct (ok_armed _ Hok rid request Hp Ha) as [_ ->]. simpl.
      set (s1 := upd_request rid PendingRequest_stopTimer
                   (upd_broker (set_requestQueue rest) s)).
      assert (queue_ok (qview s1)) as Hok1.
      { pose proof (queue_ok_disarm (qview s) rid PendingRequest_stopTimer
                      (q_status (qview s)) Hok is_armed_stopTimer) as H.
        simpl in H. rewrite Hq in H. simpl in H. by rewrite Nat.eqb_refl in H. }
      set (s2 := pipe_PendingRequest now w rid request s1).
      assert (exists wk, workerObjs s !! w = Some wk) as [wk Hw].
      { unfold isWorkerFree in Hfree. destruct (workerObjs s !! w); [eauto|done]. }
      assert (qview s2 = {| q_queue := rest; q_status := q_status (qview s);
                            q_requests := q_requests (qview s1);
                            q_sources := q_sources (qview s) ++ [FromQueue rid] |})
        as Hv2.
      { subst s2. unfold pipe_PendingRequest.
        unfold pipe. change (workerObjs s1) with (workerObjs s). rewrite Hw.
        destruct (worker_disposable wk && truthy (md_debuggerTag (metadata request))).
        - rewrite qview_emit, qview_upd_worker. unfold qview; simpl.
          by rewrite map_app.
        - rewrite qview_pipe_dispatch. unfold qview; simpl. by rewrite map_app. }
      destruct (pipes_pipe w (FromQueue rid) (input request) (metadata request)
                  (now - startEpoch request) s1 wk Hw) as [st Hps].
      change (pipes s1) with (pipes s) in Hps.
      fold (pipe_PendingRequest now w rid request s1) in Hps. fold s2 in Hps.
      assert (queue_ok (qview s2)) as Hok2.
      { subst s2. apply queue_ok_pipe; [done|]. intros r [= <-].
        exists (PendingRequest_stopTimer request). split.
        - subst s1. simpl. by rewrite list_lookup_alter_eq, Hp.
        - apply is_armed_stopTimer. }
      apply (f_equal q_queue) in Hv2 as Hq2.
      apply (f_equal q_requests) in Hv2 as Hr2. simpl in Hq2, Hr2.
      assert (disposable (broker s2) = disposable (broker s)) as Hd2.
      { subst s2. unfold pipe_PendingRequest. by rewrite broker_pipe. }
      assert (served now w s rid
                {| pipe_worker := w; source := FromQueue rid;
                   pipe_input := input request;
                   pipe_metadata := metadata request;
                   waitMs := now - startEpoch request; stage := st |}) as Hserved.
      { split; [done|]. split; [done|]. by exists request. }
      change (disposable
                (broker (emit (QueuedRequestDurationRecord
                                 (now - startEpoch request) (name (broker s2)))
                           s2)))
        with (disposable (broker s2)).
      destruct (disposable (broker s2)) eqn:Hd.
      * exists [rid], [{| pipe_worker := w; source := FromQueue rid;
                          pipe_input := input request;
                          pipe_metadata := metadata request;
                          waitMs := now - startEpoch request; stage := st |}].
        simpl. rewrite Hq2, Hps. split; [done|]. split; [done|].
        split; [constructor; [exact Hserved|constructor]|]. split; [lia|].
        right. right. split; [congruence|done].
      * match goal with |- context [consumeQueue _ _ _ ?s3] =>
          destruct (IH s3) as (taken & news & Ht1 & Ht2 & Ht3 & _ & Ht5);
            [by rewrite qview_emit|exact Hq2|] end.
        exists (rid :: taken),
          ({| pipe_worker := w; source := FromQueue rid;
              pipe_input := input request; pipe_metadata := metadata request;
              waitMs := now - startEpoch request; stage := st |} :: news).
        split; [simpl; by rewrite <- Ht1|].
        split; [rewrite Ht2; simpl; by rewrite Hps, <- app_assoc|].
        split.
        { constructor; [done|]. eapply Forall2_impl; [exact Ht3|].
          intros r q (Hq1 & Hq3 & r3 & Hr3 & Hi & Hm & Hwt).
          split; [done|]. split; [done|]. simpl in Hr3. rewrite Hr2 in Hr3.
          subst s1. simpl in Hr3.
          destruct (decide (rid = r)) as [<-|Hne].
          - rewrite list_lookup_alter_eq, Hp in Hr3. simpl in Hr3.
            injection Hr3 as <-. exists request. split; [done|].
            rewrite Hi, Hm, Hwt. unfold PendingRequest_stopTimer.
            by destruct (timer request).
          - rewrite list_lookup_alter_ne in Hr3 by done. by exists r3. }
        split; [intros Hd'; congruence|].
        destruct Ht5 as [Ht5|[Ht5|[Ht5 _]]]; [by left|right; by left|].
        simpl in Ht5. congruence.
    + exists [], []. simpl. rewrite Hq, !app_nil_r.
      repeat split; [constructor|lia|right; by left].
Qed.

(** X2.  In every state the broker reaches, [tryConsumeQueue] hands the
    worker it is given a prefix of the queue, in arrival order: one call of
    [Worker.pipe] on that worker per request, with the request's input and
    metadata and its waiting time; it leaves the rest queued, and it stops
    only when the queue is empty, the worker is not free any more, or the
    broker is disposable and one request was handed over. *)
Theorem tryConsumeQueue_serves_in_arrival_order
    (heapify : (nat -> HeapKey) -> list nat -> list nat)
    (profile : Profile) (opt : bool) (evs : list Event) (now : Z) (w : nat) :
  let s := exec heapify (new_State profile opt) evs in
  let s' := tryConsumeQueue now w s in
  exists taken news,
    requestQueue (broker s) = taken ++ requestQueue (broker s')
    /\ pipes s' = pipes s ++ news
    /\ Forall2 (served now w s) taken news
    /\ (disposable (broker s) = true -> (length taken <= 1)%nat)
    /\ (requestQueue (broker s') = []
        \/ isWorkerFree w s' = false
        \/ (disposable (broker s) = true /\ length taken = 1%nat)).
Proof.
  intros s s'.
  assert (inv s) as [Hok _] by (apply inv_exec, inv_new).
  destruct (consumeQueue_serves now w (requestQueue (broker s)) s Hok eq_refl)
    as (taken & news & H1 & H2 & H3 & H4 & H5).
  exists taken, news. subst s'. unfold tryConsumeQueue.
  destruct (requestQueue (broker (consumeQueue now w (requestQueue (broker s)) s)))
    eqn:E; simpl; rewrite ?E; [|done].
  rewrite app_nil_r in H1. rewrite app_nil_r.
  repeat split; try done.
Qed.

(** *** Draining a disposable worker *)

Lemma closeTraffic_effect w s wk :
  workerObjs s !! w = Some wk ->
  (exists after, trace (closeTraffic w s) = trace s ++ CloseTraffic w :: after)
  /\ (trafficOff <$> workerObjs (closeTraffic w s) !! w) = Some true.
Proof.
  intros Hw. unfold closeTraffic, Worker_closeTraffic.
  change (workerObjs (upd_worker w (set_trafficOff true) (emit (CloseTraffic w) s)))
    with (alter (set_trafficOff true) w (workerObjs s)).
  rewrite list_lookup_alter_eq, Hw. simpl.
  destruct (activeRequestCount wk <=? 0); simpl;
    rewrite ?list_lookup_alter_eq, Hw; simpl; (split; [|done]); by exists [].
Qed.

(** X3.  On a disposable broker, once the pipe of a request settles, with a
    response or with an error, for [invoke] as for [tryConsumeQueue],
    [closeTraffic] is called on the worker and its traffic is off. *)
Theorem disposable_closeTraffic_when_pipe_settles
    (t : nat) (p : Pipe) (out : Error + TriggerResponse) (s : State)
    (wk : Worker) :
  disposable (broker s) = true ->
  workerObjs s !! pipe_worker p = Some wk ->
  let s' := pipe_settled t p out s in
  In (CloseTraffic (pipe_worker p)) (trace s')
  /\ (trafficOff <$> workerObjs s' !! pipe_worker p) = Some true.
Proof.
  intros Hd Hw s'. subst s'. unfold pipe_settled.
  destruct (source p) as [|rid].
  - rewrite Hd. destruct (closeTraffic_effect _ _ _ Hw) as [[after Ht] Hoff].
    simpl. rewrite Ht. split; [|done].
    apply in_or_app. left. apply in_or_app. right. by left.
  - destruct out as [e|ret];
      match goal with |- context [closeTraffic _ ?s1] =>
        change (disposable (broker s1)) with (disposable (broker s));
        rewrite Hd;
        destruct (closeTraffic_effect (pipe_worker p) s1 wk Hw)
          as [[after Ht] Hoff]
      end; (split; [|done]); rewrite Ht; apply in_or_app; right; by left.
Qed.

(** X3, witness: the trigger of the one request of a disposable worker
    throws. *)
Lemma disposable_closeTraffic_when_pipe_settles_witness :
  let s := exec minToFront (new_State (sample_profile true None) false)
             [EvRegisterCredential "hello" "world"; EvBindWorker "world" 10;
              EvInit 0 None 20;
              EvInvoke 30 "in" (sample_metadata "r1" None)] in
  let p := {| pipe_worker := 0; source := FromInvoke; pipe_input := "in";
              pipe_metadata := sample_metadata "r1" None; waitMs := 0;
              stage := AwaitTrigger |} in
  In (CloseTraffic 0) (trace (pipe_settled 0 p (inl (new_Error "boom")) s))
  /\ (trafficOff <$> workerObjs (pipe_settled 0 p (inl (new_Error "boom")) s)
                      !! 0%nat) = Some true.
Proof.
  intros s p.
  destruct (workerObjs s !! 0%nat) as [wk|] eqn:Hw; [|discriminate Hw].
  exact (disposable_closeTraffic_when_pipe_settles 0 p (inl (new_Error "boom"))
           s wk eq_refl Hw).
Defined.

(** * Further invariants of the broker *)

(** ** Invariants of the pending queue, in general *)

Lemma profile_acquireToken s :
  _profile (broker (snd (acquireToken s))) = _profile (broker s).
Proof.
  unfold acquireToken. destruct (tokenBucket (broker s)) as [tb|]; [|done].
  by destruct (TokenBucket_acquire tb).
Qed.

Definition timeout_request (p : PendingRequest) : PendingRequest :=
  PendingRequest_reject (timeout_error p) (PendingRequest_onTimer p).

(** What a property of the queue view has to survive to hold in every state
    the broker reaches: the moves the broker makes on its queue.  [okq] is
    what is known when a request is queued (the queue is not disabled),
    [okm] what is known of the metadata of a request. *)
Record qclosed (okq : Prop) (okm : Metadata -> Prop) (P : QView -> Prop)
    : Prop := {
  qc_reset : forall v,
    queue_ok v -> q_queue v = [] -> P v ->
    P {| q_queue := []; q_status := PASS_THROUGH; q_requests := q_requests v;
         q_sources := q_sources v |};
  qc_invoke : forall v,
    queue_ok v -> P v ->
    P {| q_queue := q_queue v; q_status := q_status v;
         q_requests := q_requests v; q_sources := q_sources v ++ [FromInvoke] |};
  qc_push : forall v now inp md,
    okq -> okm md -> queue_ok v -> P v ->
    P {| q_queue := q_queue v ++ [length (q_requests v)];
         q_status := QUEUEING;
         q_requests := q_requests v ++ [new_PendingRequest now inp md (deadline md)];
         q_sources := q_sources v |};
  qc_take : forall v rid rest p,
    queue_ok v -> q_queue v = rid :: rest -> q_requests v !! rid = Some p ->
    P v ->
    P {| q_queue := rest; q_status := q_status v;
         q_requests := alter PendingRequest_stopTimer rid (q_requests v);
         q_sources := q_sources v ++ [FromQueue rid] |};
  qc_settle : forall v rid out,
    queue_ok v -> FromQueue rid ∈ q_sources v -> P v ->
    P {| q_queue := q_queue v; q_status := q_status v;
         q_requests := alter (match out with
                              | inl e => PendingRequest_reject e
                              | inr ret => PendingRequest_resolve ret
                              end) rid (q_requests v);
         q_sources := q_sources v |};
  qc_timeout : forall v rid p,
    queue_ok v -> q_requests v !! rid = Some p -> is_armed (timer p) = true ->
    P v ->
    P {| q_queue := List_remove rid (q_queue v); q_status := q_status v;
         q_requests := alter timeout_request rid (q_requests v);
         q_sources := q_sources v |};
  qc_fastFail : forall v err,
    queue_ok v -> P v ->
    P {| q_queue := []; q_status := q_status v;
         q_requests := fail_all err (q_queue v) (q_requests v);
         q_sources := q_sources v |} }.

Section Closed.

Variable heapify : (nat -> HeapKey) -> list nat -> list nat.
Variable okq : Prop.
Variable okm : Metadata -> Prop.
Variable P : QView -> Prop.
Hypothesis HP : qclosed okq okm P.

(** The metadata an event brings in. *)
Definition event_metadata_ok (e : Event) : Prop :=
  match e with
  | EvInvoke _ _ md => okm md
  | _ => True
  end.

Lemma qclosed_view s s' : qview s' = qview s -> P (qview s) -> P (qview s').
Proof. by intros ->. Qed.

Lemma qclosed_consumeQueue now w queue : forall s,
  queue_ok (qview s) -> requestQueue (broker s) = queue -> P (qview s) ->
  P (qview (consumeQueue now w queue s)).
Proof.
  induction queue as [|rid rest IH]; intros s Hok Hq HPs; simpl; [done|].
  destruct (isWorkerFree w s) eqn:Hfree; simpl; [|done].
  assert (rid ∈ q_queue (qview s)) as Hin by (simpl; rewrite Hq; left).
  apply (ok_queued _ Hok) in Hin as (request & Hp & Ha). simpl in Hp.
  rewrite Hp. destruct (ok_armed _ Hok rid request Hp Ha) as [_ ->]. simpl.
  set (s1 := upd_request rid PendingRequest_stopTimer
               (upd_broker (set_requestQueue rest) s)).
  assert (queue_ok (qview s1)) as Hok1.
  { pose proof (queue_ok_disarm (qview s) rid PendingRequest_stopTimer
                  (q_status (qview s)) Hok is_armed_stopTimer) as H.
    simpl in H. rewrite Hq in H. simpl in H. by rewrite Nat.eqb_refl in H. }
  set (s2 := pipe_PendingRequest now w rid request s1).
  assert (qview s2 = {| q_queue := rest; q_status := q_status (qview s);
                        q_requests := alter PendingRequest_stopTimer rid
                                        (q_requests (qview s));
                        q_sources := q_sources (qview s) ++ [FromQueue rid] |})
    as Hv2.
  { subst s2. unfold pipe_PendingRequest.
    unfold isWorkerFree in Hfree.
    destruct (workerObjs s !! w) as [wk|] eqn:Hw; [|done].
    unfold pipe. change (workerObjs s1) with (workerObjs s). rewrite Hw.
    destruct (worker_disposable wk && truthy (md_debuggerTag (metadata request))).
    - rewrite qview_emit, qview_upd_worker. unfold qview; simpl.
      by rewrite map_app.
    - rewrite qview_pipe_dispatch. unfold qview; simpl. by rewrite map_app. }
  assert (queue_ok (qview s2)) as Hok2.
  { subst s2. apply queue_ok_pipe; [done|]. intros r [= <-].
    exists (PendingRequest_stopTimer request). split.
    - subst s1. simpl. by rewrite list_lookup_alter_eq, Hp.
    - apply is_armed_stopTimer. }
  assert (P (qview s2)) as HP2.
  { rewrite Hv2. by apply (qc_take okq okm P HP (qview s) rid rest request). }
  apply (f_equal q_queue) in Hv2 as Hq2. simpl in Hq2.
  match goal with |- context [if ?c then _ else _] => destruct c end.
  - by rewrite qview_emit.
  - apply IH; by rewrite ?qview_emit.
Qed.

Lemma qclosed_tryConsumeQueue now w s :
  queue_ok (qview s) -> P (qview s) -> P (qview (tryConsumeQueue now w s)).
Proof.
  intros Hok HPs. unfold tryConsumeQueue.
  pose proof (qclosed_consumeQueue now w _ s Hok eq_refl HPs) as H.
  destruct (consumeQueue_ok now w (requestQueue (broker s)) s Hok eq_refl)
    as [Hok' _].
  destruct (requestQueue (broker (consumeQueue now w (requestQueue (broker s)) s)))
    eqn:E; [|done].
  apply (qc_reset okq okm P HP _ Hok' E) in H.
  unfold qview at 1. simpl. rewrite E. exact H.
Qed.

Lemma qclosed_continueConsumeQueue now w s :
  queue_ok (qview s) -> P (qview s) -> P (qview (continueConsumeQueue now w s)).
Proof.
  intros Hok HPs. unfold continueConsumeQueue.
  destruct (workerObjs s !! w) as [wk|]; [|done].
  destruct (worker_disposable wk); [done|].
  destruct (isWorkerFree w s); [|done]. by apply qclosed_tryConsumeQueue.
Qed.

Lemma qclosed_pipe_settled t p out s :
  queue_ok (qview s) -> source p ∈ q_sources (qview s) -> P (qview s) ->
  P (qview (pipe_settled t p out s)).
Proof.
  intros Hok Hin HPs. rewrite qview_pipe_settled.
  destruct (source p) as [|rid]; [done|]. by apply (qc_settle okq okm P HP).
Qed.

Lemma qclosed_queueRequest now inp md s :
  (disableRequestQueue (_profile (broker s)) = false -> okq) ->
  okm md -> queue_ok (qview s) -> P (qview s) ->
  P (qview (snd (_queueRequest now inp md s))).
Proof.
  intros Hq Hmd Hok HPs. unfold _queueRequest, checkRequestQueue.
  destruct (disableRequestQueue (_profile (broker s))) eqn:Hdis; simpl; [done|].
  exact (qc_push okq okm P HP (qview s) now inp md (Hq eq_refl) Hmd Hok HPs).
Qed.

Lemma qclosed_step s e :
  (disableRequestQueue (_profile (broker s)) = false -> okq) ->
  event_metadata_ok e -> inv s -> P (qview s) -> P (qview (step heapify s e)).
Proof.
  intros Hq Hmd [Hok Hst] HPs. destruct e; simpl in Hmd |- *.
  - unfold invoke. pose proof (qview_acquireToken s) as Ha.
    pose proof (profile_acquireToken s) as Hb.
    destruct (acquireToken s) as [ok s1]. simpl in Ha, Hb.
    assert (queue_ok (qview s1)) as Hok1 by (by rewrite Ha).
    assert (P (qview s1)) as HP1 by (by rewrite Ha).
    destruct ok; simpl; [|done].
    destruct (requestQueueStatus (broker s1));
      [|apply qclosed_queueRequest; by rewrite ?Hb].
    pose proof (qview_getAvailableWorker heapify s1) as Hg.
    pose proof (bstatic_getAvailableWorker heapify s1) as [= _ Hp _ _ _].
    destruct (getAvailableWorker heapify s1) as [[w|] s2]; simpl in Hg, Hp.
    + cbn [snd]. unfold pipe_Input.
      destruct (qview_pipe w FromInvoke inp md 0 s2) as [-> | ->];
        rewrite Hg; [done|]. by apply (qc_invoke okq okm P HP).
    + apply qclosed_queueRequest; [by rewrite Hp, Hb|done|by rewrite Hg..].
  - unfold pipe_inspectorStarted.
    destruct (pipes s !! t) as [p|] eqn:Hp; [|done].
    destruct (stage p); try done.
    destruct (workerObjs s !! pipe_worker p) as [wk|]; [|done].
    destruct res as [e|].
    + apply qclosed_pipe_settled; rewrite qview_set_stage; try done.
      by eapply pipe_lookup_source.
    + by rewrite qview_pipe_dispatch, qview_set_stage.
  - unfold pipe_triggered.
    destruct (pipes s !! t) as [p|] eqn:Hp; [|done].
    destruct (stage p); try done.
    destruct (workerObjs s !! pipe_worker p) as [wk|]; [|done].
    destruct res as [e|ret];
      (apply qclosed_pipe_settled; rewrite qview_set_stage; try done;
       by eapply pipe_lookup_source).
  - unfold pipe_finished.
    destruct (pipes s !! t) as [p|] eqn:Hp; [|done].
    destruct (stage p); try done.
    destruct (workerObjs s !! pipe_worker p) as [wk|]; [|done].
    apply qclosed_continueConsumeQueue;
      destruct (activeRequestCount wk - 1 =? 0);
      by rewrite ?qview_emit_downToZero, qview_upd_worker, qview_set_stage.
  - destruct (requestObjs s !! rid) as [p|] eqn:Hp;
      [|unfold PendingRequest_timeout; by rewrite Hp].
    destruct (is_armed (timer p)) eqn:Ha;
      [|unfold PendingRequest_timeout; by rewrite Hp, Ha].
    rewrite (qview_timeout now rid s p Hp Ha).
    by apply (qc_timeout okq okm P HP (qview s) rid p).
  - apply (qclosed_view s); [|done]. unfold registerCredential.
    by destruct (isCredentialPending cred (broker s)).
  - apply (qclosed_view s); [|done]. apply qview_bindWorker.
  - unfold bindWorker_initialized.
    destruct (inits s !! i) as [it|]; [|done].
    destruct (init_pending it); [|done]. destruct res as [e|]; [done|].
    apply qclosed_tryConsumeQueue.
    + assert (qview (upd_broker
                 (fun b => set_workerHeap (_workerHeap b ++ [init_worker it])
                   (set_workerMap
                      (<[init_credential it :=
                           {| status := BOUND; item_name := init_item_name it;
                              worker := Some (init_worker it) |}]>
                         (_workerMap b)) b))
                 (broadcastContainerStatusReport (init_worker it) ContainerInstalled
                    (upd_inits (alter (set_init_pending false) i) s))) = qview s)
        as ->; [|done].
      unfold qview; simpl. unfold broadcastContainerStatusReport; simpl.
      by destruct (workerObjs s !! init_worker it).
    + match goal with |- P (qview ?s') => assert (qview s' = qview s) as -> end;
        [|done].
      unfold qview; simpl. unfold broadcastContainerStatusReport; simpl.
      by destruct (workerObjs s !! init_worker it).
  - done.
  - apply (qclosed_view s); [|done]. unfold updateProfile.
    by destruct (negb (String.eqb (profile_name p) (name (broker s)))).
  - rewrite qview_fastFail.
    destruct (negb fatal && negb (fastFailRequestsOnStarting (_profile (broker s))));
      [done|].
    by apply (qc_fastFail okq okm P HP).
  - done.
  - destruct (workerObjs s !! w); [by rewrite qview_closeTraffic|done].
  - by rewrite qview_closeTraffic_resumed.
Qed.

Lemma qclosed_exec evs : forall s,
  okq -> Forall event_metadata_ok evs -> inv s -> P (qview s) ->
  P (qview (exec heapify s evs)).
Proof.
  intros s Hq. revert s.
  induction evs as [|e evs IH]; intros s Hevs Hi HPs; [done|].
  apply Forall_cons in Hevs as [He Hevs].
  apply IH; [done|by apply inv_step|by apply qclosed_step].
Qed.

End Closed.

Lemma any_metadata evs : Forall (event_metadata_ok (fun _ => True)) evs.
Proof. apply Forall_forall. intros e _. by destruct e. Qed.

(** ** What becomes of a pending request *)

Definition from_queue (src : PipeSource) : option nat :=
  match src with FromQueue rid => Some rid | FromInvoke => None end.

(** The requests [tryConsumeQueue] has handed to a worker, in the order it
    did. *)
Definition dispatched (s : State) : list nat :=
  omap from_queue (map source (pipes s)).

Definition taken (v : QView) : list nat := omap from_queue (q_sources v).

Lemma elem_of_taken v rid : rid ∈ taken v <-> FromQueue rid ∈ q_sources v.
Proof.
  unfold taken. rewrite list_elem_of_omap. split.
  - intros (src & Hin & Hs). destruct src; simplify_eq/=. done.
  - intros Hin. by exists (FromQueue rid).
Qed.

Lemma taken_lt v rid :
  queue_ok v -> rid ∈ taken v -> (rid < length (q_requests v))%nat.
Proof.
  intros Hok Hin. apply elem_of_taken in Hin.
  destruct (ok_sources _ Hok rid Hin) as (p & Hp & _). by eapply lookup_lt_Some.
Qed.

(** Arrival order: what was taken from the queue, then the queue. *)
Definition fifo (v : QView) : Prop :=
  StronglySorted lt (taken v ++ q_queue v).

Lemma List_remove_sublist node l : sublist (List_remove node l) l.
Proof.
  induction l as [|x l IH]; simpl; [done|].
  destruct (Nat.eqb x node); [by apply sublist_cons|by apply sublist_skip].
Qed.

Lemma StronglySorted_sublist {A} (R : relation A) l l' :
  sublist l' l -> StronglySorted R l -> StronglySorted R l'.
Proof.
  intros Hsub Hs. revert l' Hsub.
  induction Hs as [|x l Hs IH Hx]; intros l' Hsub.
  - apply sublist_nil_r in Hsub as ->. constructor.
  - apply sublist_cons_r in Hsub as [Hsub|(l'' & -> & Hsub)]; [by apply IH|].
    constructor; [by apply IH|].
    rewrite Forall_forall in *. intros y Hy. apply Hx.
    by eapply elem_of_sublist.
Qed.

Lemma fifo_closed okq okm : qclosed okq okm fifo.
Proof.
  unfold fifo, taken. split; simpl; try done.
  - intros v _ Hq H. by rewrite Hq in H.
  - intros v _ H. by rewrite omap_app, app_nil_r.
  - intros v now inp md _ _ Hok H. rewrite app_assoc.
    apply StronglySorted_app_2; [|done|repeat constructor].
    intros x y Hx ->%list_elem_of_singleton.
    apply elem_of_app in Hx as [Hx|Hx];
      [by apply taken_lt|by apply queue_ok_lookup_lt].
  - intros v rid rest p _ Hq _ H. rewrite Hq in H.
    by rewrite omap_app, <- app_assoc.
  - intros v rid p _ _ _ H.
    eapply StronglySorted_sublist; [|exact H].
    apply sublist_app; [done|apply List_remove_sublist].
  - intros v err _ H. rewrite app_nil_r. by eapply StronglySorted_app_1_l.
Qed.

(** A request whose timer is not armed was handed to a worker or was
    rejected while it waited. *)
Definition accounted (v : QView) : Prop :=
  forall rid p,
    q_requests v !! rid = Some p -> is_armed (timer p) = false ->
    FromQueue rid ∈ q_sources v \/ exists e, deferred p = Rejected e.

Lemma accounted_closed okq okm : qclosed okq okm accounted.
Proof.
  unfold accounted. split; simpl.
  - done.
  - intros v _ H rid p Hp Ha. destruct (H rid p Hp Ha) as [Hin|He]; [|by right].
    left. apply elem_of_app. by left.
  - intros v now inp md _ _ _ H rid p Hp Ha.
    apply lookup_app_Some in Hp as [Hp|[_ Hp]]; [by apply (H rid)|].
    apply list_lookup_singleton_Some in Hp as [_ <-]. done.
  - intros v rid rest p0 _ _ Hp0 H r p Hp Ha.
    destruct (decide (r = rid)) as [->|Hne].
    + left. apply elem_of_app. right. by apply list_elem_of_singleton.
    + rewrite list_lookup_alter_ne in Hp by done.
      destruct (H r p Hp Ha) as [Hin|He]; [|by right].
      left. apply elem_of_app. by left.
  - intros v rid out _ Hin H r p Hp Ha.
    destruct (decide (r = rid)) as [->|Hne]; [by left|].
    rewrite list_lookup_alter_ne in Hp by done. by apply (H r).
  - intros v rid p0 Hok Hp0 Ha0 H r p Hp Ha.
    destruct (decide (r = rid)) as [->|Hne].
    + rewrite list_lookup_alter_eq, Hp0 in Hp. simpl in Hp. injection Hp as <-.
      destruct (ok_armed _ Hok rid p0 Hp0 Ha0) as [Hd _].
      right. exists (timeout_error p0). unfold timeout_request. simpl.
      by rewrite Hd.
    + rewrite list_lookup_alter_ne in Hp by done. by apply (H r).
  - intros v err Hok H r p Hp Ha.
    destruct (decide (r ∈ q_queue v)) as [Hin|Hnin].
    + rewrite fail_all_lookup_in in Hp; [|apply (ok_nodup _ Hok)|done].
      destruct (proj1 (ok_queued _ Hok r) Hin) as (p0 & Hp0 & Ha0).
      rewrite Hp0 in Hp. simpl in Hp. injection Hp as <-.
      destruct (ok_armed _ Hok r p0 Hp0 Ha0) as [Hd _].
      right. exists err. unfold fail_request, PendingRequest_stopTimer.
      destruct (timer p0); simpl; by rewrite Hd.
    + rewrite fail_all_lookup_notin in Hp by done. by apply (H r).
Qed.

Lemma omap_lookup_inj {A B} (f : A -> option B) (l : list A) i j x y r :
  NoDup (omap f l) -> l !! i = Some x -> l !! j = Some y ->
  f x = Some r -> f y = Some r -> i = j.
Proof.
  revert i j. induction l as [|a l IH]; intros i j Hnd Hi Hj Hx Hy; [done|].
  simpl in Hnd.
  assert (forall k z, l !! k = Some z -> f z = Some r -> r ∈ omap f l) as Hin.
  { intros k z Hk Hz. apply list_elem_of_omap. exists z. split; [|done].
    by eapply list_elem_of_lookup_2. }
  destruct i as [|i], j as [|j]; simpl in Hi, Hj; simplify_eq.
  - done.
  - rewrite Hx in Hnd. apply NoDup_cons in Hnd as [Hn _].
    destruct Hn. by eapply Hin.
  - rewrite Hy in Hnd. apply NoDup_cons in Hnd as [Hn _].
    destruct Hn. by eapply Hin.
  - f_equal. apply IH; try done.
    destruct (f a); [by apply NoDup_cons in Hnd as [_ ?]|done].
Qed.

Lemma StronglySorted_lt_NoDup l : StronglySorted lt l -> NoDup l.
Proof.
  induction 1 as [|x l Hs IH Hx]; [apply NoDup_nil_2|].
  apply NoDup_cons. split; [|done].
  intros Hin. rewrite Forall_forall in Hx. specialize (Hx x Hin). lia.
Qed.

Lemma fifo_new profile opt : fifo (qview (new_State profile opt)).
Proof. constructor. Qed.

Lemma accounted_new profile opt : accounted (qview (new_State profile opt)).
Proof. by intros rid p Hp. Qed.

(** X4.  In every state the broker reaches, each request that was queued is in
    exactly one of three conditions.  It waits: it is in the queue, its timer
    is armed and its promise is unsettled.  Or it was handed to a worker:
    exactly one call of [Worker.pipe] carries it, and no timer is left.  Or
    it was rejected while it waited (deadline or fast fail): no call of
    [pipe] carries it, no timer is left, and its promise is rejected. *)
Theorem pending_request_fate
    (heapify : (nat -> HeapKey) -> list nat -> list nat)
    (profile : Profile) (opt : bool) (evs : list Event)
    (rid : nat) (p : PendingRequest) :
  let s := exec heapify (new_State profile opt) evs in
  requestObjs s !! rid = Some p ->
  (rid ∈ requestQueue (broker s)
   /\ is_armed (timer p) = true /\ deferred p = Unsettled
   /\ (forall t q, pipes s !! t = Some q -> source q <> FromQueue rid))
  \/ ((rid ∉ requestQueue (broker s))
      /\ is_armed (timer p) = false
      /\ exists t q, pipes s !! t = Some q /\ source q = FromQueue rid
           /\ forall t' q', pipes s !! t' = Some q' ->
                source q' = FromQueue rid -> t' = t)
  \/ ((rid ∉ requestQueue (broker s))
      /\ is_armed (timer p) = false
      /\ (forall t q, pipes s !! t = Some q -> source q <> FromQueue rid)
      /\ exists e, deferred p = Rejected e).
Proof.
  intros s Hp.
  assert (inv s) as [Hok _] by (apply inv_exec, inv_new).
  assert (fifo (qview s)) as Hfifo
    by (eapply (qclosed_exec heapify True);
        [apply fifo_closed|done|apply any_metadata|apply inv_new|apply fifo_new]).
  assert (accounted (qview s)) as Hacc
    by (eapply (qclosed_exec heapify True);
        [apply accounted_closed|done|apply any_metadata|apply inv_new
        |apply accounted_new]).
  assert (forall t q, pipes s !! t = Some q -> source q = FromQueue rid ->
            FromQueue rid ∈ q_sources (qview s)) as Hsrc.
  { intros t q Hq <-. by eapply pipe_lookup_source. }
  destruct (is_armed (timer p)) eqn:Ha.
  - left. destruct (ok_armed _ Hok rid p Hp Ha) as [Hd _].
    split; [apply (ok_queued _ Hok); eauto|]. split; [done|]. split; [done|].
    intros t q Hq Hs. destruct (ok_sources _ Hok rid (Hsrc t q Hq Hs))
      as (p' & Hp' & Ha').
    simpl in Hp'. congruence.
  - right.
    assert (rid ∉ requestQueue (broker s)) as Hnq.
    { intros Hin. apply (ok_queued _ Hok) in Hin as (p' & Hp' & Ha').
      simpl in Hp'. congruence. }
    destruct (decide (rid ∈ taken (qview s))) as [Hin|Hnin];
      rewrite elem_of_taken in *.
    + left. split; [done|]. split; [done|].
      simpl in Hin. apply list_elem_of_fmap in Hin as (q & Hs & Hq).
      apply list_elem_of_lookup_1 in Hq as [t Hq].
      exists t, q. split; [done|]. split; [done|].
      intros t' q' Hq' Hs'.
      apply StronglySorted_app_1_l, StronglySorted_lt_NoDup in Hfifo.
      unfold taken in Hfifo. simpl in Hfifo.
      apply (omap_lookup_inj from_queue (map source (pipes s)) t' t
               (source q') (source q) rid Hfifo).
      * change (map source (pipes s)) with (source <$> pipes s).
        by rewrite list_lookup_fmap, Hq'.
      * change (map source (pipes s)) with (source <$> pipes s).
        by rewrite list_lookup_fmap, Hq.
      * by rewrite Hs'.
      * by rewrite <- Hs.
    + right. split; [done|]. split; [done|]. split.
      * intros t q Hq Hs. apply Hnin. by eapply Hsrc.
      * destruct (Hacc rid p Hp Ha) as [Hin|He]; [done|exact He].
Qed.

(** X4, witness: the second request of a worker that takes one at a time
    waits in the queue. *)
Lemma pending_request_fate_witness :
  let s := exec minToFront (new_State (single_profile false) false)
             (one_worker ++ [EvInvoke 30 "a" (sample_metadata "r1" None);
                             EvInvoke 40 "b" (sample_metadata "r2" None)]) in
  exists p, requestObjs s !! 0%nat = Some p
    /\ ((0%nat ∈ requestQueue (broker s)
         /\ is_armed (timer p) = true /\ deferred p = Unsettled
         /\ (forall t q, pipes s !! t = Some q -> source q <> FromQueue 0))
        \/ ((0%nat ∉ requestQueue (broker s))
            /\ is_armed (timer p) = false
            /\ exists t q, pipes s !! t = Some q /\ source q = FromQueue 0
                 /\ forall t' q', pipes s !! t' = Some q' ->
                      source q' = FromQueue 0 -> t' = t)
        \/ ((0%nat ∉ requestQueue (broker s))
            /\ is_armed (timer p) = false
            /\ (forall t q, pipes s !! t = Some q -> source q <> FromQueue 0)
            /\ exists e, deferred p = Rejected e)).
Proof.
  intros s. eexists. split; [reflexivity|].
  apply (pending_request_fate minToFront (single_profile false) false
           (one_worker ++ [EvInvoke 30 "a" (sample_metadata "r1" None);
                           EvInvoke 40 "b" (sample_metadata "r2" None)])
           0%nat).
  reflexivity.
Defined.

(** X5.  Requests leave the queue for a worker in the order they arrived, and
    what is still queued arrived after everything that was handed out: the
    requests taken from the queue so far, in the order they were taken,
    followed by the queue, have strictly increasing arrival numbers. *)
Theorem queue_served_in_arrival_order
    (heapify : (nat -> HeapKey) -> list nat -> list nat)
    (profile : Profile) (opt : bool) (evs : list Event) :
  let s := exec heapify (new_State profile opt) evs in
  StronglySorted lt (dispatched s ++ requestQueue (broker s)).
Proof.
  intros s.
  apply (qclosed_exec heapify True (fun _ => True) fifo (fifo_closed _ _) evs
           (new_State profile opt)).
  - done.
  - apply any_metadata.
  - apply inv_new.
  - apply fifo_new.
Qed.

(** ** Invariants of workers and their requests, in general *)

(** The workers and, for every call of [Worker.pipe], the worker it runs on
    and how far it has got. *)
Record PView := {
  p_workers : list Worker;
  p_keys : list (nat * PipeStage) }.

Definition pview (s : State) : PView :=
  {| p_workers := workerObjs s; p_keys := map pipe_key (pipes s) |}.

(** [maxActivateRequests] of a broker with this profile. *)
Definition cap (prof : Profile) : Z :=
  if disposable_ prof then 1 else maxActivateRequests_ prof.

(** What [Worker.pipe] does to the worker before its first [await]. *)
Definition inspects (wk : Worker) (md : Metadata) : bool :=
  worker_disposable wk && truthy (md_debuggerTag md).

Definition assigned (md : Metadata) (wk : Worker) : Worker :=
  if inspects wk md then set_debuggerTag (md_debuggerTag md) wk
  else set_activeRequestCount (activeRequestCount wk + 1) wk.

Definition first_stage (wk : Worker) (md : Metadata) : PipeStage :=
  if inspects wk md then AwaitInspectorStart else AwaitTrigger.

Definition incremented (wk : Worker) : Worker :=
  set_activeRequestCount (activeRequestCount wk + 1) wk.

(** What [Worker.closeTraffic] does to the worker. *)
Definition closed (wk : Worker) : Worker :=
  if activeRequestCount wk <=? 0 then set_trafficOff true wk
  else set_downToZeroListeners (S (downToZeroListeners wk))
         (set_trafficOff true wk).

(** What the [finally] callback of the response does to the worker. *)
Definition finished (wk : Worker) : Worker :=
  if activeRequestCount wk - 1 =? 0
  then set_downToZeroListeners 0
         (set_activeRequestCount (activeRequestCount wk - 1) wk)
  else set_activeRequestCount (activeRequestCount wk - 1) wk.

Definition restage (st : PipeStage) (k : nat * PipeStage) : nat * PipeStage :=
  (fst k, st).

(** The stage a pipe is left in when its promise settles. *)
Definition settles (st st' : PipeStage) : Prop :=
  (st = AwaitInspectorStart /\ st' = Settled)
  \/ (st = AwaitTrigger /\ (st' = AwaitFinish \/ st' = Settled)).

(** What a property of workers and pipes has to survive to hold in every
    state the broker reaches, given what is known of the profiles ([okp])
    and of the metadata of the requests ([okm]). *)
Record pclosed (okp : Profile -> Prop) (okm : Metadata -> Prop)
    (P : PView -> Prop) : Prop := {
  pc_bind : forall prof v wname cred,
    okp prof -> P v ->
    P {| p_workers := p_workers v ++ [new_Worker wname cred (disposable_ prof)];
         p_keys := p_keys v |};
  pc_assign : forall prof v w wk md,
    okp prof -> okm md -> P v ->
    p_workers v !! w = Some wk ->
    trafficOff wk = false -> activeRequestCount wk < cap prof ->
    P {| p_workers := alter (assigned md) w (p_workers v);
         p_keys := p_keys v ++ [(w, first_stage wk md)] |};
  pc_inspected : forall prof v t w wk,
    okp prof -> P v ->
    p_keys v !! t = Some (w, AwaitInspectorStart) -> p_workers v !! w = Some wk ->
    P {| p_workers := alter incremented w (p_workers v);
         p_keys := alter (restage AwaitTrigger) t (p_keys v) |};
  pc_settle : forall prof v t w wk st st',
    okp prof -> P v ->
    p_keys v !! t = Some (w, st) -> p_workers v !! w = Some wk ->
    settles st st' ->
    P {| p_workers := if disposable_ prof then alter closed w (p_workers v)
                      else p_workers v;
         p_keys := alter (restage st') t (p_keys v) |};
  pc_finish : forall prof v t w wk,
    okp prof -> P v ->
    p_keys v !! t = Some (w, AwaitFinish) -> p_workers v !! w = Some wk ->
    P {| p_workers := alter finished w (p_workers v);
         p_keys := alter (restage Settled) t (p_keys v) |};
  pc_close : forall v w wk,
    P v -> p_workers v !! w = Some wk ->
    P {| p_workers := alter closed w (p_workers v); p_keys := p_keys v |} }.

(** *** The view under the operations of the broker *)

Lemma pview_emit e s : pview (emit e s) = pview s.
Proof. reflexivity. Qed.

Lemma pview_emits es s : pview (emits es s) = pview s.
Proof. reflexivity. Qed.

Lemma pview_upd_broker f s : pview (upd_broker f s) = pview s.
Proof. reflexivity. Qed.

Lemma pview_upd_request rid f s : pview (upd_request rid f s) = pview s.
Proof. reflexivity. Qed.

Lemma pview_upd_inits f s : pview (upd_inits f s) = pview s.
Proof. reflexivity. Qed.

Lemma pview_upd_worker w f s :
  pview (upd_worker w f s)
  = {| p_workers := alter f w (p_workers (pview s)); p_keys := p_keys (pview s) |}.
Proof. reflexivity. Qed.

Lemma map_pipe_key_set_stage st t ps :
  map pipe_key (alter (set_stage st) t ps) = alter (restage st) t (map pipe_key ps).
Proof.
  revert t; induction ps as [|p ps IH]; intros [|t]; simpl; try done.
  f_equal. apply IH.
Qed.

Lemma pview_set_stage t st s :
  pview (upd_pipe t (set_stage st) s)
  = {| p_workers := p_workers (pview s);
       p_keys := alter (restage st) t (p_keys (pview s)) |}.
Proof.
  unfold pview, upd_pipe, upd_pipes; simpl. by rewrite map_pipe_key_set_stage.
Qed.

Lemma pview_broadcast w ev s :
  pview (broadcastContainerStatusReport w ev s) = pview s.
Proof. unfold broadcastContainerStatusReport. by destruct (workerObjs s !! w). Qed.

Lemma alter_None {A} (f : A -> A) i (l : list A) : l !! i = None -> alter f i l = l.
Proof. apply alter_lookup_None. Qed.

Lemma alter_at {A} (f g : A -> A) i (l : list A) x :
  l !! i = Some x -> f x = g x -> alter f i l = alter g i l.
Proof.
  intros Hx E. apply list_alter_ext; [|done]. intros y Hy.
  by assert (y = x) as -> by congruence.
Qed.

Lemma pview_closeTraffic w s :
  pview (closeTraffic w s)
  = {| p_workers := alter closed w (p_workers (pview s));
       p_keys := p_keys (pview s) |}.
Proof.
  unfold closeTraffic, Worker_closeTraffic.
  change (workerObjs (upd_worker w (set_trafficOff true) (emit (CloseTraffic w) s)))
    with (alter (set_trafficOff true) w (workerObjs s)).
  rewrite list_lookup_alter_eq.
  destruct (workerObjs s !! w) as [wk|] eqn:Hw; simpl.
  - destruct (activeRequestCount wk <=? 0) eqn:Hc.
    + unfold pview; simpl. f_equal.
      apply (alter_at _ _ _ _ wk Hw). unfold closed. by rewrite Hc.
    + unfold pview; simpl. f_equal. rewrite list_alter_alter_eq.
      apply (alter_at _ _ _ _ wk Hw). unfold closed. by rewrite Hc.
  - unfold pview; simpl. f_equal. by rewrite !alter_None.
Qed.

Lemma pview_closeTraffic_resumed d s :
  pview (closeTraffic_resumed d s) = pview s.
Proof.
  unfold closeTraffic_resumed. destruct (drains s !! d) as [dr|]; [|done].
  destruct (drain_stage dr); try done. by rewrite pview_broadcast.
Qed.

Lemma pview_pipe_dispatch w inp md s :
  pview (pipe_dispatch w inp md s)
  = {| p_workers := alter incremented w (p_workers (pview s));
       p_keys := p_keys (pview s) |}.
Proof.
  unfold pipe_dispatch. destruct (workerObjs s !! w) as [wk|] eqn:Hw; [done|].
  unfold pview; simpl. f_equal. by rewrite alter_None.
Qed.

Lemma pview_pipe w src inp md wait s wk :
  workerObjs s !! w = Some wk ->
  pview (pipe w src inp md wait s)
  = {| p_workers := alter (assigned md) w (p_workers (pview s));
       p_keys := p_keys (pview s) ++ [(w, first_stage wk md)] |}.
Proof.
  intros Hw. unfold pipe. rewrite Hw. unfold first_stage, inspects.
  destruct (worker_disposable wk && truthy (md_debuggerTag md)) eqn:Hi.
  - unfold pview; simpl. rewrite map_app. f_equal.
    apply (alter_at _ _ _ _ wk Hw). unfold assigned, inspects. by rewrite Hi.
  - rewrite pview_pipe_dispatch. unfold pview; simpl. rewrite map_app. f_equal.
    apply (alter_at _ _ _ _ wk Hw). unfold assigned, inspects. by rewrite Hi.
Qed.

Lemma pview_pipe_settled t p out s :
  pview (pipe_settled t p out s)
  = {| p_workers := if disposable (broker s)
                    then alter closed (pipe_worker p) (p_workers (pview s))
                    else p_workers (pview s);
       p_keys := p_keys (pview s) |}.
Proof.
  unfold pipe_settled. destruct (source p) as [|rid].
  - rewrite pview_emit. destruct (disposable (broker s));
      by rewrite ?pview_closeTraffic.
  - destruct out as [e|ret];
      match goal with |- context [closeTraffic _ ?s1] =>
        change (disposable (broker s1)) with (disposable (broker s))
      end;
      destruct (disposable (broker s));
      by rewrite ?pview_closeTraffic.
Qed.

Lemma pview_emit_downToZero w s :
  pview (emit_downToZero w s)
  = {| p_workers := alter (set_downToZeroListeners 0) w (p_workers (pview s));
       p_keys := p_keys (pview s) |}.
Proof.
  unfold emit_downToZero. destruct (workerObjs s !! w) as [wk|] eqn:Hw; [done|].
  unfold pview; simpl. f_equal. by rewrite alter_None.
Qed.

Lemma pview_queueRequest now inp md s :
  pview (snd (_queueRequest now inp md s)) = pview s.
Proof.
  unfold _queueRequest, checkRequestQueue.
  by destruct (negb (disableRequestQueue (_profile (broker s)))).
Qed.

Lemma pview_timeout now rid s : pview (PendingRequest_timeout now rid s) = pview s.
Proof.
  unfold PendingRequest_timeout. destruct (requestObjs s !! rid) as [p|]; [|done].
  by destruct (is_armed (timer p)).
Qed.

Lemma pview_fastFail_fold now err queue : forall s,
  pview (fold_left (fastFail_one now err) queue s) = pview s.
Proof.
  induction queue as [|rid rest IH]; intros s; cbn [fold_left]; [done|].
  rewrite IH. unfold fastFail_one. by destruct (requestObjs s !! rid).
Qed.

Lemma pview_fastFail now fatal message s :
  pview (fastFailAllPendingsDueToStartError now fatal message s) = pview s.
Proof.
  unfold fastFailAllPendingsDueToStartError.
  destruct (negb fatal && negb (fastFailRequestsOnStarting (_profile (broker s))));
    [done|].
  by rewrite pview_fastFail_fold.
Qed.

Lemma pview_acquireToken s : pview (snd (acquireToken s)) = pview s.
Proof.
  unfold acquireToken. destruct (tokenBucket (broker s)) as [tb|]; [|done].
  by destruct (TokenBucket_acquire tb).
Qed.

Lemma requests_acquireToken s : requestObjs (snd (acquireToken s)) = requestObjs s.
Proof.
  unfold acquireToken. destruct (tokenBucket (broker s)) as [tb|]; [|done].
  by destruct (TokenBucket_acquire tb).
Qed.

(** What [getAvailableWorker] answers is a worker that takes traffic and is
    below the cap. *)
Lemma getAvailableWorker_Some heapify s w s2 :
  getAvailableWorker heapify s = (Some w, s2) ->
  pview s2 = pview s /\ _profile (broker s2) = _profile (broker s)
  /\ requestObjs s2 = requestObjs s
  /\ exists wk, workerObjs s !! w = Some wk /\ trafficOff wk = false
       /\ activeRequestCount wk < cap (_profile (broker s)).
Proof.
  unfold getAvailableWorker. cbv zeta.
  match goal with |- context [_workerHeap (broker ?s1)] => set (s1' := s1) end.
  destruct (_workerHeap (broker s1')) as [|w' rest]; [done|].
  change (workerObjs s1') with (workerObjs s).
  destruct (workerObjs s !! w') as [wk|] eqn:Hw; [|done].
  destruct (negb (trafficOff wk)
            && (activeRequestCount wk <? maxActivateRequests (broker s1'))) eqn:Hc;
    [|done].
  intros [= <- <-]. split; [done|]. split; [done|]. split; [done|].
  apply andb_prop in Hc as [H1 H2]. apply negb_true_iff in H1.
  apply Z.ltb_lt in H2. exists wk. done.
Qed.

Lemma getAvailableWorker_None heapify s s2 :
  getAvailableWorker heapify s = (None, s2) ->
  pview s2 = pview s /\ _profile (broker s2) = _profile (broker s)
  /\ requestObjs s2 = requestObjs s.
Proof.
  unfold getAvailableWorker. cbv zeta.
  match goal with |- context [_workerHeap (broker ?s1)] => set (s1' := s1) end.
  destruct (_workerHeap (broker s1')) as [|w' rest]; [by intros [= <-]|].
  destruct (workerObjs s1' !! w') as [wk|]; [|by intros [= <-]].
  destruct (negb (trafficOff wk)
            && (activeRequestCount wk <? maxActivateRequests (broker s1')));
    [done|by intros [= <-]].
Qed.

Lemma isWorkerFree_true w s :
  isWorkerFree w s = true ->
  exists wk, workerObjs s !! w = Some wk /\ trafficOff wk = false
    /\ activeRequestCount wk < cap (_profile (broker s)).
Proof.
  unfold isWorkerFree. destruct (workerObjs s !! w) as [wk|]; [|done].
  destruct (trafficOff wk) eqn:Ht; [done|]. intros H%Z.ltb_lt. by exists wk.
Qed.

Section PClosed.

Variable heapify : (nat -> HeapKey) -> list nat -> list nat.
Variable okp : Profile -> Prop.
Variable okm : Metadata -> Prop.
Variable P : PView -> Prop.
Hypothesis HP : pclosed okp okm P.

(** What an event brings in: metadata, or a new profile. *)
Definition event_ok (e : Event) : Prop :=
  match e with
  | EvInvoke _ _ md => okm md
  | EvUpdateProfile p => okp p
  | _ => True
  end.

Definition requests_ok (s : State) : Prop :=
  forall rid p, requestObjs s !! rid = Some p -> okm (metadata p).

Lemma pclosed_consumeQueue now w queue : forall s,
  okp (_profile (broker s)) -> requests_ok s -> P (pview s) ->
  P (pview (consumeQueue now w queue s)).
Proof.
  induction queue as [|rid rest IH]; intros s Hprof Hreq HPs; simpl; [done|].
  destruct (isWorkerFree w s) eqn:Hfree; simpl; [|done].
  destruct (requestObjs s !! rid) as [request|] eqn:Hr; [|by apply IH].
  destruct (negb (available request)); [by apply IH|].
  apply isWorkerFree_true in Hfree as (wk & Hw & Hoff & Hcap).
  set (s1 := upd_request rid PendingRequest_stopTimer
               (upd_broker (set_requestQueue rest) s)).
  set (s2 := pipe_PendingRequest now w rid request s1).
  assert (P (pview s2)) as HP2.
  { subst s2. unfold pipe_PendingRequest.
    rewrite (pview_pipe _ _ _ _ _ s1 wk Hw).
    apply (pc_assign okp okm P HP (_profile (broker s)) (pview s) w wk);
      try done. by apply (Hreq rid). }
  assert (_profile (broker s2) = _profile (broker s)) as Hprof2.
  { subst s2. unfold pipe_PendingRequest. by rewrite broker_pipe. }
  assert (requests_ok s2) as Hreq2.
  { intros r p. subst s2. unfold pipe_PendingRequest.
    assert (requestObjs (pipe w (FromQueue rid) (input request) (metadata request)
                           (now - startEpoch request) s1) = requestObjs s1) as ->.
    { unfold pipe. change (workerObjs s1) with (workerObjs s). rewrite Hw.
      destruct (worker_disposable wk && truthy (md_debuggerTag (metadata request)));
        [done|]. unfold pipe_dispatch. simpl. by rewrite Hw. }
    subst s1. simpl. destruct (decide (r = rid)) as [->|Hne].
    - rewrite list_lookup_alter_eq, Hr. simpl. intros [= <-].
      unfold PendingRequest_stopTimer.
      destruct (timer request); simpl; by apply (Hreq rid request).
    - rewrite list_lookup_alter_ne by done. apply Hreq. }
  match goal with |- context [if ?c then _ else _] => destruct c end; [done|].
  apply IH; [|exact Hreq2|done].
  change (okp (_profile (broker s2))). by rewrite Hprof2.
Qed.

Lemma pclosed_tryConsumeQueue now w s :
  okp (_profile (broker s)) -> requests_ok s -> P (pview s) ->
  P (pview (tryConsumeQueue now w s)).
Proof.
  intros Hprof Hreq HPs. unfold tryConsumeQueue.
  pose proof (pclosed_consumeQueue now w (requestQueue (broker s)) s Hprof Hreq HPs)
    as H.
  by destruct (requestQueue (broker (consumeQueue now w (requestQueue (broker s)) s))).
Qed.

Lemma pclosed_continueConsumeQueue now w s :
  okp (_profile (broker s)) -> requests_ok s -> P (pview s) ->
  P (pview (continueConsumeQueue now w s)).
Proof.
  intros Hprof Hreq HPs. unfold continueConsumeQueue.
  destruct (workerObjs s !! w) as [wk|]; [|done].
  destruct (worker_disposable wk); [done|].
  destruct (isWorkerFree w s); [|done]. by apply pclosed_tryConsumeQueue.
Qed.

Lemma pview_key t p s :
  pipes s !! t = Some p -> p_keys (pview s) !! t = Some (pipe_worker p, stage p).
Proof.
  intros H. unfold pview; simpl.
  change (map pipe_key (pipes s)) with (pipe_key <$> pipes s).
  by rewrite list_lookup_fmap, H.
Qed.

Lemma pclosed_settle t p st' out s wk :
  okp (_profile (broker s)) -> P (pview s) ->
  pipes s !! t = Some p -> workerObjs s !! pipe_worker p = Some wk ->
  settles (stage p) st' ->
  P (pview (pipe_settled t p out (upd_pipe t (set_stage st') s))).
Proof.
  intros Hprof HPs Hp Hw Hst.
  rewrite pview_pipe_settled, pview_set_stage.
  apply (pc_settle okp okm P HP (_profile (broker s)) (pview s) t (pipe_worker p)
           wk (stage p) st'); try done.
  by apply pview_key.
Qed.

Lemma pclosed_step s e :
  event_ok e -> okp (_profile (broker s)) -> requests_ok s -> P (pview s) ->
  P (pview (step heapify s e)).
Proof.
  intros Hev Hprof Hreq HPs. destruct e; simpl in Hev |- *.
  - unfold invoke.
    pose proof (pview_acquireToken s) as Ha.
    pose proof (profile_acquireToken s) as Hb.
    destruct (acquireToken s) as [ok s1]. simpl in Ha, Hb.
    destruct ok; simpl; [|by rewrite Ha].
    destruct (requestQueueStatus (broker s1));
      [|by rewrite pview_queueRequest, Ha].
    destruct (getAvailableWorker heapify s1) as [[w|] s2] eqn:Hg.
    + apply getAvailableWorker_Some in Hg as (Hv & Hpr & _ & wk & Hw & Hoff & Hcap).
      cbn [snd]. unfold pipe_Input.
      assert (workerObjs s2 !! w = Some wk) as Hw2.
      { apply (f_equal p_workers) in Hv. simpl in Hv. by rewrite Hv. }
      rewrite (pview_pipe _ _ _ _ _ s2 wk Hw2), Hv, Ha.
      apply (pc_assign okp okm P HP (_profile (broker s)) (pview s) w wk);
        try done.
      * apply (f_equal p_workers) in Ha. simpl in Ha.
        change (workerObjs s !! w = Some wk). by rewrite <- Ha.
      * by rewrite <- Hb.
    + apply getAvailableWorker_None in Hg as (Hv & _ & _).
      by rewrite pview_queueRequest, Hv, Ha.
  - unfold pipe_inspectorStarted.
    destruct (pipes s !! t) as [p|] eqn:Hp; [|done].
    destruct (stage p) eqn:Hst; try done.
    destruct (workerObjs s !! pipe_worker p) as [wk|] eqn:Hw; [|done].
    destruct res as [e|].
    + apply (pclosed_settle _ _ _ _ _ wk); try done. rewrite Hst. by left.
    + rewrite pview_pipe_dispatch, pview_set_stage.
      apply (pc_inspected okp okm P HP (_profile (broker s)) (pview s) t
               (pipe_worker p) wk); try done.
      rewrite <- Hst. by apply pview_key.
  - unfold pipe_triggered.
    destruct (pipes s !! t) as [p|] eqn:Hp; [|done].
    destruct (stage p) eqn:Hst; try done.
    destruct (workerObjs s !! pipe_worker p) as [wk|] eqn:Hw; [|done].
    destruct res as [e|ret];
      (apply (pclosed_settle _ _ _ _ _ wk); try done; rewrite Hst; right; auto).
  - unfold pipe_finished.
    destruct (pipes s !! t) as [p|] eqn:Hp; [|done].
    destruct (stage p) eqn:Hst; try done.
    destruct (workerObjs s !! pipe_worker p) as [wk|] eqn:Hw; [|done].
    apply pclosed_continueConsumeQueue.
    + by destruct (activeRequestCount wk - 1 =? 0);
        rewrite ?broker_emit_downToZero.
    + intros r q. destruct (activeRequestCount wk - 1 =? 0); [|apply Hreq].
      unfold emit_downToZero. simpl. rewrite list_lookup_alter_eq, Hw. simpl.
      apply Hreq.
    + assert (pview (if activeRequestCount wk - 1 =? 0
                     then emit_downToZero (pipe_worker p)
                            (upd_worker (pipe_worker p)
                               (set_activeRequestCount (activeRequestCount wk - 1))
                               (upd_pipe t (set_stage Settled) s))
                     else upd_worker (pipe_worker p)
                            (set_activeRequestCount (activeRequestCount wk - 1))
                            (upd_pipe t (set_stage Settled) s))
              = {| p_workers := alter finished (pipe_worker p) (p_workers (pview s));
                   p_keys := alter (restage Settled) t (p_keys (pview s)) |}) as ->.
      { destruct (activeRequestCount wk - 1 =? 0) eqn:Hz.
        - rewrite pview_emit_downToZero, pview_upd_worker, pview_set_stage. simpl.
          f_equal. rewrite list_alter_alter_eq.
          apply (alter_at _ _ _ _ wk Hw). unfold finished. by rewrite Hz.
        - rewrite pview_upd_worker, pview_set_stage. simpl. f_equal.
          apply (alter_at _ _ _ _ wk Hw). unfold finished. by rewrite Hz. }
      apply (pc_finish okp okm P HP (_profile (broker s)) (pview s) t
               (pipe_worker p) wk); try done.
      rewrite <- Hst. by apply pview_key.
  - by rewrite pview_timeout.
  - unfold registerCredential.
    by destruct (isCredentialPending cred (broker s)).
  - unfold bindWorker.
    destruct (_workerMap (broker s) !! cred) as [item|]; [|done].
    destruct (negb (isCredentialPending cred (broker s))); [done|].
    destruct (status item); [|done]. simpl.
    by apply (pc_bind okp okm P HP (_profile (broker s)) (pview s)).
  - unfold bindWorker_initialized.
    destruct (inits s !! i) as [it|]; [|done].
    destruct (init_pending it); [|done]. destruct res as [e|]; [done|].
    apply pclosed_tryConsumeQueue.
    + simpl. by rewrite broker_broadcast.
    + intros r q. simpl. unfold broadcastContainerStatusReport. simpl.
      destruct (workerObjs s !! init_worker it); apply Hreq.
    + by rewrite pview_upd_broker, pview_broadcast.
  - done.
  - unfold updateProfile.
    by destruct (negb (String.eqb (profile_name p) (name (broker s)))).
  - by rewrite pview_fastFail.
  - done.
  - destruct (workerObjs s !! w) as [wk|] eqn:Hw; [|done].
    rewrite pview_closeTraffic. by apply (pc_close okp okm P HP _ w wk).
  - by rewrite pview_closeTraffic_resumed.
Qed.

Lemma profile_step s e :
  event_ok e -> okp (_profile (broker s)) ->
  okp (_profile (broker (step heapify s e))).
Proof.
  intros Hev Hprof. destruct e; simpl in Hev |- *.
  - destruct (bstatic_invoke heapify now inp md s) as [E _]. simpl in E.
    injection E as _ -> _ _. done.
  - pose proof (bstatic_inspectorStarted t res s) as [= _ -> _ _ _]. done.
  - pose proof (bstatic_triggered t res s) as [= _ -> _ _ _]. done.
  - pose proof (bstatic_finished t now s) as [= _ -> _ _ _]. done.
  - pose proof (bstatic_timeout now rid s) as [= _ -> _ _ _]. done.
  - unfold registerCredential.
    by destruct (isCredentialPending cred (broker s)).
  - unfold bindWorker.
    destruct (_workerMap (broker s) !! cred) as [item|]; [|done].
    destruct (negb (isCredentialPending cred (broker s))); [done|].
    by destruct (status item).
  - unfold bindWorker_initialized.
    destruct (inits s !! i) as [it|]; [|done].
    destruct (init_pending it); [|done]. destruct res as [e|]; [done|].
    pose proof (bstatic_tryConsumeQueue now (init_worker it)
      (upd_broker
         (fun b => set_workerHeap (_workerHeap b ++ [init_worker it])
            (set_workerMap
               (<[init_credential it :=
                    {| status := BOUND; item_name := init_item_name it;
                       worker := Some (init_worker it) |}]> (_workerMap b)) b))
         (broadcastContainerStatusReport (init_worker it) ContainerInstalled
            (upd_inits (alter (set_init_pending false) i) s)))) as [= _ -> _ _ _].
    simpl. by rewrite broker_broadcast.
  - done.
  - unfold updateProfile.
    by destruct (negb (String.eqb (profile_name p) (name (broker s)))).
  - pose proof (bstatic_fastFail now fatal message s) as [= _ -> _ _ _]. done.
  - done.
  - destruct (workerObjs s !! w); [by rewrite broker_closeTraffic|done].
  - by rewrite broker_closeTraffic_resumed.
Qed.

End PClosed.

Definition metadata_ok (okm : Metadata -> Prop) (v : QView) : Prop :=
  forall rid p, q_requests v !! rid = Some p -> okm (metadata p).

Lemma metadata_stopTimer p : metadata (PendingRequest_stopTimer p) = metadata p.
Proof. unfold PendingRequest_stopTimer. by destruct (timer p). Qed.

Lemma metadata_ok_closed okm : qclosed True okm (metadata_ok okm).
Proof.
  unfold metadata_ok. split; simpl; try done.
  - intros v now inp md _ Hmd _ H rid p Hp.
    apply lookup_app_Some in Hp as [Hp|[_ Hp]]; [by apply (H rid)|].
    apply list_lookup_singleton_Some in Hp as [_ <-]. done.
  - intros v rid rest p0 _ _ _ H r p Hp.
    destruct (decide (r = rid)) as [->|Hne].
    + rewrite list_lookup_alter_eq in Hp.
      destruct (q_requests v !! rid) as [q|] eqn:Hq; simplify_eq/=.
      rewrite metadata_stopTimer. by apply (H rid).
    + rewrite list_lookup_alter_ne in Hp by done. by apply (H r).
  - intros v rid out _ _ H r p Hp.
    destruct (decide (r = rid)) as [->|Hne].
    + rewrite list_lookup_alter_eq in Hp.
      destruct (q_requests v !! rid) as [q|] eqn:Hq; simplify_eq/=.
      destruct out; exact (H rid q Hq).
    + rewrite list_lookup_alter_ne in Hp by done. by apply (H r).
  - intros v rid p0 _ _ _ H r p Hp.
    destruct (decide (r = rid)) as [->|Hne].
    + rewrite list_lookup_alter_eq in Hp.
      destruct (q_requests v !! rid) as [q|] eqn:Hq; simplify_eq/=.
      exact (H rid q Hq).
    + rewrite list_lookup_alter_ne in Hp by done. by apply (H r).
  - intros v err Hok H r p Hp.
    destruct (decide (r ∈ q_queue v)) as [Hin|Hnin].
    + rewrite fail_all_lookup_in in Hp; [|apply (ok_nodup _ Hok)|done].
      destruct (q_requests v !! r) as [q|] eqn:Hq; simplify_eq/=.
      unfold fail_request. simpl. rewrite metadata_stopTimer. by apply (H r).
    + rewrite fail_all_lookup_notin in Hp by done. by apply (H r).
Qed.

Section PExec.

Variable heapify : (nat -> HeapKey) -> list nat -> list nat.
Variable okp : Profile -> Prop.
Variable okm : Metadata -> Prop.
Variable P : PView -> Prop.
Hypothesis HP : pclosed okp okm P.

Lemma event_ok_metadata e : event_ok okp okm e -> event_metadata_ok okm e.
Proof. by destruct e. Qed.

Lemma pclosed_exec evs : forall s,
  Forall (event_ok okp okm) evs ->
  inv s -> requests_ok okm s -> okp (_profile (broker s)) -> P (pview s) ->
  P (pview (exec heapify s evs)).
Proof.
  induction evs as [|e evs IH]; intros s Hevs Hi Hreq Hprof HPs; [done|].
  apply Forall_cons in Hevs as [He Hevs].
  apply IH; [done|by apply inv_step| |by apply (profile_step heapify okp okm)
            |by apply (pclosed_step heapify okp okm P HP)].
  apply (qclosed_step heapify True okm (metadata_ok okm) (metadata_ok_closed okm)
           s e); [done|by apply event_ok_metadata|done|done].
Qed.

Lemma pclosed_reachable profile opt evs :
  Forall (event_ok okp okm) evs -> okp profile ->
  P {| p_workers := []; p_keys := [] |} ->
  P (pview (exec heapify (new_State profile opt) evs)).
Proof.
  intros Hevs Hprof H0.
  apply pclosed_exec; first [done|apply inv_new|by intros rid p].
Qed.

End PExec.

(** When nothing is assumed of the metadata, any state will do. *)
Lemma pclosed_exec_any heapify okp P :
  pclosed okp (fun _ => True) P ->
  forall evs s,
    Forall (event_ok okp (fun _ => True)) evs ->
    okp (_profile (broker s)) -> P (pview s) ->
    P (pview (exec heapify s evs)).
Proof.
  intros HP. induction evs as [|e evs IH]; intros s Hevs Hprof HPs; [done|].
  apply Forall_cons in Hevs as [He Hevs].
  apply IH; [done|by apply (profile_step heapify okp (fun _ => True))|].
  by apply (pclosed_step heapify okp (fun _ => True) P HP).
Qed.

Lemma any_event evs : Forall (event_ok (fun _ => True) (fun _ => True)) evs.
Proof. apply Forall_forall. intros e _. by destruct e. Qed.

(** ** Waiting for a worker to drain *)

(** A call of [closeTraffic] waits for [downToZero] only on a worker whose
    traffic is off and that has a request in flight. *)
Definition waits_only_when_busy (wk : Worker) : Prop :=
  (0 < downToZeroListeners wk)%nat ->
  trafficOff wk = true /\ 1 <= activeRequestCount wk.

Lemma waits_closed :
  pclosed (fun _ => True) (fun _ => True)
    (fun v => Forall waits_only_when_busy (p_workers v)).
Proof.
  unfold waits_only_when_busy. split; simpl.
  - intros prof v wname cred _ H. apply Forall_app. split; [done|].
    apply Forall_singleton. simpl. lia.
  - intros prof v w wk md _ _ H _ _ _. apply Forall_alter; [done|].
    intros x _ Hx. unfold assigned. destruct (inspects x md); simpl; [done|].
    intros Hl. destruct (Hx Hl). split; [done|lia].
  - intros prof v t w wk _ H _ _. apply Forall_alter; [done|].
    intros x _ Hx. unfold incremented. simpl.
    intros Hl. destruct (Hx Hl). split; [done|lia].
  - intros prof v t w wk st st' _ H _ _ _.
    destruct (disposable_ prof); [|done]. apply Forall_alter; [done|].
    intros x _ Hx. unfold closed.
    destruct (Z.leb_spec (activeRequestCount x) 0); simpl.
    + intros Hl. destruct (Hx Hl). lia.
    + intros _. split; [done|lia].
  - intros prof v t w wk _ H _ _. apply Forall_alter; [done|].
    intros x _ Hx. unfold finished.
    destruct (Z.eqb_spec (activeRequestCount x - 1) 0); simpl; [lia|].
    intros Hl. destruct (Hx Hl). split; [done|lia].
  - intros v w wk H _. apply Forall_alter; [done|].
    intros x _ Hx. unfold closed.
    destruct (Z.leb_spec (activeRequestCount x) 0); simpl.
    + intros Hl. destruct (Hx Hl). lia.
    + intros _. split; [done|lia].
Qed.

(** X6.  In every state the broker reaches, a [closeTraffic] call is left
    waiting only on a worker whose traffic is off and that has at least one
    active request: on an idle worker every such call has been answered. *)
Theorem closeTraffic_waits_only_on_busy_worker
    (heapify : (nat -> HeapKey) -> list nat -> list nat)
    (profile : Profile) (opt : bool) (evs : list Event) :
  Forall (fun wk =>
            ((0 < downToZeroListeners wk)%nat ->
             trafficOff wk = true /\ 1 <= activeRequestCount wk)
            /\ (activeRequestCount wk <= 0 -> downToZeroListeners wk = 0%nat))
    (workerObjs (exec heapify (new_State profile opt) evs)).
Proof.
  assert (Forall waits_only_when_busy
            (workerObjs (exec heapify (new_State profile opt) evs))) as H.
  { apply (pclosed_exec_any heapify (fun _ => True) _ waits_closed evs
             (new_State profile opt)); [apply any_event|done|constructor]. }
  eapply Forall_impl; [exact H|]. intros wk Hwk. split; [exact Hwk|].
  intros Hc. destruct (downToZeroListeners wk) as [|n] eqn:E; [done|].
  unfold waits_only_when_busy in Hwk. rewrite E in Hwk.
  destruct Hwk; lia.
Qed.

(** ** Requests per worker *)

(** The number of calls of [Worker.pipe] on a worker. *)
Definition load (w : nat) (ks : list (nat * PipeStage)) : nat :=
  length (List.filter (fun k => Nat.eqb (fst k) w) ks).

Lemma load_app w ks k :
  load w (ks ++ [k]) = (load w ks + if Nat.eqb (fst k) w then 1 else 0)%nat.
Proof.
  unfold load. rewrite List.filter_app, length_app. simpl.
  by destruct (Nat.eqb (fst k) w).
Qed.

Lemma load_restage w st t ks : load w (alter (restage st) t ks) = load w ks.
Proof.
  unfold load. revert t. induction ks as [|k ks IH]; intros [|t]; simpl; try done.
  - by destruct (Nat.eqb (fst k) w).
  - change (list_alter (restage st) t ks) with (alter (restage st) t ks).
    destruct (Nat.eqb (fst k) w); simpl; by rewrite IH.
Qed.

Lemma load_zero w ks : (forall st, (w, st) ∉ ks) -> load w ks = 0%nat.
Proof.
  unfold load. induction ks as [|[w' st'] ks IH]; intros H; simpl; [done|].
  destruct (Nat.eqb_spec w' w) as [->|Hne].
  - destruct (H st'). by left.
  - apply IH. intros st Hin. apply (H st). by right.
Qed.

Lemma load_pos w ks i st : ks !! i = Some (w, st) -> (1 <= load w ks)%nat.
Proof.
  unfold load. revert i. induction ks as [|k ks IH]; intros [|i] H; simpl in *;
    try done.
  - injection H as ->. simpl. rewrite Nat.eqb_refl. simpl. lia.
  - specialize (IH i H). destruct (Nat.eqb (fst k) w); simpl; lia.
Qed.

Lemma load_two w ks i j a b :
  ks !! i = Some (w, a) -> ks !! j = Some (w, b) -> i <> j -> (2 <= load w ks)%nat.
Proof.
  revert i j. induction ks as [|k ks IH]; intros [|i] [|j] Hi Hj Hne;
    simpl in *; try done.
  - injection Hi as ->. apply (load_pos w ks j b) in Hj.
    unfold load in *. simpl. rewrite Nat.eqb_refl. simpl. lia.
  - injection Hj as ->. apply (load_pos w ks i a) in Hi.
    unfold load in *. simpl. rewrite Nat.eqb_refl. simpl. lia.
  - assert (i <> j) as Hne' by congruence.
    specialize (IH i j Hi Hj Hne'). unfold load in *. simpl.
    destruct (Nat.eqb (fst k) w); simpl; lia.
Qed.

Lemma elem_of_restage k st t (ks : list (nat * PipeStage)) :
  k ∈ alter (restage st) t ks ->
  (exists j, j <> t /\ ks !! j = Some k)
  \/ (exists k0, ks !! t = Some k0 /\ k = restage st k0).
Proof.
  intros [j Hj]%list_elem_of_lookup_1. destruct (decide (j = t)) as [->|Hne].
  - right. rewrite list_lookup_alter_eq in Hj.
    destruct (ks !! t) as [k0|]; simplify_eq/=. eauto.
  - left. rewrite list_lookup_alter_ne in Hj by done. eauto.
Qed.

(** *** A worker whose traffic is off *)

Definition stays_closed (w : nat) (n : nat) (v : PView) : Prop :=
  (trafficOff <$> p_workers v !! w) = Some true /\ load w (p_keys v) = n.

Lemma trafficOff_alter (f : Worker -> Worker) (w w' : nat) (ws : list Worker) :
  (forall x, trafficOff x = true -> trafficOff (f x) = true) ->
  (trafficOff <$> ws !! w) = Some true ->
  (trafficOff <$> alter f w' ws !! w) = Some true.
Proof.
  intros Hf H. destruct (decide (w' = w)) as [->|Hne].
  - rewrite list_lookup_alter_eq. destruct (ws !! w) as [x|]; simplify_eq/=.
    f_equal. by apply Hf.
  - by rewrite list_lookup_alter_ne.
Qed.

Lemma stays_closed_closed w n :
  pclosed (fun _ => True) (fun _ => True) (stays_closed w n).
Proof.
  unfold stays_closed. split; simpl.
  - intros prof v wname cred _ [H1 H2]. split; [|done].
    destruct (p_workers v !! w) as [x|] eqn:Hx; [|done].
    by rewrite (lookup_app_l_Some _ _ _ _ Hx).
  - intros prof v w' wk md _ _ [H1 H2] Hw Hoff _.
    assert (w' <> w) as Hne.
    { intros ->. rewrite Hw in H1. simpl in H1. congruence. }
    split; [by rewrite list_lookup_alter_ne|].
    rewrite load_app. simpl. apply Nat.eqb_neq in Hne. rewrite Hne. lia.
  - intros prof v t w' wk _ [H1 H2] _ _. split; [|by rewrite load_restage].
    by apply trafficOff_alter.
  - intros prof v t w' wk st st' _ [H1 H2] _ _ _.
    split; [|by rewrite load_restage].
    destruct (disposable_ prof); [|done]. apply trafficOff_alter; [|done].
    intros x _. unfold closed. by destruct (activeRequestCount x <=? 0).
  - intros prof v t w' wk _ [H1 H2] _ _. split; [|by rewrite load_restage].
    apply trafficOff_alter; [|done].
    intros x Hx. unfold finished. by destruct (activeRequestCount x - 1 =? 0).
  - intros v w' wk [H1 H2] _. split; [|done].
    apply trafficOff_alter; [|done].
    intros x _. unfold closed. by destruct (activeRequestCount x <=? 0).
Qed.

(** X7.  Closing the traffic of a worker is for good: whatever happens next, its
    [trafficOff] flag stays set and no further request is handed to it. *)
Theorem closed_worker_gets_no_request
    (heapify : (nat -> HeapKey) -> list nat -> list nat)
    (s : State) (evs : list Event) (w : nat) :
  (trafficOff <$> workerObjs s !! w) = Some true ->
  let s' := exec heapify s evs in
  (trafficOff <$> workerObjs s' !! w) = Some true
  /\ load w (map pipe_key (pipes s')) = load w (map pipe_key (pipes s)).
Proof.
  intros Hoff s'.
  apply (pclosed_exec_any heapify (fun _ => True)
           (stays_closed w (load w (map pipe_key (pipes s))))
           (stays_closed_closed w _) evs s); [apply any_event|done|].
  by split.
Qed.

(** X7, witness: the worker of a disposable broker after its one
    response; a further request and the end of the first one follow. *)
Lemma closed_worker_gets_no_request_witness :
  let s := exec minToFront (new_State (sample_profile true None) false)
             (one_worker ++ [EvInvoke 30 "a" (sample_metadata "r1" None);
                             EvTrigger 0 (inr sample_response)]) in
  let s' := exec minToFront s [EvInvoke 40 "b" (sample_metadata "r2" None);
                               EvFinish 0 50] in
  (trafficOff <$> workerObjs s' !! 0%nat) = Some true
  /\ load 0 (map pipe_key (pipes s')) = load 0 (map pipe_key (pipes s)).
Proof.
  intros s.
  apply (closed_worker_gets_no_request minToFront s
           [EvInvoke 40 "b" (sample_metadata "r2" None); EvFinish 0 50] 0%nat).
  reflexivity.
Defined.

Lemma profile_exec heapify okp okm evs : forall s,
  Forall (event_ok okp okm) evs -> okp (_profile (broker s)) ->
  okp (_profile (broker (exec heapify s evs))).
Proof.
  induction evs as [|e evs IH]; intros s Hevs Hprof; [done|].
  apply Forall_cons in Hevs as [He Hevs].
  apply IH; [done|]. by apply (profile_step heapify okp okm).
Qed.

(** *** The cap on a worker's active requests *)

(** An [updateProfile] that leaves the worker settings as they are. *)
Definition keeps_worker_settings (profile : Profile) (e : Event) : Prop :=
  match e with
  | EvUpdateProfile p =>
      disposable_ p = disposable_ profile
      /\ maxActivateRequests_ p = maxActivateRequests_ profile
  | _ => True
  end.

(** An [invoke] without a debugger tag. *)
Definition no_debugger (e : Event) : Prop :=
  match e with
  | EvInvoke _ _ md => truthy (md_debuggerTag md) = false
  | _ => True
  end.

Definition same_settings (profile prof : Profile) : Prop :=
  disposable_ prof = disposable_ profile
  /\ maxActivateRequests_ prof = maxActivateRequests_ profile.

Definition within_cap (c : Z) (v : PView) : Prop :=
  Forall (fun wk => worker_disposable wk = false
                    /\ activeRequestCount wk <= Z.max 0 c) (p_workers v)
  /\ Forall (fun k => snd k <> AwaitInspectorStart) (p_keys v).

Lemma within_cap_closed profile :
  disposable_ profile = false ->
  pclosed (same_settings profile) (fun _ => True)
    (within_cap (maxActivateRequests_ profile)).
Proof.
  intros Hnd. unfold within_cap, same_settings. split; simpl.
  - intros prof v wname cred [Hd Hc] [H1 H2]. split; [|done].
    apply Forall_app. split; [done|]. apply Forall_singleton. simpl.
    split; [congruence|lia].
  - intros prof v w wk md [Hd Hc] _ [H1 H2] Hw Hoff Hcap.
    assert (worker_disposable wk = false) as Hwd.
    { rewrite Forall_lookup in H1. by destruct (H1 w wk Hw). }
    split.
    + apply Forall_alter; [done|]. intros x Hx [Hx1 Hx2].
      assert (x = wk) as -> by congruence.
      unfold assigned, inspects. rewrite Hwd. simpl. split; [done|].
      unfold cap in Hcap. rewrite Hd, Hnd, Hc in Hcap. lia.
    + apply Forall_app. split; [done|]. apply Forall_singleton.
      unfold first_stage, inspects. by rewrite Hwd.
  - intros prof v t w wk _ [H1 H2] Hk _.
    rewrite Forall_lookup in H2. by destruct (H2 t _ Hk).
  - intros prof v t w wk st st' [Hd Hc] [H1 H2] Hk Hw Hst.
    rewrite Hd, Hnd. split; [done|].
    apply Forall_alter; [done|]. intros k _ _. unfold restage. simpl.
    destruct Hst as [[_ ->]|[_ [->| ->]]]; done.
  - intros prof v t w wk _ [H1 H2] Hk Hw. split.
    + apply Forall_alter; [done|]. intros x _ [Hx1 Hx2]. unfold finished.
      destruct (activeRequestCount x - 1 =? 0); simpl; split; (done || lia).
    + apply Forall_alter; [done|]. by intros k _ _.
  - intros v w wk [H1 H2] _. split; [|done].
    apply Forall_alter; [done|]. intros x _ Hx. unfold closed.
    by destruct (activeRequestCount x <=? 0).
Qed.

(** X8.  On a broker that is not disposable and whose worker settings no
    [updateProfile] changes, no worker ever has more active requests than
    [maxActivateRequests]. *)
Theorem worker_stays_within_maxActivateRequests
    (heapify : (nat -> HeapKey) -> list nat -> list nat)
    (profile : Profile) (opt : bool) (evs : list Event) :
  disposable_ profile = false ->
  Forall (keeps_worker_settings profile) evs ->
  let s := exec heapify (new_State profile opt) evs in
  maxActivateRequests (broker s) = maxActivateRequests_ profile
  /\ Forall (fun wk => activeRequestCount wk
                       <= Z.max 0 (maxActivateRequests (broker s)))
       (workerObjs s).
Proof.
  intros Hnd Hevs s.
  assert (Forall (event_ok (same_settings profile) (fun _ => True)) evs) as Hok.
  { eapply Forall_impl; [exact Hevs|]. by intros []. }
  assert (same_settings profile (_profile (broker s))) as [Hd Hc].
  { apply (profile_exec heapify _ _ evs (new_State profile opt) Hok). by split. }
  assert (maxActivateRequests (broker s) = maxActivateRequests_ profile) as Hm.
  { unfold maxActivateRequests, disposable. by rewrite Hd, Hnd. }
  split; [exact Hm|]. rewrite Hm.
  assert (within_cap (maxActivateRequests_ profile) (pview s)) as [H _].
  { apply (pclosed_exec_any heapify _ _ (within_cap_closed profile Hnd) evs
             (new_State profile opt) Hok); [by split|]. by split; constructor. }
  eapply Forall_impl; [exact H|]. by intros wk [_ ?].
Qed.

(** X8, witness: two requests for a worker that takes one at a
    time, and an update that keeps the worker settings. *)
Lemma worker_stays_within_maxActivateRequests_witness :
  let s := exec minToFront (new_State (single_profile false) false)
             (one_worker ++ [EvInvoke 30 "a" (sample_metadata "r1" None);
                             EvInvoke 40 "b" (sample_metadata "r2" None);
                             EvUpdateProfile (single_profile true)]) in
  maxActivateRequests (broker s) = 1
  /\ Forall (fun wk => activeRequestCount wk
                       <= Z.max 0 (maxActivateRequests (broker s)))
       (workerObjs s).
Proof.
  apply (worker_stays_within_maxActivateRequests minToFront
           (single_profile false) false
           (one_worker ++ [EvInvoke 30 "a" (sample_metadata "r1" None);
                           EvInvoke 40 "b" (sample_metadata "r2" None);
                           EvUpdateProfile (single_profile true)])).
  - reflexivity.
  - repeat constructor.
Defined.

(** *** One request per disposable worker *)

Definition serves_once (v : PView) : Prop :=
  (forall k, k ∈ p_keys v -> (fst k < length (p_workers v))%nat)
  /\ forall w wk, p_workers v !! w = Some wk ->
       worker_disposable wk = true
       /\ 0 <= activeRequestCount wk <= 1
       /\ (load w (p_keys v) <= 1)%nat
       /\ forall st, (w, st) ∈ p_keys v ->
            (st = AwaitTrigger /\ 1 <= activeRequestCount wk)
            \/ (st = AwaitFinish /\ trafficOff wk = true
                /\ 1 <= activeRequestCount wk)
            \/ (st = Settled /\ trafficOff wk = true).

Lemma serves_once_closed :
  pclosed (fun prof => disposable_ prof = true)
    (fun md => truthy (md_debuggerTag md) = false) serves_once.
Proof.
  unfold serves_once. split; simpl.
  - intros prof v wname cred Hd [Hb H]. split.
    { intros k Hk. rewrite length_app. simpl. specialize (Hb k Hk). lia. }
    intros w wk Hw. apply lookup_app_Some in Hw as [Hw|[Hge Hw]]; [by apply H|].
    apply list_lookup_singleton_Some in Hw as [Hz <-]. simpl.
    assert (forall st, (w, st) ∉ p_keys v) as Hnone.
    { intros st Hin. specialize (Hb _ Hin). simpl in Hb. lia. }
    split; [done|]. split; [lia|]. split; [rewrite load_zero by done; lia|].
    intros st Hin. by destruct (Hnone st).
  - intros prof v w wk md Hd Hmd [Hb H] Hw Hoff Hcap.
    destruct (H w wk Hw) as (Hwd & Hc0 & Hl & Hst).
    unfold cap in Hcap. rewrite Hd in Hcap.
    assert (forall st, (w, st) ∉ p_keys v) as Hnone.
    { intros st Hin. destruct (Hst st Hin) as [[_ ?]|[(_ & ? & _)|[_ ?]]];
        [lia|congruence|congruence]. }
    assert (inspects wk md = false) as Hi
      by (unfold inspects; by rewrite Hmd, andb_false_r).
    unfold first_stage. rewrite Hi. split.
    { intros k Hk. rewrite length_alter.
      apply elem_of_app in Hk as [Hk|Hk]; [by apply Hb|].
      apply list_elem_of_singleton in Hk as ->. simpl.
      by eapply lookup_lt_Some. }
    intros w' wk' Hw'. destruct (decide (w = w')) as [<-|Hne].
    + rewrite list_lookup_alter_eq, Hw in Hw'. simpl in Hw'.
      injection Hw' as <-. unfold assigned. rewrite Hi. simpl.
      split; [done|]. split; [lia|]. split.
      * rewrite load_app, load_zero by done. simpl. rewrite Nat.eqb_refl. lia.
      * intros st Hin. apply elem_of_app in Hin as [Hin|Hin];
          [by destruct (Hnone st)|].
        apply list_elem_of_singleton in Hin. injection Hin as ->.
        left. split; [done|lia].
    + rewrite list_lookup_alter_ne in Hw' by done.
      destruct (H w' wk' Hw') as (Hwd' & Hc0' & Hl' & Hst').
      split; [done|]. split; [done|]. split.
      * rewrite load_app. simpl. apply Nat.eqb_neq in Hne. rewrite Hne. lia.
      * intros st Hin. apply elem_of_app in Hin as [Hin|Hin]; [by apply Hst'|].
        apply list_elem_of_singleton in Hin. congruence.
  - intros prof v t w wk Hd [Hb H] Hk Hw.
    destruct (H w wk Hw) as (_ & _ & _ & Hst).
    destruct (Hst AwaitInspectorStart) as [[? _]|[[? _]|[? _]]]; try done.
    by eapply list_elem_of_lookup_2.
  - intros prof v t w wk st st' Hd [Hb H] Hk Hw Hsettle. rewrite Hd.
    destruct (H w wk Hw) as (Hwd & Hc0 & Hl & Hst).
    assert (st = AwaitTrigger) as ->.
    { destruct (Hst st) as [[? _]|[[? _]|[? _]]];
        [by eapply list_elem_of_lookup_2|done| |].
      - subst. by destruct Hsettle as [[? _]|[? _]].
      - subst. by destruct Hsettle as [[? _]|[? _]]. }
    assert (1 <= activeRequestCount wk) as Hc1.
    { destruct (Hst AwaitTrigger) as [[_ ?]|[[? _]|[? _]]];
        [by eapply list_elem_of_lookup_2|done..]. }
    assert (st' = AwaitFinish \/ st' = Settled) as Hst'
      by (by destruct Hsettle as [[? _]|[_ ?]]).
    split.
    { intros k Hin. rewrite length_alter.
      apply elem_of_restage in Hin as [(j & _ & Hj)|(k0 & Hk0 & ->)].
      - apply Hb. by eapply list_elem_of_lookup_2.
      - simpl. apply (Hb k0). by eapply list_elem_of_lookup_2. }
    intros w' wk' Hw'. rewrite load_restage.
    destruct (decide (w = w')) as [<-|Hne].
    + rewrite list_lookup_alter_eq, Hw in Hw'. simpl in Hw'. injection Hw' as <-.
      assert (trafficOff (closed wk) = true
              /\ activeRequestCount (closed wk) = activeRequestCount wk
              /\ worker_disposable (closed wk) = worker_disposable wk)
        as (Ho & Hc & Hdd)
        by (unfold closed; by destruct (activeRequestCount wk <=? 0)).
      rewrite Ho, Hc, Hdd. split; [done|]. split; [done|]. split; [done|].
      intros x Hin.
      apply elem_of_restage in Hin as [(j & _ & Hj)|(k0 & Hk0 & E)].
      * destruct (Hst x) as [[-> ?]|[(-> & _ & ?)|[-> _]]];
          [by eapply list_elem_of_lookup_2|auto..].
      * injection E as ->. destruct Hst' as [->| ->]; auto.
    + rewrite list_lookup_alter_ne in Hw' by done.
      destruct (H w' wk' Hw') as (Hwd' & Hc0' & Hl' & Hst'').
      split; [done|]. split; [done|]. split; [done|].
      intros x Hin.
      apply elem_of_restage in Hin as [(j & _ & Hj)|(k0 & Hk0 & E)].
      * apply Hst''. by eapply list_elem_of_lookup_2.
      * rewrite Hk in Hk0. injection Hk0 as <-. injection E as E _. done.
  - intros prof v t w wk Hd [Hb H] Hk Hw.
    destruct (H w wk Hw) as (Hwd & Hc0 & Hl & Hst).
    assert (trafficOff wk = true /\ 1 <= activeRequestCount wk) as [Hoff Hc1].
    { destruct (Hst AwaitFinish) as [[? _]|[(_ & ? & ?)|[? _]]];
        [by eapply list_elem_of_lookup_2|done..]. }
    split.
    { intros k Hin. rewrite length_alter.
      apply elem_of_restage in Hin as [(j & _ & Hj)|(k0 & Hk0 & ->)].
      - apply Hb. by eapply list_elem_of_lookup_2.
      - simpl. apply (Hb k0). by eapply list_elem_of_lookup_2. }
    intros w' wk' Hw'. rewrite load_restage.
    destruct (decide (w = w')) as [<-|Hne].
    + rewrite list_lookup_alter_eq, Hw in Hw'. simpl in Hw'. injection Hw' as <-.
      assert (trafficOff (finished wk) = true
              /\ activeRequestCount (finished wk) = activeRequestCount wk - 1
              /\ worker_disposable (finished wk) = worker_disposable wk)
        as (Ho & Hc & Hdd)
        by (unfold finished; by destruct (activeRequestCount wk - 1 =? 0)).
      rewrite Ho, Hc, Hdd. split; [done|]. split; [lia|]. split; [done|].
      intros x Hin.
      apply elem_of_restage in Hin as [(j & Hjt & Hj)|(k0 & Hk0 & E)].
      * pose proof (load_two w (p_keys v) j t x AwaitFinish Hj Hk Hjt). lia.
      * injection E as ->. auto.
    + rewrite list_lookup_alter_ne in Hw' by done.
      destruct (H w' wk' Hw') as (Hwd' & Hc0' & Hl' & Hst'').
      split; [done|]. split; [done|]. split; [done|].
      intros x Hin.
      apply elem_of_restage in Hin as [(j & _ & Hj)|(k0 & Hk0 & E)].
      * apply Hst''. by eapply list_elem_of_lookup_2.
      * rewrite Hk in Hk0. injection Hk0 as <-. injection E as E _. done.
  - intros v w wk [Hb H] Hw. split.
    { intros k Hin. rewrite length_alter. by apply Hb. }
    intros w' wk' Hw'. destruct (decide (w = w')) as [<-|Hne].
    + rewrite list_lookup_alter_eq, Hw in Hw'. simpl in Hw'. injection Hw' as <-.
      destruct (H w wk Hw) as (Hwd & Hc0 & Hl & Hst).
      assert (trafficOff (closed wk) = true
              /\ activeRequestCount (closed wk) = activeRequestCount wk
              /\ worker_disposable (closed wk) = worker_disposable wk)
        as (Ho & Hc & Hdd).
      { unfold closed. by destruct (activeRequestCount wk <=? 0). }
      rewrite Ho, Hc, Hdd. split; [done|]. split; [done|]. split; [done|].
      intros st Hin. destruct (Hst st Hin) as [[? ?]|[(? & _ & ?)|[? _]]]; auto.
    + rewrite list_lookup_alter_ne in Hw' by done. by apply H.
Qed.

(** An [updateProfile] that keeps the broker disposable. *)
Definition stays_disposable (e : Event) : Prop :=
  match e with
  | EvUpdateProfile p => disposable_ p = true
  | _ => True
  end.

(** X9.  On a disposable broker that stays disposable, whatever else
    [updateProfile] changes, and as long as no request carries a debugger
    tag, a worker is handed at most one request in its whole life, and its
    [activeRequestCount] is 0 or 1. *)
Theorem disposable_worker_serves_one_request
    (heapify : (nat -> HeapKey) -> list nat -> list nat)
    (profile : Profile) (opt : bool) (evs : list Event) (w : nat) :
  disposable_ profile = true ->
  Forall stays_disposable evs ->
  Forall no_debugger evs ->
  let s := exec heapify (new_State profile opt) evs in
  (load w (map pipe_key (pipes s)) <= 1)%nat
  /\ Forall (fun wk => 0 <= activeRequestCount wk <= 1) (workerObjs s).
Proof.
  intros Hd Hkeep Hnodbg s.
  assert (Forall (event_ok (fun prof => disposable_ prof = true)
                    (fun md => truthy (md_debuggerTag md) = false)) evs) as Hok.
  { apply Forall_forall. intros e He.
    rewrite Forall_forall in Hkeep, Hnodbg.
    specialize (Hkeep e He). specialize (Hnodbg e He).
    by destruct e. }
  assert (serves_once (pview s)) as [Hb H].
  { apply (pclosed_reachable heapify _ _ _ serves_once_closed); try done.
    split; [by intros k ?%elem_of_nil|]. by intros w' wk'. }
  assert (forall w' wk, workerObjs s !! w' = Some wk ->
            0 <= activeRequestCount wk <= 1
            /\ (load w' (map pipe_key (pipes s)) <= 1)%nat) as Hall.
  { intros w' wk Hw. destruct (H w' wk Hw) as (_ & Hc0 & Hl & Hst).
    split; [exact Hc0|exact Hl]. }
  split.
  - destruct (workerObjs s !! w) as [wk|] eqn:Hw; [by destruct (Hall w wk Hw)|].
    rewrite load_zero; [lia|]. intros st Hin. specialize (Hb _ Hin). simpl in Hb.
    apply lookup_ge_None in Hw. simpl in Hw. lia.
  - apply Forall_lookup. intros w' wk Hw. by destruct (Hall w' wk Hw).
Qed.

(** X9, witness: two requests for the one worker of a disposable
    broker whose profile is updated to another [maxActivateRequests]. *)
Lemma disposable_worker_serves_one_request_witness :
  let s := exec minToFront (new_State (sample_profile true None) false)
             (one_worker ++ [EvUpdateProfile (disposable_profile 5);
                             EvInvoke 30 "a" (sample_metadata "r1" None);
                             EvInvoke 40 "b" (sample_metadata "r2" None);
                             EvTrigger 0 (inr sample_response)]) in
  (load 0 (map pipe_key (pipes s)) <= 1)%nat
  /\ Forall (fun wk => 0 <= activeRequestCount wk <= 1) (workerObjs s).
Proof.
  apply (disposable_worker_serves_one_request minToFront
           (sample_profile true None) false
           (one_worker ++ [EvUpdateProfile (disposable_profile 5);
                           EvInvoke 30 "a" (sample_metadata "r1" None);
                           EvInvoke 40 "b" (sample_metadata "r2" None);
                           EvTrigger 0 (inr sample_response)]) 0%nat).
  - reflexivity.
  - repeat constructor.
  - repeat constructor.
Defined.

(** ** The registry of workers *)

(** The heap and the calls of [bindWorker] that wait for [init]: what the
    queue and the pipes never touch. *)
Definition hview (s : State) : list nat * list Init :=
  (_workerHeap (broker s), inits s).

Lemma hview_broker s s' : broker s' = broker s -> inits s' = inits s -> hview s' = hview s.
Proof. unfold hview. by intros -> ->. Qed.

Lemma inits_broadcast w ev s : inits (broadcastContainerStatusReport w ev s) = inits s.
Proof. unfold broadcastContainerStatusReport. by destruct (workerObjs s !! w). Qed.

Lemma inits_closeTraffic w s : inits (closeTraffic w s) = inits s.
Proof.
  unfold closeTraffic, Worker_closeTraffic.
  destruct (workerObjs (upd_worker w (set_trafficOff true) (emit (CloseTraffic w) s)) !! w)
    as [wk|]; [destruct (activeRequestCount wk <=? 0)|]; done.
Qed.

Lemma inits_closeTraffic_resumed d s : inits (closeTraffic_resumed d s) = inits s.
Proof.
  unfold closeTraffic_resumed. destruct (drains s !! d) as [dr|]; [|done].
  destruct (drain_stage dr); try done. by rewrite inits_broadcast.
Qed.

Lemma inits_pipe w src inp md wait s : inits (pipe w src inp md wait s) = inits s.
Proof.
  unfold pipe, pipe_dispatch. destruct (workerObjs s !! w) as [wk|] eqn:Hw; [|done].
  destruct (worker_disposable wk && truthy (md_debuggerTag md)); [done|].
  simpl. by rewrite Hw.
Qed.

Lemma inits_pipe_settled t p out s : inits (pipe_settled t p out s) = inits s.
Proof.
  unfold pipe_settled. destruct (source p) as [|rid].
  - simpl. destruct (disposable (broker s)); by rewrite ?inits_closeTraffic.
  - destruct out as [e|ret];
      match goal with |- context [if ?c then _ else _] => destruct c end;
      by rewrite ?inits_closeTraffic.
Qed.

Lemma hview_pipe w src inp md wait s : hview (pipe w src inp md wait s) = hview s.
Proof. apply hview_broker; [apply broker_pipe|apply inits_pipe]. Qed.

Lemma hview_pipe_settled t p out s : hview (pipe_settled t p out s) = hview s.
Proof. apply hview_broker; [apply broker_pipe_settled|apply inits_pipe_settled]. Qed.

Lemma hview_consumeQueue now w queue : forall s,
  hview (consumeQueue now w queue s) = hview s.
Proof.
  induction queue as [|rid rest IH]; intros s; simpl; [done|].
  destruct (isWorkerFree w s); simpl; [|done].
  destruct (requestObjs s !! rid) as [request|]; [|by rewrite IH].
  destruct (negb (available request)); [by rewrite IH|].
  match goal with |- context [if ?c then _ else _] => destruct c end;
    rewrite ?IH; unfold pipe_PendingRequest;
    match goal with |- hview (emit _ ?s2) = _ =>
      change (hview (emit _ s2)) with (hview s2) end;
    by rewrite hview_pipe.
Qed.

Lemma hview_tryConsumeQueue now w s : hview (tryConsumeQueue now w s) = hview s.
Proof.
  unfold tryConsumeQueue.
  destruct (requestQueue (broker (consumeQueue now w (requestQueue (broker s)) s)));
    [change (hview (consumeQueue now w (requestQueue (broker s)) s) = hview s)|];
    apply hview_consumeQueue.
Qed.

Lemma hview_continueConsumeQueue now w s :
  hview (continueConsumeQueue now w s) = hview s.
Proof.
  unfold continueConsumeQueue. destruct (workerObjs s !! w) as [wk|]; [|done].
  destruct (worker_disposable wk); [done|].
  destruct (isWorkerFree w s); [|done]. apply hview_tryConsumeQueue.
Qed.

Lemma hview_queueRequest now inp md s :
  hview (snd (_queueRequest now inp md s)) = hview s.
Proof.
  unfold _queueRequest, checkRequestQueue.
  by destruct (negb (disableRequestQueue (_profile (broker s)))).
Qed.

Lemma hview_timeout now rid s : hview (PendingRequest_timeout now rid s) = hview s.
Proof.
  unfold PendingRequest_timeout. destruct (requestObjs s !! rid) as [p|]; [|done].
  by destruct (is_armed (timer p)).
Qed.

Lemma hview_fastFail_fold now err queue : forall s,
  hview (fold_left (fastFail_one now err) queue s) = hview s.
Proof.
  induction queue as [|rid rest IH]; intros s; cbn [fold_left]; [done|].
  rewrite IH. unfold fastFail_one. by destruct (requestObjs s !! rid).
Qed.

Lemma hview_fastFail now fatal message s :
  hview (fastFailAllPendingsDueToStartError now fatal message s) = hview s.
Proof.
  unfold fastFailAllPendingsDueToStartError.
  destruct (negb fatal && negb (fastFailRequestsOnStarting (_profile (broker s))));
    [done|].
  by rewrite hview_fastFail_fold.
Qed.

Lemma hview_inspectorStarted t res s :
  hview (pipe_inspectorStarted t res s) = hview s.
Proof.
  unfold pipe_inspectorStarted. destruct (pipes s !! t) as [p|]; [|done].
  destruct (stage p); try done.
  destruct (workerObjs s !! pipe_worker p) as [wk|] eqn:Hw; [|done].
  destruct res; [by rewrite hview_pipe_settled|].
  unfold pipe_dispatch. simpl. by rewrite Hw.
Qed.

Lemma hview_triggered t res s : hview (pipe_triggered t res s) = hview s.
Proof.
  unfold pipe_triggered. destruct (pipes s !! t) as [p|]; [|done].
  destruct (stage p); try done.
  destruct (workerObjs s !! pipe_worker p); [|done].
  destruct res; by rewrite hview_pipe_settled.
Qed.

Lemma hview_finished t now s : hview (pipe_finished t now s) = hview s.
Proof.
  unfold pipe_finished. destruct (pipes s !! t) as [p|]; [|done].
  destruct (stage p); try done.
  destruct (workerObjs s !! pipe_worker p) as [wk|] eqn:Hw; [|done].
  rewrite hview_continueConsumeQueue.
  destruct (activeRequestCount wk - 1 =? 0); [|done].
  unfold emit_downToZero. simpl. by rewrite list_lookup_alter_eq, Hw.
Qed.

Lemma hview_acquireToken s :
  hview (snd (acquireToken s)) = hview s.
Proof.
  unfold acquireToken. destruct (tokenBucket (broker s)) as [tb|]; [|done].
  by destruct (TokenBucket_acquire tb).
Qed.

(** What a worker is for good: its name, its credential and whether it is
    disposable. *)
Definition ident (wk : Worker) : string * string * bool :=
  (worker_name wk, credential wk, worker_disposable wk).

(** [ws'] has the workers of [ws], each with its identity, and maybe more. *)
Definition grows (ws ws' : list Worker) : Prop :=
  forall w wk, ws !! w = Some wk ->
    exists wk', ws' !! w = Some wk' /\ ident wk' = ident wk.

Lemma grows_alter ws ws' (f : Worker -> Worker) (w : nat) :
  (forall x, ident (f x) = ident x) -> grows ws ws' -> grows ws (alter f w ws').
Proof.
  intros Hf H w0 wk Hw. destruct (H w0 wk Hw) as (wk' & Hw' & Hi).
  destruct (decide (w = w0)) as [->|Hne].
  - exists (f wk'). rewrite list_lookup_alter_eq, Hw'. split; [done|].
    by rewrite Hf.
  - exists wk'. by rewrite list_lookup_alter_ne.
Qed.

Lemma grows_closed ws :
  pclosed (fun _ => True) (fun _ => True) (fun v => grows ws (p_workers v)).
Proof.
  split; simpl.
  - intros prof v wname cred _ H w wk Hw. destruct (H w wk Hw) as (wk' & Hw' & Hi).
    exists wk'. split; [by apply lookup_app_l_Some|done].
  - intros prof v w wk md _ _ H _ _ _. apply grows_alter; [|done].
    intros x. unfold assigned. by destruct (inspects x md).
  - intros prof v t w wk _ H _ _. by apply grows_alter.
  - intros prof v t w wk st st' _ H _ _ _. destruct (disposable_ prof); [|done].
    apply grows_alter; [|done]. intros x. unfold closed.
    by destruct (activeRequestCount x <=? 0).
  - intros prof v t w wk _ H _ _. apply grows_alter; [|done].
    intros x. unfold finished. by destruct (activeRequestCount x - 1 =? 0).
  - intros v w wk H _. apply grows_alter; [|done].
    intros x. unfold closed. by destruct (activeRequestCount x <=? 0).
Qed.

Lemma grows_step heapify s e : grows (workerObjs s) (workerObjs (step heapify s e)).
Proof.
  apply (pclosed_step heapify (fun _ => True) (fun _ => True) _
           (grows_closed (workerObjs s)) s e); try done.
  - by destruct e.
  - intros w wk Hw. eauto.
Qed.

Record registry_ok (s : State) : Prop := {
  reg_heap : forall w, w ∈ _workerHeap (broker s) -> is_Some (workerObjs s !! w);
  reg_nodup : NoDup (_workerHeap (broker s));
  reg_inits : forall i it, inits s !! i = Some it ->
    exists wk, workerObjs s !! init_worker it = Some wk
      /\ credential wk = init_credential it
      /\ worker_name wk = init_item_name it;
  reg_pending : forall i it, inits s !! i = Some it -> init_pending it = true ->
    init_worker it ∉ _workerHeap (broker s);
  reg_inj : forall i j it it', inits s !! i = Some it -> inits s !! j = Some it' ->
    init_worker it = init_worker it' -> i = j;
  reg_bound : forall cred item w,
    _workerMap (broker s) !! cred = Some item -> worker item = Some w ->
    status item = BOUND /\ w ∈ _workerHeap (broker s)
    /\ exists wk, workerObjs s !! w = Some wk
         /\ credential wk = cred /\ worker_name wk = item_name item }.

Lemma registry_ok_frame s s' :
  _workerHeap (broker s') ≡ₚ _workerHeap (broker s) ->
  _workerMap (broker s') = _workerMap (broker s) ->
  inits s' = inits s ->
  grows (workerObjs s) (workerObjs s') ->
  registry_ok s -> registry_ok s'.
Proof.
  intros Hh Hm Hi Hg [H1 H2 H3 H4 H5 H6]. split.
  - intros w Hw. rewrite Hh in Hw. destruct (H1 w Hw) as [wk Hwk].
    destruct (Hg w wk Hwk) as (wk' & -> & _). eauto.
  - by rewrite Hh.
  - intros i it Hit. rewrite Hi in Hit.
    destruct (H3 i it Hit) as (wk & Hwk & Hc & Hn).
    destruct (Hg _ wk Hwk) as (wk' & Hwk' & Hid). exists wk'.
    unfold ident in Hid. injection Hid as -> -> _. done.
  - intros i it Hit Hp. rewrite Hi in Hit. rewrite Hh. by eapply H4.
  - rewrite Hi. exact H5.
  - intros cred item w Hc Hw. rewrite Hm in Hc.
    destruct (H6 cred item w Hc Hw) as (Hs & Hin & wk & Hwk & Hcr & Hn).
    split; [done|]. split; [by rewrite Hh|].
    destruct (Hg _ wk Hwk) as (wk' & Hwk' & Hid). exists wk'.
    unfold ident in Hid. injection Hid as -> -> _. done.
Qed.

Lemma registry_ok_view heapify s e :
  hview (step heapify s e) = hview s ->
  bstatic (broker (step heapify s e)) = bstatic (broker s) ->
  registry_ok s -> registry_ok (step heapify s e).
Proof.
  intros [= Hh Hi] [= _ _ _ Hm _]. apply (registry_ok_frame s); try done.
  - by rewrite Hh.
  - apply grows_step.
Qed.

Lemma spliceFirst_sublist f l : sublist (spliceFirst f l) l.
Proof.
  induction l as [|x l IH]; simpl; [done|].
  destruct (f x); [by apply sublist_cons|by apply sublist_skip].
Qed.

Lemma spliceFirst_keeps f l x : x ∈ l -> f x = false -> x ∈ spliceFirst f l.
Proof.
  induction l as [|y l IH]; simpl; [done|].
  intros [->|Hin]%elem_of_cons Hf.
  - rewrite Hf. by left.
  - destruct (f y); [done|]. right. by apply IH.
Qed.

Section Registry.

Variable heapify : (nat -> HeapKey) -> list nat -> list nat.
Hypothesis Hheap : heapify_spec heapify.

Lemma heap_getAvailableWorker s :
  _workerHeap (broker (snd (getAvailableWorker heapify s)))
  ≡ₚ _workerHeap (broker s)
  /\ inits (snd (getAvailableWorker heapify s)) = inits s.
Proof.
  unfold getAvailableWorker. cbv zeta.
  destruct (Hheap (heapKey s) (_workerHeap (broker s))) as [Hperm _].
  repeat match goal with
         | |- context [match ?x with _ => _ end] => destruct x
         end; simpl; done.
Qed.

Lemma registry_ok_step s e : registry_ok s -> registry_ok (step heapify s e).
Proof.
  intros H. destruct e.
  - apply (registry_ok_frame s); [| | |apply grows_step|done]; simpl.
    + unfold invoke.
      pose proof (hview_acquireToken s) as Ha.
      destruct (acquireToken s) as [ok s1]. simpl in Ha. injection Ha as Ha _.
      destruct ok; simpl; [|by rewrite Ha].
      assert (forall s2, _workerHeap (broker s2) ≡ₚ _workerHeap (broker s1) ->
                _workerHeap (broker (snd (_queueRequest now inp md s2)))
                ≡ₚ _workerHeap (broker s)) as Hq.
      { intros s2 E. pose proof (hview_queueRequest now inp md s2) as [= -> _].
        by rewrite E, Ha. }
      destruct (requestQueueStatus (broker s1)); [|by apply Hq].
      destruct (heap_getAvailableWorker s1) as [Hg _].
      destruct (getAvailableWorker heapify s1) as [[w|] s2]; simpl in Hg.
      * cbn [snd]. unfold pipe_Input. rewrite broker_pipe. by rewrite Hg, Ha.
      * by apply Hq.
    + destruct (bstatic_invoke heapify now inp md s) as [E _]. simpl in E.
      by injection E as _ _ _ ->.
    + unfold invoke.
      pose proof (hview_acquireToken s) as Ha.
      destruct (acquireToken s) as [ok s1]. simpl in Ha. injection Ha as _ Ha.
      destruct ok; simpl; [|done].
      assert (forall s2, inits s2 = inits s1 ->
                inits (snd (_queueRequest now inp md s2)) = inits s) as Hq.
      { intros s2 E. pose proof (hview_queueRequest now inp md s2) as [= _ ->].
        by rewrite E, Ha. }
      destruct (requestQueueStatus (broker s1)); [|by apply Hq].
      destruct (heap_getAvailableWorker s1) as [_ Hg].
      destruct (getAvailableWorker heapify s1) as [[w|] s2]; simpl in Hg.
      * cbn [snd]. unfold pipe_Input. rewrite inits_pipe. by rewrite Hg, Ha.
      * by apply Hq.
  - apply registry_ok_view; [apply hview_inspectorStarted
                            |apply bstatic_inspectorStarted|done].
  - apply registry_ok_view; [apply hview_triggered|apply bstatic_triggered|done].
  - apply registry_ok_view; [apply hview_finished|apply bstatic_finished|done].
  - apply registry_ok_view; [apply hview_timeout|apply bstatic_timeout|done].
  - simpl. unfold registerCredential.
    destruct (isCredentialPending cred (broker s)); [done|]. simpl.
    destruct H as [H1 H2 H3 H4 H5 H6]. split; simpl; try done.
    intros c item w. destruct (decide (cred = c)) as [->|Hne].
    + rewrite lookup_insert_eq. by intros [= <-].
    + rewrite lookup_insert_ne by done. apply H6.
  - simpl. unfold bindWorker.
    destruct (_workerMap (broker s) !! cred) as [item|]; [|done].
    destruct (negb (isCredentialPending cred (broker s))); [done|].
    destruct (status item); [|done]. simpl.
    destruct H as [H1 H2 H3 H4 H5 H6].
    assert (forall w, is_Some (workerObjs s !! w) ->
              (w < length (workerObjs s))%nat) as Hlt
      by (intros w [wk Hw]; by eapply lookup_lt_Some).
    split; simpl.
    + intros w Hw. destruct (H1 w Hw) as [wk Hwk]. exists wk.
      by apply lookup_app_l_Some.
    + done.
    + intros i it Hit. apply lookup_app_Some in Hit as [Hit|[_ Hit]].
      * destruct (H3 i it Hit) as (wk & Hwk & ?). exists wk.
        split; [by apply lookup_app_l_Some|done].
      * apply list_lookup_singleton_Some in Hit as [_ <-]. simpl.
        eexists. split; [apply list_lookup_middle; done|done].
    + intros i it Hit Hp. apply lookup_app_Some in Hit as [Hit|[_ Hit]];
        [by eapply H4|].
      apply list_lookup_singleton_Some in Hit as [_ <-]. simpl.
      intros Hin. specialize (Hlt _ (H1 _ Hin)). lia.
    + intros i j it it' Hi Hj E.
      assert (forall k x, inits s !! k = Some x ->
                (init_worker x < length (workerObjs s))%nat) as Hold.
      { intros k x Hx. destruct (H3 k x Hx) as (wk & Hwk & _).
        by eapply lookup_lt_Some. }
      apply lookup_app_Some in Hi as [Hi|[Hgi Hi]];
        apply lookup_app_Some in Hj as [Hj|[Hgj Hj]].
      * by eapply H5.
      * apply list_lookup_singleton_Some in Hj as [_ <-]. simpl in E.
        specialize (Hold _ _ Hi). lia.
      * apply list_lookup_singleton_Some in Hi as [_ <-]. simpl in E.
        specialize (Hold _ _ Hj). lia.
      * apply list_lookup_singleton_Some in Hi as [Hi _].
        apply list_lookup_singleton_Some in Hj as [Hj _]. lia.
    + intros c it w Hc Hw. destruct (H6 c it w Hc Hw) as (? & ? & wk & Hwk & ?).
      split; [done|]. split; [done|]. exists wk.
      split; [by apply lookup_app_l_Some|done].
  - simpl. unfold bindWorker_initialized.
    destruct (inits s !! i) as [it|] eqn:Hit; [|done].
    destruct (init_pending it) eqn:Hpend; [|done].
    assert (forall j x, alter (set_init_pending false) i (inits s) !! j = Some x ->
              exists y, inits s !! j = Some y /\ init_worker x = init_worker y
                /\ init_credential x = init_credential y
                /\ init_item_name x = init_item_name y
                /\ (init_pending x = true -> j <> i /\ x = y)) as Halt.
    { intros j x Hx. destruct (decide (i = j)) as [<-|Hne].
      - rewrite list_lookup_alter_eq, Hit in Hx. simpl in Hx. injection Hx as <-.
        exists it. repeat split; try done.
      - rewrite list_lookup_alter_ne in Hx by done. exists x.
        repeat split; try done; congruence. }
    destruct res as [e|].
    + destruct H as [H1 H2 H3 H4 H5 H6]. split; simpl; try done.
      * intros j x Hx. destruct (Halt j x Hx) as (y & Hy & -> & -> & -> & _).
        by eapply H3.
      * intros j x Hx Hp. destruct (Halt j x Hx) as (y & Hy & _ & _ & _ & Hq).
        destruct (Hq Hp) as [_ ->]. by eapply H4.
      * intros j k x x' Hx Hx' E.
        destruct (Halt j x Hx) as (y & Hy & E1 & _).
        destruct (Halt k x' Hx') as (y' & Hy' & E2 & _).
        apply (H5 j k y y'); congruence.
    + match goal with |- registry_ok (tryConsumeQueue now ?w ?s3) =>
        set (s3' := s3) end.
      assert (registry_ok s3') as H3'.
      { destruct H as [H1 H2 H3 H4 H5 H6]. subst s3'.
        split; simpl; rewrite ?broker_broadcast, ?inits_broadcast; simpl.
        - assert (workerObjs (broadcastContainerStatusReport (init_worker it)
                    ContainerInstalled
                    (upd_inits (alter (set_init_pending false) i) s))
                  = workerObjs s) as ->.
          { unfold broadcastContainerStatusReport. simpl.
            by destruct (workerObjs s !! init_worker it). }
          intros w [Hw| ->%list_elem_of_singleton]%elem_of_app; [by apply H1|].
          destruct (H3 i it Hit) as (wk & -> & _). eauto.
        - apply NoDup_app. split; [done|]. split; [|apply NoDup_singleton].
          intros x Hx ->%list_elem_of_singleton. by eapply H4.
        - assert (workerObjs (broadcastContainerStatusReport (init_worker it)
                    ContainerInstalled
                    (upd_inits (alter (set_init_pending false) i) s))
                  = workerObjs s) as ->.
          { unfold broadcastContainerStatusReport. simpl.
            by destruct (workerObjs s !! init_worker it). }
          intros j x Hx. destruct (Halt j x Hx) as (y & Hy & -> & -> & -> & _).
          by eapply H3.
        - intros j x Hx Hp. destruct (Halt j x Hx) as (y & Hy & _ & _ & _ & Hq).
          destruct (Hq Hp) as [Hne ->].
          intros [Hin| E%list_elem_of_singleton]%elem_of_app.
          + by eapply H4.
          + apply Hne. by eapply (H5 j i y it).
        - intros j k x x' Hx Hx' E.
          destruct (Halt j x Hx) as (y & Hy & E1 & _).
          destruct (Halt k x' Hx') as (y' & Hy' & E2 & _).
          apply (H5 j k y y'); congruence.
        - assert (workerObjs (broadcastContainerStatusReport (init_worker it)
                    ContainerInstalled
                    (upd_inits (alter (set_init_pending false) i) s))
                  = workerObjs s) as ->.
          { unfold broadcastContainerStatusReport. simpl.
            by destruct (workerObjs s !! init_worker it). }
          intros c item w. destruct (decide (init_credential it = c)) as [<-|Hne].
          + rewrite lookup_insert_eq. intros [= <-] [= <-]. simpl.
            split; [done|]. split; [apply elem_of_app; right; by left|].
            destruct (H3 i it Hit) as (wk & ? & ? & ?). by exists wk.
          + rewrite lookup_insert_ne by done. intros Hc Hw.
            destruct (H6 c item w Hc Hw) as (? & ? & ?).
            split; [done|]. split; [apply elem_of_app; by left|done]. }
      pose proof (hview_tryConsumeQueue now (init_worker it) s3') as [= Hh Hi].
      pose proof (bstatic_tryConsumeQueue now (init_worker it) s3')
        as [= _ _ _ Hm _].
      apply (registry_ok_frame s3'); try done.
      * by rewrite Hh.
      * apply (pclosed_tryConsumeQueue (fun _ => True) (fun _ => True) _
                 (grows_closed (workerObjs s3')) now (init_worker it) s3');
          try done. intros w wk Hw. eauto.
  - simpl. destruct H as [H1 H2 H3 H4 H5 H6]. split; simpl; try done.
    + intros w Hw. apply H1. eapply elem_of_sublist; [exact Hw|].
      apply spliceFirst_sublist.
    + eapply sublist_NoDup; [exact H2|apply spliceFirst_sublist].
    + intros i it Hit Hp Hin. apply (H4 i it Hit Hp).
      eapply elem_of_sublist; [exact Hin|]. apply spliceFirst_sublist.
    + intros c item w. destruct (decide (cred = c)) as [->|Hne].
      * by rewrite lookup_delete_eq.
      * rewrite lookup_delete_ne by done. intros Hc Hw.
        destruct (H6 c item w Hc Hw) as (Hs & Hin & wk & Hwk & Hcr & Hn).
        split; [done|]. split; [|by exists wk].
        apply spliceFirst_keeps; [done|]. rewrite Hwk.
        apply String.eqb_neq. congruence.
  - simpl. unfold updateProfile.
    destruct (negb (String.eqb (profile_name p) (name (broker s)))); [done|].
    by destruct H.
  - apply registry_ok_view; [apply hview_fastFail|apply bstatic_fastFail|done].
  - by destruct H.
  - simpl. destruct (workerObjs s !! w) eqn:Hw; [|done].
    apply (registry_ok_frame s); [by rewrite broker_closeTraffic..| | |done].
    + apply inits_closeTraffic.
    + pose proof (grows_step heapify s (EvCloseTraffic w)) as Hg. simpl in Hg.
      by rewrite Hw in Hg.
  - simpl.
    apply (registry_ok_frame s);
      [by rewrite broker_closeTraffic_resumed..| | |done].
    + apply inits_closeTraffic_resumed.
    + apply (grows_step heapify s (EvCloseTrafficResumed d)).
Qed.

Lemma registry_ok_exec evs : forall s,
  registry_ok s -> registry_ok (exec heapify s evs).
Proof.
  induction evs as [|e evs IH]; intros s H; [done|].
  apply IH. by apply registry_ok_step.
Qed.

End Registry.

Lemma registry_ok_new profile opt : registry_ok (new_State profile opt).
Proof.
  split; simpl; try done.
  - by intros w ?%elem_of_nil.
  - apply NoDup_nil_2.
Qed.

(** ** Binding a worker (claim C8) *)

Lemma inits_getAvailableWorker heapify s :
  inits (snd (getAvailableWorker heapify s)) = inits s.
Proof.
  unfold getAvailableWorker. cbv zeta.
  repeat match goal with
         | |- context [match ?x with _ => _ end] => destruct x
         end; reflexivity.
Qed.

Lemma inits_invoke heapify now inp md s :
  inits (snd (invoke heapify now inp md s)) = inits s.
Proof.
  unfold invoke.
  pose proof (hview_acquireToken s) as Ha.
  destruct (acquireToken s) as [ok s1]. simpl in Ha. injection Ha as _ Ha.
  destruct ok; simpl; [|done].
  assert (forall s2, inits s2 = inits s1 ->
            inits (snd (_queueRequest now inp md s2)) = inits s) as Hq.
  { intros s2 E. pose proof (hview_queueRequest now inp md s2) as [= _ ->].
    by rewrite E, Ha. }
  destruct (requestQueueStatus (broker s1)); [|by apply Hq].
  pose proof (inits_getAvailableWorker heapify s1) as Hg.
  destruct (getAvailableWorker heapify s1) as [[w|] s2]; simpl in Hg.
  - cbn [snd]. unfold pipe_Input. rewrite inits_pipe. by rewrite Hg, Ha.
  - by apply Hq.
Qed.

(** An event other than the settlement of the [init] that call [i] of
    [bindWorker] awaits. *)
Definition not_init (i : nat) (e : Event) : Prop :=
  match e with
  | EvInit j _ _ => j <> i
  | _ => True
  end.

(** A call of [bindWorker] stays suspended until its [init] settles. *)
Lemma inits_step heapify s e i it :
  inits s !! i = Some it -> not_init i e ->
  inits (step heapify s e) !! i = Some it.
Proof.
  intros Hit He. destruct e; simpl.
  - by rewrite inits_invoke.
  - pose proof (hview_inspectorStarted t res s) as [= _ ->]. done.
  - pose proof (hview_triggered t res s) as [= _ ->]. done.
  - pose proof (hview_finished t now s) as [= _ ->]. done.
  - pose proof (hview_timeout now rid s) as [= _ ->]. done.
  - unfold registerCredential. by destruct (isCredentialPending cred (broker s)).
  - unfold bindWorker.
    destruct (_workerMap (broker s) !! cred) as [item|]; [|done].
    destruct (negb (isCredentialPending cred (broker s))); [done|].
    destruct (status item); [|done]. simpl. by apply lookup_app_l_Some.
  - unfold bindWorker_initialized.
    destruct (inits s !! i0) as [it0|]; [|done].
    destruct (init_pending it0); [|done]. simpl in He.
    destruct res as [e|].
    + simpl. by rewrite list_lookup_alter_ne.
    + pose proof (hview_tryConsumeQueue now (init_worker it0)) as Ht.
      match goal with |- inits (tryConsumeQueue _ _ ?s3) !! _ = _ =>
        specialize (Ht s3); injection Ht as _ -> end.
      simpl. rewrite inits_broadcast. simpl. by rewrite list_lookup_alter_ne.
  - done.
  - unfold updateProfile.
    by destruct (negb (String.eqb (profile_name p) (name (broker s)))).
  - pose proof (hview_fastFail now fatal message s) as [= _ ->]. done.
  - done.
  - destruct (workerObjs s !! w); [by rewrite inits_closeTraffic|done].
  - by rewrite inits_closeTraffic_resumed.
Qed.

Lemma inits_exec heapify evs i it : forall s,
  inits s !! i = Some it -> Forall (not_init i) evs ->
  inits (exec heapify s evs) !! i = Some it.
Proof.
  induction evs as [|e evs IH]; intros s Hit Hevs; [done|].
  apply Forall_cons in Hevs as [He Hevs]. apply IH; [|done].
  by apply inits_step.
Qed.

(** C8, counterexample.  The claim reads: [bindWorker] fails with an error
    unless the credential is PENDING.  For a credential the broker has never
    seen it returns normally and changes nothing. *)
Lemma bindWorker_unknown_credential_returns :
  let s := new_State (sample_profile false None) false in
  _workerMap (broker s) !! "nobody" = None
  /\ bindWorker 0 "nobody" s = (BindReturned, s)
  /\ ~ (exists e, fst (bindWorker 0 "nobody" s) = BindThrew e).
Proof.
  split; [reflexivity|]. split; [reflexivity|]. intros [e He]. discriminate He.
Qed.

(** C8, as amended.  In every state the broker reaches: for an unknown
    credential [bindWorker] returns without an error and without a change;
    for a credential that is registered but BOUND it throws and changes
    nothing; for a PENDING credential, which has no worker, it calls the
    delegate's [init] with deadline [initializationTimeout + now] and leaves
    the broker as it is.  When that [init] fails, whatever the broker has
    done while it was awaited, [bindWorker] asks the delegate to
    [resetPeer], rethrows the error and changes nothing else: the broker,
    with its worker map and its heap, the workers, the pending requests and
    the pipes are as they were when [init] settled, and an entry of the
    credential that is PENDING then has no worker. *)
Theorem bindWorker_requires_pending
    (heapify : (nat -> HeapKey) -> list nat -> list nat)
    (profile : Profile) (opt : bool) (evs : list Event)
    (cred : string) (now : Z) :
  let s := exec heapify (new_State profile opt) evs in
  match _workerMap (broker s) !! cred with
  | None => bindWorker now cred s = (BindReturned, s)
  | Some item =>
      match status item with
      | BOUND =>
          bindWorker now cred s
          = (BindThrew (new_Error ("Credential " +:+ cred
                                     +:+ " has not registered in "
                                     +:+ name (broker s) +:+ " yet.")), s)
      | PENDING =>
          worker item = None
          /\ exists i s1,
               bindWorker now cred s = (BindAwaitInit i, s1)
               /\ trace s1
                  = trace s ++ [DelegateInit cred
                                  (initializationTimeout (_profile (broker s))
                                   + now)]
               /\ broker s1 = broker s
               /\ forall evs' e now',
                    Forall (not_init i) evs' ->
                    let s2 := exec heapify s1 evs' in
                    let s3 := bindWorker_initialized i (Some e) now' s2 in
                    trace s3
                    = trace s2 ++ [DelegateResetPeer cred; BindThrow cred e]
                    /\ broker s3 = broker s2
                    /\ workerObjs s3 = workerObjs s2
                    /\ requestObjs s3 = requestObjs s2
                    /\ pipes s3 = pipes s2
                    /\ forall item',
                         _workerMap (broker s3) !! cred = Some item' ->
                         status item' = PENDING -> worker item' = None
      end
  end.
Proof.
  intros s.
  assert (static_ok (new_WorkerBroker profile opt) (broker s)) as Hs
    by apply static_ok_exec, static_ok_new.
  pose proof Hs as [Hm _].
  pose proof (static_ok_step heapify _ s (EvBindWorker cred now) Hs) as Hs1.
  simpl in Hs1. revert Hs1.
  unfold bindWorker, isCredentialPending.
  destruct (_workerMap (broker s) !! cred) as [item|] eqn:Hit; [|done].
  destruct (status item) eqn:Hst; simpl; [|done].
  intros Hs1. split; [by apply (Hm cred)|].
  eexists _, _. split; [reflexivity|]. split; [reflexivity|]. split; [done|].
  intros evs' e now' Hevs'.
  match goal with |- context [exec heapify ?x evs'] => set (s1 := x) in * end.
  assert (inits (exec heapify s1 evs') !! length (inits s)
          = Some {| init_credential := cred; init_item_name := item_name item;
                    init_worker := length (workerObjs s);
                    init_pending := true |}) as Hi.
  { apply inits_exec; [|done]. subst s1. simpl. by apply list_lookup_middle. }
  pose proof (static_ok_exec heapify _ evs' s1 Hs1) as [Hm2 _].
  unfold bindWorker_initialized. rewrite Hi. simpl.
  split; [by rewrite <- app_assoc|]. repeat (split; [done|]).
  intros item'. apply Hm2.
Qed.

(** ** Admission (claim C9) *)

Lemma set_tokenBucket_same b tb :
  tokenBucket b = tb -> set_tokenBucket tb b = b.
Proof. intros <-. by destruct b. Qed.

(** No worker is to be had for a request: the broker is QUEUEING, or
    [getAvailableWorker] finds none. *)
Definition no_worker (heapify : (nat -> HeapKey) -> list nat -> list nat)
    (s : State) : Prop :=
  requestQueueStatus (broker s) = QUEUEING
  \/ fst (getAvailableWorker heapify s) = None.

(** What a call of [invoke] comes to once it is admitted.  When the broker
    is PASS_THROUGH and [getAvailableWorker] finds a worker, which takes
    traffic and has room, the request is handed to it.  Otherwise the
    request is queued, or, with the request queue disabled, the call fails
    for want of a worker. *)
Definition admitted (heapify : (nat -> HeapKey) -> list nat -> list nat)
    (now : Z) (inp : Input) (md : Metadata) (s s' : State)
    (r : InvokeResult) : Prop :=
  match r with
  | InvokePiped t =>
      t = length (pipes s)
      /\ requestObjs s' = requestObjs s
      /\ requestQueue (broker s') = requestQueue (broker s)
      /\ requestQueueStatus (broker s) = PASS_THROUGH
      /\ exists w wk st,
           fst (getAvailableWorker heapify s) = Some w
           /\ workerObjs s !! w = Some wk
           /\ trafficOff wk = false
           /\ activeRequestCount wk < maxActivateRequests (broker s)
           /\ pipes s'
              = pipes s ++ [{| pipe_worker := w; source := FromInvoke;
                               pipe_input := inp; pipe_metadata := md;
                               waitMs := 0; stage := st |}]
  | InvokeQueued rid =>
      rid = length (requestObjs s)
      /\ no_worker heapify s
      /\ disableRequestQueue (_profile (broker s)) = false
      /\ requestObjs s'
         = requestObjs s ++ [new_PendingRequest now inp md (deadline md)]
      /\ requestQueue (broker s') = requestQueue (broker s) ++ [rid]
      /\ pipes s' = pipes s
  | InvokeThrew e =>
      e = new_Error ("No available worker process for "
                       +:+ name (broker s) +:+ " now.")
      /\ no_worker heapify s
      /\ disableRequestQueue (_profile (broker s)) = true
      /\ requestObjs s' = requestObjs s
      /\ requestQueue (broker s') = requestQueue (broker s)
      /\ pipes s' = pipes s
  end.

(** What [invoke] looks at and what it changes, apart from the bucket and
    the order of the heap. *)
Definition aview (s : State)
    : list Worker * list PendingRequest * list Pipe * list nat * string
      * Profile :=
  (workerObjs s, requestObjs s, pipes s, requestQueue (broker s),
   name (broker s), _profile (broker s)).

Lemma aview_acquireToken s : aview (snd (acquireToken s)) = aview s.
Proof.
  unfold acquireToken. destruct (tokenBucket (broker s)) as [tb|]; [|done].
  by destruct (TokenBucket_acquire tb).
Qed.

Lemma aview_getAvailableWorker heapify s :
  aview (snd (getAvailableWorker heapify s)) = aview s.
Proof.
  unfold getAvailableWorker. cbv zeta.
  repeat match goal with
         | |- context [match ?x with _ => _ end] => destruct x
         end; reflexivity.
Qed.

Lemma selection_acquireToken heapify s :
  requestQueueStatus (broker (snd (acquireToken s)))
  = requestQueueStatus (broker s)
  /\ fst (getAvailableWorker heapify (snd (acquireToken s)))
     = fst (getAvailableWorker heapify s).
Proof.
  unfold acquireToken. destruct (tokenBucket (broker s)) as [tb|]; [|done].
  destruct (TokenBucket_acquire tb) as [ok tb']. split; [done|].
  unfold getAvailableWorker, heapKey, maxActivateRequests, disposable.
  cbv zeta. simpl.
  destruct (heapify _ (_workerHeap (broker s))) as [|w rest]; [done|].
  destruct (workerObjs s !! w) as [wk|]; [|done].
  by destruct (negb (trafficOff wk) && _).
Qed.

Lemma queueRequest_admitted heapify now inp md s0 s :
  aview s = aview s0 -> no_worker heapify s0 ->
  admitted heapify now inp md s0 (snd (_queueRequest now inp md s))
    (fst (_queueRequest now inp md s)).
Proof.
  intros [= Hw Hr Hp Hq Hn Hprof] Hno. unfold _queueRequest, checkRequestQueue.
  rewrite Hprof, Hn.
  destruct (disableRequestQueue (_profile (broker s0))) eqn:Hd; simpl;
    by rewrite Hr, Hp, Hq.
Qed.

Lemma requests_pipe w src inp md wait s :
  requestObjs (pipe w src inp md wait s) = requestObjs s.
Proof.
  unfold pipe, pipe_dispatch. destruct (workerObjs s !! w) as [wk|] eqn:Hw; [|done].
  destruct (worker_disposable wk && truthy (md_debuggerTag md)); [done|].
  simpl. by rewrite Hw.
Qed.

Lemma invoke_admitted heapify now inp md s :
  fst (acquireToken s) = true ->
  admitted heapify now inp md s (snd (invoke heapify now inp md s))
    (fst (invoke heapify now inp md s)).
Proof.
  intros Hacq. unfold invoke.
  pose proof (aview_acquireToken s) as Ha.
  pose proof (selection_acquireToken heapify s) as [Hst Hsel].
  destruct (acquireToken s) as [ok s1]. simpl in Hacq, Ha, Hst, Hsel.
  subst ok. simpl.
  destruct (requestQueueStatus (broker s1)) eqn:Est;
    [|apply queueRequest_admitted; [done|left; congruence]].
  pose proof (aview_getAvailableWorker heapify s1) as Hg.
  destruct (getAvailableWorker heapify s1) as [[w|] s2] eqn:E; simpl in Hg, Hsel.
  - cbn [fst snd]. rewrite Ha in Hg.
    injection Hg as Hw2 Hr2 Hp2 Hq2 _ _. injection Ha as Hw1 _ _ _ _ Hprof1.
    apply getAvailableWorker_Some in E as (_ & _ & _ & wk & Hwk & Hoff & Hcap).
    rewrite Hw1 in Hwk.
    change (cap (_profile (broker s1))) with (maxActivateRequests (broker s1))
      in Hcap.
    assert (maxActivateRequests (broker s1) = maxActivateRequests (broker s))
      as Hmax by (unfold maxActivateRequests, disposable; by rewrite Hprof1).
    rewrite Hmax in Hcap.
    split; [by rewrite Hp2|]. unfold pipe_Input.
    split; [by rewrite requests_pipe|]. split; [by rewrite broker_pipe|].
    split; [congruence|].
    destruct (pipes_pipe w FromInvoke inp md 0 s2 wk) as [st Hps];
      [by rewrite Hw2|].
    exists w, wk, st. rewrite Hps, Hp2. done.
  - cbn [fst snd]. apply queueRequest_admitted; [by rewrite Hg|].
    right. congruence.
Qed.

Lemma tokenBucket_invoke heapify now inp md s :
  tokenBucket (broker (snd (invoke heapify now inp md s)))
  = (fun tb => snd (TokenBucket_acquire tb)) <$> tokenBucket (broker s).
Proof.
  unfold invoke.
  assert (tokenBucket (broker (snd (acquireToken s)))
          = (fun tb => snd (TokenBucket_acquire tb)) <$> tokenBucket (broker s))
    as Ha.
  { unfold acquireToken. destruct (tokenBucket (broker s)) as [tb|] eqn:E.
    - simpl. by destruct (TokenBucket_acquire tb) eqn:Et.
    - simpl. exact E. }
  destruct (acquireToken s) as [ok s1]. simpl in Ha.
  assert (forall s2, bstatic (broker s2) = bstatic (broker s1) ->
            tokenBucket (broker s2)
            = (fun tb => snd (TokenBucket_acquire tb)) <$> tokenBucket (broker s))
    as Hs.
  { intros s2 [= _ _ _ _ ->]. exact Ha. }
  destruct ok; simpl; [|done].
  destruct (requestQueueStatus (broker s1));
    [|apply Hs, bstatic_queueRequest].
  pose proof (bstatic_getAvailableWorker heapify s1) as Hg.
  destruct (getAvailableWorker heapify s1) as [[w|] s2]; simpl in Hg; apply Hs.
  - cbn [snd]. unfold pipe_Input. by rewrite broker_pipe.
  - by rewrite bstatic_queueRequest.
Qed.

(** C9, counterexample.  The claim reads: a broker without a configured
    rate limit always admits.  A broker built with a rate limit of one
    token keeps its bucket when [updateProfile] gives it a profile without
    [rateLimit]: the first call takes the token and the second one fails
    with RESOURCE_EXHAUSTED although no rate limit is configured any more. *)
Lemma invoke_throttled_after_rateLimit_removed :
  let limit := {| tokensPerFill := 1; fillInterval := 1000; maxTokens := 1 |} in
  let s := exec minToFront (new_State (sample_profile false (Some limit)) false)
             [EvUpdateProfile (sample_profile false None);
              EvInvoke 10 "a" (sample_metadata "r1" None)] in
  rateLimit (_profile (broker s)) = None
  /\ fst (invoke minToFront 20 "b" (sample_metadata "r2" None) s)
     = InvokeThrew (new_RpcError "rate limit exceeded" RESOURCE_EXHAUSTED)
  /\ ~ admitted minToFront 20 "b" (sample_metadata "r2" None) s
         (snd (invoke minToFront 20 "b" (sample_metadata "r2" None) s))
         (fst (invoke minToFront 20 "b" (sample_metadata "r2" None) s)).
Proof.
  split; [reflexivity|]. split; [reflexivity|].
  intros [H _]. discriminate H.
Qed.

(** C9, as amended.  When the broker has a token bucket and [acquire]
    answers false, [invoke] fails with RESOURCE_EXHAUSTED and the state is
    untouched: no request is queued, no worker is picked, nothing is
    dispatched.  When the broker has no token bucket, [acquire] counts as
    true.  Whenever [acquire] answers true, or counts as true, the call is
    admitted: when the broker is PASS_THROUGH and [getAvailableWorker] finds
    a worker, the request is handed to that worker, which takes traffic and
    has room; otherwise it is queued, or, with the request queue disabled,
    the call fails for want of a worker; and every call takes what
    [acquire] takes from the bucket.  The broker has a token bucket exactly when the profile
    it was built with has a [rateLimit], in every state it reaches:
    [updateProfile] neither makes nor drops the bucket. *)
Theorem invoke_rate_limit
    (heapify : (nat -> HeapKey) -> list nat -> list nat)
    (profile : Profile) (opt : bool) (evs : list Event)
    (now : Z) (inp : Input) (md : Metadata) (s : State) :
  (forall tb,
      tokenBucket (broker s) = Some tb ->
      fst (TokenBucket_acquire tb) = false ->
      invoke heapify now inp md s
      = (InvokeThrew (new_RpcError "rate limit exceeded" RESOURCE_EXHAUSTED), s))
  /\ (tokenBucket (broker s) = None -> fst (acquireToken s) = true)
  /\ (forall tb, tokenBucket (broker s) = Some tb ->
        fst (acquireToken s) = fst (TokenBucket_acquire tb))
  /\ (fst (acquireToken s) = true ->
      admitted heapify now inp md s (snd (invoke heapify now inp md s))
        (fst (invoke heapify now inp md s)))
  /\ tokenBucket (broker (snd (invoke heapify now inp md s)))
     = (fun tb => snd (TokenBucket_acquire tb)) <$> tokenBucket (broker s)
  /\ (tokenBucket (broker (exec heapify (new_State profile opt) evs)) = None
      <-> rateLimit profile = None).
Proof.
  split; [|split; [|split; [|split; [|split]]]].
  - intros tb Htb Hacq. unfold invoke, acquireToken. rewrite Htb.
    unfold TokenBucket_acquire in *.
    destruct (1 <=? tokenCount tb); [done|]. simpl. f_equal.
    destruct s as [b ws rs ps ins tr ds]. unfold upd_broker. simpl in *.
    by rewrite set_tokenBucket_same.
  - intros Hb. unfold acquireToken. by rewrite Hb.
  - intros tb Hb. unfold acquireToken. rewrite Hb.
    by destruct (TokenBucket_acquire tb).
  - apply invoke_admitted.
  - apply tokenBucket_invoke.
  - assert (static_ok (new_WorkerBroker profile opt)
              (broker (exec heapify (new_State profile opt) evs))) as [_ Ht]
      by apply static_ok_exec, static_ok_new.
    rewrite Ht. simpl. by destruct (rateLimit profile).
Qed.

(** ** No request waits while a worker has room *)

(** While the broker is QUEUEING, no worker of the heap is free. *)
Definition conserving (s : State) : Prop :=
  requestQueueStatus (broker s) = QUEUEING ->
  forall w, w ∈ _workerHeap (broker s) -> isWorkerFree w s = false.

Lemma isWorkerFree_frame w s s' :
  workerObjs s' !! w = workerObjs s !! w ->
  _profile (broker s') = _profile (broker s) ->
  isWorkerFree w s' = isWorkerFree w s.
Proof.
  intros Hw Hp. unfold isWorkerFree, maxActivateRequests, disposable.
  by rewrite Hw, Hp.
Qed.

Lemma conserving_mono s s' :
  (requestQueueStatus (broker s') = QUEUEING ->
   requestQueueStatus (broker s) = QUEUEING) ->
  (forall w, w ∈ _workerHeap (broker s') -> w ∈ _workerHeap (broker s)) ->
  (forall w, w ∈ _workerHeap (broker s) ->
     isWorkerFree w s' = true -> isWorkerFree w s = true) ->
  conserving s -> conserving s'.
Proof.
  intros Hst Hh Hf H Hq w Hw. specialize (H (Hst Hq) w (Hh w Hw)).
  destruct (isWorkerFree w s') eqn:E; [|done].
  rewrite (Hf w (Hh w Hw) E) in H. done.
Qed.

Lemma conserving_same s s' :
  requestQueueStatus (broker s') = requestQueueStatus (broker s) ->
  _workerHeap (broker s') = _workerHeap (broker s) ->
  _profile (broker s') = _profile (broker s) ->
  workerObjs s' = workerObjs s ->
  conserving s -> conserving s'.
Proof.
  intros Hst Hh Hp Hw. apply conserving_mono.
  - by rewrite Hst.
  - by rewrite Hh.
  - intros w _. rewrite (isWorkerFree_frame w s s'); [done|by rewrite Hw|done].
Qed.

Lemma workers_pipe_other w w' src inp md wait s :
  w' <> w -> workerObjs (pipe w src inp md wait s) !! w' = workerObjs s !! w'.
Proof.
  intros Hne. unfold pipe, pipe_dispatch.
  destruct (workerObjs s !! w) as [wk|] eqn:Hw; [|done].
  destruct (worker_disposable wk && truthy (md_debuggerTag md)); simpl.
  - by rewrite list_lookup_alter_ne.
  - rewrite Hw. simpl. by rewrite list_lookup_alter_ne.
Qed.

(** On a broker that is not disposable, [tryConsumeQueue] stops at an empty
    queue or at a worker that is not free, and touches no other worker. *)
Lemma consumeQueue_until now w queue : forall s,
  disposable (broker s) = false -> requestQueue (broker s) = queue ->
  let s' := consumeQueue now w queue s in
  requestQueueStatus (broker s') = requestQueueStatus (broker s)
  /\ (forall w', w' <> w -> workerObjs s' !! w' = workerObjs s !! w')
  /\ (requestQueue (broker s') = [] \/ isWorkerFree w s' = false).
Proof.
  induction queue as [|rid rest IH]; intros s Hd Hq; simpl.
  { split; [done|]. split; [done|]. by left. }
  destruct (isWorkerFree w s) eqn:Hfree; simpl.
  2:{ split; [done|]. split; [done|]. by right. }
  set (s0 := upd_broker (set_requestQueue rest) s).
  destruct (requestObjs s !! rid) as [request|].
  2:{ apply (IH s0); done. }
  destruct (negb (available request)).
  { apply (IH s0); done. }
  set (s1 := upd_request rid PendingRequest_stopTimer s0).
  set (s2 := pipe_PendingRequest now w rid request s1).
  assert (broker s2 = broker s0) as Hb
    by (subst s2; unfold pipe_PendingRequest; by rewrite broker_pipe).
  change (disposable
            (broker (emit (QueuedRequestDurationRecord (now - startEpoch request)
                             (name (broker s2))) s2)))
    with (disposable (broker s2)).
  rewrite Hb. change (disposable (broker s0)) with (disposable (broker s)).
  rewrite Hd.
  match goal with |- context [consumeQueue _ _ _ ?s3] =>
    destruct (IH s3) as (H1 & H2 & H3) end.
  { change (disposable (broker s2) = false). by rewrite Hb. }
  { change (requestQueue (broker s2) = rest). by rewrite Hb. }
  split; [|split; [|done]].
  - rewrite H1. change (requestQueueStatus (broker s2) = requestQueueStatus (broker s)).
    by rewrite Hb.
  - intros w' Hne. rewrite (H2 w' Hne). simpl.
    subst s2. unfold pipe_PendingRequest. by rewrite workers_pipe_other.
Qed.

Lemma conserving_tryConsumeQueue now w s :
  disposable (broker s) = false ->
  (requestQueueStatus (broker s) = QUEUEING ->
   forall w', w' ∈ _workerHeap (broker s) -> w' <> w -> isWorkerFree w' s = false) ->
  conserving (tryConsumeQueue now w s).
Proof.
  intros Hd H. unfold tryConsumeQueue.
  destruct (consumeQueue_until now w (requestQueue (broker s)) s Hd eq_refl)
    as (Hst & Hothers & Hend).
  pose proof (hview_consumeQueue now w (requestQueue (broker s)) s) as [= Hh _].
  pose proof (bstatic_consumeQueue now w (requestQueue (broker s)) s)
    as [= _ Hp _ _ _].
  set (s' := consumeQueue now w (requestQueue (broker s)) s) in *.
  destruct (requestQueue (broker s')) as [|x l] eqn:Hq; [by intros ?|].
  intros Hquing w' Hw'. rewrite Hst in Hquing. rewrite Hh in Hw'.
  destruct (decide (w' = w)) as [->|Hne].
  - by destruct Hend.
  - rewrite (isWorkerFree_frame w' s s'); [by apply H|by apply Hothers|done].
Qed.

Lemma conserving_continueConsumeQueue now w s :
  disposable (broker s) = false ->
  (forall wk, workerObjs s !! w = Some wk -> worker_disposable wk = false) ->
  (requestQueueStatus (broker s) = QUEUEING ->
   forall w', w' ∈ _workerHeap (broker s) -> w' <> w -> isWorkerFree w' s = false) ->
  conserving (continueConsumeQueue now w s).
Proof.
  intros Hd Hwd H. unfold continueConsumeQueue.
  destruct (workerObjs s !! w) as [wk|] eqn:Hw.
  - rewrite (Hwd wk eq_refl).
    destruct (isWorkerFree w s) eqn:Hfree; [by apply conserving_tryConsumeQueue|].
    intros Hq w' Hw'. destruct (decide (w' = w)) as [->|Hne]; [done|by apply H].
  - intros Hq w' Hw'. destruct (decide (w' = w)) as [->|Hne]; [|by apply H].
    unfold isWorkerFree. by rewrite Hw.
Qed.

Section Conserving.

Variable heapify : (nat -> HeapKey) -> list nat -> list nat.
Hypothesis Hheap : heapify_spec heapify.

(** When [getAvailableWorker] finds no worker, no worker of the heap is
    free. *)
Lemma getAvailableWorker_none_free s s2 :
  getAvailableWorker heapify s = (None, s2) ->
  forall w, w ∈ _workerHeap (broker s2) -> isWorkerFree w s2 = false.
Proof.
  unfold getAvailableWorker. cbv zeta.
  destruct (Hheap (heapKey s) (_workerHeap (broker s))) as [Hperm Hmin].
  set (s1 := upd_broker
               (fun b => set_workerHeap (heapify (heapKey s) (_workerHeap b)) b) s).
  change (_workerHeap (broker s1)) with (heapify (heapKey s) (_workerHeap (broker s))).
  destruct (heapify (heapKey s) (_workerHeap (broker s))) as [|x rest] eqn:Hh.
  { intros [= <-] w Hw. simpl in Hw. rewrite Hh in Hw. by apply elem_of_nil in Hw. }
  specialize (Hmin x rest eq_refl).
  assert (forall w, w ∈ x :: rest ->
            isWorkerFree w s1 = true ->
            exists wk, workerObjs s !! x = Some wk /\ trafficOff wk = false
              /\ activeRequestCount wk < maxActivateRequests (broker s1)) as Htop.
  { intros w Hw Hfree. apply isWorkerFree_true in Hfree as (wkw & Hwk & Hoff & Hc).
    assert (In w (_workerHeap (broker s))) as Hin.
    { apply list_elem_of_In. by rewrite <- Hperm. }
    specialize (Hmin w Hin). unfold heapKey in Hmin.
    change (workerObjs s1) with (workerObjs s) in Hwk. rewrite Hwk, Hoff in Hmin.
    destruct (workerObjs s !! x) as [wkx|]; [|done].
    destruct (trafficOff wkx) eqn:Hox; [done|]. simpl in Hmin.
    apply Z.leb_le in Hmin. exists wkx. split; [done|]. split; [done|].
    change (maxActivateRequests (broker s1)) with (cap (_profile (broker s))).
    change (cap (_profile (broker s1))) with (cap (_profile (broker s))) in Hc.
    lia. }
  change (workerObjs s1) with (workerObjs s).
  destruct (workerObjs s !! x) as [wkx|] eqn:Hx.
  - destruct (negb (trafficOff wkx)
              && (activeRequestCount wkx <? maxActivateRequests (broker s1))) eqn:Hc;
      [done|].
    intros [= <-] w Hw. simpl in Hw. rewrite Hh in Hw.
    destruct (isWorkerFree w s1) eqn:Hfree; [|done].
    destruct (Htop w Hw Hfree) as (wk & [= <-] & Hoff & Hlt).
    rewrite Hoff in Hc. simpl in Hc. apply Z.ltb_ge in Hc.
    change (maxActivateRequests (broker s1)) with (cap (_profile (broker s))) in Hlt.
    change (maxActivateRequests _) with (cap (_profile (broker s))) in Hc. lia.
  - intros [= <-] w Hw. simpl in Hw. rewrite Hh in Hw.
    destruct (isWorkerFree w s1) eqn:Hfree; [|done].
    by destruct (Htop w Hw Hfree) as (wk & ? & _).
Qed.

Lemma conserving_queueRequest now inp md s :
  (forall w, w ∈ _workerHeap (broker s) -> isWorkerFree w s = false) ->
  conserving (snd (_queueRequest now inp md s)).
Proof.
  intros H _ w Hw.
  pose proof (hview_queueRequest now inp md s) as [= Hh _].
  pose proof (bstatic_queueRequest now inp md s) as [= _ Hp _ _ _].
  rewrite Hh in Hw.
  rewrite (isWorkerFree_frame w s); [by apply H| |done].
  pose proof (pview_queueRequest now inp md s) as [= -> _]. done.
Qed.

Lemma conserving_step (profile : Profile) s e :
  disposable_ profile = false ->
  event_ok (same_settings profile) (fun _ => True) e ->
  same_settings profile (_profile (broker s)) ->
  within_cap (maxActivateRequests_ profile) (pview s) ->
  registry_ok s ->
  conserving s -> conserving (step heapify s e).
Proof.
  intros Hnd Hev [Hd Hc] [Hwork _] Hreg H.
  assert (disposable (broker s) = false) as Hdis
    by (unfold disposable; congruence).
  assert (forall w wk, workerObjs s !! w = Some wk -> worker_disposable wk = false)
    as Hwd.
  { intros w wk Hw. rewrite Forall_lookup in Hwork. by destruct (Hwork w wk Hw). }
  destruct e; simpl in Hev |- *.
  - unfold invoke.
    pose proof (hview_acquireToken s) as [= Ha1 _].
    pose proof (pview_acquireToken s) as [= Ha2 _].
    pose proof (profile_acquireToken s) as Ha3.
    pose proof (qview_acquireToken s) as Ha4.
    destruct (acquireToken s) as [ok s1]. simpl in Ha1, Ha2, Ha3, Ha4.
    apply (f_equal q_status) in Ha4. simpl in Ha4.
    assert (conserving s1) as H1 by (by apply (conserving_same s)).
    destruct ok; simpl; [|done].
    destruct (requestQueueStatus (broker s1)) eqn:Hst.
    + destruct (getAvailableWorker heapify s1) as [[w|] s2] eqn:Hg.
      * cbn [snd]. unfold pipe_Input. intros Hq. exfalso.
        rewrite broker_pipe in Hq.
        pose proof (qview_getAvailableWorker heapify s1) as Hv.
        rewrite Hg in Hv. apply (f_equal q_status) in Hv. simpl in Hv. congruence.
      * apply conserving_queueRequest.
        by apply (getAvailableWorker_none_free s1).
    + apply conserving_queueRequest. by apply H1.
  - pose proof (hview_inspectorStarted t res s) as [= Hh _].
    pose proof (bstatic_inspectorStarted t res s) as [= _ Hp _ _ _].
    apply (conserving_mono s); [|by rewrite Hh| |exact H].
    + unfold pipe_inspectorStarted.
      destruct (pipes s !! t) as [p|]; [|done].
      destruct (stage p); try done.
      destruct (workerObjs s !! pipe_worker p); [|done].
      destruct res; by rewrite ?broker_pipe_settled, ?broker_pipe_dispatch.
    + intros w _. unfold isWorkerFree, maxActivateRequests, disposable.
      rewrite Hp. unfold pipe_inspectorStarted.
      destruct (pipes s !! t) as [p|]; [|done].
      destruct (stage p); try done.
      destruct (workerObjs s !! pipe_worker p) as [wk|] eqn:Hw; [|done].
      destruct res as [e|].
      * pose proof (pview_pipe_settled t p (inl e)
                      (upd_pipe t (set_stage Settled) s)) as [= -> _].
        change (disposable (broker (upd_pipe t (set_stage Settled) s)))
          with (disposable (broker s)). by rewrite Hdis.
      * pose proof (pview_pipe_dispatch (pipe_worker p) (pipe_input p)
                      (pipe_metadata p) (upd_pipe t (set_stage AwaitTrigger) s))
          as [= -> _]. simpl.
        destruct (decide (pipe_worker p = w)) as [<-|Hne].
        -- rewrite list_lookup_alter_eq, Hw. simpl.
           destruct (trafficOff wk); [done|].
           intros ?%Z.ltb_lt. apply Z.ltb_lt. lia.
        -- by rewrite list_lookup_alter_ne.
  - pose proof (hview_triggered t res s) as [= Hh _].
    pose proof (bstatic_triggered t res s) as [= _ Hp _ _ _].
    apply (conserving_same s); try done.
    + unfold pipe_triggered.
      destruct (pipes s !! t) as [p|]; [|done].
      destruct (stage p); try done.
      destruct (workerObjs s !! pipe_worker p); [|done].
      destruct res; by rewrite broker_pipe_settled.
    + unfold pipe_triggered.
      destruct (pipes s !! t) as [p|]; [|done].
      destruct (stage p); try done.
      destruct (workerObjs s !! pipe_worker p); [|done].
      destruct res as [e|ret];
        match goal with |- workerObjs (pipe_settled ?a ?b ?c ?d) = _ =>
          pose proof (pview_pipe_settled a b c d) as [= -> _];
          change (disposable (broker d)) with (disposable (broker s))
        end; by rewrite Hdis.
  - unfold pipe_finished.
    destruct (pipes s !! t) as [p|] eqn:Hp; [|done].
    destruct (stage p); try done.
    destruct (workerObjs s !! pipe_worker p) as [wk|] eqn:Hw; [|done].
    set (w := pipe_worker p) in *.
    match goal with |- conserving (continueConsumeQueue _ _ ?s3) =>
      set (s3' := s3) end.
    assert (broker s3' = broker s) as Hb.
    { subst s3'. destruct (activeRequestCount wk - 1 =? 0);
        by rewrite ?broker_emit_downToZero. }
    assert (forall w', w' <> w -> workerObjs s3' !! w' = workerObjs s !! w') as Ho.
    { intros w' Hne. subst s3'. destruct (activeRequestCount wk - 1 =? 0).
      - pose proof (pview_emit_downToZero w
                      (upd_worker w (set_activeRequestCount (activeRequestCount wk - 1))
                         (upd_pipe t (set_stage Settled) s))) as [= -> _].
        simpl. by rewrite !list_lookup_alter_ne.
      - simpl. by rewrite list_lookup_alter_ne. }
    assert (forall x, workerObjs s3' !! w = Some x -> worker_disposable x = false)
      as Hwd3.
    { intros x. subst s3'. destruct (activeRequestCount wk - 1 =? 0).
      - pose proof (pview_emit_downToZero w
                      (upd_worker w (set_activeRequestCount (activeRequestCount wk - 1))
                         (upd_pipe t (set_stage Settled) s))) as [= -> _].
        simpl. rewrite !list_lookup_alter_eq, Hw. simpl. intros [= <-]. simpl.
        by apply (Hwd w).
      - simpl. rewrite list_lookup_alter_eq, Hw. simpl. intros [= <-]. simpl.
        by apply (Hwd w). }
    apply conserving_continueConsumeQueue; [by rewrite Hb|done|].
    rewrite Hb. intros Hq w' Hw' Hne.
    rewrite (isWorkerFree_frame w' s); [by apply H|by apply Ho|by rewrite Hb].
  - pose proof (hview_timeout now rid s) as [= Hh _].
    pose proof (bstatic_timeout now rid s) as [= _ Hp _ _ _].
    pose proof (pview_timeout now rid s) as [= Hw _].
    apply (conserving_same s); try done. apply timeout_status.
  - unfold registerCredential.
    destruct (isCredentialPending cred (broker s)); [done|].
    by apply (conserving_same s).
  - unfold bindWorker.
    destruct (_workerMap (broker s) !! cred) as [item|]; [|done].
    destruct (negb (isCredentialPending cred (broker s))); [done|].
    destruct (status item); [|done]. simpl.
    apply (conserving_mono s); try done.
    intros w Hw. destruct (reg_heap s Hreg w Hw) as [wk Hwk].
    rewrite (isWorkerFree_frame w s); [done| |done].
    simpl. by rewrite (lookup_app_l_Some _ _ _ _ Hwk).
  - unfold bindWorker_initialized.
    destruct (inits s !! i) as [it|] eqn:Hit; [|done].
    destruct (init_pending it) eqn:Hpend; [|done].
    destruct res as [e|]; [by apply (conserving_same s)|].
    match goal with |- conserving (tryConsumeQueue _ _ ?s3) => set (s3' := s3) end.
    assert (workerObjs s3' = workerObjs s) as Hw3.
    { subst s3'. simpl. unfold broadcastContainerStatusReport. simpl.
      by destruct (workerObjs s !! init_worker it). }
    assert (_profile (broker s3') = _profile (broker s)
            /\ requestQueueStatus (broker s3') = requestQueueStatus (broker s)
            /\ _workerHeap (broker s3') = _workerHeap (broker s) ++ [init_worker it])
      as (Hp3 & Hs3 & Hh3).
    { subst s3'. simpl. by rewrite broker_broadcast. }
    apply conserving_tryConsumeQueue.
    + unfold disposable. rewrite Hp3. exact Hdis.
    + rewrite Hs3, Hh3. intros Hq w' Hw' Hne.
      apply elem_of_app in Hw' as [Hw'|Hw'];
        [|by apply list_elem_of_singleton in Hw'].
      rewrite (isWorkerFree_frame w' s); [by apply H|by rewrite Hw3|done].
  - apply (conserving_mono s); try done. simpl.
    intros w Hw. eapply elem_of_sublist; [exact Hw|apply spliceFirst_sublist].
  - unfold updateProfile.
    destruct (negb (String.eqb (profile_name p) (name (broker s)))); [done|].
    simpl. apply (conserving_mono s); try done.
    intros w _. unfold isWorkerFree, maxActivateRequests, disposable. simpl.
    destruct Hev as [-> ->]. by rewrite Hd, Hc.
  - pose proof (hview_fastFail now fatal message s) as [= Hh _].
    pose proof (bstatic_fastFail now fatal message s) as [= _ Hp _ _ _].
    pose proof (pview_fastFail now fatal message s) as [= Hw _].
    apply (conserving_same s); try done.
    pose proof (qview_fastFail now fatal message s) as Hv.
    apply (f_equal q_status) in Hv. simpl in Hv. rewrite Hv.
    by destruct (negb fatal && negb (fastFailRequestsOnStarting (_profile (broker s)))).
  - by apply (conserving_same s).
  - destruct (workerObjs s !! w) as [wk|] eqn:Hw; [|done].
    pose proof (pview_closeTraffic w s) as [= Hws _].
    apply (conserving_mono s); [by rewrite broker_closeTraffic..| |done].
    intros w' _. unfold isWorkerFree. rewrite Hws, broker_closeTraffic.
    destruct (decide (w = w')) as [<-|Hne].
    + rewrite list_lookup_alter_eq, Hw. simpl. unfold closed.
      by destruct (activeRequestCount wk <=? 0).
    + by rewrite list_lookup_alter_ne.
  - pose proof (pview_closeTraffic_resumed d s) as [= Hws _].
    by apply (conserving_same s); rewrite ?broker_closeTraffic_resumed.
Qed.

End Conserving.

(** X10.  On a broker that is not disposable and whose worker settings no
    [updateProfile] changes, and with a [heapify] that meets its contract:
    while a request is queued (indeed while the broker is QUEUEING), no
    worker in the heap is free to take a request. *)
Theorem no_request_waits_for_a_free_worker
    (heapify : (nat -> HeapKey) -> list nat -> list nat)
    (profile : Profile) (opt : bool) (evs : list Event) :
  heapify_spec heapify ->
  disposable_ profile = false ->
  Forall (keeps_worker_settings profile) evs ->
  let s := exec heapify (new_State profile opt) evs in
  (requestQueueStatus (broker s) = QUEUEING \/ requestQueue (broker s) <> []) ->
  forall w, w ∈ _workerHeap (broker s) -> isWorkerFree w s = false.
Proof.
  intros Hheap Hnd Hevs s.
  assert (Forall (event_ok (same_settings profile) (fun _ => True)) evs) as Hok.
  { eapply Forall_impl; [exact Hevs|]. by intros []. }
  assert (forall evs' s0,
            Forall (event_ok (same_settings profile) (fun _ => True)) evs' ->
            inv s0 -> registry_ok s0 ->
            same_settings profile (_profile (broker s0)) ->
            within_cap (maxActivateRequests_ profile) (pview s0) ->
            conserving s0 ->
            inv (exec heapify s0 evs')
            /\ conserving (exec heapify s0 evs')) as Hind.
  { induction evs' as [|e evs' IH]; intros s0 He Hi Hr Hp Hw Hc; [done|].
    apply Forall_cons in He as [He Hes]. apply IH; try done.
    - by apply inv_step.
    - by apply registry_ok_step.
    - by apply (profile_step heapify _ (fun _ => True)).
    - by apply (pclosed_step heapify _ _ _ (within_cap_closed profile Hnd)).
    - by apply (conserving_step heapify Hheap profile). }
  destruct (Hind evs (new_State profile opt) Hok) as [[_ Hst] Hc].
  - apply inv_new.
  - apply registry_ok_new.
  - by split.
  - by split; constructor.
  - by intros ?.
  - fold s in Hst, Hc. intros [Hq|Hq] w Hw; apply Hc; try done.
    destruct (requestQueueStatus (broker s)) eqn:E; [|done].
    destruct Hq. by apply Hst.
Qed.

(** X10, witness: the worker that takes one request at a time has
    one, and a second request is queued. *)
Lemma no_request_waits_for_a_free_worker_witness :
  let s := exec minToFront (new_State (single_profile false) false)
             (one_worker ++ [EvInvoke 30 "a" (sample_metadata "r1" None);
                             EvInvoke 40 "b" (sample_metadata "r2" None)]) in
  requestQueue (broker s) = [0%nat] /\ isWorkerFree 0 s = false.
Proof.
  intros s. split; [reflexivity|].
  apply (no_request_waits_for_a_free_worker minToFront (single_profile false)
           false
           (one_worker ++ [EvInvoke 30 "a" (sample_metadata "r1" None);
                           EvInvoke 40 "b" (sample_metadata "r2" None)])
           minToFront_spec).
  - reflexivity.
  - repeat constructor.
  - left. reflexivity.
  - change (0%nat ∈ [0%nat]). apply list_elem_of_here.
Defined.

(** ** A broker whose request queue is disabled *)

(** An [updateProfile] that leaves the request queue disabled. *)
Definition keeps_queue_disabled (e : Event) : Prop :=
  match e with
  | EvUpdateProfile p => disableRequestQueue p = true
  | _ => True
  end.

Definition never_queued (v : QView) : Prop :=
  q_requests v = [] /\ q_queue v = [] /\ q_status v = PASS_THROUGH.

Lemma never_queued_closed : qclosed False (fun _ => True) never_queued.
Proof.
  unfold never_queued. split; simpl; try done.
  - by intros v _ _ (-> & _ & _).
  - intros v rid rest p _ Hq _ (_ & Hq' & _). congruence.
  - by intros v rid out _ _ (-> & -> & ->).
  - intros v rid p _ Hp _ (Hr & _). by rewrite Hr in Hp.
  - by intros v err _ (-> & -> & ->).
Qed.

(** X11.  On a broker whose profile disables the request queue, and as long as no
    [updateProfile] enables it, no request is ever queued: the queue stays
    empty and the broker PASS_THROUGH, and [invoke] either hands the request
    to a worker or fails. *)
Theorem disabled_queue_never_holds_a_request
    (heapify : (nat -> HeapKey) -> list nat -> list nat)
    (profile : Profile) (opt : bool) (evs : list Event) :
  disableRequestQueue profile = true ->
  Forall keeps_queue_disabled evs ->
  let s := exec heapify (new_State profile opt) evs in
  requestObjs s = [] /\ requestQueue (broker s) = []
  /\ requestQueueStatus (broker s) = PASS_THROUGH
  /\ forall now inp md,
       match fst (invoke heapify now inp md s) with
       | InvokeQueued _ => False
       | InvokePiped t => t = length (pipes s)
       | InvokeThrew e =>
           e = new_RpcError "rate limit exceeded" RESOURCE_EXHAUSTED
           \/ e = new_Error ("No available worker process for "
                               +:+ name (broker s) +:+ " now.")
       end.
Proof.
  intros Hdis Hevs s.
  assert (Forall (event_ok (fun prof => disableRequestQueue prof = true)
                    (fun _ => True)) evs) as Hok.
  { eapply Forall_impl; [exact Hevs|]. by intros []. }
  assert (forall evs' s0,
            Forall (event_ok (fun prof => disableRequestQueue prof = true)
                      (fun _ => True)) evs' ->
            inv s0 -> disableRequestQueue (_profile (broker s0)) = true ->
            never_queued (qview s0) ->
            disableRequestQueue (_profile (broker (exec heapify s0 evs'))) = true
            /\ never_queued (qview (exec heapify s0 evs'))) as Hind.
  { induction evs' as [|e evs' IH]; intros s0 He Hi Hp Hn; [done|].
    apply Forall_cons in He as [He Hes]. apply IH; try done.
    - by apply inv_step.
    - by apply (profile_step heapify
                  (fun prof => disableRequestQueue prof = true) (fun _ => True)).
    - apply (qclosed_step heapify False (fun _ => True) _ never_queued_closed);
        try done; [congruence|by destruct e]. }
  destruct (Hind evs (new_State profile opt) Hok) as (Hp & Hr & Hq & Hst);
    [apply inv_new|done|done|].
  fold s in Hp, Hr, Hq, Hst. simpl in Hr, Hq, Hst.
  split; [done|]. split; [done|]. split; [done|].
  intros now inp md. unfold invoke.
  pose proof (profile_acquireToken s) as Ha.
  pose proof (qview_acquireToken s) as Hv.
  assert (name (broker (snd (acquireToken s))) = name (broker s)) as Hn.
  { unfold acquireToken. destruct (tokenBucket (broker s)) as [tb|]; [|done].
    by destruct (TokenBucket_acquire tb). }
  assert (pipes (snd (acquireToken s)) = pipes s) as Hpi.
  { unfold acquireToken. destruct (tokenBucket (broker s)) as [tb|]; [|done].
    by destruct (TokenBucket_acquire tb). }
  destruct (acquireToken s) as [ok s1]. simpl in Ha, Hv, Hn, Hpi.
  destruct ok; simpl; [|by left].
  apply (f_equal q_status) in Hv. simpl in Hv. rewrite Hv, Hst.
  pose proof (bstatic_getAvailableWorker heapify s1) as [= Hn2 Hp2 _ _ _].
  assert (pipes (snd (getAvailableWorker heapify s1)) = pipes s1) as Hpi2.
  { unfold getAvailableWorker. cbv zeta.
    repeat match goal with
           | |- context [match ?x with _ => _ end] => destruct x
           end; reflexivity. }
  destruct (getAvailableWorker heapify s1) as [[w|] s2]; simpl in *.
  - congruence.
  - unfold _queueRequest, checkRequestQueue. rewrite Hp2, Ha, Hp. simpl.
    right. by rewrite Hn2, Hn.
Qed.

(** X11, witness: two requests for one worker that takes one at a
    time, with the queue disabled. *)
Lemma disabled_queue_never_holds_a_request_witness :
  let s := exec minToFront (new_State (single_profile true) false)
             (one_worker ++ [EvInvoke 30 "a" (sample_metadata "r1" None);
                             EvInvoke 40 "b" (sample_metadata "r2" None);
                             EvUpdateProfile (single_profile true)]) in
  requestObjs s = [] /\ requestQueue (broker s) = []
  /\ requestQueueStatus (broker s) = PASS_THROUGH
  /\ forall now inp md,
       match fst (invoke minToFront now inp md s) with
       | InvokeQueued _ => False
       | InvokePiped t => t = length (pipes s)
       | InvokeThrew e =>
           e = new_RpcError "rate limit exceeded" RESOURCE_EXHAUSTED
           \/ e = new_Error ("No available worker process for "
                               +:+ name (broker s) +:+ " now.")
       end.
Proof.
  apply (disabled_queue_never_holds_a_request minToFront (single_profile true)
           false
           (one_worker ++ [EvInvoke 30 "a" (sample_metadata "r1" None);
                           EvInvoke 40 "b" (sample_metadata "r2" None);
                           EvUpdateProfile (single_profile true)])).
  - reflexivity.
  - repeat constructor.
Defined.

(** ** What the broker tells about its workers *)

(** A BOUND credential has a worker, and the broker keeps its name and its
    inspector flag. *)
Definition bound_ok (name0 : string * bool) (b : WorkerBroker) : Prop :=
  (name b, inspect b) = name0
  /\ forall cred item, _workerMap b !! cred = Some item ->
       status item = BOUND -> is_Some (worker item).

Lemma bound_ok_bstatic name0 b b' :
  bstatic b' = bstatic b -> bound_ok name0 b -> bound_ok name0 b'.
Proof.
  unfold bstatic, bound_ok. intros [= Hn _ Hi Hm _]. by rewrite Hn, Hi, Hm.
Qed.

Lemma bound_ok_step heapify name0 s e :
  bound_ok name0 (broker s) -> bound_ok name0 (broker (step heapify s e)).
Proof.
  intros H. destruct e; simpl.
  - destruct (bstatic_invoke heapify now inp md s) as [Hs _].
    simpl in Hs. injection Hs as Hn _ Hi Hm. unfold bound_ok.
    by rewrite Hn, Hi, Hm.
  - by apply (bound_ok_bstatic _ (broker s)); [apply bstatic_inspectorStarted|].
  - by apply (bound_ok_bstatic _ (broker s)); [apply bstatic_triggered|].
  - by apply (bound_ok_bstatic _ (broker s)); [apply bstatic_finished|].
  - by apply (bound_ok_bstatic _ (broker s)); [apply bstatic_timeout|].
  - unfold registerCredential.
    destruct (isCredentialPending cred (broker s)); [done|]. simpl.
    destruct H as [H1 H2]. split; [done|].
    intros c item. simpl. destruct (decide (cred = c)) as [->|Hne].
    + rewrite lookup_insert_eq. by intros [= <-].
    + rewrite lookup_insert_ne by done. apply H2.
  - unfold bindWorker.
    destruct (_workerMap (broker s) !! cred) as [item|]; [|done].
    destruct (negb (isCredentialPending cred (broker s))); [done|].
    by destruct (status item).
  - unfold bindWorker_initialized.
    destruct (inits s !! i) as [it|]; [|done].
    destruct (init_pending it); [|done]. destruct res as [e|]; [done|].
    apply (bound_ok_bstatic _ _ _ (bstatic_tryConsumeQueue _ _ _)).
    simpl. rewrite broker_broadcast. simpl.
    destruct H as [H1 H2]. split; [done|].
    intros c item. simpl. destruct (decide (init_credential it = c)) as [->|Hne].
    + rewrite lookup_insert_eq. intros [= <-] _. simpl. eauto.
    + rewrite lookup_insert_ne by done. apply H2.
  - destruct H as [H1 H2]. split; [done|].
    intros c item. simpl. destruct (decide (cred = c)) as [->|Hne].
    + by rewrite lookup_delete_eq.
    + rewrite lookup_delete_ne by done. apply H2.
  - unfold updateProfile.
    by destruct (negb (String.eqb (profile_name p) (name (broker s)))).
  - by apply (bound_ok_bstatic _ (broker s)); [apply bstatic_fastFail|].
  - done.
  - destruct (workerObjs s !! w); [by rewrite broker_closeTraffic|done].
  - by rewrite broker_closeTraffic_resumed.
Qed.

Lemma bound_ok_exec heapify name0 evs : forall s,
  bound_ok name0 (broker s) -> bound_ok name0 (broker (exec heapify s evs)).
Proof.
  induction evs as [|e evs IH]; intros s H; [done|].
  apply IH. by apply bound_ok_step.
Qed.

Lemma bound_ok_new profile opt :
  bound_ok (profile_name profile, opt) (broker (new_State profile opt)).
Proof. split; [done|]. intros cred item. simpl. by rewrite lookup_empty. Qed.

(** X12.  With a [heapify] that meets its contract, in every state the broker
    reaches: the heap holds existing workers, each once; [getWorker] answers
    a worker exactly for a BOUND credential, and that worker is in the heap
    and carries the credential and the name it was registered with; it
    answers the credential itself exactly for a PENDING credential, and
    [undefined] exactly for a credential the broker does not know. *)
Theorem getWorker_answers_a_worker_of_the_heap
    (heapify : (nat -> HeapKey) -> list nat -> list nat)
    (profile : Profile) (opt : bool) (evs : list Event) :
  heapify_spec heapify ->
  let s := exec heapify (new_State profile opt) evs in
  NoDup (_workerHeap (broker s))
  /\ (forall w, w ∈ _workerHeap (broker s) -> is_Some (workerObjs s !! w))
  /\ forall cred,
       match getWorker cred (broker s) with
       | GetWorker_worker w =>
           w ∈ _workerHeap (broker s)
           /\ exists item wk,
                getWorkerInfo cred (broker s) = Some item
                /\ status item = BOUND
                /\ workerObjs s !! w = Some wk
                /\ credential wk = cred
                /\ worker_name wk = item_name item
       | GetWorker_credential c =>
           c = cred /\ isCredentialPending cred (broker s) = true
       | GetWorker_undefined =>
           getWorkerInfo cred (broker s) = None
           /\ isCredentialPending cred (broker s) = false
       end.
Proof.
  intros Hheap s.
  assert (registry_ok s) as Hreg
    by (by apply registry_ok_exec; [|apply registry_ok_new]).
  assert (bound_ok (profile_name profile, opt) (broker s)) as [_ Hb]
    by (apply bound_ok_exec, bound_ok_new).
  split; [apply (reg_nodup s Hreg)|]. split; [apply (reg_heap s Hreg)|].
  intros cred. unfold getWorker, getWorkerInfo, isCredentialPending.
  destruct (_workerMap (broker s) !! cred) as [item|] eqn:Hit; [|done].
  destruct (worker item) as [w|] eqn:Hw.
  - destruct (reg_bound s Hreg cred item w Hit Hw) as (Hs & Hin & wk & Hwk & Hc & Hn).
    split; [done|]. by exists item, wk.
  - split; [done|]. destruct (status item) eqn:Hs; [done|].
    destruct (Hb cred item Hit Hs) as [w Hw']. congruence.
Qed.

(** X12, witness: a bound credential, a pending one and an
    unknown one. *)
Lemma getWorker_answers_a_worker_of_the_heap_witness :
  let s := exec minToFront (new_State (single_profile false) false)
             (one_worker ++ [EvRegisterCredential "hi" "moon"]) in
  getWorker "world" (broker s) = GetWorker_worker 0
  /\ getWorker "moon" (broker s) = GetWorker_credential "moon"
  /\ getWorker "sun" (broker s) = GetWorker_undefined
  /\ NoDup (_workerHeap (broker s))
  /\ forall w, w ∈ _workerHeap (broker s) -> is_Some (workerObjs s !! w).
Proof.
  intros s. repeat (split; [reflexivity|]).
  destruct (getWorker_answers_a_worker_of_the_heap minToFront
              (single_profile false) false
              (one_worker ++ [EvRegisterCredential "hi" "moon"])
              minToFront_spec) as (H1 & H2 & _).
  exact (conj H1 H2).
Defined.

Lemma count_nonneg heapify profile opt evs w wk :
  workerObjs (exec heapify (new_State profile opt) evs) !! w = Some wk ->
  0 <= activeRequestCount wk.
Proof.
  intros Hw.
  pose proof (leaked_exec_le heapify w evs (new_State profile opt)) as Hle.
  pose proof (owed_nonneg w (exec heapify (new_State profile opt) evs)) as Ho.
  unfold leaked in Hle. rewrite (count_of_lookup _ _ _ Hw) in Hle.
  change (count_of w (new_State profile opt)) with 0 in Hle.
  change (owed w (new_State profile opt)) with 0 in Hle. lia.
Qed.

(** X13.  With a [heapify] that meets its contract, in every state the broker
    reaches, [toJSON] reports the name the broker was built with and one
    entry per registered credential; the entry carries the registered name;
    its [activeRequestCount] is the count of the worker bound to the
    credential, 0 while none is bound, and never negative. *)
Theorem toJSON_reports_registered_workers
    (heapify : (nat -> HeapKey) -> list nat -> list nat)
    (profile : Profile) (opt : bool) (evs : list Event) :
  heapify_spec heapify ->
  let s := exec heapify (new_State profile opt) evs in
  stats_functionName (toJSON s) = profile_name profile
  /\ stats_inspector (toJSON s) = opt
  /\ size (stats_workers (toJSON s)) = workerCount (broker s)
  /\ forall cred,
       match getWorkerInfo cred (broker s) with
       | None => stats_workers (toJSON s) !! cred = None
       | Some item =>
           exists st,
             stats_workers (toJSON s) !! cred = Some st
             /\ stats_name st = item_name item
             /\ 0 <= stats_activeRequestCount st
             /\ match getWorker cred (broker s) with
                | GetWorker_worker w =>
                    (activeRequestCount <$> workerObjs s !! w)
                    = Some (stats_activeRequestCount st)
                | _ => stats_activeRequestCount st = 0
                end
       end.
Proof.
  intros Hheap s.
  assert (registry_ok s) as Hreg
    by (by apply registry_ok_exec; [|apply registry_ok_new]).
  assert (bound_ok (profile_name profile, opt) (broker s)) as [[= Hname Hinsp] _]
    by (apply bound_ok_exec, bound_ok_new).
  split; [exact Hname|]. split; [exact Hinsp|].
  split; [apply map_size_fmap|].
  intros cred. unfold getWorkerInfo, getWorker, toJSON. simpl.
  rewrite lookup_fmap.
  destruct (_workerMap (broker s) !! cred) as [item|] eqn:Hit; [|done].
  simpl. eexists. split; [done|]. split; [done|]. simpl.
  destruct (worker item) as [w|] eqn:Hw; [|done].
  destruct (reg_bound s Hreg cred item w Hit Hw) as (_ & _ & wk & Hwk & _).
  rewrite Hwk. split; [|done]. by eapply count_nonneg.
Qed.

(** X13, witness: a bound worker with a request and a pending
    credential, on a broker built with the inspector. *)
Lemma toJSON_reports_registered_workers_witness :
  let s := exec minToFront (new_State (single_profile false) true)
             (one_worker ++ [EvRegisterCredential "hi" "moon";
                             EvInvoke 30 "a" (sample_metadata "r1" None)]) in
  stats_functionName (toJSON s) = "func"
  /\ stats_inspector (toJSON s) = true
  /\ size (stats_workers (toJSON s)) = workerCount (broker s).
Proof.
  intros s.
  destruct (toJSON_reports_registered_workers minToFront
              (single_profile false) true
              (one_worker ++ [EvRegisterCredential "hi" "moon";
                              EvInvoke 30 "a" (sample_metadata "r1" None)])
              minToFront_spec) as (H1 & H2 & H3 & _).
  exact (conj H1 (conj H2 H3)).
Defined.

(** ** Counting what the broker reports *)

(** How many effects of a kind the broker has produced so far. *)
Definition tally (k : Effect -> bool) (s : State) : nat :=
  length (List.filter k (trace s)).

Definition is_added (e : Effect) : bool :=
  match e with QueuedRequestCounterAdd _ _ => true | _ => false end.

Definition is_close (e : Effect) : bool :=
  match e with CloseTraffic _ => true | _ => false end.

Definition is_drained (e : Effect) : bool :=
  match e with
  | BroadcastContainerStatusReport _ _ _ RequestDrained => true
  | _ => false
  end.

Lemma tally_emit k e s :
  tally k (emit e s) = (tally k s + if k e then 1 else 0)%nat.
Proof.
  unfold tally. simpl. rewrite List.filter_app, length_app. simpl.
  by destruct (k e).
Qed.

Lemma tally_emits k es s :
  tally k (emits es s) = (tally k s + length (List.filter k es))%nat.
Proof. unfold tally. simpl. by rewrite List.filter_app, length_app. Qed.

Lemma tally_trace k s s' : trace s' = trace s -> tally k s' = tally k s.
Proof. unfold tally. by intros ->. Qed.

(** *** The metrics of the queue *)

(** The two effects the queue metrics are made of. *)
Definition mtally (s : State) : nat * nat := (tally is_added s, tally is_duration s).

Lemma mtally_trace s s' : trace s' = trace s -> mtally s' = mtally s.
Proof. unfold mtally, tally. by intros ->. Qed.

Lemma mtally_emit e s :
  is_added e = false -> is_duration e = false -> mtally (emit e s) = mtally s.
Proof.
  intros H1 H2. unfold mtally. rewrite !tally_emit, H1, H2.
  by rewrite !Nat.add_0_r.
Qed.

Lemma mtally_broadcast w ev s :
  mtally (broadcastContainerStatusReport w ev s) = mtally s.
Proof.
  unfold broadcastContainerStatusReport. destruct (workerObjs s !! w); [|done].
  by rewrite mtally_emit.
Qed.

Lemma mtally_closeTraffic w s : mtally (closeTraffic w s) = mtally s.
Proof.
  unfold closeTraffic, Worker_closeTraffic.
  set (s1 := upd_worker w (set_trafficOff true) (emit (CloseTraffic w) s)).
  assert (mtally s1 = mtally s) as H1.
  { change (mtally (emit (CloseTraffic w) s) = mtally s). by rewrite mtally_emit. }
  destruct (workerObjs s1 !! w) as [wk|]; [destruct (activeRequestCount wk <=? 0)|];
    rewrite ?mtally_broadcast; exact H1.
Qed.

Lemma mtally_emit_downToZero w s : mtally (emit_downToZero w s) = mtally s.
Proof. unfold emit_downToZero. by destruct (workerObjs s !! w). Qed.

Lemma mtally_closeTraffic_resumed d s :
  mtally (closeTraffic_resumed d s) = mtally s.
Proof.
  unfold closeTraffic_resumed. destruct (drains s !! d) as [dr|]; [|done].
  destruct (drain_stage dr); try done. by rewrite mtally_broadcast.
Qed.

Lemma mtally_pipe_dispatch w inp md s : mtally (pipe_dispatch w inp md s) = mtally s.
Proof.
  unfold pipe_dispatch. destruct (workerObjs s !! w); [|done]. by rewrite mtally_emit.
Qed.

Lemma mtally_pipe w src inp md wait s : mtally (pipe w src inp md wait s) = mtally s.
Proof.
  unfold pipe. destruct (workerObjs s !! w) as [wk|]; [|done].
  destruct (worker_disposable wk && truthy (md_debuggerTag md)).
  - by rewrite mtally_emit.
  - by rewrite mtally_pipe_dispatch.
Qed.

Lemma mtally_pipe_settled t p out s : mtally (pipe_settled t p out s) = mtally s.
Proof.
  unfold pipe_settled. destruct (source p) as [|rid].
  - rewrite mtally_emit by (by destruct out).
    destruct (disposable (broker s)); by rewrite ?mtally_closeTraffic.
  - destruct out as [e|ret];
      match goal with |- context [if ?c then _ else _] => destruct c end;
      rewrite ?mtally_closeTraffic; by rewrite mtally_emit.
Qed.

Lemma lengths_pipe_settled t p out s :
  requestQueue (broker (pipe_settled t p out s)) = requestQueue (broker s)
  /\ length (requestObjs (pipe_settled t p out s)) = length (requestObjs s).
Proof.
  pose proof (qview_pipe_settled t p out s) as Hv.
  apply (f_equal q_queue) in Hv as Hq. apply (f_equal q_requests) in Hv as Hr.
  simpl in Hq, Hr. rewrite Hq, Hr.
  destruct (source p); simpl; by rewrite ?length_alter.
Qed.

(** The queue metrics agree with the queue: the counter has counted every
    request that was queued, and the histogram has one sample for every
    request that has left the queue. *)
Definition metered (s : State) : Prop :=
  tally is_added s = length (requestObjs s)
  /\ (tally is_duration s + length (requestQueue (broker s)))%nat
     = length (requestObjs s).

Lemma metered_frame s s' :
  mtally s' = mtally s -> qview s' = qview s -> metered s -> metered s'.
Proof.
  unfold metered, mtally. intros [= -> ->] Hv.
  apply (f_equal q_queue) in Hv as Hq. apply (f_equal q_requests) in Hv as Hr.
  simpl in Hq, Hr. by rewrite Hq, Hr.
Qed.

Lemma metered_frame' s s' :
  mtally s' = mtally s ->
  length (requestObjs s') = length (requestObjs s) ->
  requestQueue (broker s') = requestQueue (broker s) ->
  metered s -> metered s'.
Proof. unfold metered, mtally. intros [= -> ->] -> ->. done. Qed.

Lemma metered_queueRequest now inp md s :
  metered s -> metered (snd (_queueRequest now inp md s)).
Proof.
  intros [H1 H2]. unfold _queueRequest, checkRequestQueue.
  destruct (negb (disableRequestQueue (_profile (broker s)))); simpl.
  - unfold metered, tally in *. simpl.
    rewrite !List.filter_app, !length_app. simpl. lia.
  - apply (metered_frame' s); try done. by rewrite mtally_emit.
Qed.

Lemma length_List_remove rid l :
  NoDup l -> rid ∈ l -> S (length (List_remove rid l)) = length l.
Proof.
  induction l as [|x l IH]; simpl; intros Hnd Hin; [by apply elem_of_nil in Hin|].
  apply NoDup_cons in Hnd as [Hx Hnd].
  destruct (Nat.eqb_spec x rid) as [->|Hne]; [done|].
  apply elem_of_cons in Hin as [->|Hin]; [done|]. simpl. by rewrite IH.
Qed.

Lemma metered_timeout now rid s :
  queue_ok (qview s) -> metered s -> metered (PendingRequest_timeout now rid s).
Proof.
  intros Hok [H1 H2]. unfold PendingRequest_timeout.
  destruct (requestObjs s !! rid) as [p|] eqn:Hp; [|done].
  destruct (is_armed (timer p)) eqn:Ha; [|done].
  assert (rid ∈ requestQueue (broker s)) as Hin
    by (apply (ok_queued _ Hok); eauto).
  pose proof (length_List_remove rid _ (ok_nodup _ Hok) Hin) as Hl. simpl in Hl.
  unfold metered, tally in *. simpl.
  rewrite !List.filter_app, !length_app, !length_alter. simpl. lia.
Qed.

Lemma metered_fastFail_fold now err queue : forall s,
  (forall rid, rid ∈ queue -> is_Some (requestObjs s !! rid)) ->
  tally is_added (fold_left (fastFail_one now err) queue s) = tally is_added s
  /\ tally is_duration (fold_left (fastFail_one now err) queue s)
     = (tally is_duration s + length queue)%nat
  /\ length (requestObjs (fold_left (fastFail_one now err) queue s))
     = length (requestObjs s)
  /\ requestQueue (broker (fold_left (fastFail_one now err) queue s))
     = requestQueue (broker s).
Proof.
  induction queue as [|rid rest IH]; intros s Hall; cbn [fold_left].
  { split; [done|]. split; [simpl; lia|done]. }
  destruct (Hall rid) as [p Hp]; [by left|].
  destruct (IH (fastFail_one now err s rid)) as (E1 & E2 & E3 & E4).
  { intros r Hr. destruct (Hall r) as [q Hq]; [by right|].
    destruct (fastFail_one_trace now err s rid) as (_ & _ & ->).
    destruct (decide (rid = r)) as [->|Hne].
    - rewrite list_lookup_alter_eq, Hq. eauto.
    - rewrite list_lookup_alter_ne by done. eauto. }
  rewrite E1, E2, E3, E4. unfold fastFail_one. rewrite Hp.
  unfold tally. simpl.
  rewrite !List.filter_app, !length_app, !length_alter. simpl.
  split; [lia|]. split; [lia|done].
Qed.

Lemma metered_fastFail now fatal message s :
  queue_ok (qview s) -> metered s ->
  metered (fastFailAllPendingsDueToStartError now fatal message s).
Proof.
  intros Hok [H1 H2]. unfold fastFailAllPendingsDueToStartError.
  destruct (negb fatal && negb (fastFailRequestsOnStarting (_profile (broker s))));
    [done|].
  destruct (metered_fastFail_fold now (new_Error message) (requestQueue (broker s))
              (upd_broker (set_requestQueue []) s)) as (E1 & E2 & E3 & E4).
  { intros rid Hin. apply (ok_queued _ Hok) in Hin as (p & Hp & _). eauto. }
  unfold metered. rewrite E1, E2, E3, E4. unfold tally in *. simpl. lia.
Qed.

Lemma metered_consumeQueue now w queue : forall s,
  queue_ok (qview s) -> requestQueue (broker s) = queue -> metered s ->
  metered (consumeQueue now w queue s).
Proof.
  induction queue as [|rid rest IH]; intros s Hok Hq Hm; simpl; [done|].
  destruct (isWorkerFree w s) eqn:Hfree; simpl; [|done].
  assert (rid ∈ q_queue (qview s)) as Hin by (simpl; rewrite Hq; left).
  apply (ok_queued _ Hok) in Hin as (request & Hp & Ha). simpl in Hp.
  rewrite Hp. destruct (ok_armed _ Hok rid request Hp Ha) as [_ ->]. simpl.
  set (s1 := upd_request rid PendingRequest_stopTimer
               (upd_broker (set_requestQueue rest) s)).
  assert (queue_ok (qview s1)) as Hok1.
  { pose proof (queue_ok_disarm (qview s) rid PendingRequest_stopTimer
                  (q_status (qview s)) Hok is_armed_stopTimer) as H.
    simpl in H. rewrite Hq in H. simpl in H. by rewrite Nat.eqb_refl in H. }
  set (s2 := pipe_PendingRequest now w rid request s1).
  assert (queue_ok (qview s2)) as Hok2.
  { apply queue_ok_pipe; [done|]. intros r [= <-].
    exists (PendingRequest_stopTimer request). split.
    - subst s1. simpl. by rewrite list_lookup_alter_eq, Hp.
    - apply is_armed_stopTimer. }
  assert (requestQueue (broker s2) = rest
          /\ length (requestObjs s2) = length (requestObjs s)) as [Hq2 Hr2].
  { subst s2. unfold pipe_PendingRequest.
    destruct (qview_pipe w (FromQueue rid) (input request) (metadata request)
                (now - startEpoch request) s1) as [E|E];
      apply (f_equal q_queue) in E as E1; apply (f_equal q_requests) in E as E2;
      simpl in E1, E2; rewrite E1, E2; subst s1; simpl;
      by rewrite length_alter. }
  set (s3 := emit (QueuedRequestDurationRecord (now - startEpoch request)
                     (name (broker s2))) s2).
  assert (metered s3) as Hm3.
  { destruct Hm as [H1 H2]. unfold metered. subst s3. rewrite !tally_emit. simpl.
    rewrite Hq2, Hr2.
    assert (mtally s2 = mtally s) as [= -> ->].
    { subst s2. unfold pipe_PendingRequest. by rewrite mtally_pipe. }
    rewrite Hq in H2. simpl in H2. lia. }
  destruct (disposable (broker s2)); [done|].
  apply IH; [exact Hok2|exact Hq2|exact Hm3].
Qed.

Lemma metered_tryConsumeQueue now w s :
  queue_ok (qview s) -> metered s -> metered (tryConsumeQueue now w s).
Proof.
  intros Hok Hm. unfold tryConsumeQueue.
  pose proof (metered_consumeQueue now w _ s Hok eq_refl Hm) as H.
  by destruct (requestQueue (broker (consumeQueue now w (requestQueue (broker s)) s))).
Qed.

Lemma metered_continueConsumeQueue now w s :
  queue_ok (qview s) -> metered s -> metered (continueConsumeQueue now w s).
Proof.
  intros Hok Hm. unfold continueConsumeQueue.
  destruct (workerObjs s !! w) as [wk|]; [|done].
  destruct (worker_disposable wk); [done|].
  destruct (isWorkerFree w s); [|done]. by apply metered_tryConsumeQueue.
Qed.

Lemma metered_step heapify s e : inv s -> metered s -> metered (step heapify s e).
Proof.
  intros [Hok _] Hm. destruct e; simpl.
  - unfold invoke.
    assert (metered (snd (acquireToken s))) as Ha.
    { unfold acquireToken. destruct (tokenBucket (broker s)) as [tb|]; [|done].
      by destruct (TokenBucket_acquire tb). }
    destruct (acquireToken s) as [ok s1]. simpl in Ha.
    destruct ok; simpl; [|done].
    destruct (requestQueueStatus (broker s1)); [|by apply metered_queueRequest].
    assert (metered (snd (getAvailableWorker heapify s1))) as Hg.
    { unfold getAvailableWorker. cbv zeta.
      repeat match goal with
             | |- context [match ?x with _ => _ end] => destruct x
             end; exact Ha. }
    destruct (getAvailableWorker heapify s1) as [[w|] s2]; simpl in Hg.
    + cbn [snd]. unfold pipe_Input.
      destruct Hg as [H1 H2]. unfold metered.
      assert (mtally (pipe w FromInvoke inp md 0 s2) = mtally s2) as [= -> ->]
        by apply mtally_pipe.
      destruct (qview_pipe w FromInvoke inp md 0 s2) as [E|E];
        apply (f_equal q_queue) in E as E1; apply (f_equal q_requests) in E as E2;
        simpl in E1, E2; by rewrite E1, E2.
    + by apply metered_queueRequest.
  - unfold pipe_inspectorStarted.
    destruct (pipes s !! t) as [p|] eqn:Hp; [|done].
    destruct (stage p); try done.
    destruct (workerObjs s !! pipe_worker p) as [wk|]; [|done].
    destruct res as [e|].
    + destruct (lengths_pipe_settled t p (inl e)
                  (upd_pipe t (set_stage Settled) s)) as [E1 E2].
      apply (metered_frame' s); try done. by rewrite mtally_pipe_settled.
    + apply (metered_frame s); [|by rewrite qview_pipe_dispatch, qview_set_stage|done].
      by rewrite mtally_pipe_dispatch.
  - unfold pipe_triggered.
    destruct (pipes s !! t) as [p|] eqn:Hp; [|done].
    destruct (stage p); try done.
    destruct (workerObjs s !! pipe_worker p) as [wk|]; [|done].
    destruct res as [e|ret];
      match goal with |- context [pipe_settled ?a ?b ?c ?d] =>
        destruct (lengths_pipe_settled a b c d) as [E1 E2]
      end;
      (apply (metered_frame' s); try done; by rewrite mtally_pipe_settled).
  - unfold pipe_finished.
    destruct (pipes s !! t) as [p|] eqn:Hp; [|done].
    destruct (stage p); try done.
    destruct (workerObjs s !! pipe_worker p) as [wk|]; [|done].
    apply metered_continueConsumeQueue.
    + destruct (activeRequestCount wk - 1 =? 0);
        by rewrite ?qview_emit_downToZero, qview_upd_worker, qview_set_stage.
    + apply (metered_frame s); [| |done].
      * destruct (activeRequestCount wk - 1 =? 0);
          by rewrite ?mtally_emit_downToZero.
      * destruct (activeRequestCount wk - 1 =? 0);
          by rewrite ?qview_emit_downToZero, qview_upd_worker, qview_set_stage.
  - by apply metered_timeout.
  - unfold registerCredential. by destruct (isCredentialPending cred (broker s)).
  - unfold bindWorker.
    destruct (_workerMap (broker s) !! cred) as [item|]; [|done].
    destruct (negb (isCredentialPending cred (broker s))); [done|].
    destruct (status item); [|done]. simpl.
    apply (metered_frame s); [|done|done]. by rewrite mtally_emit.
  - unfold bindWorker_initialized.
    destruct (inits s !! i) as [it|]; [|done].
    destruct (init_pending it); [|done]. destruct res as [e|].
    + apply (metered_frame s); [|done|done].
      rewrite mtally_emit by done. by rewrite mtally_emit.
    + assert (forall s', qview s' = qview s -> mtally s' = mtally s ->
                metered (tryConsumeQueue now (init_worker it) s')) as H.
      { intros s' Hv Ht. apply metered_tryConsumeQueue; [by rewrite Hv|].
        by apply (metered_frame s). }
      apply H.
      * unfold qview; simpl. unfold broadcastContainerStatusReport; simpl.
        by destruct (workerObjs s !! init_worker it).
      * apply (mtally_broadcast (init_worker it) ContainerInstalled
                 (upd_inits (alter (set_init_pending false) i) s)).
  - done.
  - unfold updateProfile.
    by destruct (negb (String.eqb (profile_name p) (name (broker s)))).
  - by apply metered_fastFail.
  - done.
  - destruct (workerObjs s !! w); [|done].
    by apply (metered_frame s);
      [apply mtally_closeTraffic|apply qview_closeTraffic|].
  - by apply (metered_frame s);
      [apply mtally_closeTraffic_resumed|apply qview_closeTraffic_resumed|].
Qed.

Lemma metered_exec heapify evs : forall s,
  inv s -> metered s -> metered (exec heapify s evs).
Proof.
  induction evs as [|e evs IH]; intros s Hi Hm; [done|].
  apply IH; [by apply inv_step|by apply metered_step].
Qed.

(** X14.  In every state the broker reaches, the queue metrics agree with the
    queue: [queuedRequestCounter] was incremented once for every request
    that was ever queued, and [queuedRequestDurationHistogram] holds exactly
    one sample for every request that has left the queue, by dispatch, by
    deadline or by fast fail. *)
Theorem queue_metrics_account_for_every_request
    (heapify : (nat -> HeapKey) -> list nat -> list nat)
    (profile : Profile) (opt : bool) (evs : list Event) :
  let s := exec heapify (new_State profile opt) evs in
  tally is_added s = length (requestObjs s)
  /\ (tally is_duration s + length (requestQueue (broker s)))%nat
     = length (requestObjs s).
Proof.
  intros s. apply (metered_exec heapify evs (new_State profile opt)).
  - apply inv_new.
  - by split.
Qed.

(** *** Draining *)

(** The calls of [closeTraffic] and the RequestDrained reports so far, the
    calls that are suspended, and the listeners left on the workers. *)
Definition dview (s : State) : nat * nat * list Drain * list nat :=
  (tally is_close s, tally is_drained s, drains s,
   map downToZeroListeners (workerObjs s)).

Definition in_stage (st : DrainStage) (d : Drain) : bool :=
  match drain_stage d, st with
  | AwaitDownToZero, AwaitDownToZero => true
  | AwaitResume, AwaitResume => true
  | Reported, Reported => true
  | _, _ => false
  end.

(** The calls that wait for [downToZero] of a worker. *)
Definition waits_on (w : nat) (d : Drain) : bool :=
  Nat.eqb (drain_worker d) w && in_stage AwaitDownToZero d.

(** Every call of [closeTraffic] has left one suspended call, every report
    comes from a call that has resumed, and every listener on a worker
    belongs to a call that waits for that worker. *)
Record drains_ok (s : State) : Prop := {
  dr_calls : tally is_close s = length (drains s);
  dr_reports :
    tally is_drained s = length (List.filter (in_stage Reported) (drains s));
  dr_workers :
    Forall (fun d => (drain_worker d < length (workerObjs s))%nat) (drains s);
  dr_listeners : forall w wk, workerObjs s !! w = Some wk ->
    downToZeroListeners wk = length (List.filter (waits_on w) (drains s)) }.

Lemma drains_frame s s' : dview s' = dview s -> drains_ok s -> drains_ok s'.
Proof.
  unfold dview. intros [= Hc Hd Hds Hl] [H1 H2 H3 H4].
  assert (length (workerObjs s') = length (workerObjs s)) as Hlen.
  { apply (f_equal length) in Hl. by rewrite !length_map in Hl. }
  split; rewrite ?Hc, ?Hd, ?Hds, ?Hlen; try done.
  intros w wk Hw.
  assert (map downToZeroListeners (workerObjs s') !! w
          = Some (downToZeroListeners wk)) as Hm.
  { change (map downToZeroListeners (workerObjs s'))
      with (downToZeroListeners <$> workerObjs s').
    by rewrite list_lookup_fmap, Hw. }
  rewrite Hl in Hm.
  change (map downToZeroListeners (workerObjs s))
    with (downToZeroListeners <$> workerObjs s) in Hm.
  rewrite list_lookup_fmap in Hm.
  destruct (workerObjs s !! w) as [wk0|] eqn:Hw0; [|done].
  injection Hm as <-. by apply H4.
Qed.

Lemma filter_snoc_length {A} (f : A -> bool) (l : list A) x :
  length (List.filter f (l ++ [x]))
  = (length (List.filter f l) + if f x then 1 else 0)%nat.
Proof.
  rewrite List.filter_app, length_app. simpl. by destruct (f x).
Qed.

Lemma filter_alter_length {A} (f : A -> bool) (g : A -> A) i (l : list A) x :
  l !! i = Some x ->
  (length (List.filter f (alter g i l)) + if f x then 1 else 0)%nat
  = (length (List.filter f l) + if f (g x) then 1 else 0)%nat.
Proof.
  revert i. induction l as [|y l IH]; intros [|i] H; simpl in *; try done.
  - injection H as ->. destruct (f x), (f (g x)); simpl; lia.
  - specialize (IH i H). change (list_alter g i l) with (alter g i l).
    destruct (f y); simpl; lia.
Qed.

Lemma filter_map_length {A} (f : A -> bool) (g : A -> A) (l : list A) :
  (forall x, f (g x) = f x) ->
  length (List.filter f (map g l)) = length (List.filter f l).
Proof.
  intros H. induction l as [|x l IH]; simpl; [done|].
  rewrite H. destruct (f x); simpl; by rewrite IH.
Qed.

Lemma filter_none_length {A} (f : A -> bool) (l : list A) :
  Forall (fun x => f x = false) l -> length (List.filter f l) = 0%nat.
Proof.
  induction 1 as [|x l Hx _ IH]; simpl; [done|]. by rewrite Hx.
Qed.

Lemma dview_emit e s :
  is_close e = false -> is_drained e = false -> dview (emit e s) = dview s.
Proof.
  intros H1 H2. unfold dview. rewrite !tally_emit, H1, H2.
  by rewrite !Nat.add_0_r.
Qed.

Lemma dview_upd_worker (f : Worker -> Worker) w s :
  (forall x, downToZeroListeners (f x) = downToZeroListeners x) ->
  dview (upd_worker w f s) = dview s.
Proof.
  intros Hf. unfold dview, upd_worker, upd_workerObjs, tally. simpl.
  by rewrite map_alter_same.
Qed.

Lemma dview_pipe_dispatch w inp md s : dview (pipe_dispatch w inp md s) = dview s.
Proof.
  unfold pipe_dispatch. destruct (workerObjs s !! w); [|done].
  rewrite dview_emit by done. by apply dview_upd_worker.
Qed.

Lemma dview_pipe w src inp md wait s : dview (pipe w src inp md wait s) = dview s.
Proof.
  unfold pipe. destruct (workerObjs s !! w) as [wk|]; [|done].
  destruct (worker_disposable wk && truthy (md_debuggerTag md)).
  - rewrite dview_emit by done.
    by apply (dview_upd_worker (set_debuggerTag (md_debuggerTag md)) w
                (upd_pipes _ s)).
  - by rewrite dview_pipe_dispatch.
Qed.

Lemma drains_closeTraffic w s wk :
  workerObjs s !! w = Some wk ->
  drains_ok s -> drains_ok (closeTraffic w s).
Proof.
  intros Hw [H1 H2 H3 H4]. unfold closeTraffic, Worker_closeTraffic.
  change (workerObjs (upd_worker w (set_trafficOff true) (emit (CloseTraffic w) s)))
    with (alter (set_trafficOff true) w (workerObjs s)).
  rewrite list_lookup_alter_eq, Hw. simpl.
  assert (w < length (workerObjs s))%nat as Hlt by (by eapply lookup_lt_Some).
  destruct (activeRequestCount wk <=? 0); split; simpl;
    rewrite ?length_alter, ?length_app, ?filter_snoc_length; simpl.
  - unfold tally in *. simpl.
    rewrite List.filter_app, length_app. simpl. lia.
  - unfold tally in *. simpl.
    rewrite List.filter_app, length_app. simpl. lia.
  - apply Forall_app. split; [done|]. by apply Forall_singleton.
  - intros w' wk' Hw'. rewrite filter_snoc_length.
    unfold waits_on at 2, in_stage. simpl.
    rewrite andb_false_r, Nat.add_0_r.
    destruct (decide (w = w')) as [<-|Hne].
    + rewrite list_lookup_alter_eq, Hw in Hw'. simpl in Hw'.
      injection Hw' as <-. simpl. by apply H4.
    + rewrite list_lookup_alter_ne in Hw' by done. by apply H4.
  - unfold tally in *. simpl.
    rewrite List.filter_app, length_app. simpl. lia.
  - unfold tally in *. simpl.
    rewrite List.filter_app, length_app. simpl. lia.
  - apply Forall_app. split; [done|]. by apply Forall_singleton.
  - intros w' wk' Hw'. rewrite filter_snoc_length.
    unfold waits_on at 2, in_stage. simpl.
    rewrite andb_true_r. rewrite list_alter_alter_eq in Hw'.
    destruct (decide (w = w')) as [<-|Hne].
    + rewrite list_lookup_alter_eq, Hw in Hw'. simpl in Hw'.
      injection Hw' as <-. simpl.
      rewrite Nat.eqb_refl, (H4 w wk Hw). lia.
    + rewrite list_lookup_alter_ne in Hw' by done.
      apply Nat.eqb_neq in Hne. rewrite Hne, Nat.add_0_r. by apply H4.
Qed.

Lemma downToZero_worker w d : drain_worker (downToZero w d) = drain_worker d.
Proof.
  unfold downToZero. destruct (drain_stage d); try done.
  by destruct (Nat.eqb (drain_worker d) w).
Qed.

Lemma drains_emit_downToZero w s :
  drains_ok s -> drains_ok (emit_downToZero w s).
Proof.
  intros [H1 H2 H3 H4]. unfold emit_downToZero.
  destruct (workerObjs s !! w) as [wk|] eqn:Hw; [|done].
  split; simpl; rewrite ?length_map, ?length_alter.
  - exact H1.
  - change (tally is_drained (upd_drains _ (upd_worker w _ s)))
      with (tally is_drained s).
    rewrite H2. symmetry. apply filter_map_length.
    intros d. unfold in_stage, downToZero.
    destruct (drain_stage d) eqn:E; rewrite ?E; try done.
    destruct (Nat.eqb (drain_worker d) w); simpl; by rewrite ?E.
  - apply Forall_map. eapply Forall_impl; [exact H3|].
    intros d Hd. simpl. by rewrite downToZero_worker.
  - intros w' wk' Hw'. destruct (decide (w = w')) as [<-|Hne].
    + rewrite list_lookup_alter_eq, Hw in Hw'. simpl in Hw'.
      injection Hw' as <-. simpl.
      symmetry. apply filter_none_length. apply Forall_map, Forall_forall.
      intros d _. simpl. unfold waits_on, in_stage, downToZero.
      destruct (drain_stage d) eqn:E; rewrite ?E, ?andb_false_r; try done.
      destruct (Nat.eqb (drain_worker d) w) eqn:Ew; simpl;
        rewrite ?E, ?Ew, ?andb_false_r; done.
    + rewrite list_lookup_alter_ne in Hw' by done. rewrite (H4 w' wk' Hw').
      symmetry. apply filter_map_length.
      intros d. unfold waits_on. rewrite downToZero_worker.
      destruct (Nat.eqb (drain_worker d) w') eqn:Ew'; [|done]. simpl.
      unfold in_stage, downToZero.
      destruct (drain_stage d) eqn:E; rewrite ?E; try done.
      destruct (Nat.eqb (drain_worker d) w) eqn:Ew; simpl; rewrite ?E; [|done].
      apply Nat.eqb_eq in Ew, Ew'. congruence.
Qed.

(** A call whose worker's promise is resolved makes its report when it
    resumes. *)
Lemma closeTraffic_resumed_trace d dr s :
  drains_ok s -> drains s !! d = Some dr -> drain_stage dr = AwaitResume ->
  exists wk,
    workerObjs s !! drain_worker dr = Some wk
    /\ closeTraffic_resumed d s
       = emit (BroadcastContainerStatusReport (name (broker s))
                 (inspect (broker s)) (worker_name wk) RequestDrained)
           (upd_drains (alter (set_drain_stage Reported) d) s).
Proof.
  intros [_ _ H3 _] Hd Hst.
  rewrite Forall_lookup in H3. specialize (H3 d dr Hd). simpl in H3.
  apply lookup_lt_is_Some_2 in H3 as [wk Hwk]. exists wk. split; [done|].
  unfold closeTraffic_resumed, broadcastContainerStatusReport.
  rewrite Hd, Hst. simpl. by rewrite Hwk.
Qed.

Lemma drains_resumed d s :
  drains_ok s -> drains_ok (closeTraffic_resumed d s).
Proof.
  intros H. destruct (drains s !! d) as [dr|] eqn:Hd;
    [|unfold closeTraffic_resumed; by rewrite Hd].
  destruct (drain_stage dr) eqn:Hst;
    try (unfold closeTraffic_resumed; by rewrite Hd, Hst).
  destruct (closeTraffic_resumed_trace d dr s H Hd Hst) as (wk & Hwk & ->).
  destruct H as [H1 H2 H3 H4].
  split; simpl; rewrite ?length_alter.
  - rewrite tally_emit. simpl. rewrite Nat.add_0_r. exact H1.
  - rewrite tally_emit. simpl.
    change (tally is_drained (upd_drains _ s)) with (tally is_drained s).
    pose proof (filter_alter_length (in_stage Reported)
                  (set_drain_stage Reported) d (drains s) dr Hd) as E.
    assert (in_stage Reported dr = false) as E1
      by (unfold in_stage; by rewrite Hst).
    assert (in_stage Reported (set_drain_stage Reported dr) = true) as E2
      by done.
    rewrite E1, E2 in E. lia.
  - apply Forall_alter; [done|]. by intros x _ Hx.
  - intros w' wk' Hw'. rewrite (H4 w' wk' Hw').
    pose proof (filter_alter_length (waits_on w')
                  (set_drain_stage Reported) d (drains s) dr Hd) as E.
    assert (waits_on w' dr = false) as E1
      by (unfold waits_on, in_stage; rewrite Hst; apply andb_false_r).
    assert (waits_on w' (set_drain_stage Reported dr) = false) as E2
      by (unfold waits_on, in_stage; simpl; apply andb_false_r).
    rewrite E1, E2 in E. lia.
Qed.

Lemma drains_pipe_settled t p out s wk :
  workerObjs s !! pipe_worker p = Some wk ->
  drains_ok s -> drains_ok (pipe_settled t p out s).
Proof.
  intros Hw H. unfold pipe_settled. destruct (source p) as [|rid].
  - apply (drains_frame (if disposable (broker s)
                         then closeTraffic (pipe_worker p) s else s)).
    + by rewrite dview_emit by (by destruct out).
    + destruct (disposable (broker s)); [by eapply drains_closeTraffic|done].
  - destruct out as [e|ret];
      match goal with |- context [closeTraffic _ ?s1] =>
        change (disposable (broker s1)) with (disposable (broker s));
        assert (drains_ok s1) as H1
          by (by apply (drains_frame s); [rewrite dview_emit|])
      end;
      (destruct (disposable (broker s));
       [by eapply drains_closeTraffic|done]).
Qed.

Lemma dview_consumeQueue now w queue : forall s,
  dview (consumeQueue now w queue s) = dview s.
Proof.
  induction queue as [|rid rest IH]; intros s; simpl; [done|].
  destruct (isWorkerFree w s); simpl; [|done].
  destruct (requestObjs s !! rid) as [request|]; [|by rewrite IH].
  destruct (negb (available request)); [by rewrite IH|].
  match goal with |- context [if ?c then _ else _] => destruct c end;
    rewrite ?IH; rewrite dview_emit by done;
    unfold pipe_PendingRequest; by rewrite dview_pipe.
Qed.

Lemma dview_tryConsumeQueue now w s : dview (tryConsumeQueue now w s) = dview s.
Proof.
  unfold tryConsumeQueue.
  destruct (requestQueue (broker (consumeQueue now w (requestQueue (broker s)) s)));
    [change (dview (consumeQueue now w (requestQueue (broker s)) s) = dview s)|];
    apply dview_consumeQueue.
Qed.

Lemma dview_continueConsumeQueue now w s :
  dview (continueConsumeQueue now w s) = dview s.
Proof.
  unfold continueConsumeQueue. destruct (workerObjs s !! w) as [wk|]; [|done].
  destruct (worker_disposable wk); [done|].
  destruct (isWorkerFree w s); [|done]. apply dview_tryConsumeQueue.
Qed.

Lemma dview_queueRequest now inp md s :
  dview (snd (_queueRequest now inp md s)) = dview s.
Proof.
  unfold _queueRequest, checkRequestQueue.
  destruct (negb (disableRequestQueue (_profile (broker s)))); simpl.
  - rewrite dview_emit by done. by rewrite dview_emit.
  - by rewrite dview_emit.
Qed.

Lemma dview_timeout now rid s : dview (PendingRequest_timeout now rid s) = dview s.
Proof.
  unfold PendingRequest_timeout. destruct (requestObjs s !! rid) as [p|]; [|done].
  destruct (is_armed (timer p)); [|done].
  rewrite dview_emit by done. by rewrite dview_emit.
Qed.

Lemma dview_fastFail_fold now err queue : forall s,
  dview (fold_left (fastFail_one now err) queue s) = dview s.
Proof.
  induction queue as [|rid rest IH]; intros s; cbn [fold_left]; [done|].
  rewrite IH. unfold fastFail_one. destruct (requestObjs s !! rid); [|done].
  rewrite dview_emit by done. by rewrite dview_emit.
Qed.

Lemma dview_fastFail now fatal message s :
  dview (fastFailAllPendingsDueToStartError now fatal message s) = dview s.
Proof.
  unfold fastFailAllPendingsDueToStartError.
  destruct (negb fatal && negb (fastFailRequestsOnStarting (_profile (broker s))));
    [done|].
  by rewrite dview_fastFail_fold.
Qed.

Lemma drains_step heapify s e : drains_ok s -> drains_ok (step heapify s e).
Proof.
  intros H. destruct e; simpl.
  - apply (drains_frame s); [|done]. unfold invoke.
    assert (dview (snd (acquireToken s)) = dview s) as Ha.
    { unfold acquireToken. destruct (tokenBucket (broker s)) as [tb|]; [|done].
      by destruct (TokenBucket_acquire tb). }
    destruct (acquireToken s) as [ok s1]. simpl in Ha.
    destruct ok; simpl; [|done].
    destruct (requestQueueStatus (broker s1));
      [|by rewrite dview_queueRequest].
    assert (dview (snd (getAvailableWorker heapify s1)) = dview s1) as Hg.
    { unfold getAvailableWorker. cbv zeta.
      repeat match goal with
             | |- context [match ?x with _ => _ end] => destruct x
             end; reflexivity. }
    destruct (getAvailableWorker heapify s1) as [[w|] s2]; simpl in Hg.
    + cbn [snd]. unfold pipe_Input. by rewrite dview_pipe, Hg.
    + by rewrite dview_queueRequest, Hg.
  - unfold pipe_inspectorStarted.
    destruct (pipes s !! t) as [p|] eqn:Hp; [|done].
    destruct (stage p); try done.
    destruct (workerObjs s !! pipe_worker p) as [wk|] eqn:Hw; [|done].
    destruct res as [e|].
    + apply (drains_pipe_settled _ _ _ _ wk); [done|].
      by apply (drains_frame s).
    + apply (drains_frame s); [|done]. by rewrite dview_pipe_dispatch.
  - unfold pipe_triggered.
    destruct (pipes s !! t) as [p|] eqn:Hp; [|done].
    destruct (stage p); try done.
    destruct (workerObjs s !! pipe_worker p) as [wk|] eqn:Hw; [|done].
    destruct res as [e|ret];
      (apply (drains_pipe_settled _ _ _ _ wk); [done|]);
      by apply (drains_frame s).
  - unfold pipe_finished.
    destruct (pipes s !! t) as [p|] eqn:Hp; [|done].
    destruct (stage p); try done.
    destruct (workerObjs s !! pipe_worker p) as [wk|] eqn:Hw; [|done].
    match goal with |- drains_ok (continueConsumeQueue _ _ ?s3) =>
      apply (drains_frame s3); [apply dview_continueConsumeQueue|] end.
    assert (drains_ok
              (upd_worker (pipe_worker p)
                 (set_activeRequestCount (activeRequestCount wk - 1))
                 (upd_pipe t (set_stage Settled) s))) as H2.
    { apply (drains_frame s); [|done].
      by apply (dview_upd_worker
                  (set_activeRequestCount (activeRequestCount wk - 1))
                  (pipe_worker p) (upd_pipe t (set_stage Settled) s)). }
    destruct (activeRequestCount wk - 1 =? 0); [|done].
    by apply drains_emit_downToZero.
  - apply (drains_frame s); [apply dview_timeout|done].
  - unfold registerCredential.
    destruct (isCredentialPending cred (broker s)); [done|].
    by apply (drains_frame s).
  - unfold bindWorker.
    destruct (_workerMap (broker s) !! cred) as [item|]; [|done].
    destruct (negb (isCredentialPending cred (broker s))); [done|].
    destruct (status item); [|done]. simpl.
    destruct H as [H1 H2 H3 H4]. split; simpl.
    + by rewrite tally_emit, Nat.add_0_r.
    + by rewrite tally_emit, Nat.add_0_r.
    + eapply Forall_impl; [exact H3|]. intros d Hd. simpl in *.
      rewrite length_app. lia.
    + intros w wk Hw. apply lookup_app_Some in Hw as [Hw|[Hge Hw]];
        [by apply H4|].
      apply list_lookup_singleton_Some in Hw as [Hz <-]. simpl.
      symmetry. apply filter_none_length.
      eapply Forall_impl; [exact H3|]. intros d Hd. simpl in Hd.
      unfold waits_on. replace (Nat.eqb (drain_worker d) w) with false; [done|].
      symmetry. apply Nat.eqb_neq. lia.
  - unfold bindWorker_initialized.
    destruct (inits s !! i) as [it|]; [|done].
    destruct (init_pending it); [|done]. destruct res as [e|].
    + apply (drains_frame s); [|done].
      rewrite dview_emit by done. by rewrite dview_emit.
    + apply (drains_frame s); [|done]. rewrite dview_tryConsumeQueue.
      match goal with |- dview (upd_broker _ ?s2) = _ =>
        change (dview s2 = dview s) end.
      unfold broadcastContainerStatusReport.
      match goal with |- context [workerObjs ?s1 !! ?w] =>
        destruct (workerObjs s1 !! w) end; [|done].
      by rewrite dview_emit.
  - by apply (drains_frame s).
  - unfold updateProfile.
    destruct (negb (String.eqb (profile_name p) (name (broker s)))); [done|].
    by apply (drains_frame s).
  - apply (drains_frame s); [apply dview_fastFail|done].
  - by apply (drains_frame s).
  - destruct (workerObjs s !! w) as [wk|] eqn:Hw; [|done].
    by apply (drains_closeTraffic w s wk).
  - by apply drains_resumed.
Qed.

Lemma drains_exec heapify evs : forall s,
  drains_ok s -> drains_ok (exec heapify s evs).
Proof.
  induction evs as [|e evs IH]; intros s H; [done|].
  apply IH. by apply drains_step.
Qed.

(** X15.  In every state the broker reaches: every call of [closeTraffic]
    has left exactly one suspended call; the RequestDrained reports made so
    far are those of the calls that have resumed, one each; the listeners
    left on a worker are those of the calls that wait for its [downToZero];
    and a call whose worker's promise is resolved makes exactly one report,
    with the worker's name, when it resumes. *)
Theorem every_closeTraffic_is_answered_or_waits
    (heapify : (nat -> HeapKey) -> list nat -> list nat)
    (profile : Profile) (opt : bool) (evs : list Event) :
  let s := exec heapify (new_State profile opt) evs in
  tally is_close s = length (drains s)
  /\ tally is_drained s = length (List.filter (in_stage Reported) (drains s))
  /\ (forall w wk, workerObjs s !! w = Some wk ->
        downToZeroListeners wk = length (List.filter (waits_on w) (drains s)))
  /\ forall d dr, drains s !! d = Some dr ->
       match drain_stage dr with
       | AwaitResume =>
           exists wk,
             workerObjs s !! drain_worker dr = Some wk
             /\ trace (step heapify s (EvCloseTrafficResumed d))
                = trace s ++ [BroadcastContainerStatusReport (name (broker s))
                                (inspect (broker s)) (worker_name wk)
                                RequestDrained]
             /\ (drain_stage <$> drains (step heapify s (EvCloseTrafficResumed d))
                                 !! d) = Some Reported
       | _ => step heapify s (EvCloseTrafficResumed d) = s
       end.
Proof.
  intros s.
  assert (drains_ok s) as H.
  { apply drains_exec. split; simpl; try done. }
  pose proof H as [H1 H2 H3 H4].
  split; [done|]. split; [done|]. split; [done|].
  intros d dr Hd. destruct (drain_stage dr) eqn:Hst; simpl.
  - unfold closeTraffic_resumed. by rewrite Hd, Hst.
  - destruct (closeTraffic_resumed_trace d dr s H Hd Hst) as (wk & Hwk & ->).
    exists wk. split; [done|]. split; [done|]. simpl.
    by rewrite list_lookup_alter_eq, Hd.
  - unfold closeTraffic_resumed. by rewrite Hd, Hst.
Qed.

(** A worker that is not disposable is drained from outside while it serves
    a request: the call waits for [downToZero], the end of the response
    resolves it, and it makes its report when it resumes. *)
Lemma closeTraffic_drains_a_busy_worker :
  let s1 := exec minToFront (new_State (single_profile false) false)
              (one_worker ++ [EvInvoke 30 "a" (sample_metadata "r1" None);
                              EvCloseTraffic 0]) in
  let s2 := exec minToFront s1 [EvTrigger 0 (inr sample_response);
                                EvFinish 0 50] in
  let s3 := exec minToFront s2 [EvCloseTrafficResumed 0] in
  (downToZeroListeners <$> workerObjs s1 !! 0%nat) = Some 1%nat
  /\ (drain_stage <$> drains s1 !! 0%nat) = Some AwaitDownToZero
  /\ (downToZeroListeners <$> workerObjs s2 !! 0%nat) = Some 0%nat
  /\ (drain_stage <$> drains s2 !! 0%nat) = Some AwaitResume
  /\ tally is_drained s2 = 0%nat
  /\ tally is_drained s3 = 1%nat.
Proof. repeat (split; [reflexivity|]). reflexivity. Qed.

End BrokerProofs.

(** * Properties of the default controller *)

Module ControllerProofs.
Import ControlPlane.

(** ** The order of credentials *)

Lemma ascii_compare_lt_trans a b c :
  Ascii.compare a b = Lt -> Ascii.compare b c = Lt -> Ascii.compare a c = Lt.
Proof. unfold Ascii.compare. rewrite !N.compare_lt_iff. lia. Qed.

Lemma ascii_compare_refl a : Ascii.compare a a = Eq.
Proof. unfold Ascii.compare. apply N.compare_refl. Qed.

Lemma string_compare_lt_trans : forall a b c,
  String.compare a b = Lt -> String.compare b c = Lt -> String.compare a c = Lt.
Proof.
  induction a as [|x a IH]; intros [|y b] [|z c]; simpl; try done.
  destruct (Ascii.compare x y) eqn:Hxy; try done;
    destruct (Ascii.compare y z) eqn:Hyz; try done.
  - apply Ascii.compare_eq_iff in Hxy, Hyz. subst.
    rewrite ascii_compare_refl. apply IH.
  - apply Ascii.compare_eq_iff in Hxy. subst. by rewrite Hyz.
  - apply Ascii.compare_eq_iff in Hyz. subst. by rewrite Hxy.
  - by rewrite (ascii_compare_lt_trans _ _ _ Hxy Hyz).
Qed.

Lemma ltb_trans a b c :
  String.ltb a b = true -> String.ltb b c = true -> String.ltb a c = true.
Proof.
  unfold String.ltb.
  destruct (String.compare a b) eqn:H1; try done.
  destruct (String.compare b c) eqn:H2; try done.
  by rewrite (string_compare_lt_trans _ _ _ H1 H2).
Qed.

Lemma ltb_asym a b : String.ltb a b = true -> String.ltb b a = false.
Proof.
  unfold String.ltb. rewrite (String.compare_antisym a b).
  by destruct (String.compare b a).
Qed.

Lemma ltb_total a b : a <> b -> String.ltb a b = true \/ String.ltb b a = true.
Proof.
  intros Hne. unfold String.ltb. rewrite (String.compare_antisym a b).
  destruct (String.compare b a) eqn:E; simpl; auto.
  apply String.compare_eq_iff in E. congruence.
Qed.


(** ** The order the spec asks for *)

Definition credential_lt (a b : Worker) : Prop :=
  String.ltb (credential a) (credential b) = true.

(** [before strategy a b]: the spec's words for "a is drawn before b".
    FILO: newest [registerTime] first; FIFO: oldest first; anything else is
    LCC: least [activeRequestCount] first; ties go to the lexicographically
    smaller credential. *)
Definition before (strategy : string) (a b : Worker) : Prop :=
  if String.eqb strategy "FILO" then
    registerTime b < registerTime a
    \/ (registerTime a = registerTime b /\ credential_lt a b)
  else if String.eqb strategy "FIFO" then
    registerTime a < registerTime b
    \/ (registerTime a = registerTime b /\ credential_lt a b)
  else
    exists x y, arc a = Some x /\ arc b = Some y
                /\ (x < y \/ (x = y /\ credential_lt a b)).

(** The comparator [shrinkDraw] ends up sorting with. *)
Definition compareOf (strategy : string) : Worker -> Worker -> Z :=
  if String.eqb strategy "FILO" then newest_compare
  else if String.eqb strategy "FIFO" then oldest_compare
  else mostIdle_compare.

(** What makes the comparators orders on the candidates: credentials are
    pairwise distinct, and under LCC every candidate has reported stats. *)
Definition comparable (strategy : string) (l : list Worker) : Prop :=
  NoDup (map credential l)
  /\ (String.eqb strategy "FILO" = false -> String.eqb strategy "FIFO" = false ->
      forall w, In w l -> data w <> None).

Definition toRef (w : Worker) : WorkerRef :=
  {| ref_name := name w; ref_credential := credential w |}.

Lemma shrinkDraw_compareOf sort cfg b n :
  shrinkDraw sort cfg b n
  = map toRef (firstn n (sort (compareOf (strategyOf cfg b))
                           (List.filter isRunning (workers b)))).
Proof.
  unfold shrinkDraw, compareOf, newestNWorkers, oldestNWorkers, mostIdleNWorkers,
    mostWhatNWorkers.
  destruct (String.eqb (strategyOf cfg b) "FILO"); [done|].
  by destruct (String.eqb (strategyOf cfg b) "FIFO").
Qed.

Lemma byCredential_lt a b : byCredential a b < 0 <-> credential_lt a b.
Proof.
  unfold byCredential, credential_lt.
  destruct (String.ltb (credential a) (credential b)); split; (done || lia).
Qed.

Lemma compareOf_sign strategy a b :
  compareOf strategy a b = -1 \/ compareOf strategy a b = 1.
Proof.
  unfold compareOf, newest_compare, oldest_compare, mostIdle_compare, byCredential.
  repeat match goal with |- context [if ?c then _ else _] => destruct c end;
    auto.
Qed.

Lemma arc_Some w : data w <> None -> exists x, arc w = Some x.
Proof. unfold arc. destruct (data w); [eauto|done]. Qed.

Lemma compareOf_before strategy l a b :
  comparable strategy l -> In a l -> In b l ->
  compareOf strategy a b < 0 <-> before strategy a b.
Proof.
  intros [_ Hstats] Ha Hb. unfold compareOf, before.
  destruct (String.eqb strategy "FILO") eqn:E1;
    [|destruct (String.eqb strategy "FIFO") eqn:E2].
  - unfold newest_compare.
    destruct (Z.ltb_spec (registerTime b) (registerTime a));
      [split; [auto|lia]|].
    destruct (Z.ltb_spec (registerTime a) (registerTime b)).
    + split; [lia|]. intros [?|[? _]]; lia.
    + rewrite byCredential_lt. split; [intros; right; split; [lia|done]|].
      by intros [?|[_ ?]]; [lia|].
  - unfold oldest_compare.
    destruct (Z.ltb_spec (registerTime a) (registerTime b));
      [split; [auto|lia]|].
    destruct (Z.ltb_spec (registerTime b) (registerTime a)).
    + split; [lia|]. intros [?|[? _]]; lia.
    + rewrite byCredential_lt. split; [intros; right; split; [lia|done]|].
      by intros [?|[_ ?]]; [lia|].
  - destruct (arc_Some a (Hstats eq_refl eq_refl a Ha)) as [x Hx].
    destruct (arc_Some b (Hstats eq_refl eq_refl b Hb)) as [y Hy].
    unfold mostIdle_compare. rewrite Hx, Hy. simpl.
    destruct (Z.ltb_spec x y).
    + split; [|lia]. intros _. exists x, y. auto.
    + destruct (Z.ltb_spec y x).
      * split; [lia|]. intros (x' & y' & [= <-] & [= <-] & [?|[? _]]); lia.
      * rewrite byCredential_lt. split.
        -- intros Hc. exists x, y. split; [done|]. split; [done|].
           right. split; [lia|done].
        -- by intros (x' & y' & [= <-] & [= <-] & [?|[_ ?]]); [lia|].
Qed.

Lemma before_asym strategy a b : before strategy a b -> before strategy b a -> False.
Proof.
  unfold before, credential_lt.
  destruct (String.eqb strategy "FILO"); [|destruct (String.eqb strategy "FIFO")].
  - intros [?|[? H1]] [?|[? H2]]; try lia. apply ltb_asym in H1. congruence.
  - intros [?|[? H1]] [?|[? H2]]; try lia. apply ltb_asym in H1. congruence.
  - intros (x & y & Hx & Hy & H1) (y' & x' & Hy' & Hx' & H2).
    assert (x' = x) as -> by congruence. assert (y' = y) as -> by congruence.
    destruct H1 as [?|[? H1]], H2 as [?|[? H2]]; try lia.
    apply ltb_asym in H1. congruence.
Qed.

Lemma before_trans strategy a b c :
  before strategy a b -> before strategy b c -> before strategy a c.
Proof.
  unfold before, credential_lt.
  destruct (String.eqb strategy "FILO"); [|destruct (String.eqb strategy "FIFO")].
  - intros [?|[? H1]] [?|[? H2]]; try (left; lia).
    right. split; [lia|]. by eapply ltb_trans.
  - intros [?|[? H1]] [?|[? H2]]; try (left; lia).
    right. split; [lia|]. by eapply ltb_trans.
  - intros (x & y & Hx & Hy & H1) (y' & z & Hy' & Hz & H2).
    assert (y' = y) as -> by congruence. exists x, z.
    split; [done|]. split; [done|].
    destruct H1 as [?|[? H1]], H2 as [?|[? H2]]; try (left; lia).
    right. split; [lia|]. by eapply ltb_trans.
Qed.

Lemma NoDup_map_inj {A B} (f : A -> B) l a b :
  NoDup (map f l) -> In a l -> In b l -> f a = f b -> a = b.
Proof.
  induction l as [|x l IH]; simpl; [done|].
  intros Hnd%NoDup_cons [<-|Ha] [<-|Hb] E; try done.
  - destruct Hnd as [Hx _]. exfalso. apply Hx. rewrite E.
    apply list_elem_of_In, in_map, Hb.
  - destruct Hnd as [Hx _]. exfalso. apply Hx. rewrite <- E.
    apply list_elem_of_In, in_map, Ha.
  - destruct Hnd as [_ Hnd]. by apply IH.
Qed.

Lemma before_total strategy l a b :
  comparable strategy l -> In a l -> In b l -> a <> b ->
  before strategy a b \/ before strategy b a.
Proof.
  intros Hc Ha Hb Hne.
  assert (credential a <> credential b) as Hcred.
  { intros E. apply Hne. destruct Hc as [Hnd _].
    by apply (NoDup_map_inj credential l). }
  destruct Hc as [_ Hstats]. unfold before, credential_lt.
  destruct (String.eqb strategy "FILO");
    [|destruct (String.eqb strategy "FIFO")].
  - destruct (Z.lt_trichotomy (registerTime a) (registerTime b)) as [?|[?|?]];
      [by right; left|by destruct (ltb_total _ _ Hcred); [left|right]; right
      |by left; left].
  - destruct (Z.lt_trichotomy (registerTime a) (registerTime b)) as [?|[?|?]];
      [by left; left|by destruct (ltb_total _ _ Hcred); [left|right]; right
      |by right; left].
  - destruct (arc_Some a (Hstats eq_refl eq_refl a Ha)) as [x Hx].
    destruct (arc_Some b (Hstats eq_refl eq_refl b Hb)) as [y Hy].
    destruct (Z.lt_trichotomy x y) as [?|[?|?]].
    + left. exists x, y. auto.
    + destruct (ltb_total _ _ Hcred); [left; exists x, y|right; exists y, x];
        (split; [done|split; [done|right; split; [lia|done]]]).
    + right. exists y, x. auto.
Qed.


Lemma compareOf_strict strategy l :
  comparable strategy l -> strict_on (compareOf strategy) l.
Proof.
  intros Hc. split; [|split].
  - destruct Hc as [Hnd _]. by apply (NoDup_fmap_1 credential).
  - intros a b Ha Hb Hne.
    destruct (before_total strategy l a b Hc Ha Hb Hne) as [H|H].
    + left. split; [by apply (compareOf_before strategy l)|].
      destruct (compareOf_sign strategy b a) as [E|E]; [|lia].
      exfalso. apply (before_asym strategy a b H).
      apply (compareOf_before strategy l); [done..|lia].
    + right. split; [|by apply (compareOf_before strategy l)].
      destruct (compareOf_sign strategy a b) as [E|E]; [|lia].
      exfalso. apply (before_asym strategy b a H).
      apply (compareOf_before strategy l); [done..|lia].
  - intros a b c Ha Hb Hc' H1 H2.
    apply (compareOf_before strategy l) in H1, H2; try done.
    apply (compareOf_before strategy l); [done..|]. by eapply before_trans.
Qed.

Lemma StronglySorted_weaken {A} (R R' : A -> A -> Prop) l :
  (forall a b, In a l -> In b l -> R a b -> R' a b) ->
  StronglySorted R l -> StronglySorted R' l.
Proof.
  intros H Hs. induction Hs as [|x l Hs IH Hx]; [constructor|].
  constructor.
  - apply IH. intros a b Ha Hb. apply H; by right.
  - rewrite List.Forall_forall in *. intros y Hy.
    apply H; [by left|by right|by apply Hx].
Qed.

(** ** Insertion sort meets the contract *)

Lemma insertBy_perm cmp x l : Permutation (insertBy cmp x l) (x :: l).
Proof.
  induction l as [|y l IH]; simpl; [done|].
  destruct (cmp x y <=? 0); [done|].
  rewrite IH. apply perm_swap.
Qed.

Lemma insertionSort_perm cmp l : Permutation (insertionSort cmp l) l.
Proof.
  induction l as [|x l IH]; simpl; [done|].
  rewrite insertBy_perm. by apply perm_skip.
Qed.

Lemma insertBy_sorted cmp (dom : list Worker) x l :
  strict_on cmp dom -> In x dom -> (forall y, In y l -> In y dom) ->
  ~ In x l ->
  StronglySorted (fun a b => cmp a b < 0) l ->
  StronglySorted (fun a b => cmp a b < 0) (insertBy cmp x l).
Proof.
  intros (Hnd & Htri & Htr) Hx Hsub Hnin Hs.
  induction Hs as [|y l Hs IH Hy]; simpl.
  - repeat constructor.
  - assert (In y dom) as Hyd by (apply Hsub; by left).
    assert (x <> y) as Hne by (intros ->; apply Hnin; by left).
    destruct (Z.leb_spec (cmp x y) 0) as [Hle|Hgt].
    + assert (cmp x y < 0) as Hlt
        by (destruct (Htri x y Hx Hyd Hne) as [[? ?]|[? ?]]; lia).
      constructor; [by constructor|].
      constructor; [done|].
      rewrite List.Forall_forall in *. intros z Hz.
      apply (Htr x y z); [done|done|apply Hsub; by right|done|by apply Hy].
    + constructor.
      * apply IH; [intros z Hz; apply Hsub; by right|].
        intros Hin. apply Hnin. by right.
      * rewrite List.Forall_forall in *. intros z Hz.
        apply (Permutation_in _ (insertBy_perm cmp x l)) in Hz as [<-|Hz].
        -- destruct (Htri x y Hx Hyd Hne) as [[? ?]|[? ?]]; lia.
        -- by apply Hy.
Qed.

Lemma insertionSort_sorted cmp l :
  strict_on cmp l -> StronglySorted (fun a b => cmp a b < 0) (insertionSort cmp l).
Proof.
  intros Hst.
  assert (forall l', NoDup l' -> (forall y, In y l' -> In y l) ->
            StronglySorted (fun a b => cmp a b < 0) (insertionSort cmp l')) as H.
  { induction l' as [|x l' IH]; intros Hnd Hsub; simpl; [constructor|].
    apply NoDup_cons in Hnd as [Hx Hnd].
    apply (insertBy_sorted cmp l); [done|apply Hsub; by left| | |].
    - intros y Hy. apply (Permutation_in _ (insertionSort_perm cmp l')) in Hy.
      apply Hsub. by right.
    - intros Hin. apply (Permutation_in _ (insertionSort_perm cmp l')) in Hin.
      apply Hx. by apply list_elem_of_In.
    - apply IH; [done|]. intros y Hy. apply Hsub. by right. }
  apply H; [by destruct Hst|done].
Qed.

Lemma insertionSort_spec : sort_spec insertionSort.
Proof.
  intros cmp l. split; [apply insertionSort_perm|apply insertionSort_sorted].
Qed.


(** ** Victim selection (claim C6) *)

Section Draw.

Variable sort : (Worker -> Worker -> Z) -> list Worker -> list Worker.
Hypothesis Hsort : sort_spec sort.

Lemma sort_before strategy l :
  comparable strategy l -> StronglySorted (before strategy) (sort (compareOf strategy) l).
Proof.
  intros Hc. destruct (Hsort (compareOf strategy) l) as [Hperm Hsorted].
  eapply StronglySorted_weaken; [|apply Hsorted, compareOf_strict, Hc].
  intros a b Ha Hb. apply (compareOf_before strategy l); [done|..];
    by eapply Permutation_in.
Qed.

End Draw.

Lemma In_firstn {A} (x : A) n l : In x (firstn n l) -> In x l.
Proof.
  intros H. rewrite <- (firstn_skipn n l). apply in_or_app. by left.
Qed.

Lemma filter_Permutation_List {A} (f : A -> bool) l l' :
  Permutation l l' -> Permutation (List.filter f l) (List.filter f l').
Proof.
  induction 1 as [|x l l' _ IH|x y l|l l' l'' _ IH1 _ IH2]; simpl.
  - done.
  - destruct (f x); [by apply perm_skip|done].
  - destruct (f x), (f y); try done. apply perm_swap.
  - by etransitivity.
Qed.

Lemma comparable_Permutation strategy l l' :
  Permutation l l' -> comparable strategy l -> comparable strategy l'.
Proof.
  intros Hp [Hnd Hst]. split.
  - eapply (Permutation_map credential) in Hp as Hp'. by rewrite <- Hp'.
  - intros E1 E2 w Hw. apply (Hst E1 E2). eapply Permutation_in; [|exact Hw].
    by symmetry.
Qed.

(** X16.  Given a sort that meets [sort_spec]: the result of
    [shrinkDraw] has at most [min n (number of running workers)] entries,
    every entry is a Running worker of the broker, and a strategy other than
    FILO and FIFO is treated as LCC.  When the Running workers have pairwise
    distinct credentials and, under LCC, every one of them has reported
    stats, the result is the first [n] of the Running workers in the order
    of the strategy (FIFO oldest [registerTime] first, FILO newest first,
    LCC least [activeRequestCount] first, ties to the smaller credential),
    and it is determined by the set of workers and the strategy alone: any
    other sort that meets the contract, on any other insertion order of the
    same workers, draws the same. *)
Theorem shrinkDraw_draws_in_order
    (sort : (Worker -> Worker -> Z) -> list Worker -> list Worker)
    (Hsort : sort_spec sort) (cfg : Config) (b : Broker) (n : nat) :
  let strategy := strategyOf cfg b in
  let running := List.filter isRunning (workers b) in
  let result := shrinkDraw sort cfg b n in
  (length result <= Nat.min n (length running))%nat
  /\ (forall r, In r result ->
        exists w, In w (workers b) /\ isRunning w = true /\ r = toRef w)
  /\ (String.eqb strategy "FILO" = false -> String.eqb strategy "FIFO" = false ->
      result = mostIdleNWorkers sort b n)
  /\ (comparable strategy running ->
      (exists sorted,
         Permutation sorted running
         /\ StronglySorted (before strategy) sorted
         /\ result = map toRef (firstn n sorted))
      /\ forall sort' b',
           sort_spec sort' -> Permutation (workers b') (workers b) ->
           broker_data b' = broker_data b ->
           shrinkDraw sort' cfg b' n = result).
Proof.
  intros strategy running result.
  assert (result = map toRef (firstn n (sort (compareOf strategy) running)))
    as Hres by apply shrinkDraw_compareOf.
  destruct (Hsort (compareOf strategy) running) as [Hperm _].
  split; [|split; [|split]].
  - rewrite Hres, length_map, length_firstn.
    apply Permutation_length in Hperm. lia.
  - intros r Hr. rewrite Hres in Hr. apply in_map_iff in Hr as (w & <- & Hw).
    apply In_firstn in Hw. apply (Permutation_in _ Hperm) in Hw.
    apply List.filter_In in Hw as [Hw Hrun]. eauto.
  - intros E1 E2. subst result strategy. unfold shrinkDraw. by rewrite E1, E2.
  - intros Hc. split.
    + exists (sort (compareOf strategy) running).
      split; [done|]. split; [by apply sort_before|done].
    + intros sort' b' Hsort' Hpb Hdata.
      assert (strategyOf cfg b' = strategy) as Hs'
        by (subst strategy; unfold strategyOf; by rewrite Hdata).
      rewrite shrinkDraw_compareOf, Hs', Hres. do 2 f_equal.
      set (running' := List.filter isRunning (workers b')).
      assert (Permutation running' running) as Hpr
        by (by apply filter_Permutation_List).
      assert (comparable strategy running') as Hc'
        by (eapply comparable_Permutation; [symmetry; exact Hpr|done]).
      destruct (Hsort' (compareOf strategy) running') as [Hperm' _].
      apply (StronglySorted_unique_strong (before strategy)).
      * intros x y _ _ H1 H2. destruct (before_asym strategy x y H1 H2).
      * by apply sort_before.
      * by apply sort_before.
      * by rewrite Hperm', Hperm.
Qed.


(** X16, witness: the broker [lambda] of the autoscale test, two to draw. *)
Lemma shrinkDraw_draws_in_order_witness :
  comparable (strategyOf sample_config sample_lambda)
    (List.filter isRunning (workers sample_lambda))
  /\ shrinkDraw insertionSort sample_config sample_lambda 2
     = [ {| ref_name := "cocos"; ref_credential := "2d" |};
         {| ref_name := "alibaba"; ref_credential := "seed of hope" |} ]
  /\ exists sorted,
       Permutation sorted (List.filter isRunning (workers sample_lambda))
       /\ StronglySorted (before (strategyOf sample_config sample_lambda)) sorted
       /\ shrinkDraw insertionSort sample_config sample_lambda 2
          = map toRef (firstn 2 sorted).
Proof.
  assert (comparable (strategyOf sample_config sample_lambda)
            (List.filter isRunning (workers sample_lambda))) as Hc.
  { split.
    - apply (bool_decide_unpack (NoDup _)). vm_compute. exact I.
    - intros _ _ w Hw. vm_compute in Hw.
      repeat destruct Hw as [<-|Hw]; try done. }
  split; [exact Hc|]. split; [reflexivity|].
  destruct (shrinkDraw_draws_in_order insertionSort insertionSort_spec
              sample_config sample_lambda 2) as (_ & _ & _ & H).
  exact (proj1 (H Hc)).
Defined.

(** C6, the code at the failing input.  The claim, like the comment on
    [mostIdleNWorkers], reads: LCC draws the least [activeRequestCount]
    first.  Worker [b] is Running and has no stats yet, so the comparator
    ranks it against [a] and [c] by credential alone while it ranks [a]
    after [c] by count; the insertion sort, which meets the contract, leaves
    [a; b; c] as it is, and the one worker drawn is [a] with five active
    requests while [c] has one. *)
Lemma shrinkDraw_without_stats_not_least_first :
  let a := running_worker "a" "a" 1 (Some 5) in
  let c := running_worker "c" "c" 3 (Some 1) in
  let running := List.filter isRunning (workers sample_unsynced) in
  let result := shrinkDraw insertionSort sample_config sample_unsynced 1 in
  sort_spec insertionSort
  /\ strategyOf sample_config sample_unsynced = "LCC"
  /\ result = [toRef a]
  /\ In a running /\ In c running
  /\ ~ In (toRef c) result
  /\ arc a = Some 5 /\ arc c = Some 1
  /\ ~ (forall drawn left x y,
          In (toRef drawn) result -> In drawn running ->
          In left running -> ~ In (toRef left) result ->
          arc drawn = Some x -> arc left = Some y -> x <= y)
  /\ ~ (exists sorted,
          Permutation sorted running
          /\ StronglySorted (before "LCC") sorted
          /\ result = map toRef (firstn 1 sorted)).
Proof.
  intros a c running result.
  split; [apply insertionSort_spec|]. split; [reflexivity|].
  split; [reflexivity|]. split; [by left|]. split; [by right; right; left|].
  split; [intros [H|[]]; discriminate H|]. split; [reflexivity|].
  split; [reflexivity|]. split.
  { intros H.
    assert (5 <= 1) as Hle; [|lia].
    apply (H a c); try reflexivity.
    - by left.
    - by left.
    - by right; right; left.
    - intros [E|[]]; discriminate E. }
  intros (sorted & Hperm & Hsorted & Hres).
  destruct sorted as [|x rest]; [discriminate Hres|].
  assert (In x running) as Hx by (eapply Permutation_in; [exact Hperm|by left]).
  assert (x = a) as ->.
  { cbn [firstn map] in Hres. injection Hres as Hres.
    destruct Hx as [<-|[<-|[<-|[]]]]; [done|discriminate Hres|discriminate Hres]. }
  assert (In c rest) as Hc.
  { assert (In c (a :: rest)) as [E|Hc]
      by (eapply Permutation_in; [symmetry; exact Hperm|by right; right; left]).
    - discriminate E.
    - exact Hc. }
  apply StronglySorted_inv in Hsorted as [_ Hall].
  rewrite List.Forall_forall in Hall.
  destruct (Hall c Hc) as (x' & y' & Hx' & Hy' & Hord).
  injection Hx' as <-. injection Hy' as <-.
  destruct Hord as [?|[? _]]; lia.
Qed.


(** ** Shrinking (claim C5) *)

Definition qualifies (d : Delta) : bool :=
  (count d <? 0) && negb (isInspector (broker d)) && negb (disposable (broker d)).

(** One worker of the reply, with the broker it came under. *)
Record Drained := {
  drained_functionName : string;
  drained_inspector : bool;
  drained_worker : EnsuredWorker }.

Definition drained (ensured : list (option EnsuredBroker)) : list Drained :=
  flat_map
    (fun ob =>
       match ob with
       | Some b =>
           map (fun w => {| drained_functionName := ensured_functionName b;
                            drained_inspector := ensured_inspector b;
                            drained_worker := w |})
             (match ensured_workers b with Some ws => ws | None => [] end)
       | None => []
       end) ensured.

Definition record_of (sm : StateManager) (x : Drained) : option Worker :=
  getWorker (drained_functionName x) (drained_inspector x)
    (ensured_name (drained_worker x)) sm.

(** The record exists and its credential is the one in the reply. *)
Definition confirmed (sm : StateManager) (x : Drained) : bool :=
  match record_of sm x with
  | Some realWorker =>
      bool_decide (Some (credential realWorker)
                   = ensured_credential (drained_worker x))
  | None => false
  end.

Definition mark (sm : StateManager) (x : Drained) : StateManager :=
  update_worker (drained_functionName x) (drained_inspector x)
    (ensured_name (drained_worker x))
    (updateWorkerStatusByControlPlaneEvent Shrink) sm.

Definition stop_one (st : StateManager * list Call) (x : Drained)
    : StateManager * list Call :=
  if confirmed (fst st) x
  then (mark (fst st) x, snd st ++ [StopWorker (ensured_name (drained_worker x))])
  else st.

Lemma stopEnsuredWorkers_fold fn insp ws : forall st,
  stopEnsuredWorkers fn insp ws st
  = fold_left stop_one
      (map (fun w => {| drained_functionName := fn; drained_inspector := insp;
                        drained_worker := w |}) ws) st.
Proof.
  induction ws as [|w ws IH]; intros [sm calls]; [done|].
  cbn [stopEnsuredWorkers map fold_left]. unfold stop_one at 2, confirmed, record_of.
  cbn [fst snd drained_functionName drained_inspector drained_worker].
  destruct (getWorker fn insp (ensured_name w) sm) as [rw|]; [|apply IH].
  destruct (bool_decide (Some (credential rw) = ensured_credential w));
    simpl; apply IH.
Qed.

Lemma stopEnsured_fold ensured : forall st,
  stopEnsured ensured st = fold_left stop_one (drained ensured) st.
Proof.
  induction ensured as [|ob rest IH]; intros st; [done|].
  cbn [stopEnsured drained flat_map]. rewrite fold_left_app.
  destruct ob as [b|]; [|apply IH].
  rewrite IH. f_equal. apply stopEnsuredWorkers_fold.
Qed.


Lemma find_update_first_same {A} (p : A -> bool) (f : A -> A) l :
  (forall x, p (f x) = p x) ->
  List.find p (update_first p f l) = f <$> List.find p l.
Proof.
  intros Hf. induction l as [|x l IH]; simpl; [done|].
  destruct (p x) eqn:E; simpl.
  - by rewrite Hf, E.
  - by rewrite E.
Qed.

Lemma find_update_first_other {A} (p q : A -> bool) (f : A -> A) l :
  (forall x, q (f x) = q x) -> (forall x, q x = true -> p x = false) ->
  List.find q (update_first p f l) = List.find q l.
Proof.
  intros Hf Hpq. induction l as [|x l IH]; simpl; [done|].
  destruct (p x) eqn:E; simpl.
  - rewrite Hf. destruct (q x) eqn:Eq; [|done].
    rewrite (Hpq x Eq) in E. done.
  - destruct (q x); [done|apply IH].
Qed.

Definition same_record (x y : Drained) : bool :=
  String.eqb (drained_functionName x) (drained_functionName y)
  && Bool.eqb (drained_inspector x) (drained_inspector y)
  && String.eqb (ensured_name (drained_worker x)) (ensured_name (drained_worker y)).

(** Marking one record marks what [getWorker] returns for that record and
    leaves what it returns for every other. *)
Lemma record_of_mark sm x y :
  record_of (mark sm x) y
  = if same_record x y
    then updateWorkerStatusByControlPlaneEvent Shrink <$> record_of sm y
    else record_of sm y.
Proof.
  unfold record_of, mark, getWorker, getBroker, update_worker, same_record.
  set (fn := drained_functionName x). set (insp := drained_inspector x).
  set (n := ensured_name (drained_worker x)).
  set (fn' := drained_functionName y). set (insp' := drained_inspector y).
  set (n' := ensured_name (drained_worker y)).
  set (fb := fun b => set_workers
                        (update_first (is_worker n)
                           (updateWorkerStatusByControlPlaneEvent Shrink)
                           (workers b)) b).
  assert (forall k i b, is_broker k i (fb b) = is_broker k i b) as Hfb by done.
  destruct (String.eqb fn fn' && Bool.eqb insp insp') eqn:Ek.
  - apply andb_prop in Ek as [E1 E2]. apply String.eqb_eq in E1.
    apply Bool.eqb_prop in E2. rewrite <- E1, <- E2.
    rewrite find_update_first_same by apply Hfb.
    destruct (List.find (is_broker fn insp) sm) as [b|]; simpl;
      [|by destruct (String.eqb n n')].
    destruct (String.eqb n n') eqn:En.
    + apply String.eqb_eq in En. rewrite <- En.
      by apply find_update_first_same.
    + apply find_update_first_other; [done|].
      intros w Hw. unfold is_worker in *. apply String.eqb_eq in Hw.
      rewrite Hw. by rewrite String.eqb_sym.
  - simpl. rewrite find_update_first_other; [done|apply Hfb|].
    intros b Hb. unfold is_broker in *. apply andb_prop in Hb as [H1 H2].
    apply String.eqb_eq in H1. apply Bool.eqb_prop in H2.
    rewrite H1, H2. rewrite String.eqb_sym.
    destruct (String.eqb fn fn') eqn:E1; simpl in *; [|done].
    destruct insp, insp'; simpl in *; done.
Qed.

Lemma confirmed_mark sm x y : confirmed (mark sm x) y = confirmed sm y.
Proof.
  unfold confirmed. rewrite record_of_mark.
  destruct (same_record x y); [|done]. by destruct (record_of sm y).
Qed.

(** The loop decides on the state it has reached; the marks it has made so
    far do not change what it decides. *)
Lemma stop_fold l : forall sm0 sm calls,
  (forall y, confirmed sm y = confirmed sm0 y) ->
  fold_left stop_one l (sm, calls)
  = (fold_left mark (List.filter (confirmed sm0) l) sm,
     calls ++ map (fun x => StopWorker (ensured_name (drained_worker x)))
                (List.filter (confirmed sm0) l)).
Proof.
  induction l as [|x l IH]; intros sm0 sm calls Hsame.
  - simpl. by rewrite app_nil_r.
  - cbn [fold_left List.filter]. unfold stop_one at 2. cbn [fst snd].
    rewrite Hsame. destruct (confirmed sm0 x).
    + rewrite (IH sm0); [|intros y; by rewrite confirmed_mark].
      cbn [fold_left map]. by rewrite <- app_assoc.
    + by apply IH.
Qed.


Lemma record_of_marks l : forall sm y,
  record_of (fold_left mark l sm) y
  = if existsb (fun x => same_record x y) l
    then updateWorkerStatusByControlPlaneEvent Shrink <$> record_of sm y
    else record_of sm y.
Proof.
  induction l as [|x l IH]; intros sm y; [done|].
  cbn [fold_left existsb]. rewrite IH, record_of_mark.
  destruct (same_record x y), (existsb (fun x0 => same_record x0 y) l);
    simpl; try done.
  by destruct (record_of sm y).
Qed.

Definition shrinkRequest
    (sort : (Worker -> Worker -> Z) -> list Worker -> list Worker)
    (cfg : Config) (d : Delta) : ShrinkData :=
  {| functionName := broker_name (broker d);
     inspector := isInspector (broker d);
     shrink_workers := shrinkDraw sort cfg (broker d) (Z.abs_nat (count d)) |}.

Lemma shrinkDataOf_filter sort cfg deltas :
  shrinkDataOf sort cfg deltas
  = map (shrinkRequest sort cfg) (List.filter qualifies deltas).
Proof.
  induction deltas as [|d rest IH]; [done|].
  cbn [shrinkDataOf List.filter]. unfold qualifies at 1.
  destruct (Z.leb_spec 0 (count d)) as [H|H].
  - assert ((count d <? 0) = false) as -> by (apply Z.ltb_ge; lia). apply IH.
  - assert ((count d <? 0) = true) as -> by (by apply Z.ltb_lt).
    destruct (isInspector (broker d)) eqn:Ei; [apply IH|].
    destruct (disposable (broker d)); [apply IH|].
    cbn [negb andb map]. rewrite IH. unfold shrinkRequest at 2. by rewrite Ei.
Qed.

(** C5.  [doShrink] builds its request from exactly the deltas with
    [count < 0] whose broker is neither an inspector nor disposable, each
    with the victims [shrinkDraw] picks for [|count|].  When no delta
    qualifies it calls nothing and changes nothing.  Otherwise it calls
    [reduceCapacity] once, with that request, and then [stopWorker] for
    exactly the workers of the reply whose record exists and has the
    credential of the reply, in the order of the reply; each such record is
    marked [Shrink] and every other record is left as it was. *)
Theorem doShrink_batches_and_stops
    (sort : (Worker -> Worker -> Z) -> list Worker -> list Worker)
    (cfg : Config) (reduceCapacity : list ShrinkData -> Ensured)
    (deltas : list Delta) (sm : StateManager) :
  let request := map (shrinkRequest sort cfg) (List.filter qualifies deltas) in
  let result := doShrink sort cfg reduceCapacity deltas sm in
  let reply := drained (match reduceCapacity request with
                        | Some ensured => ensured
                        | None => []
                        end) in
  let stopped := List.filter (confirmed sm) reply in
  (forall d, In d (List.filter qualifies deltas)
             <-> In d deltas /\ count d < 0 /\ isInspector (broker d) = false
                 /\ disposable (broker d) = false)
  /\ (request = [] -> result = (sm, []))
  /\ (request <> [] ->
      snd result
      = ReduceCapacity request
          :: map (fun x => StopWorker (ensured_name (drained_worker x))) stopped
      /\ fst result = fold_left mark stopped sm
      /\ (forall x, In x stopped ->
            exists realWorker,
              record_of sm x = Some realWorker
              /\ Some (credential realWorker)
                 = ensured_credential (drained_worker x)
              /\ record_of (fst result) x
                 = Some (updateWorkerStatusByControlPlaneEvent Shrink realWorker))
      /\ (forall y, (forall x, In x stopped -> same_record x y = false) ->
            record_of (fst result) y = record_of sm y)).
Proof.
  intros request result reply stopped.
  split; [|split].
  - intros d. rewrite List.filter_In. unfold qualifies.
    rewrite !andb_true_iff, !negb_true_iff, Z.ltb_lt. tauto.
  - intros Hreq. subst result. unfold doShrink.
    rewrite shrinkDataOf_filter. fold request. by rewrite Hreq.
  - intros Hreq.
    assert (result = (fold_left mark stopped sm,
                      ReduceCapacity request
                        :: map (fun x => StopWorker
                                           (ensured_name (drained_worker x)))
                             stopped)) as Hres.
    { subst result. unfold doShrink. rewrite shrinkDataOf_filter. fold request.
      destruct request as [|r0 rq] eqn:Er; [done|].
      subst stopped reply.
      destruct (reduceCapacity (r0 :: rq)) as [[|ob rest]|]; try done.
      rewrite stopEnsured_fold, (stop_fold _ sm); done. }
    rewrite Hres. cbn [fst snd]. split; [done|]. split; [done|]. split.
    + intros x Hx. apply List.filter_In in Hx as Hx'. destruct Hx' as [_ Hc].
      unfold confirmed in Hc.
      destruct (record_of sm x) as [rw|] eqn:Hrw; [|done].
      apply bool_decide_eq_true in Hc. exists rw. split; [done|]. split; [done|].
      rewrite record_of_marks, Hrw.
      assert (existsb (fun x0 => same_record x0 x) stopped = true) as ->; [|done].
      apply existsb_exists. exists x. split; [done|].
      unfold same_record. rewrite !String.eqb_refl. by destruct (drained_inspector x).
    + intros y Hy. rewrite record_of_marks.
      assert (existsb (fun x0 => same_record x0 y) stopped = false) as ->; [|done].
      apply not_true_is_false. intros (x & Hx & Hs)%existsb_exists.
      by rewrite (Hy x Hx) in Hs.
Qed.


(** The shrink of the autoscale test: [lambda] is two workers over, the
    data plane drains only [cocos]. *)
Example doShrink_autoscale_test :
  let reply (req : list ShrinkData) : Ensured :=
    Some [Some {| ensured_functionName := "lambda"; ensured_inspector := false;
                  ensured_workers :=
                    Some [{| ensured_name := "cocos";
                             ensured_credential := Some "2d" |}] |}] in
  snd (doShrink insertionSort sample_config reply
         [{| count := 1; broker := sample_func |};
          {| count := -2; broker := sample_lambda |}]
         [sample_func; sample_lambda])
  = [ReduceCapacity
       [{| functionName := "lambda"; inspector := false;
           shrink_workers :=
             [{| ref_name := "cocos"; ref_credential := "2d" |};
              {| ref_name := "alibaba"; ref_credential := "seed of hope" |}] |}];
     StopWorker "cocos"].
Proof. reflexivity. Qed.

End ControllerProofs.
